(* ===== verification/_CoqProject ===== *)
-Q . S2P
Prelude.v
Float32.v
Float64.v
Common.v
C1Link.v
Hal.v
Link.v
Mcu.v
SafetyMcu.v
Supervision.v
Sim.v
Bench.v
TelemetryStore.v
McuClient.v
OtaUpdater.v
CString.v
Dump.v
Sockets.v
SimControl.v
SocketUart.v
SocketBench.v
Recipe.v
RecipeParser.v
RecipePrinter.v
Programs.v
Cooking.v
System.v
Cli.v
Grammar.v
Pipe.v
Lockstep.v
McuMain.v
Desk.v
AppMain.v
ViewModel.v
Mains.v
AppBench.v
LockstepBench.v
