(* ===== verification/Prelude.v ===== *)
(** * Culina C-100 firmware: verification development

    The program is the firmware of a cooking appliance with two processors and
    the simulator it is developed on. The safety processor ([src/src/mcu]) owns
    the motor, the heater, the sensors and the lid; the application
    ([src/src/app]) runs the cooking programs and asks for speeds and
    temperatures over a serial protocol, C1-Link ([src/src/protocol]). The
    simulator ([src/src/sim], [src/src/system], [src/src/cli]) couples both with
    models of the hardware and takes commands from scenario files or a prompt; the
    same parts also run as processes of their own over sockets ([src/apps]): the
    safety processor with the board, the application at a prompt, and a user
    interface whose actions on the board go to a control socket.
    What must hold is in the safety requirements SR-001 to SR-006.

    ** How the program is modelled

    A C++ object is a [Record] with the fields of the class, a method a function
    from the object (and the world it acts on) to its result and the new object;
    record updates are written [r <| field := v |>]. Integers are [Z] in the
    range of their type, with every conversion and unsigned operation wrapping
    explicitly; floats are binary32 numbers of [SpecFloat]. The hardware
    interfaces of [src/src/hal] are type classes, so that each processor is
    verified against any board that keeps their laws, and the simulated board is
    one instance. Where C++ leaves a value undefined (a float that does not fit
    the integer it is cast to, a signed overflow) the function answers
    [Undefined]; a fuelled loop that runs out answers [OutOfFuel], and theorems
    state that it never does.

    ** Files

    - [Prelude]: machine integers, outcomes, record updates, tactics, list lemmas.
    - [Float32]: binary32 arithmetic and its theory, on scaled integers.
    - [Float64]: the [double]s of the user interface and their rounding to [float].
    - [Common]: [common/result.h], [units.h], [time_types.h], [crc16.cpp],
      [ring_buffer.h].
    - [C1Link]: [protocol/c1link.h], [frame_writer.cpp], [frame_parser.cpp].
    - [Hal]: the interfaces [hal/i_*.h] as classes with laws.
    - [Link]: [protocol/link.cpp], the transmit queue and the receive timer.
    - [Mcu]: [safety_limits.h], [interlocks.cpp], [heater_pid.cpp],
      [motor_controller.cpp], [command_handler.cpp], [telemetry_publisher.cpp].
    - [SafetyMcu]: [safety_mcu.cpp], the 1 ms control tick: sensors, received
      frames, interlocks, link supervision, outputs, telemetry, in this order.
    - [Supervision]: what a tick leaves alone, the frames it receives and the
      requests among them: acknowledgement of faults and silence on the link.
    - [Sim]: [sim_board.cpp] and its physical models, [sim_clock.h],
      [in_memory_transport.h]; instances of the classes of [Hal].
    - [Bench]: concrete runs of the safety processor on the simulated board.
    - [TelemetryStore], [McuClient], [OtaUpdater]: [app/telemetry_store.cpp],
      [app/mcu_client.cpp], [app/ota/ota_updater.cpp].
    - [CString]: the routines of the C library the parsers call ([strtol],
      [strtoul], [strtof], [fgets], ...), and [common/parse_number.h].
    - [Dump]: [tools/c1link_dump.cpp], the decoder of captures.
    - [Sockets]: [sim/socket_transport.cpp] on a class of the system calls it uses;
      [SimControl]: [sim/sim_control_server.cpp]; [SocketUart]: the transport as an
      instance of the UART; [SocketBench]: a small kernel and runs on it.
    - [Recipe], [RecipeParser], [RecipePrinter]: [app/recipe]: the data, the
      [.rcp] parser and the library of a directory; a printer as the
      specification of the format.
    - [Programs]: [app/cooking/*_mode.cpp], [turbo_pulse.cpp],
      [guided_recipe.cpp], against the class of what a program asks of the client.
    - [Cooking]: [cooking_controller.cpp] (the session and its confirmed
      shutdown) and [application_runtime.cpp] (the 1 ms and 10 ms ticks).
    - [System]: [system_sim.cpp], board, safety processor and application in
      lockstep.
    - [Cli]: [cli/commands.cpp], [script_runner.cpp], [repl.cpp],
      [apps/culina_sim_main.cpp]; [Grammar]: the language of its command lines.
    - [Pipe]: a line that loses nothing, as a class; the link object, the client
      and the safety processor followed frame by frame on such a line.
    - [Lockstep]: [in_memory_transport.h] as such a line, and the composition of
      both processors on it, a millisecond at a time.
    - [McuMain]: [apps/culina_mcu_main.cpp], the safety processor as a process.
    - [Desk]: the clock and the line of an application process; [AppMain]:
      [apps/culina_app_main.cpp], the prompt with its safe stop; [ViewModel]:
      [apps/ui/device_view_model.cpp], the user interface without Qt; [Mains]: their
      arguments and connection, and the smoke test.
    - [AppBench], [LockstepBench]: concrete runs of the application, the device,
      the simulator and the processes.

    ** What the theorems show

    - Safety of the control tick, for every history of inputs, received bytes and
      sensor failures: the tick completes without undefined behaviour; the heater
      has power only without a fault, with a closed lid, below 165 C and with a
      target in range; a fault means everything is off; the motor stays below 500 rpm
      with an open lid, below 6400 rpm with an unlocked lid or a hot bowl; the lid is
      unlocked only at low speed ([SafetyMcu], on the controllers of [Mcu]); a fault
      goes away only in a tick that receives MOTOR_STOP, and a board that has heard
      no request for five seconds has heater and motor off ([Supervision]).
    - The same for the whole device, with the application able to do whatever it
      does ([System.device_stays_safe]) and for every scenario or input a user
      can give the simulator, of the board as it is in each millisecond
      ([Cli.no_input_makes_the_device_unsafe]), and for the
      process of the safety processor whatever its sockets and the system do
      ([McuMain.mcu_process_is_safe]); the bowl is never overfilled.
    - The two processors together ([Lockstep]), for every sequence of user actions
      and milliseconds: no request is lost, repeated or late; a session comes to
      rest only with the heater and the motor off; stopping it brings it to rest
      within 50 ms; a fault of the safety processor takes the session down within
      10 ms; the watchdog of the application is fed every 10 ms and never trips. The invariant behind them ([lockstep]) says what is on the line, what
      the client waits for, and what the flags of a shutdown mean for the outputs.
    - Processes: the prompt reports success only after a confirmed stop and ends
      within a second of being told to quit ([AppMain]); the view model stays well
      typed under every event, its actions stay within the limits, and closing it
      waits for the session but at most a second ([ViewModel]).
    - Sockets: descriptors are neither leaked nor closed twice; the control server
      always answers, changes the board by allowed actions only, and does not
      care how its input is cut into chunks; the capture decoder reports exactly
      the frames that are there.
    - Protocol: writing and parsing are inverse, the parser delivers only frames
      that stood on the wire, the transmit queue is a FIFO, requests are answered
      or time out within 150 ms, telemetry arrives as it was sent.
    - Refinements: the command handler implements its catalogue; the ring buffer
      is a bounded queue; the telemetry store keeps the newest samples; the
      simulator accepts exactly the lines of its language and does what each of them
      means ([Grammar.commands_implement_the_language]).
    - Cooking: programs follow their scripts and leave the outputs off; a
      shutdown is confirmed before the session is over.
    - Recipes: parsing always returns, accepts only valid recipes, and reads back
      what the printer writes.
    - Termination: every loop ends, up to [Cli.simulator_always_ends].
    - Findings: [Cooking.mcu_fault_blocks_restart] (a fault blocks the session
      for good), [Programs.weigh_step_uses_stale_weight] (a weigh step may end on
      a weight from before the tare), [McuClient.first_timeout] (the client
      retries before it reports a timeout, unlike the protocol document),
      [Dump.punctuation_is_read_as_digits] (the capture decoder takes some
      punctuation for hex digits), [AppBench.closing_near_the_wrap] (closing the
      user interface does not wait in the second before the clock wraps).

    ** Bounds and fuel

    The receive loops get one unit more than the bytes that are pending, since
    every turn but the last consumes a byte ([UartLaws]); reading a recipe or the
    prompt gets one more than the characters of the file, since a line is not
    empty; the loop of the control server gets one more than the bytes the system
    still holds, and the decoder one more than the bytes of the capture. The bound
    of the load cell ([scale_fits]) is part of the laws of a board: only
    [tick_always_completes] assumes it, the bench with a constant load cell meets
    it, and the simulated board is allowed to exceed it (a tick may then be
    undefined, and the theorems on the device speak of the runs that are defined).
    [supervision_bounds_silence] is about hardware that takes no time ([Undriven
    now_us]): then the age of a request at the end of a tick is its age at the check.
    The theorems on the watchdog and on the prompt are bounded by the wrap of the
    64-bit microsecond clock, the one on closing the user interface by the wrap
    of the 32-bit millisecond clock.

    ** Parameters

    The random generator of the sensor noise ([NoiseSource], the standard
    library's engine in the source), the file system ([fopen], [opendir], the
    text of a scenario), the system calls of the sockets ([ISockets], with the laws
    of descriptors and of receiving; what is sent during a poll arrives after it,
    or a loop that reads all there is might never end), and Qt's local socket and text conversions
    ([ILocalSocket]).

    ** Not modelled

    Printed text and log messages ([say], [status_line], [CULINA_LOG_*]); the
    mutex of the telemetry store (one thread); the real-time clock of the machine,
    which only decides when [culina_mcu] prints its status line (an input of its
    turns); the Qt application object, the QML engine and its change
    notifications. What is left of the headers are declarations. *)

From Stdlib Require Export ZArith Lia Bool.
From stdpp Require Export base list numbers option strings.

#[global] Open Scope Z_scope.

(** ** Machine integers

    An integer of the program is a [Z] inside the range of its C++ type;
    conversions and the arithmetic of the unsigned types wrap explicitly. *)

Definition u8 (z : Z) : Z := z `mod` 256.
Definition u16 (z : Z) : Z := z `mod` 65536.
Definition u32 (z : Z) : Z := z `mod` 4294967296.
Definition u64 (z : Z) : Z := z `mod` 18446744073709551616.

(** Conversion to a signed type keeps the low bits (two's complement). *)
Definition i16 (z : Z) : Z := (z + 32768) `mod` 65536 - 32768.
Definition i32 (z : Z) : Z := (z + 2147483648) `mod` 4294967296 - 2147483648.

Definition in_u8 (z : Z) : Prop := 0 <= z < 256.
Definition in_u16 (z : Z) : Prop := 0 <= z < 65536.
Definition in_u32 (z : Z) : Prop := 0 <= z < 4294967296.
Definition in_i16 (z : Z) : Prop := -32768 <= z < 32768.
Definition in_i32 (z : Z) : Prop := -2147483648 <= z < 2147483648.

(** [u32_sub a b] is the unsigned 32-bit difference [a - b] every timer of the
    firmware computes. *)
Definition u32_sub (a b : Z) : Z := u32 (a - b).

(** ** Outcomes

    A routine that can run into undefined behaviour of C++ (a signed overflow,
    a float that does not fit the integer it is cast to) returns an [outcome].
    [OutOfFuel] is the answer of a fuelled loop whose bound was too small. *)
Inductive outcome (A : Type) : Type :=
| Ret (a : A)
| Undefined
| OutOfFuel.
Arguments Ret {A} a.
Arguments Undefined {A}.
Arguments OutOfFuel {A}.

#[global] Instance outcome_ret : MRet outcome := @Ret.
#[global] Instance outcome_bind : MBind outcome := fun A B f m =>
  match m with
  | Ret a => f a
  | Undefined => Undefined
  | OutOfFuel => OutOfFuel
  end.

Lemma bind_ret {A B} (o : outcome A) (f : A -> outcome B) b : o ≫= f = Ret b -> exists a, o = Ret a /\ f a = Ret b.
Proof. destruct o; [eauto|discriminate|discriminate]. Qed.

(** A value that C++ leaves undefined when it is absent. *)
Definition defined {A} (o : option A) : outcome A :=
  match o with Some a => Ret a | None => Undefined end.

(** ** Fields of a record

    [r <| f := v |>] is [r] with the field [f] assigned. A record that is
    assigned field by field has an [Eta] instance, from which the setter of
    every field is computed. *)
Class Eta (R : Type) := eta : R -> R.
Class Setter {R T : Type} (proj : R -> T) := set : T -> R -> R.
Arguments set {R T} proj {_} _ _ : simpl never.

Ltac build_setter :=
  lazymatch goal with
  | |- @Setter ?R ?T ?proj =>
      let f := constr:(fun (v : T) (r : R) =>
        ltac:(let E := constr:(_ : Eta R) in
              let b := eval red in (E r) in
              lazymatch eval pattern (proj r) in b with
              | ?g _ => let t := eval cbv beta in (g v) in exact t
              end)) in
      exact f
  end.
#[export] Hint Extern 1 (Setter _) => build_setter : typeclass_instances.

Notation "r <| f := v |>" := (set f v r)
  (at level 1, left associativity, f constr at level 8, v at level 200, format "r  <| f  :=  v |>").

(** Reads of assigned fields, without unfolding the assignments: one equation
    per field and assignment, proved on a variable record. *)
Ltac read_field p q R T i :=
  match goal with
  | _ => let _ := match goal with _ => constr_eq p q end in
         constr:((fun v r => eq_refl) : forall (v : T) (r : R), v = p (@set R T q i v r))
  | _ => constr:((fun v r => eq_refl) : forall (v : T) (r : R), p r = p (@set R T q i v r))
  end.

Ltac simp_set :=
  repeat match goal with
  | |- context [?p (@set ?R ?T ?q ?i ?v ?r)] =>
      let E := read_field p q R T i in
      pattern (p (@set R T q i v r)); refine (eq_ind _ _ _ _ (E v r)); cbv beta
  | H : context [?p (@set ?R ?T ?q ?i ?v ?r)] |- _ =>
      let E := read_field p q R T i in
      pattern (p (@set R T q i v r)) in H; apply (fun P K => eq_ind_r P K (E v r)) in H; cbv beta in H
  end.

(** ** Tactics *)

(** Case analysis on the boolean tests of the goal or of a hypothesis, each
    comparison on [Z] turned into the proposition it decides. *)
Ltac destruct_bool_test b :=
  lazymatch b with
  | Z.leb ?x ?y => destruct (Z.leb_spec x y)
  | Z.ltb ?x ?y => destruct (Z.ltb_spec x y)
  | Z.gtb ?x ?y => rewrite (Z.gtb_ltb x y) in *; destruct (Z.ltb_spec y x)
  | Z.geb ?x ?y => rewrite (Z.geb_leb x y) in *; destruct (Z.leb_spec y x)
  | Z.eqb ?x ?y => destruct (Z.eqb_spec x y)
  | negb ?c => destruct_bool_test c
  | andb ?c _ => destruct_bool_test c
  | orb ?c _ => destruct_bool_test c
  | _ => let E := fresh "E" in destruct b eqn:E
  end.

Ltac case_test :=
  match goal with
  | |- context [if ?b then _ else _] => destruct_bool_test b; cbn [negb andb orb] in *
  | H : context [if ?b then _ else _] |- _ =>
      destruct_bool_test b; cbn [negb andb orb] in *
  end.

Ltac case_tests := repeat case_test.

(** Unfold the machine-integer layer and let [lia] do the modular arithmetic. *)
Ltac wrap_lia :=
  unfold u32_sub, u8, u16, u32, u64, i16, i32, in_u8, in_u16, in_u32, in_i16, in_i32 in *;
  Z.to_euclidean_division_equations; lia.

(** ** Generic lemmas on machine integers *)

Create HintDb wrap.
Create Rewrite HintDb wrap.

Lemma u8_range z : in_u8 (u8 z). Proof. wrap_lia. Qed.
Lemma u16_range z : in_u16 (u16 z). Proof. wrap_lia. Qed.
Lemma u32_range z : in_u32 (u32 z). Proof. wrap_lia. Qed.
Lemma i16_range z : in_i16 (i16 z). Proof. wrap_lia. Qed.
Lemma i32_range z : in_i32 (i32 z). Proof. wrap_lia. Qed.

Lemma u8_id z : in_u8 z -> u8 z = z. Proof. wrap_lia. Qed.
Lemma u16_id z : in_u16 z -> u16 z = z. Proof. wrap_lia. Qed.
Lemma u32_id z : in_u32 z -> u32 z = z. Proof. wrap_lia. Qed.
Lemma i16_id z : in_i16 z -> i16 z = z. Proof. wrap_lia. Qed.
Lemma i32_id z : in_i32 z -> i32 z = z. Proof. wrap_lia. Qed.

(** Reading the unsigned image of a signed value back gives the value. *)
Lemma i16_u16 z : in_i16 z -> i16 (u16 z) = z. Proof. wrap_lia. Qed.
Lemma i32_u32 z : in_i32 z -> i32 (u32 z) = z. Proof. wrap_lia. Qed.

#[export] Hint Resolve u8_range u16_range u32_range i16_range i32_range : wrap.
#[export] Hint Rewrite u8_id u16_id u32_id i16_id i32_id i16_u16 i32_u32
  using (first [eassumption | wrap_lia]) : wrap.

(** ** Lists as C arrays *)

(** [store_at buf off bs] overwrites [bs] at index [off] (a [memcpy] into an
    array); the callers stay inside the array. *)
Definition store_at {A} (buf : list A) (off : nat) (bs : list A) : list A :=
  take off buf ++ bs ++ drop (off + length bs) buf.

Lemma length_store_at {A} (buf bs : list A) off :
  (off + length bs <= length buf)%nat -> length (store_at buf off bs) = length buf.
Proof. intros H. unfold store_at. rewrite !length_app, length_take, length_drop. lia. Qed.

(** What was written is what is read back. *)
Lemma take_drop_store_at {A} (buf bs : list A) off :
  (off + length bs <= length buf)%nat ->
  take (length bs) (drop off (store_at buf off bs)) = bs.
Proof.
  intros H. unfold store_at.
  rewrite drop_app_length' by (rewrite length_take; lia).
  apply take_app_length.
Qed.

Lemma take_store_at {A} (buf bs : list A) off :
  (off <= length buf)%nat -> take off (store_at buf off bs) = take off buf.
Proof. intros H. unfold store_at. rewrite take_app_le by (rewrite length_take; lia).
  rewrite take_take. f_equal. lia. Qed.

(** An array filled from the front. *)
Lemma take_S_insert {A} (l : list A) i x :
  (i < length l)%nat -> take (S i) (<[i := x]> l) = take i l ++ [x].
Proof.
  intros H. rewrite (take_S_r _ _ x) by now rewrite list_lookup_insert_eq.
  now rewrite take_insert_ge by lia.
Qed.

(** All bytes of a buffer are bytes. *)
Definition bytes_ok (bs : list Z) : Prop := Forall in_u8 bs.

Lemma bytes_ok_check bs : forallb (fun b => (0 <=? b) && (b <? 256)) bs = true -> bytes_ok bs.
Proof.
  intros H. apply Forall_forall. intros b Hb. rewrite forallb_forall in H.
  specialize (H b). rewrite <- list_elem_of_In in H. apply H, andb_true_iff in Hb as [H1 H2].
  unfold in_u8. lia.
Qed.

(** ** Strings *)

Lemma append_assoc (a b c : string) : (a +:+ b) +:+ c = a +:+ (b +:+ c).
Proof. induction a as [|x a IH]; [reflexivity|]. exact (f_equal (String x) IH). Qed.

Lemma append_nil (a : string) : a +:+ "" = a.
Proof. induction a as [|x a IH]; [reflexivity|]. exact (f_equal (String x) IH). Qed.

(** ** Exhaustive checks

    [all_from p n z] runs the boolean [p] on the [n] integers from [z]. *)
Fixpoint all_from (p : Z -> bool) (n : nat) (z : Z) : bool :=
  match n with
  | O => true
  | S n' => p z && all_from p n' (z + 1)
  end.

Lemma all_from_spec p n z : all_from p n z = true ->
  forall x, z <= x < z + Z.of_nat n -> p x = true.
Proof.
  revert z. induction n as [|n IH]; intros z H x Hx; [lia|].
  cbn [all_from] in H. apply andb_true_iff in H as [H1 H2].
  destruct (Z.eq_dec x z) as [->|]; [assumption|]. apply (IH (z + 1)); [assumption|lia].
Qed.
