(* ===== verification/Float32.v ===== *)
(** * IEEE 754 binary32 arithmetic of the firmware's [float]

    Definitions: every [float] operation of the program, as the Standard
    Library's executable specification of IEEE 754 ([SpecFloat]) at precision
    24 and maximal exponent 128, rounding to nearest even.  Each operation of
    the source is rounded on its own (no fused multiply-add, no excess
    precision).

    Theory: a finite binary32 number is an integer multiple of 2^-149, so its
    value is represented exactly by the integer [fz x = x * 2^300].  The
    operations are characterised by [rz], rounding on these scaled integers:
    [fz (x + y) = rz (fz x + fz y)] and so on, with [rz] monotone and the
    identity on representable values. *)

From S2P Require Import Prelude.
From Stdlib Require Export SpecFloat.

Abbreviation f32 := spec_float.

(** ** Operations *)

Definition fadd (x y : f32) : f32 := SFadd 24 128 x y.
Definition fsub (x y : f32) : f32 := SFsub 24 128 x y.
Definition fmul (x y : f32) : f32 := SFmul 24 128 x y.
Definition fdiv (x y : f32) : f32 := SFdiv 24 128 x y.
Definition fabs (x : f32) : f32 := SFabs x.
Definition flt (x y : f32) : bool := SFltb x y.
Definition fle (x y : f32) : bool := SFleb x y.
Definition fgt (x y : f32) : bool := SFltb y x.
Definition fge (x y : f32) : bool := SFleb y x.
Definition feq (x y : f32) : bool := SFeqb x y.

(** [static_cast<float>] of an integer. *)
Definition of_Z (z : Z) : f32 := binary_normalize 24 128 z 0 false.

(** A decimal literal [num/den] of the source, correctly rounded. *)
Definition lit (num : Z) (den : positive) : f32 :=
  match num with
  | Z0 => S754_zero false
  | Zpos n => let '(q, e, l) := SFdiv_core_binary 24 128 (Zpos n) 0 (Zpos den) 0 in
              binary_round_aux 24 128 false q e l
  | Zneg n => let '(q, e, l) := SFdiv_core_binary 24 128 (Zpos n) 0 (Zpos den) 0 in
              binary_round_aux 24 128 true q e l
  end.

(** [std::isfinite]. *)
Definition isfinite (x : f32) : bool :=
  match x with
  | S754_zero _ | S754_finite _ _ _ => true
  | _ => false
  end.

(** The integer part, discarding the fraction (C++ float to integer
    conversion); none for infinities and NaN. *)
Definition trunc (x : f32) : option Z :=
  match x with
  | S754_zero _ => Some 0
  | S754_finite s m e =>
      Some (cond_Zopp s (if 0 <=? e then Zpos m * 2 ^ e else Zpos m / 2 ^ (- e)))
  | _ => None
  end.

(** [static_cast] to an integer type: undefined when the truncated value is
    not representable. *)
Definition to_int (lo hi : Z) (x : f32) : option Z :=
  match trunc x with
  | Some z => if (lo <=? z) && (z <=? hi) then Some z else None
  | None => None
  end.
Definition to_i16 : f32 -> option Z := to_int (-32768) 32767.
Definition to_u16 : f32 -> option Z := to_int 0 65535.
Definition to_i32 : f32 -> option Z := to_int (-2147483648) 2147483647.

Definition fzero : f32 := S754_zero false.

Example lit_one : lit 1 1 = of_Z 1. Proof. reflexivity. Qed.
Example lit_milli : lit 1 1000 = S754_finite false 8589935 (-33). Proof. reflexivity. Qed.
Example of_Z_max : of_Z 10700 = S754_finite false 10956800 (-10). Proof. reflexivity. Qed.

(** ** Rounding on integers

    [rne n k] is [n / 2^k] rounded to nearest, ties to even. *)

Definition rne (n k : Z) : Z :=
  let q := n / 2 ^ k in
  match (2 * (n mod 2 ^ k)) ?= 2 ^ k with
  | Lt => q
  | Eq => if Z.even q then q else q + 1
  | Gt => q + 1
  end.

(** The number of binary digits. *)
Definition digits (n : Z) : Z := if n =? 0 then 0 else Z.log2 n + 1.

(** The scale of [fz], and the exponent a positive scaled value is rounded at. *)
Definition scale : Z := 300.
Definition round_exp (v : Z) : Z := Z.max (digits v - 24) (scale - 149).

Definition rz (v : Z) : Z :=
  let k := round_exp (Z.abs v) in
  Z.sgn v * (rne (Z.abs v) k * 2 ^ k).

Definition fz (x : f32) : Z :=
  match x with
  | S754_finite s m e => cond_Zopp s (Zpos m * 2 ^ (e + scale))
  | _ => 0
  end.

(** A finite, canonical binary32 number: what the operations produce unless
    they overflow. *)
Definition fin (x : f32) : bool :=
  match x with
  | S754_zero _ => true
  | S754_finite _ m e => bounded 24 128 m e
  | _ => false
  end.

Lemma pow2_pos k : 0 <= k -> 0 < 2 ^ k.
Proof. intros; apply Z.pow_pos_nonneg; lia. Qed.

Lemma pow2_split a b : 0 <= a -> 0 <= b -> 2 ^ (a + b) = 2 ^ a * 2 ^ b.
Proof. intros; apply Z.pow_add_r; lia. Qed.

Lemma digits_spec n : 0 < n -> 2 ^ (digits n - 1) <= n < 2 ^ digits n.
Proof.
  intros H. unfold digits. destruct (Z.eqb_spec n 0); [lia|].
  replace (Z.log2 n + 1 - 1) with (Z.log2 n) by lia.
  apply Z.log2_spec in H. replace (Z.log2 n + 1) with (Z.succ (Z.log2 n)) by lia. lia.
Qed.

Lemma digits_pos n : 0 < n -> 1 <= digits n.
Proof. intros H. unfold digits. destruct (Z.eqb_spec n 0); [lia|]. pose proof (Z.log2_nonneg n). lia. Qed.

Lemma digits_nonneg n : 0 <= digits n.
Proof. unfold digits. destruct (Z.eqb_spec n 0); [lia|]. pose proof (Z.log2_nonneg n). lia. Qed.

(** [digits] is determined by the enclosing powers of two. *)
Lemma digits_unique n d : 0 < n -> 0 <= d -> 2 ^ d <= n < 2 ^ (d + 1) -> digits n = d + 1.
Proof.
  intros Hn Hd H. unfold digits. destruct (Z.eqb_spec n 0); [lia|].
  f_equal. apply Z.log2_unique; [lia|]. replace (Z.succ d) with (d + 1) by lia. lia.
Qed.

Lemma digits_le n d : 0 <= n -> 0 <= d -> n < 2 ^ d -> digits n <= d.
Proof.
  intros Hn Hd H. destruct (Z.eq_dec n 0) as [->|]; [unfold digits; simpl; lia|].
  destruct (Z.le_gt_cases (digits n) d) as [|G]; [lia|].
  pose proof (digits_spec n ltac:(lia)).
  pose proof (Z.pow_le_mono_r 2 d (digits n - 1) ltac:(lia) ltac:(lia)). lia.
Qed.

Lemma digits_ge n d : 0 <= d -> 2 ^ d <= n -> d + 1 <= digits n.
Proof.
  intros Hd H. pose proof (pow2_pos d Hd).
  destruct (Z.le_gt_cases (d + 1) (digits n)) as [|G]; [lia|].
  pose proof (digits_spec n ltac:(lia)).
  pose proof (Z.pow_le_mono_r 2 (digits n) d ltac:(lia) ltac:(lia)). lia.
Qed.

Lemma digits_mono n m : 0 <= n <= m -> digits n <= digits m.
Proof.
  intros H. destruct (Z.eq_dec n 0) as [->|].
  - unfold digits at 1. simpl. apply digits_nonneg.
  - unfold digits. destruct (Z.eqb_spec n 0), (Z.eqb_spec m 0); try lia.
    pose proof (Z.log2_le_mono n m). lia.
Qed.

Lemma digits_mul_pow2 n j : 0 < n -> 0 <= j -> digits (n * 2 ^ j) = digits n + j.
Proof.
  intros Hn Hj. pose proof (digits_spec n Hn). pose proof (digits_pos n Hn). pose proof (pow2_pos j Hj).
  replace (digits n + j) with ((digits n - 1 + j) + 1) by lia.
  apply digits_unique; try nia.
  replace (digits n - 1 + j + 1) with (digits n + j) by lia.
  rewrite !pow2_split by lia. nia.
Qed.

(** *** [rne] *)

Lemma rne_scale n k j : 0 <= k -> 0 <= j -> rne (n * 2 ^ j) (k + j) = rne n k.
Proof.
  intros Hk Hj. unfold rne. pose proof (pow2_pos k Hk). pose proof (pow2_pos j Hj).
  rewrite pow2_split by lia.
  rewrite Z.div_mul_cancel_r by lia.
  rewrite Z.mul_mod_distr_r by lia.
  rewrite Z.mul_assoc, <- (Zmult_compare_compat_r _ (2 ^ k) (2 ^ j)) by lia. reflexivity.
Qed.

Lemma rne_0 n : rne n 0 = n.
Proof. unfold rne. rewrite Z.pow_0_r, Z.mod_1_r, Z.div_1_r. reflexivity. Qed.

(** An exact multiple is not changed. *)
Lemma rne_exact c k : 0 <= k -> rne (c * 2 ^ k) k = c.
Proof. intros Hk. rewrite <- (rne_0 c) at 2. rewrite <- (rne_scale c 0 k) by lia. f_equal. Qed.

Lemma rne_bounds n k : 0 <= k -> n / 2 ^ k <= rne n k <= n / 2 ^ k + 1.
Proof. intros Hk. unfold rne. destruct (_ ?= _); [destruct (Z.even _)| |]; lia. Qed.

(** It is at most half a unit away. *)
Lemma rne_error n j : 0 <= j -> 2 * Z.abs (rne n j * 2 ^ j - n) <= 2 ^ j.
Proof.
  intros Hj. pose proof (pow2_pos j Hj) as P. unfold rne.
  pose proof (Z.div_mod n (2 ^ j) ltac:(lia)). pose proof (Z.mod_pos_bound n (2 ^ j) P).
  destruct (Z.compare_spec (2 * (n mod 2 ^ j)) (2 ^ j)); [destruct (Z.even _)| |]; nia.
Qed.

Lemma rne_mono n m k : 0 <= k -> n <= m -> rne n k <= rne m k.
Proof.
  intros Hk H. pose proof (pow2_pos k Hk) as P.
  pose proof (rne_bounds n k Hk). pose proof (rne_bounds m k Hk).
  pose proof (Z.div_le_mono n m (2 ^ k) P H).
  destruct (Z.eq_dec (n / 2 ^ k) (m / 2 ^ k)) as [E|]; [|lia].
  unfold rne. rewrite E.
  pose proof (Z.div_mod n (2 ^ k) ltac:(lia)). pose proof (Z.div_mod m (2 ^ k) ltac:(lia)).
  destruct (Z.compare_spec (2 * (n mod 2 ^ k)) (2 ^ k)), (Z.compare_spec (2 * (m mod 2 ^ k)) (2 ^ k));
    destruct (Z.even (m / 2 ^ k)); lia.
Qed.

Lemma rne_nonneg n k : 0 <= k -> 0 <= n -> 0 <= rne n k.
Proof.
  intros Hk Hn. pose proof (rne_bounds n k Hk).
  pose proof (Z.div_pos n (2 ^ k) Hn (pow2_pos k Hk)). lia.
Qed.

(** *** [rz] *)

Lemma round_exp_nonneg v : 0 <= round_exp v.
Proof. unfold round_exp, scale. lia. Qed.

Lemma rz_0 : rz 0 = 0. Proof. reflexivity. Qed.

Lemma rz_opp v : rz (- v) = - rz v.
Proof. unfold rz. rewrite Z.abs_opp, Z.sgn_opp. lia. Qed.

Lemma rz_pos v : 0 < v -> rz v = rne v (round_exp v) * 2 ^ round_exp v.
Proof. intros H. unfold rz. rewrite Z.abs_eq, Z.sgn_pos by lia. lia. Qed.

Lemma rz_nonneg v : 0 <= v -> 0 <= rz v.
Proof.
  intros H. destruct (Z.eq_dec v 0) as [->|]; [reflexivity|]. rewrite rz_pos by lia.
  pose proof (rne_nonneg v _ (round_exp_nonneg v) H).
  pose proof (pow2_pos _ (round_exp_nonneg v)). nia.
Qed.

(** A value of at most 24 significant bits, above the smallest subnormal, is
    exact. *)
Lemma rz_exact c j : 0 <= c <= 2 ^ 24 -> scale - 149 <= j -> rz (c * 2 ^ j) = c * 2 ^ j.
Proof.
  intros Hc Hj. unfold scale in *. destruct (Z.eq_dec c 0) as [->|]; [reflexivity|].
  pose proof (pow2_pos j ltac:(lia)). rewrite rz_pos by nia.
  assert (K : exists k d, round_exp (c * 2 ^ j) = k /\ 0 <= k /\ 0 <= d /\ exists c', c = c' * 2 ^ d /\ j + d = k \/ (k <= j /\ d = 0)).
  { exists (round_exp (c * 2 ^ j)). unfold round_exp, scale.
    rewrite digits_mul_pow2 by lia.
    destruct (Z.eq_dec c (2 ^ 24)) as [->|].
    - change (digits (2 ^ 24)) with 25. exists 1. repeat split; try lia. exists (2 ^ 23). left. lia.
    - exists 0. pose proof (digits_le c 24 ltac:(lia) ltac:(lia) ltac:(lia)). repeat split; try lia.
      exists 0. right. lia. }
  destruct K as (k & d & -> & Hk & Hd & c' & [[-> E]|[Hkj ->]]).
  - rewrite <- Z.mul_assoc, <- pow2_split by lia. replace (d + j) with k by lia.
    now rewrite rne_exact by lia.
  - replace j with ((j - k) + k) by lia. rewrite pow2_split, Z.mul_assoc by lia.
    now rewrite rne_exact by lia.
Qed.

Lemma rz_exact_abs c j : Z.abs c <= 2 ^ 24 -> scale - 149 <= j -> rz (c * 2 ^ j) = c * 2 ^ j.
Proof.
  intros Hc Hj. destruct (Z.le_ge_cases 0 c).
  - apply rz_exact; lia.
  - replace (c * 2 ^ j) with (- (- c * 2 ^ j)) by lia. rewrite rz_opp, rz_exact by lia. reflexivity.
Qed.

(** The rounding of a positive value stays between the enclosing powers of
    two. *)
Lemma rz_digits v : 0 < v -> 0 <= rz v <= 2 ^ Z.max (digits v) (round_exp v).
Proof.
  intros H. rewrite rz_pos by lia. set (k := round_exp v).
  assert (Hk : 0 <= k) by apply round_exp_nonneg.
  pose proof (rne_nonneg v k Hk ltac:(lia)). pose proof (pow2_pos k Hk).
  split; [nia|]. pose proof (digits_spec v H). pose proof (digits_pos v H).
  destruct (Z.le_ge_cases k (digits v)) as [G|G].
  - rewrite Z.max_l by lia.
    replace (digits v) with ((digits v - k) + k) by lia. rewrite pow2_split by lia.
    apply Z.mul_le_mono_nonneg_r; [lia|].
    rewrite <- (rne_exact (2 ^ (digits v - k)) k) by lia.
    apply rne_mono; [lia|]. rewrite <- pow2_split by lia.
    replace (digits v - k + k) with (digits v) by lia. lia.
  - rewrite Z.max_r by lia. pose proof (Z.pow_le_mono_r 2 (digits v) k ltac:(lia) G).
    pose proof (rne_mono v (1 * 2 ^ k) k Hk ltac:(lia)) as M. rewrite rne_exact in M by lia. nia.
Qed.

Lemma rz_ge_pow v : 0 < v -> round_exp v < digits v -> 2 ^ (digits v - 1) <= rz v.
Proof.
  intros H G. rewrite rz_pos by lia. set (k := round_exp v) in *.
  assert (Hk : 0 <= k) by apply round_exp_nonneg. pose proof (digits_spec v H).
  replace (digits v - 1) with ((digits v - 1 - k) + k) by lia. rewrite pow2_split by lia.
  apply Z.mul_le_mono_nonneg_r; [apply Z.lt_le_incl, pow2_pos; lia|].
  rewrite <- (rne_exact (2 ^ (digits v - 1 - k)) k) by lia. apply rne_mono; [lia|].
  rewrite <- pow2_split by lia. replace (digits v - 1 - k + k) with (digits v - 1) by lia. lia.
Qed.

Lemma rz_mono_pos v w : 0 < v <= w -> rz v <= rz w.
Proof.
  intros H. pose proof (digits_mono v w ltac:(lia)) as D.
  destruct (Z.eq_dec (round_exp v) (round_exp w)) as [E|N].
  - rewrite !rz_pos by lia. rewrite <- E. apply Z.mul_le_mono_nonneg_r.
    + apply Z.lt_le_incl, pow2_pos, round_exp_nonneg.
    + apply rne_mono; [apply round_exp_nonneg | lia].
  - pose proof (rz_digits v ltac:(lia)) as [_ B].
    pose proof (rz_ge_pow w ltac:(lia)) as G. unfold round_exp, scale in *.
    eapply Z.le_trans; [exact B|]. eapply Z.le_trans; [|apply G; lia].
    apply Z.pow_le_mono_r; lia.
Qed.

(** Rounding is monotone. *)
Lemma rz_mono v w : v <= w -> rz v <= rz w.
Proof.
  intros H. destruct (Z.lt_trichotomy v 0) as [Hv|[->|Hv]].
  - destruct (Z.lt_trichotomy w 0) as [Hw|[->|Hw]].
    + pose proof (rz_mono_pos (- w) (- v) ltac:(lia)) as M. rewrite !rz_opp in M. lia.
    + rewrite rz_0. pose proof (rz_nonneg (- v) ltac:(lia)) as M. rewrite rz_opp in M. lia.
    + pose proof (rz_nonneg (- v) ltac:(lia)) as M. rewrite rz_opp in M.
      pose proof (rz_nonneg w ltac:(lia)). lia.
  - rewrite rz_0. apply rz_nonneg. lia.
  - apply rz_mono_pos. lia.
Qed.

(** Rounding a number below [w] adds at most half a unit of [w]. *)
Lemma rz_error v w : 0 < v <= w -> 2 * (rz v - v) <= 2 ^ round_exp w.
Proof.
  intros B. rewrite rz_pos by lia. pose proof (rne_error v (round_exp v) (round_exp_nonneg v)).
  assert (round_exp v <= round_exp w).
  { unfold round_exp. pose proof (digits_mono v w ltac:(lia)). lia. }
  pose proof (Z.pow_le_mono_r 2 (round_exp v) (round_exp w) ltac:(lia) ltac:(lia)). lia.
Qed.

Lemma rz_abs v : Z.abs (rz v) = rz (Z.abs v).
Proof.
  destruct (Z.le_ge_cases 0 v).
  - rewrite (Z.abs_eq v) by lia. apply Z.abs_eq, rz_nonneg. lia.
  - rewrite (Z.abs_neq v) by lia. rewrite <- (Z.opp_involutive v) at 1. rewrite rz_opp, Z.abs_opp.
    apply Z.abs_eq, rz_nonneg. lia.
Qed.

(** ** The Standard Library's rounding, on scaled integers *)

Lemma digits2_digits m : Zpos (digits2_pos m) = digits (Zpos m).
Proof.
  induction m as [p IH|p IH|]; cbn [digits2_pos]; rewrite ?Pos2Z.inj_succ, ?IH.
  - rewrite (Pos2Z.inj_xI p). pose proof (digits_spec (Zpos p) ltac:(lia)).
    pose proof (digits_pos (Zpos p) ltac:(lia)).
    symmetry. apply digits_unique; try lia.
    rewrite Z.pow_add_r by lia. replace (digits (Zpos p)) with (digits (Zpos p) - 1 + 1) at 1 by lia.
    rewrite (Z.pow_add_r 2 (digits (Zpos p) - 1)) by lia. lia.
  - replace (Zpos p~0) with (Zpos p * 2 ^ 1) by lia. rewrite digits_mul_pow2 by lia. lia.
  - reflexivity.
Qed.

Lemma Zdigits2_digits m : 0 <= m -> Zdigits2 m = digits m.
Proof. intros H. destruct m; [reflexivity|apply digits2_digits|lia]. Qed.

(** One right shift keeps the quotient, the last bit shifted out, and whether
    any earlier bit was set. *)
Definition shr_state (m : Z) (n : nat) : shr_record :=
  match n with
  | O => {| shr_m := m; shr_r := false; shr_s := false |}
  | S n' => {| shr_m := m / 2 ^ Z.of_nat n;
               shr_r := Z.odd (m / 2 ^ Z.of_nat n');
               shr_s := negb (m mod 2 ^ Z.of_nat n' =? 0) |}
  end.

Lemma shr_1_spec m r s : 0 <= m ->
  shr_1 {| shr_m := m; shr_r := r; shr_s := s |} =
  {| shr_m := m / 2; shr_r := Z.odd m; shr_s := orb r s |}.
Proof.
  intros H. unfold shr_1. destruct m as [|p|p]; [reflexivity| |lia]. destruct p as [p|p|].
  - rewrite (Pos2Z.inj_xI p), Z.add_comm, Z.mul_comm, Z_div_plus by lia. f_equal.
    now rewrite Z.mul_comm, Z.odd_add_mul_2.
  - rewrite (Pos2Z.inj_xO p), Z.mul_comm, Z_div_mult by lia. f_equal.
    now rewrite Z.mul_comm, Z.odd_mul.
  - reflexivity.
Qed.

Lemma shr_state_S m n : 0 <= m -> shr_1 (shr_state m n) = shr_state m (S n).
Proof.
  intros H. destruct n as [|n].
  - unfold shr_state. rewrite shr_1_spec by lia. change (Z.of_nat 1) with 1.
    change (Z.of_nat 0) with 0. rewrite Z.pow_0_r, Z.pow_1_r, Z.div_1_r, Z.mod_1_r. reflexivity.
  - unfold shr_state. pose proof (pow2_pos (Z.of_nat n) ltac:(lia)) as P.
    rewrite shr_1_spec by (apply Z.div_pos; [lia | apply pow2_pos; lia]).
    replace (Z.of_nat (S (S n))) with (Z.of_nat (S n) + 1) by lia.
    f_equal.
    + rewrite pow2_split, Z.pow_1_r, Z.div_div by lia. reflexivity.
    + replace (Z.of_nat (S n)) with (Z.of_nat n + 1) by lia.
      rewrite pow2_split, Z.pow_1_r by lia. rewrite Z.rem_mul_r by lia.
      rewrite Zmod_odd. pose proof (Z.mod_pos_bound m (2 ^ Z.of_nat n) P).
      destruct (Z.odd _); cbn [orb negb];
        destruct (Z.eqb_spec (m mod 2 ^ Z.of_nat n) 0); cbn [negb];
        destruct (Z.eqb_spec (m mod 2 ^ Z.of_nat n + 2 ^ Z.of_nat n * 1) 0);
        destruct (Z.eqb_spec (m mod 2 ^ Z.of_nat n + 2 ^ Z.of_nat n * 0) 0); lia || reflexivity.
Qed.

Lemma iter_pos_nat {A} (f : A -> A) p x : iter_pos f p x = Nat.iter (Pos.to_nat p) f x.
Proof.
  revert x. induction p as [p IH|p IH|]; intros x; cbn [iter_pos].
  - rewrite !IH. change (f x) with (Nat.iter 1 f x). rewrite <- !Nat.iter_add. f_equal. lia.
  - rewrite !IH, <- Nat.iter_add. f_equal. lia.
  - reflexivity.
Qed.

Lemma shr_iter m p : 0 <= m ->
  iter_pos shr_1 p {| shr_m := m; shr_r := false; shr_s := false |} = shr_state m (Pos.to_nat p).
Proof.
  intros H. rewrite iter_pos_nat. change {| shr_m := m; shr_r := false; shr_s := false |} with (shr_state m 0).
  induction (Pos.to_nat p) as [|n IH]; [reflexivity|]. cbn [Nat.iter nat_rect].
  change (shr_1 (Nat.iter n shr_1 (shr_state m 0)) = shr_state m (S n)).
  rewrite IH. now apply shr_state_S.
Qed.

(** Rounding a shifted record is [rne]. *)
Lemma round_shr_state m n : 0 <= m ->
  round_nearest_even (shr_m (shr_state m n)) (loc_of_shr_record (shr_state m n)) = rne m (Z.of_nat n).
Proof.
  intros H. destruct n as [|n]; [now rewrite rne_0|].
  unfold shr_state. cbn [shr_m loc_of_shr_record]. unfold rne.
  set (k := Z.of_nat n). assert (P : 0 < 2 ^ k) by (apply pow2_pos; lia).
  replace (Z.of_nat (S n)) with (k + 1) by lia. rewrite pow2_split, Z.pow_1_r by lia.
  rewrite (Z.rem_mul_r m (2 ^ k) 2) by lia. rewrite Zmod_odd.
  pose proof (Z.mod_pos_bound m (2 ^ k) P).
  destruct (Z.odd (m / 2 ^ k)), (Z.eqb_spec (m mod 2 ^ k) 0); cbn [negb round_nearest_even];
  match goal with |- context [?a ?= ?b] => destruct (Z.compare_spec a b) end; lia || reflexivity.
Qed.

(** [shr_fexp] on an exact mantissa: shift by [k] digits when [k] is
    positive, where [k] brings the exponent to the binary32 grid. *)
Definition shift_to (m e : Z) : Z := fexp 24 128 (digits m + e) - e.

Lemma shr_fexp_exact m e : 0 <= m ->
  shr_fexp 24 128 m e loc_Exact =
  (shr_state m (Z.to_nat (shift_to m e)), e + Z.max 0 (shift_to m e)).
Proof.
  intros H. unfold shr_fexp. rewrite Zdigits2_digits by lia. fold (shift_to m e).
  unfold shr_record_of_loc, shr. destruct (shift_to m e) as [|p|p].
  - cbn. f_equal. lia.
  - rewrite shr_iter by lia. now rewrite Z2Nat.inj_pos.
  - cbn. f_equal. lia.
Qed.

Lemma fexp_eq x : fexp 24 128 x = Z.max (x - 24) (-149). Proof. reflexivity. Qed.

Lemma fin_finite s m e :
  fin (S754_finite s m e) = true <->
  Z.max (digits (Zpos m) + e - 24) (-149) = e /\ e <= 104.
Proof.
  unfold fin, bounded, canonical_mantissa. rewrite digits2_digits, fexp_eq, andb_true_iff.
  rewrite Z.eqb_eq, Z.leb_le. replace (128 - 24) with 104 by lia. reflexivity.
Qed.

Lemma fz_finite s m e : fz (S754_finite s m e) = (if s then -1 else 1) * (Zpos m * 2 ^ (e + scale)).
Proof. unfold fz, cond_Zopp. destruct s; lia. Qed.

(** The bound at which a rounded value overflows to infinity. *)
Definition fz_huge : Z := 2 ^ (128 + scale).

Lemma round_exp_shift m e : 0 < m -> 0 <= e + scale ->
  round_exp (m * 2 ^ (e + scale)) = e + shift_to m e + scale.
Proof.
  intros Hm He. unfold round_exp, shift_to. rewrite digits_mul_pow2 by lia. rewrite fexp_eq. lia.
Qed.

(** The mantissa after the first shift is a binary32 mantissa, or 2^24. *)
Lemma rne_mantissa m e : 0 < m -> 0 <= shift_to m e ->
  let M := rne m (shift_to m e) in
  let e' := e + shift_to m e in
  0 <= M <= 2 ^ 24 /\ -149 <= e' /\ (-149 < e' -> 2 ^ 23 <= M).
Proof.
  intros Hm Hk M e'. set (k := shift_to m e) in *.
  pose proof (digits_spec m Hm) as D. pose proof (digits_pos m Hm).
  assert (He : e' = Z.max (digits m + e - 24) (-149)).
  { unfold e', k, shift_to. rewrite fexp_eq. lia. }
  split; [split|split].
  - apply rne_nonneg; lia.
  - unfold M. rewrite <- (rne_exact (2 ^ 24) k) by lia. apply rne_mono; [lia|].
    rewrite <- pow2_split by lia.
    pose proof (Z.pow_le_mono_r 2 (digits m) (24 + k) ltac:(lia) ltac:(lia)). lia.
  - lia.
  - intros G. unfold M. rewrite <- (rne_exact (2 ^ 23) k) by lia. apply rne_mono; [lia|].
    rewrite <- pow2_split by lia. replace (23 + k) with (digits m - 1) by lia. lia.
Qed.

(** The renormalisation after rounding: a mantissa of 2^24 becomes 2^23 with
    the next exponent; anything smaller is already canonical. *)
Definition renorm (M e : Z) : Z * Z := if M =? 2 ^ 24 then (2 ^ 23, e + 1) else (M, e).

Lemma shr_fexp_renorm M e : 0 <= M <= 2 ^ 24 -> -149 <= e ->
  let '(mrs, e'') := shr_fexp 24 128 M e loc_Exact in
  (shr_m mrs, e'') = renorm M e.
Proof.
  intros HM He. rewrite shr_fexp_exact by lia. unfold renorm, shift_to. rewrite fexp_eq.
  destruct (Z.eqb_spec M (2 ^ 24)) as [->|N].
  - change (digits (2 ^ 24)) with 25.
    replace (Z.max (25 + e - 24) (-149) - e) with 1 by lia. reflexivity.
  - pose proof (digits_le M 24 ltac:(lia) ltac:(lia) ltac:(lia)).
    replace (Z.to_nat _) with O by lia. cbn [shr_state shr_m]. f_equal. lia.
Qed.

Lemma renorm_value M e : 0 <= e + scale -> let '(M', e') := renorm M e in
  M' * 2 ^ (e' + scale) = M * 2 ^ (e + scale).
Proof.
  intros He. unfold renorm. destruct (Z.eqb_spec M (2 ^ 24)) as [->|]; [|reflexivity].
  replace (e + 1 + scale) with (e + scale + 1) by lia. rewrite (pow2_split (e + scale)) by lia. lia.
Qed.

Theorem round_aux_spec s m e :
  0 <= shift_to (Zpos m) e -> 0 <= e + scale ->
  let v := Zpos m * 2 ^ (e + scale) in
  let r := binary_round_aux 24 128 s (Zpos m) e loc_Exact in
  (rz v < fz_huge -> fin r = true /\ fz r = (if s then -1 else 1) * rz v) /\
  (fz_huge <= rz v -> r = S754_infinity s).
Proof.
  intros Hk He v r. unfold r, binary_round_aux. rewrite shr_fexp_exact by lia.
  rewrite round_shr_state by lia. rewrite Z2Nat.id by lia. rewrite Z.max_r by lia.
  pose proof (rne_mantissa (Zpos m) e ltac:(lia) Hk) as (HM & He' & HN). cbv zeta in *.
  assert (RV : rz v = rne (Zpos m) (shift_to (Zpos m) e) * 2 ^ (e + shift_to (Zpos m) e + scale)).
  { pose proof (pow2_pos _ He). unfold v. rewrite rz_pos by nia. rewrite round_exp_shift by lia. f_equal.
    replace (e + shift_to (Zpos m) e + scale) with (shift_to (Zpos m) e + (e + scale)) by lia.
    apply rne_scale; lia. }
  set (M := rne (Zpos m) (shift_to (Zpos m) e)) in *. set (e' := e + shift_to (Zpos m) e) in *.
  rewrite RV. clear RV v r Hk.
  pose proof (shr_fexp_renorm M e' HM He') as SR.
  pose proof (renorm_value M e' ltac:(unfold scale; lia)) as RVal.
  destruct (shr_fexp 24 128 M e' loc_Exact) as [mrs e'']. rewrite <- SR in RVal. rewrite <- RVal.
  assert (C : 0 <= shr_m mrs < 2 ^ 24 /\ e' <= e'' /\ (-149 < e'' -> 2 ^ 23 <= shr_m mrs)).
  { unfold renorm in SR. destruct (Z.eqb_spec M (2 ^ 24)); injection SR as -> ->; lia. }
  clear SR RVal. destruct C as (C1 & C2 & C3).
  destruct (shr_m mrs) as [|p|p] eqn:EM; [| |lia].
  - split; [intros _; split; [reflexivity|destruct s; reflexivity]|].
    intros G. exfalso. unfold fz_huge in G. pose proof (pow2_pos (128 + scale) ltac:(unfold scale; lia)). lia.
  - unfold fz_huge. split.
    + intros G. destruct (Z.leb_spec e'' (128 - 24)) as [L|L].
      * split; [|apply fz_finite]. apply fin_finite.
        pose proof (digits_le (Zpos p) 24 ltac:(lia) ltac:(lia) ltac:(lia)).
        destruct (Z.eq_dec e'' (-149)); [lia|].
        pose proof (digits_ge (Zpos p) 23 ltac:(lia) ltac:(lia)). lia.
      * exfalso. specialize (C3 ltac:(lia)).
        replace (2 ^ (128 + scale)) with (2 ^ 23 * 2 ^ (105 + scale)) in G by reflexivity.
        pose proof (Z.pow_le_mono_r 2 (105 + scale) (e'' + scale) ltac:(lia) ltac:(lia)).
        pose proof (pow2_pos (105 + scale) ltac:(unfold scale; lia)). nia.
    + intros G. destruct (Z.leb_spec e'' (128 - 24)) as [L|L]; [exfalso|reflexivity].
      replace (2 ^ (128 + scale)) with (2 ^ 24 * 2 ^ (104 + scale)) in G by reflexivity.
      pose proof (Z.pow_le_mono_r 2 (e'' + scale) (104 + scale) ltac:(lia) ltac:(lia)).
      pose proof (pow2_pos (e'' + scale) ltac:(unfold scale; lia)). nia.
Qed.

Lemma iter_xO m d : Zpos (Pos.iter xO m d) = Zpos m * 2 ^ Zpos d.
Proof.
  induction d as [|d IH] using Pos.peano_ind; [cbn; lia|].
  rewrite Pos.iter_succ, Pos2Z.inj_succ, Z.pow_succ_r by lia.
  rewrite (Pos2Z.inj_xO (Pos.iter xO m d)), IH. lia.
Qed.

(** Aligning a mantissa to a smaller exponent keeps the value. *)
Lemma shl_align_value m e e' : e' <= e ->
  Zpos (fst (shl_align m e e')) = Zpos m * 2 ^ (e - e') /\ snd (shl_align m e e') = e'.
Proof.
  intros H. unfold shl_align. destruct (e' - e) as [|d|d] eqn:E; cbn [fst snd].
  - replace (e - e') with 0 by lia. split; lia.
  - lia.
  - rewrite iter_xO. replace (e - e') with (Zpos d) by lia. split; lia.
Qed.

(** [rounds s v r]: [r] is [v] (up to the sign [s]) rounded, and finite when
    the rounded value does not overflow. *)
Definition rounds (s : bool) (v : Z) (r : f32) : Prop :=
  (rz v < fz_huge -> fin r = true /\ fz r = (if s then -1 else 1) * rz v) /\
  (fz_huge <= rz v -> r = S754_infinity s).

Lemma binary_round_spec s m e : 0 <= e + scale ->
  rounds s (Zpos m * 2 ^ (e + scale)) (binary_round 24 128 s m e).
Proof.
  intros He. unfold binary_round, rounds. rewrite digits2_digits.
  set (e' := fexp 24 128 (digits (Zpos m) + e)).
  destruct (Z.le_gt_cases e' e) as [L|G].
  - pose proof (shl_align_value m e e' L) as [V1 V2].
    destruct (shl_align m e e') as [m' e1]. cbn [fst snd] in *. subst e1.
    assert (K : shift_to (Zpos m') e' = 0).
    { unfold shift_to. rewrite V1, digits_mul_pow2 by lia.
      replace (digits (Zpos m) + (e - e') + e') with (digits (Zpos m) + e) by lia. fold e'. lia. }
    assert (P : 0 <= e' + scale) by (unfold e'; rewrite fexp_eq; unfold scale; lia).
    replace (Zpos m * 2 ^ (e + scale)) with (Zpos m' * 2 ^ (e' + scale)).
    { apply round_aux_spec; lia. }
    rewrite V1, <- Z.mul_assoc, <- pow2_split by lia. do 2 f_equal. lia.
  - unfold shl_align. destruct (e' - e) as [|d|d] eqn:E; try lia.
    apply round_aux_spec; [|lia]. unfold shift_to. fold e'. lia.
Qed.

(** Signed rounding: what [binary_normalize] computes. *)
Definition rounds_to (v : Z) (r : f32) : Prop :=
  Z.abs (rz v) < fz_huge -> fin r = true /\ fz r = rz v.

Lemma rounds_to_signed (s : bool) v r w : 0 <= v -> w = (if s then -1 else 1) * v ->
  rounds s v r -> rounds_to w r.
Proof.
  intros Hv -> [H _] G. destruct s.
  - replace (-1 * v) with (- v) in * by lia. rewrite rz_opp in *.
    pose proof (rz_nonneg v Hv). destruct H as [F V]; [lia|]. split; [exact F|lia].
  - replace (1 * v) with v in * by lia. pose proof (rz_nonneg v Hv).
    destruct H as [F V]; [lia|]. split; [exact F|lia].
Qed.

Lemma normalize_spec z e szero : 0 <= e + scale ->
  rounds_to (z * 2 ^ (e + scale)) (binary_normalize 24 128 z e szero).
Proof.
  intros He. pose proof (pow2_pos _ He). destruct z as [|p|p]; cbn [binary_normalize].
  - intros _. split; [reflexivity|]. now rewrite Z.mul_0_l.
  - apply (rounds_to_signed false (Zpos p * 2 ^ (e + scale))); [nia|lia|].
    now apply binary_round_spec.
  - apply (rounds_to_signed true (Zpos p * 2 ^ (e + scale))); [nia|lia|].
    now apply binary_round_spec.
Qed.

Lemma fin_exp s m e : fin (S754_finite s m e) = true -> -149 <= e <= 104.
Proof. intros H. apply fin_finite in H. lia. Qed.

Lemma pow_scale j : -300 <= j -> 0 < 2 ^ (j + scale).
Proof. intros H. apply pow2_pos. unfold scale. lia. Qed.

Lemma fin_pow s m e : fin (S754_finite s m e) = true -> 0 < 2 ^ (e + scale).
Proof. intros H. apply fin_exp in H. apply pow2_pos. unfold scale. lia. Qed.

Lemma fin_isfinite x : fin x = true -> isfinite x = true.
Proof. destruct x; cbn; congruence. Qed.

(** A finite value is representable: rounding does not change it. *)
Lemma rz_fz x : fin x = true -> rz (fz x) = fz x.
Proof.
  intros H. destruct x as [| | |s m e]; try reflexivity. apply fin_finite in H as [H1 H2].
  rewrite fz_finite. rewrite Z.mul_assoc.
  assert (digits (Zpos m) <= 24) by lia. pose proof (digits_spec (Zpos m) ltac:(lia)).
  pose proof (Z.pow_le_mono_r 2 (digits (Zpos m)) 24 ltac:(lia) ltac:(lia)).
  apply rz_exact_abs; [destruct s; lia|unfold scale; lia].
Qed.

Lemma fz_lt_huge x : fin x = true -> Z.abs (fz x) < fz_huge.
Proof.
  intros H. destruct x as [s|s| |s m e]; try reflexivity. apply fin_finite in H as [H1 H2].
  rewrite fz_finite, Z.abs_mul.
  replace (Z.abs (if s then -1 else 1)) with 1 by (destruct s; reflexivity).
  assert (digits (Zpos m) <= 24) by lia. pose proof (digits_spec (Zpos m) ltac:(lia)).
  pose proof (Z.pow_le_mono_r 2 (digits (Zpos m)) 24 ltac:(lia) ltac:(lia)).
  pose proof (Z.pow_le_mono_r 2 (e + scale) (104 + scale) ltac:(lia) ltac:(lia)).
  pose proof (pow2_pos (e + scale) ltac:(unfold scale; lia)).
  unfold fz_huge. replace (2 ^ (128 + scale)) with (2 ^ 24 * 2 ^ (104 + scale)) by reflexivity.
  rewrite Z.abs_eq by nia. nia.
Qed.

Lemma fz_align (s : bool) m e e' : e' <= e -> 0 <= e' + scale ->
  cond_Zopp s (Zpos (fst (shl_align m e e'))) * 2 ^ (e' + scale) = fz (S754_finite s m e).
Proof.
  intros H P. pose proof (shl_align_value m e e' H) as [V _]. rewrite fz_finite.
  replace (e + scale) with ((e - e') + (e' + scale)) by lia.
  rewrite (pow2_split (e - e') (e' + scale)) by lia.
  unfold cond_Zopp. rewrite V. destruct s; lia.
Qed.

(** Addition, subtraction and multiplication are the exact operation
    rounded. *)
Lemma fadd_spec x y : fin x = true -> fin y = true -> rounds_to (fz x + fz y) (fadd x y).
Proof.
  intros Hx Hy. pose proof (rz_fz x Hx) as Rx. pose proof (rz_fz y Hy) as Ry.
  unfold fadd, SFadd.
  destruct x as [sx|sx| |sx mx ex], y as [sy|sy| |sy my ey]; try discriminate.
  - intros _. destruct sx, sy; split; reflexivity.
  - intros _. split; [assumption|]. now rewrite Z.add_0_l, Ry.
  - intros _. split; [assumption|]. now rewrite Z.add_0_r, Rx.
  - pose proof (fin_exp _ _ _ Hx). pose proof (fin_exp _ _ _ Hy).
    rewrite <- (fz_align sx mx ex (Z.min ex ey)), <- (fz_align sy my ey (Z.min ex ey))
      by (unfold scale; lia).
    rewrite <- Z.mul_add_distr_r. apply normalize_spec. unfold scale. lia.
Qed.

Lemma fin_opp x : fin (SFopp x) = fin x. Proof. destruct x; reflexivity. Qed.
Lemma fz_opp x : fz (SFopp x) = - fz x.
Proof. destruct x as [| | |s m e]; try reflexivity. cbn [SFopp]. rewrite !fz_finite. destruct s; cbn [negb]; lia. Qed.

Lemma fsub_spec x y : fin x = true -> fin y = true -> rounds_to (fz x - fz y) (fsub x y).
Proof.
  intros Hx Hy. pose proof (rz_fz x Hx) as Rx. pose proof (rz_fz y Hy) as Ry.
  unfold fsub, SFsub.
  destruct x as [sx|sx| |sx mx ex], y as [sy|sy| |sy my ey]; try discriminate.
  - intros _. destruct sx, sy; split; reflexivity.
  - intros _. split; [assumption|].
    change (S754_finite (negb sy) my ey) with (SFopp (S754_finite sy my ey)).
    rewrite (fz_opp (S754_finite sy my ey)). replace (fz (S754_zero sx)) with 0 by reflexivity.
    rewrite (Z.sub_0_l (fz (S754_finite sy my ey))), rz_opp, Ry. reflexivity.
  - intros _. split; [assumption|]. now rewrite Z.sub_0_r, Rx.
  - pose proof (fin_exp _ _ _ Hx). pose proof (fin_exp _ _ _ Hy).
    rewrite <- (fz_align sx mx ex (Z.min ex ey)), <- (fz_align sy my ey (Z.min ex ey))
      by (unfold scale; lia).
    rewrite <- Z.mul_sub_distr_r. apply normalize_spec. unfold scale. lia.
Qed.

(** [static_cast<float>] is exact up to 2^24. *)
Lemma of_Z_spec z : Z.abs z <= 2 ^ 24 -> fin (of_Z z) = true /\ fz (of_Z z) = z * 2 ^ scale.
Proof.
  intros H. pose proof (normalize_spec z 0 false ltac:(unfold scale; lia)) as R.
  rewrite Z.add_0_l in R. unfold rounds_to in R.
  rewrite rz_exact_abs in R by (unfold scale; lia). apply R.
  rewrite Z.abs_mul. pose proof (pow2_pos scale ltac:(unfold scale; lia)).
  rewrite (Z.abs_eq (2 ^ scale)) by lia. unfold fz_huge.
  replace (2 ^ (128 + scale)) with (2 ^ 128 * 2 ^ scale) by reflexivity. nia.
Qed.

Lemma fmul_spec x y : fin x = true -> fin y = true ->
  rounds_to (fz x * fz y / 2 ^ scale) (fmul x y).
Proof.
  intros Hx Hy. unfold fmul, SFmul.
  destruct x as [sx|sx| |sx mx ex], y as [sy|sy| |sy my ey]; try discriminate;
    try (intros _; split; [reflexivity|]; cbn [fz]; rewrite ?Z.mul_0_r, ?Z.mul_0_l; reflexivity).
  pose proof (fin_exp _ _ _ Hx). pose proof (fin_exp _ _ _ Hy).
  apply fin_finite in Hx as [Hx _]. apply fin_finite in Hy as [Hy _].
  set (v := Zpos (mx * my) * 2 ^ (ex + ey + scale)).
  assert (P : 0 < 2 ^ (ex + ey + scale)) by (apply pow2_pos; unfold scale; lia).
  apply (rounds_to_signed (xorb sx sy) v); [unfold v; lia| |].
  - rewrite !fz_finite. unfold v. rewrite Pos2Z.inj_mul.
    replace ((if sx then -1 else 1) * (Zpos mx * 2 ^ (ex + scale)) *
             ((if sy then -1 else 1) * (Zpos my * 2 ^ (ey + scale))))
      with ((if xorb sx sy then -1 else 1) * (Zpos mx * Zpos my * (2 ^ (ex + scale) * 2 ^ (ey + scale))))
      by (destruct sx, sy; cbn [xorb]; lia).
    rewrite <- (pow2_split (ex + scale)) by (unfold scale; lia).
    replace (ex + scale + (ey + scale)) with (ex + ey + scale + scale) by lia.
    rewrite (pow2_split (ex + ey + scale)) by (unfold scale; lia).
    rewrite !Z.mul_assoc, Z.div_mul by (unfold scale; lia). lia.
  - apply round_aux_spec; [|unfold scale; lia].
    unfold shift_to. rewrite fexp_eq. rewrite Pos2Z.inj_mul.
    pose proof (digits_spec (Zpos mx) ltac:(lia)). pose proof (digits_spec (Zpos my) ltac:(lia)).
    pose proof (digits_pos (Zpos mx) ltac:(lia)). pose proof (digits_pos (Zpos my) ltac:(lia)).
    pose proof (digits_ge (Zpos mx * Zpos my) (digits (Zpos mx) - 1 + (digits (Zpos my) - 1)) ltac:(lia)) as G.
    rewrite pow2_split in G by lia. specialize (G ltac:(nia)). lia.
Qed.

(** Comparison is comparison of the values. *)
Lemma fz_lt_exp m1 e1 m2 e2 :
  fin (S754_finite false m1 e1) = true -> fin (S754_finite false m2 e2) = true -> e1 < e2 ->
  Zpos m1 * 2 ^ (e1 + scale) < Zpos m2 * 2 ^ (e2 + scale).
Proof.
  intros H1 H2 L. pose proof (fin_exp _ _ _ H1).
  apply fin_finite in H1 as [H1 _]. apply fin_finite in H2 as [H2 _].
  pose proof (digits_spec (Zpos m1) ltac:(lia)). pose proof (digits_spec (Zpos m2) ltac:(lia)).
  pose proof (Z.pow_le_mono_r 2 (digits (Zpos m1)) 24 ltac:(lia) ltac:(lia)).
  assert (D : digits (Zpos m2) - 1 = 23) by lia. rewrite D in *.
  replace (e2 + scale) with ((e2 - e1 - 1) + (1 + (e1 + scale))) by lia.
  rewrite (pow2_split (e2 - e1 - 1)), (pow2_split 1) by (unfold scale; lia).
  pose proof (pow2_pos (e2 - e1 - 1) ltac:(lia)) as PK.
  pose proof (pow2_pos (e1 + scale) ltac:(unfold scale; lia)) as PE.
  set (K := 2 ^ (e2 - e1 - 1)) in *. set (E := 2 ^ (e1 + scale)) in *.
  apply Z.lt_le_trans with (2 ^ 24 * E); [apply Z.mul_lt_mono_pos_r; lia|].
  replace (2 ^ 24 * E) with (2 ^ 23 * (1 * (2 ^ 1 * E))) by lia.
  apply Z.mul_le_mono_nonneg; try lia. apply Z.mul_le_mono_nonneg_r; lia.
Qed.

Lemma fcompare_spec x y : fin x = true -> fin y = true -> SFcompare x y = Some (fz x ?= fz y).
Proof.
  intros Hx Hy.
  destruct x as [sx|sx| |sx mx ex], y as [sy|sy| |sy my ey]; try discriminate; unfold SFcompare; f_equal.
  - rewrite fz_finite. pose proof (fin_exp _ _ _ Hy). pose proof (pow2_pos (ey + scale) ltac:(unfold scale; lia)).
    change (fz (S754_zero sx)) with 0. symmetry. destruct sy; [apply Z.compare_gt_iff|apply Z.compare_lt_iff]; nia.
  - rewrite fz_finite. pose proof (fin_exp _ _ _ Hx). pose proof (pow2_pos (ex + scale) ltac:(unfold scale; lia)).
    change (fz (S754_zero sy)) with 0. symmetry. destruct sx; [apply Z.compare_lt_iff|apply Z.compare_gt_iff]; nia.
  - rewrite !fz_finite. pose proof (fin_exp _ _ _ Hx). pose proof (fin_exp _ _ _ Hy).
    pose proof (pow2_pos (ex + scale) ltac:(unfold scale; lia)). pose proof (pow2_pos (ey + scale) ltac:(unfold scale; lia)).
    assert (G : (Zpos mx * 2 ^ (ex + scale) ?= Zpos my * 2 ^ (ey + scale)) =
                match ex ?= ey with Lt => Lt | Gt => Gt | Eq => Pos.compare_cont Eq mx my end).
    { destruct (Z.compare_spec ex ey) as [->|L|L].
      - rewrite <- Zmult_compare_compat_r by lia. reflexivity.
      - apply Z.compare_lt_iff, fz_lt_exp; assumption.
      - apply Z.compare_gt_iff, fz_lt_exp; assumption. }
    destruct sx, sy; symmetry.
    + rewrite !(Z.mul_comm (-1)), <- !Z.opp_eq_mul_m1, Z.compare_opp, Z.compare_antisym, G.
      destruct (ex ?= ey); reflexivity.
    + apply Z.compare_lt_iff. nia.
    + apply Z.compare_gt_iff. nia.
    + rewrite !Z.mul_1_l. exact G.
Qed.

Lemma flt_spec x y : fin x = true -> fin y = true -> flt x y = (fz x <? fz y).
Proof.
  intros Hx Hy. unfold flt, SFltb. rewrite fcompare_spec by assumption. unfold Z.ltb.
  destruct (fz x ?= fz y); reflexivity.
Qed.

Lemma fle_spec x y : fin x = true -> fin y = true -> fle x y = (fz x <=? fz y).
Proof.
  intros Hx Hy. unfold fle, SFleb. rewrite fcompare_spec by assumption. unfold Z.leb.
  destruct (fz x ?= fz y); reflexivity.
Qed.

Lemma feq_spec x y : fin x = true -> fin y = true -> feq x y = (fz x =? fz y).
Proof.
  intros Hx Hy. unfold feq, SFeqb. rewrite fcompare_spec by assumption. rewrite Z.eqb_compare.
  destruct (fz x ?= fz y); reflexivity.
Qed.

Lemma fgt_spec x y : fin x = true -> fin y = true -> fgt x y = (fz y <? fz x).
Proof. intros. now apply flt_spec. Qed.

Lemma fge_spec x y : fin x = true -> fin y = true -> fge x y = (fz y <=? fz x).
Proof. intros. now apply fle_spec. Qed.

Create Rewrite HintDb f32.
#[export] Hint Rewrite feq_spec flt_spec fle_spec fgt_spec fge_spec using assumption : f32.

(** Conversion to an integer truncates the value. *)
Lemma trunc_spec x : fin x = true -> trunc x = Some (Z.quot (fz x) (2 ^ scale)).
Proof.
  intros H. destruct x as [s|s| |s m e]; try discriminate; [reflexivity|].
  pose proof (fin_exp _ _ _ H). unfold trunc. f_equal. unfold fz.
  assert (Q : (if 0 <=? e then Zpos m * 2 ^ e else Zpos m / 2 ^ (- e)) =
              Z.quot (Zpos m * 2 ^ (e + scale)) (2 ^ scale)).
  { rewrite Z.quot_div_nonneg by (unfold scale; try lia).
    destruct (Z.leb_spec 0 e).
    - rewrite pow2_split by (unfold scale; lia). rewrite Z.mul_assoc, Z.div_mul by (unfold scale; lia). reflexivity.
    - replace (2 ^ scale) with (2 ^ (- e) * 2 ^ (e + scale)) by (rewrite <- pow2_split by (unfold scale; lia); f_equal; lia).
      rewrite Z.div_mul_cancel_r; [reflexivity| |]; pose proof (pow2_pos (- e) ltac:(lia));
        pose proof (pow2_pos (e + scale) ltac:(unfold scale; lia)); lia. }
  rewrite Q. unfold cond_Zopp. destruct s; [|reflexivity]. rewrite Z.quot_opp_l; [reflexivity|unfold scale; lia].
Qed.

(** ** Division

    The quotient is rounded from its first digits plus a location; the pair is
    the exact integer [4 q + t], two digits further down. *)

Definition loc_code (l : location) : Z :=
  match l with
  | loc_Exact => 0
  | loc_Inexact Lt => 1
  | loc_Inexact Eq => 2
  | loc_Inexact Gt => 3
  end.

Lemma loc_code_range l : 0 <= loc_code l <= 3.
Proof. destruct l as [|[]]; cbn; lia. Qed.

Lemma shr_record_of_loc_state q l : 0 <= q ->
  shr_record_of_loc q l = shr_state (4 * q + loc_code l) 2.
Proof.
  intros H. unfold shr_state. change (Z.of_nat 2) with 2. change (Z.of_nat 1) with 1.
  assert (E : forall t, 0 <= t < 4 -> (4 * q + t) / 2 ^ 2 = q) by (intros; Z.to_euclidean_division_equations; lia).
  assert (O : forall t, 0 <= t < 4 -> Z.odd ((4 * q + t) / 2 ^ 1) = (2 <=? t)).
  { intros t Ht. replace ((4 * q + t) / 2 ^ 1) with (t / 2 + 2 * q) by (Z.to_euclidean_division_equations; lia).
    rewrite Z.odd_add_mul_2. assert (t = 0 \/ t = 1 \/ t = 2 \/ t = 3) as [->|[->|[->| ->]]] by lia; reflexivity. }
  assert (M : forall t, 0 <= t < 4 -> (4 * q + t) mod 2 ^ 1 = t mod 2) by (intros; Z.to_euclidean_division_equations; lia).
  destruct l as [|[]]; cbn [shr_record_of_loc loc_code]; rewrite E, O, M by lia; reflexivity.
Qed.

Lemma shr_iter_state m n p : 0 <= m ->
  iter_pos shr_1 p (shr_state m n) = shr_state m (Pos.to_nat p + n).
Proof.
  intros H. rewrite iter_pos_nat. induction (Pos.to_nat p) as [|k IH]; [reflexivity|].
  cbn [Nat.iter nat_rect]. change (shr_1 (Nat.iter k shr_1 (shr_state m n)) = shr_state m (S (k + n))).
  rewrite IH. now apply shr_state_S.
Qed.

Lemma digits_loc q l : 0 < q -> digits (4 * q + loc_code l) = digits q + 2.
Proof.
  intros H. pose proof (loc_code_range l). pose proof (digits_spec q H). pose proof (digits_pos q H).
  replace (digits q + 2) with ((digits q + 1) + 1) by lia. apply digits_unique; try lia.
  replace (digits q + 1) with (digits q - 1 + 2) by lia. replace (digits q - 1 + 2 + 1) with (digits q + 2) by lia.
  rewrite !pow2_split by lia. lia.
Qed.

Lemma shift_to_loc q e l :
  0 <= q -> (q = 0 -> e <= -149) ->
  shift_to (4 * q + loc_code l) (e - 2) = shift_to q e + 2.
Proof.
  intros Hq H0. pose proof (loc_code_range l) as R.
  unfold shift_to. rewrite !fexp_eq. destruct (Z.eq_dec q 0) as [->|].
  - pose proof (digits_le (4 * 0 + loc_code l) 2 ltac:(lia) ltac:(lia) ltac:(lia)).
    change (digits 0) with 0. lia.
  - rewrite digits_loc by lia. lia.
Qed.

Lemma round_aux_loc s q e l :
  0 <= q -> 0 < 4 * q + loc_code l -> 0 <= shift_to q e -> (q = 0 -> e <= -149) ->
  binary_round_aux 24 128 s q e l = binary_round_aux 24 128 s (4 * q + loc_code l) (e - 2) loc_Exact.
Proof.
  intros Hq Hp Hk H0. pose proof (loc_code_range l) as R. unfold binary_round_aux.
  pose proof (shift_to_loc q e l Hq H0) as E.
  rewrite (shr_fexp_exact (4 * q + loc_code l)) by lia. rewrite E.
  replace (shr_fexp 24 128 q e l) with
    (shr_state (4 * q + loc_code l) (Z.to_nat (shift_to q e + 2)), e - 2 + Z.max 0 (shift_to q e + 2)); [reflexivity|].
  unfold shr_fexp. rewrite Zdigits2_digits by lia. fold (shift_to q e).
  rewrite shr_record_of_loc_state by lia. unfold shr.
  destruct (shift_to q e) as [|p|p]; [| |lia].
  - f_equal. lia.
  - rewrite shr_iter_state by lia. replace (Z.to_nat (Zpos p + 2)) with (Pos.to_nat p + 2)%nat by lia.
    f_equal. lia.
Qed.

(** The location of a remainder: exact, below, at or above the middle. *)
Lemma new_location_code n r : 0 < n -> 0 <= r < n ->
  let t := loc_code (new_location n r) in
  (t = 0 /\ r = 0) \/ (t = 1 /\ 0 < 2 * r < n) \/ (t = 2 /\ 2 * r = n) \/ (t = 3 /\ n < 2 * r).
Proof.
  intros Hn Hr. unfold new_location, new_location_even, new_location_odd.
  pose proof (Zmod_even n) as EV.
  destruct (Z.even n); destruct (Z.eqb_spec r 0); cbn [loc_code]; try lia;
  match goal with |- context [?a ?= ?b] => destruct (Z.compare_spec a b) end; cbn [loc_code];
  Z.to_euclidean_division_equations; lia.
Qed.

(** What the quotient, remainder and location say of the exact ratio, in
    units of [u * Y]. *)
Lemma quotient_facts m my q r t u Y :
  0 < my -> m = my * q + r -> 0 <= r < my -> 0 < u -> 0 < Y ->
  (t = 0 /\ r = 0) \/ (t = 1 /\ 0 < 2 * r < my) \/ (t = 2 /\ 2 * r = my) \/ (t = 3 /\ my < 2 * r) ->
  q * (4 * u) * (my * Y) <= m * (4 * u * Y) < (q + 1) * (4 * u) * (my * Y) /\
  (t = 0 <-> q * (4 * u) * (my * Y) = m * (4 * u * Y)) /\
  Z.abs (m * (4 * u * Y) - (4 * q + t) * u * (my * Y)) < u * (my * Y) /\
  (Z.even t = true -> m * (4 * u * Y) = (4 * q + t) * u * (my * Y)).
Proof.
  intros Hmy -> Hr Hu HY NL. set (P := u * Y). assert (HP : 0 < P) by (unfold P; nia).
  replace (q * (4 * u) * (my * Y)) with (4 * q * my * P) by (unfold P; lia).
  replace ((my * q + r) * (4 * u * Y)) with ((4 * q * my + 4 * r) * P) by (unfold P; lia).
  replace ((q + 1) * (4 * u) * (my * Y)) with ((4 * q * my + 4 * my) * P) by (unfold P; lia).
  replace ((4 * q + t) * u * (my * Y)) with ((4 * q * my + t * my) * P) by (unfold P; lia).
  replace (u * (my * Y)) with (my * P) by (unfold P; lia).
  rewrite <- Z.mul_sub_distr_r, Z.abs_mul, (Z.abs_eq P) by lia.
  clearbody P. set (a := 4 * q * my). clearbody a. split_and!.
  - apply Z.mul_le_mono_nonneg_r; lia.
  - apply Z.mul_lt_mono_pos_r; lia.
  - split.
    + intros ->. assert (r = 0) by lia. subst r. f_equal. lia.
    + intros E. apply Z.mul_reg_r in E; lia.
  - apply Z.mul_lt_mono_pos_r; [lia|]. destruct NL as [[-> ?]|[[-> ?]|[[-> ?]|[-> ?]]]]; lia.
  - intros EV. f_equal. destruct NL as [[-> ?]|[[-> ?]|[[-> ?]|[-> ?]]]]; cbn in EV; lia.
Qed.

(** The exact quotient of two positive finite numbers lies in
    [[q, q+1) * 2^k], and what is rounded is [4 q + t] quarters of [2^k]. *)
Lemma fdiv_core mx ex my ey :
  -149 <= ex <= 104 -> -149 <= ey <= 104 ->
  exists q k l, forall s,
    0 <= q /\ 2 <= k /\ (k <= scale - 149 \/ 2 ^ 23 <= q) /\
    q * 2 ^ k * (Zpos my * 2 ^ (ey + scale)) <= Zpos mx * 2 ^ (ex + scale) * 2 ^ scale
      < (q + 1) * 2 ^ k * (Zpos my * 2 ^ (ey + scale)) /\
    (loc_code l = 0 <-> q * 2 ^ k * (Zpos my * 2 ^ (ey + scale)) = Zpos mx * 2 ^ (ex + scale) * 2 ^ scale) /\
    0 < 4 * q + loc_code l /\
    Z.abs (Zpos mx * 2 ^ (ex + scale) * 2 ^ scale -
           (4 * q + loc_code l) * 2 ^ (k - 2) * (Zpos my * 2 ^ (ey + scale)))
      < 2 ^ (k - 2) * (Zpos my * 2 ^ (ey + scale)) /\
    (Z.even (loc_code l) = true -> Zpos mx * 2 ^ (ex + scale) * 2 ^ scale =
           (4 * q + loc_code l) * 2 ^ (k - 2) * (Zpos my * 2 ^ (ey + scale))) /\
    rounds s ((4 * q + loc_code l) * 2 ^ (k - 2))
      (let '(mz, ez, lz) := SFdiv_core_binary 24 128 (Zpos mx) ex (Zpos my) ey in
       binary_round_aux 24 128 s mz ez lz).
Proof.
  intros Hx Hy. unfold SFdiv_core_binary. cbv zeta. rewrite !Zdigits2_digits, fexp_eq by lia.
  set (d := digits (Zpos mx) + ex - (digits (Zpos my) + ey)).
  set (e' := Z.min (Z.max (d - 24) (-149)) (ex - ey)).
  assert (Hs : 0 <= ex - ey - e') by (unfold e'; lia).
  replace (match ex - ey - e' with 0 => Zpos mx | Zpos _ => Z.shiftl (Zpos mx) (ex - ey - e') | Zneg _ => 0 end)
    with (Zpos mx * 2 ^ (ex - ey - e'))
    by (destruct (ex - ey - e') eqn:E; (rewrite Z.shiftl_mul_pow2 by lia; reflexivity) || lia).
  set (sh := ex - ey - e') in *. pose proof (pow2_pos sh Hs) as PS.
  pose proof (Z_div_mod (Zpos mx * 2 ^ sh) (Zpos my) ltac:(lia)) as DM.
  destruct (Z.div_eucl _ _) as [q r]. destruct DM as [DM Hr].
  assert (Hq : 0 <= q) by nia.
  exists q, (e' + scale), (new_location (Zpos my) r). intros s.
  assert (Hk : 2 <= e' + scale) by (unfold e', scale; lia).
  pose proof (new_location_code (Zpos my) r ltac:(lia) Hr) as NL.
  pose proof (loc_code_range (new_location (Zpos my) r)) as LR.
  cbv zeta in NL.
  assert (EQ : Zpos mx * 2 ^ (ex + scale) * 2 ^ scale = Zpos mx * 2 ^ sh * (2 ^ (e' + scale) * 2 ^ (ey + scale))).
  { rewrite <- (pow2_split (e' + scale)) by (unfold scale; lia). rewrite <- !Z.mul_assoc.
    rewrite <- !pow2_split by (unfold scale; lia). do 2 f_equal. unfold sh. lia. }
  rewrite EQ. clear EQ. pose proof (pow2_pos (e' + scale) ltac:(lia)) as PK.
  pose proof (pow2_pos (ey + scale) ltac:(unfold scale; lia)) as PY.
  set (K := 2 ^ (e' + scale)) in *. set (Y := 2 ^ (ey + scale)) in *.
  assert (Hbig : e' + scale <= scale - 149 \/ 2 ^ 23 <= q).
  { destruct (Z.le_gt_cases e' (-149)) as [|G]; [left; lia|right].
    pose proof (digits_spec (Zpos mx) ltac:(lia)) as Dx. pose proof (digits_spec (Zpos my) ltac:(lia)) as Dy.
    pose proof (digits_pos (Zpos mx) ltac:(lia)). pose proof (digits_pos (Zpos my) ltac:(lia)).
    assert (2 ^ 23 * 2 ^ digits (Zpos my) <= 2 ^ (digits (Zpos mx) - 1) * 2 ^ sh).
    { rewrite <- !pow2_split by lia. apply Z.pow_le_mono_r; unfold sh, e', d in *; lia. }
    assert (2 ^ 23 * Zpos my < (q + 1) * Zpos my) by nia. nia. }
  assert (EK : K = 4 * 2 ^ (e' + scale - 2)).
  { unfold K. replace (e' + scale) with (2 + (e' + scale - 2)) at 1 by lia.
    rewrite (pow2_split 2) by lia. lia. }
  assert (PU : 0 < 2 ^ (e' + scale - 2)) by (apply pow2_pos; lia).
  pose proof (quotient_facts _ (Zpos my) q r _ (2 ^ (e' + scale - 2)) Y ltac:(lia) DM Hr PU PY NL)
    as (QF1 & QF2 & QF3 & QF4).
  rewrite <- EK in QF1, QF2, QF3, QF4.
  assert (HP : 0 < 4 * q + loc_code (new_location (Zpos my) r)).
  { destruct (Z.eq_dec q 0) as [->|]; [|lia]. assert (r <> 0) by (intros ->; nia). lia. }
  split_and!; try assumption; try tauto.
  - assert (HS : 0 <= shift_to q e').
    { unfold shift_to. rewrite fexp_eq. destruct Hbig; [unfold scale in *; lia|].
      pose proof (digits_ge q 23 ltac:(lia) ltac:(lia)). lia. }
    rewrite round_aux_loc by (lia || assumption || (unfold scale in *; lia)).
    pose proof (shift_to_loc q e' (new_location (Zpos my) r) Hq ltac:(unfold scale in *; lia)) as SL.
    destruct (4 * q + loc_code (new_location (Zpos my) r)) as [|p|p] eqn:EP; try lia.
    unfold rounds. replace (e' + scale - 2) with (e' - 2 + scale) by lia.
    apply round_aux_spec; lia.
Qed.

(** A decimal literal that is not too large is canonical. *)
Lemma lit_fin num den : isfinite (lit num den) = true -> fin (lit num den) = true.
Proof.
  destruct num as [|n|n]; cbn [lit]; [reflexivity|..];
    (destruct (fdiv_core n 0 den 0 ltac:(lia) ltac:(lia)) as (q & k & l & C));
    [destruct (C false) as (_ & _ & _ & _ & _ & _ & _ & _ & R)|destruct (C true) as (_ & _ & _ & _ & _ & _ & _ & _ & R)];
    destruct (SFdiv_core_binary _ _ _ _ _ _) as [[mz ez] lz]; destruct R as [R1 R2];
    (destruct (Z.lt_ge_cases (rz ((4 * q + loc_code l) * 2 ^ (k - 2))) fz_huge) as [G|G];
      [now destruct (R1 G)|now rewrite (R2 G)]).
Qed.

(** The rounded quarters are on the same side of a representable value as the
    exact quotient. *)
Lemma quarters_side q k t N Y C J :
  0 <= q -> 2 <= k -> 0 < Y -> 0 <= C <= 2 ^ 24 -> scale - 149 <= J -> (k <= scale - 149 \/ 2 ^ 23 <= q) ->
  0 <= t <= 3 -> q * 2 ^ k * Y <= N ->
  Z.abs (N - (4 * q + t) * 2 ^ (k - 2) * Y) < 2 ^ (k - 2) * Y ->
  (Z.even t = true -> N = (4 * q + t) * 2 ^ (k - 2) * Y) ->
  (N <= C * 2 ^ J * Y -> (4 * q + t) * 2 ^ (k - 2) <= C * 2 ^ J) /\
  (C * 2 ^ J * Y <= N -> C * 2 ^ J <= (4 * q + t) * 2 ^ (k - 2)).
Proof.
  intros Hq Hk HY HC HJ KQ Ht Lo D EV.
  pose proof (pow2_pos (k - 2) ltac:(lia)) as PU.
  assert (EK : 2 ^ k = 4 * 2 ^ (k - 2)).
  { replace k with (2 + (k - 2)) at 1 by lia. rewrite (pow2_split 2) by lia. lia. }
  assert (PJ : 0 < 2 ^ J) by (apply pow2_pos; clear - HJ; unfold scale in *; lia).
  destruct (Z.le_gt_cases (k - 1) J) as [L|G].
  - replace J with ((J - (k - 1)) + (1 + (k - 2))) by lia.
    rewrite (pow2_split (J - (k - 1))), (pow2_split 1) by lia.
    replace (C * (2 ^ (J - (k - 1)) * (2 ^ 1 * 2 ^ (k - 2)))) with (2 * (C * 2 ^ (J - (k - 1))) * 2 ^ (k - 2)) by lia.
    set (c := C * 2 ^ (J - (k - 1))). set (u := 2 ^ (k - 2)) in *. set (n := 4 * q + t) in *.
    assert (CASE : (N = n * u * Y) \/ Z.even n = false).
    { destruct (Z.even t) eqn:E; [left; auto|right]. unfold n. rewrite Z.even_add, E.
      rewrite Z.even_mul. reflexivity. }
    assert (PUY : 0 < u * Y) by nia.
    assert (MONO : forall a b, a * u * Y <= b * u * Y <-> a <= b).
    { intros a b. rewrite <- !Z.mul_assoc. symmetry. apply Z.mul_le_mono_pos_r. lia. }
    assert (MONO' : forall a b, a * u * Y < b * u * Y <-> a < b).
    { intros a b. rewrite <- !Z.mul_assoc. symmetry. apply Z.mul_lt_mono_pos_r. lia. }
    pose proof (Zeven_div2 (n - 1)) as _.
    split; intros B; apply Z.mul_le_mono_nonneg_r; try lia.
    + destruct CASE as [->|O]; [apply MONO; lia|].
      assert (n - 1 < 2 * c) by (apply MONO'; lia).
      pose proof (Zmod_even n) as E. rewrite O in E. Z.to_euclidean_division_equations. lia.
    + destruct CASE as [->|O]; [apply MONO; lia|].
      assert (2 * c < n + 1) by (apply MONO'; lia).
      pose proof (Zmod_even n) as E. rewrite O in E. Z.to_euclidean_division_equations. lia.
  - destruct KQ as [KQ|KQ]; [lia|].
    assert (B : C * 2 ^ J <= 2 ^ 22 * 2 ^ k).
    { rewrite <- pow2_split by lia. apply Z.le_trans with (2 ^ 24 * 2 ^ J); [nia|].
      rewrite <- pow2_split by (clear - HJ; unfold scale in *; lia). apply Z.pow_le_mono_r; lia. }
    split; intros G'; [exfalso|nia].
    assert (C * 2 ^ J < q * 2 ^ k) by nia. nia.
Qed.

(** The quotient of two positive numbers. *)
Lemma fdiv_pos x y :
  fin x = true -> fin y = true -> 0 < fz x -> 0 < fz y ->
  exists W, 0 <= W /\ rounds false W (fdiv x y) /\
    forall C J, 0 <= C <= 2 ^ 24 -> scale - 149 <= J ->
      (fz x * 2 ^ scale <= C * 2 ^ J * fz y -> W <= C * 2 ^ J) /\
      (C * 2 ^ J * fz y <= fz x * 2 ^ scale -> C * 2 ^ J <= W).
Proof.
  intros Hx Hy X0 Y0.
  destruct x as [sx|sx| |sx mx ex]; try discriminate; try (cbn in X0; lia).
  destruct y as [sy|sy| |sy my ey]; try discriminate; try (cbn in Y0; lia).
  pose proof (fin_pow _ _ _ Hx). pose proof (fin_pow _ _ _ Hy). rewrite fz_finite in X0, Y0.
  assert (sx = false) as -> by (destruct sx; [exfalso; nia|reflexivity]).
  assert (sy = false) as -> by (destruct sy; [exfalso; nia|reflexivity]).
  rewrite !fz_finite, !Z.mul_1_l in *.
  destruct (fdiv_core mx ex my ey (fin_exp _ _ _ Hx) (fin_exp _ _ _ Hy)) as (q & k & l & C).
  destruct (C false) as (Q0 & K0 & KQ & [Lo _] & _ & P & D & EV & R). clear C.
  exists ((4 * q + loc_code l) * 2 ^ (k - 2)). split_and!.
  - pose proof (pow2_pos (k - 2) ltac:(lia)). nia.
  - exact R.
  - intros C J HC HJ. apply quarters_side; try assumption. apply loc_code_range.
Qed.

Lemma fz_zero_inv x : fin x = true -> fz x = 0 -> exists s, x = S754_zero s.
Proof.
  intros F Z0. destruct x as [s| | |s m e]; try discriminate F; [now exists s|].
  pose proof (fin_pow _ _ _ F). rewrite fz_finite in Z0. destruct s; nia.
Qed.

Lemma fz_decompose c : fin c = true -> 0 <= fz c ->
  exists C J, 0 <= C <= 2 ^ 24 /\ scale - 149 <= J /\ fz c = C * 2 ^ J.
Proof.
  intros H P. destruct c as [s|s| |s m e]; try discriminate.
  - exists 0, (scale - 149). split_and!; lia || reflexivity.
  - pose proof (fin_pow _ _ _ H). rewrite fz_finite in *.
    assert (s = false) as -> by (destruct s; [exfalso; nia|reflexivity]).
    exists (Zpos m), (e + scale). pose proof (fin_exp _ _ _ H). apply fin_finite in H as [H _].
    pose proof (digits_spec (Zpos m) ltac:(lia)).
    pose proof (Z.pow_le_mono_r 2 (digits (Zpos m)) 24 ltac:(lia) ltac:(lia)). split_and!; lia.
Qed.

(** The quotient stays below any number that bounds the exact ratio ... *)
Lemma fdiv_le x y c :
  fin x = true -> fin y = true -> fin c = true -> 0 <= fz x -> 0 < fz y -> 0 <= fz c ->
  fz x * 2 ^ scale <= fz c * fz y ->
  fin (fdiv x y) = true /\ 0 <= fz (fdiv x y) <= fz c.
Proof.
  intros Hx Hy Hc X0 Y0 C0 B. destruct (Z.eq_dec (fz x) 0) as [XZ|XN].
  - destruct x as [s|s| |s m e]; try discriminate.
    + destruct y as [sy|sy| |sy my ey]; try discriminate.
      cbn [fdiv SFdiv fin fz]. split; [reflexivity|lia].
    + pose proof (fin_pow _ _ _ Hx). rewrite fz_finite in XZ. destruct s; exfalso; nia.
  - destruct (fdiv_pos x y Hx Hy ltac:(lia) Y0) as (W & W0 & [R _] & F).
    destruct (fz_decompose c Hc C0) as (C & J & HC & HJ & E). rewrite E in B.
    destruct (F C J HC HJ) as [F1 _]. specialize (F1 B). rewrite <- E in F1.
    pose proof (rz_mono _ _ F1) as M. rewrite (rz_fz c Hc) in M.
    pose proof (fz_lt_huge c Hc). pose proof (rz_nonneg W W0).
    destruct R as [R1 R2]; [lia|]. split; [exact R1|lia].
Qed.

(** ... and above any number the ratio bounds. *)
Lemma fdiv_ge x y c :
  fin x = true -> fin y = true -> fin c = true -> 0 < fz x -> 0 < fz y -> 0 <= fz c ->
  fz c * fz y <= fz x * 2 ^ scale -> fin (fdiv x y) = true ->
  fz c <= fz (fdiv x y).
Proof.
  intros Hx Hy Hc X0 Y0 C0 B FD.
  destruct (fdiv_pos x y Hx Hy ltac:(lia) Y0) as (W & W0 & [R R'] & F).
  destruct (fz_decompose c Hc C0) as (C & J & HC & HJ & E). rewrite E in B.
  destruct (F C J HC HJ) as [_ F2]. specialize (F2 B). rewrite <- E in F2.
  pose proof (rz_mono _ _ F2) as M. rewrite (rz_fz c Hc) in M.
  destruct (Z.lt_ge_cases (rz W) fz_huge) as [L|L].
  - destruct (R L) as [_ ->]. lia.
  - rewrite (R' L) in FD. discriminate.
Qed.

(** A ratio of two values in [0, y] is in [0, 1]. *)
Corollary fdiv_unit x y :
  fin x = true -> fin y = true -> 0 < fz y -> 0 <= fz x <= fz y ->
  fin (fdiv x y) = true /\ 0 <= fz (fdiv x y) <= 2 ^ scale.
Proof.
  intros Hx Hy Y0 B. change (2 ^ scale) with (fz (of_Z 1)).
  apply fdiv_le; try assumption; try lia; try reflexivity.
  - vm_compute. discriminate.
  - change (fz (of_Z 1)) with (2 ^ scale). rewrite Z.mul_comm.
    apply Z.mul_le_mono_nonneg_l; [apply Z.lt_le_incl, pow2_pos; unfold scale|]; lia.
Qed.

(** Negation commutes with division and multiplication. *)
Lemma round_aux_opp s m e l : SFopp (binary_round_aux 24 128 s m e l) = binary_round_aux 24 128 (negb s) m e l.
Proof.
  unfold binary_round_aux. destruct (shr_fexp 24 128 m e l) as [mrs e'].
  destruct (shr_fexp _ _ _ _ _) as [mrs' e'']. destruct (shr_m mrs'); try reflexivity.
  destruct (e'' <=? _); reflexivity.
Qed.

Lemma fdiv_opp x y : isfinite y = true -> fdiv (SFopp x) y = SFopp (fdiv x y).
Proof.
  intros H. unfold fdiv, SFdiv.
  destruct x as [sx|sx| |sx mx ex], y as [sy|sy| |sy my ey]; try discriminate; cbn [SFopp];
    rewrite ?negb_xorb_l; try reflexivity.
  destruct (SFdiv_core_binary _ _ _ _ _ _) as [[q e] l]. now rewrite round_aux_opp, negb_xorb_l.
Qed.

Lemma fmul_opp x y : fmul (SFopp x) y = SFopp (fmul x y).
Proof.
  unfold fmul, SFmul.
  destruct x as [sx|sx| |sx mx ex], y as [sy|sy| |sy my ey]; cbn [SFopp];
    rewrite ?negb_xorb_l; try reflexivity.
  now rewrite round_aux_opp, negb_xorb_l.
Qed.

Lemma of_Z_opp z : z <> 0 -> of_Z (- z) = SFopp (of_Z z).
Proof.
  intros H. destruct z as [|p|p]; [lia| |].
  - change (- Zpos p) with (Zneg p). unfold of_Z, binary_normalize, binary_round.
    destruct (shl_align _ _ _). now rewrite round_aux_opp.
  - change (- Zneg p) with (Zpos p). unfold of_Z, binary_normalize, binary_round.
    destruct (shl_align _ _ _). now rewrite round_aux_opp.
Qed.

Lemma trunc_opp x : trunc (SFopp x) = Z.opp <$> trunc x.
Proof. destruct x as [| | |s m e]; try reflexivity. cbn. destruct s; cbn; f_equal; lia. Qed.

(** ** Nearest quotient, and exactness of dividing by ten and multiplying back

    [to_celsius] divides a tenth-of-a-degree count by ten and [from_celsius]
    multiplies by ten and truncates: the composition is exact on every 16-bit
    reading. *)

(** A value within half a unit of [c] rounds to [c]; at exactly half a unit
    when [c] is even. *)
Lemma rne_near c r j : 0 < j -> 2 * Z.abs r <= 2 ^ j -> (2 * Z.abs r = 2 ^ j -> Z.even c = true) ->
  rne (c * 2 ^ j + r) j = c.
Proof.
  intros Hj Hr EV. pose proof (pow2_pos j ltac:(lia)) as P. unfold rne.
  destruct (Z.le_gt_cases 0 r).
  - rewrite Z.abs_eq in * by lia. rewrite Z.add_comm, Z.div_add, Z.mod_add by lia.
    rewrite (Z.div_small r), (Z.mod_small r) by lia. rewrite Z.add_0_l.
    destruct (Z.compare_spec (2 * r) (2 ^ j)); [rewrite EV by lia; reflexivity|reflexivity|lia].
  - rewrite Z.abs_neq in * by lia.
    assert (DM : (c * 2 ^ j + r) / 2 ^ j = c - 1 /\ (c * 2 ^ j + r) mod 2 ^ j = 2 ^ j + r).
    { replace (c * 2 ^ j + r) with ((2 ^ j + r) + (c - 1) * 2 ^ j) by lia.
      rewrite Z.div_add, Z.mod_add by lia. rewrite Z.div_small, Z.mod_small by lia. lia. }
    destruct DM as [-> ->].
    destruct (Z.compare_spec (2 * (2 ^ j + r)) (2 ^ j)); [|lia|lia].
    replace (Z.even (c - 1)) with (negb (Z.even c)); [rewrite EV by lia; cbn; lia|].
    rewrite Z.even_sub. destruct (Z.even c); reflexivity.
Qed.

Lemma near_quarters M j n w N :
  2 <= j -> 0 < w -> 2 * Z.abs (M * 2 ^ j - n) <= 2 ^ j ->
  Z.abs (N - n * w) < w -> (Z.even n = true -> N = n * w) ->
  2 * Z.abs (M * 2 ^ j * w - N) <= 2 ^ j * w.
Proof.
  intros Hj Hw ER D EV.
  assert (EJ : 2 ^ j = 4 * 2 ^ (j - 2)).
  { replace j with (2 + (j - 2)) at 1 by lia. rewrite pow2_split by lia. lia. }
  set (h := 2 ^ (j - 2)) in *. rewrite EJ in *. clear EJ. clearbody h.
  set (c := M * (4 * h)) in *.
  assert (B : forall b, Z.abs (c - n) <= b -> Z.abs (c * w - n * w) <= b * w).
  { intros b Hb. rewrite <- Z.mul_sub_distr_r, Z.abs_mul, (Z.abs_eq w) by lia.
    apply Z.mul_le_mono_nonneg_r; lia. }
  destruct (Z.even n) eqn:E.
  - rewrite EV by reflexivity. specialize (B (2 * h) ltac:(lia)). lia.
  - assert (A : Z.abs (c - n) <= 2 * h - 1).
    { pose proof (Zmod_even n) as E1. rewrite E in E1.
      assert (c mod 2 = 0) by (unfold c; rewrite Z.mul_comm, <- !Z.mul_assoc, Z.mul_comm;
        replace (h * (M * 4)) with ((h * M * 2) * 2) by lia; apply Z_mod_mult || idtac;
        replace (h * M * 4) with ((h * M * 2) * 2) by lia; apply Z_mod_mult).
      Z.to_euclidean_division_equations. lia. }
    specialize (B _ A). lia.
Qed.

(** A value of [n] units is at least [2^e] when its neighbourhood is. *)
Lemma units_digits n u Y N e :
  1 <= n -> 0 < 2 ^ u -> 0 <= u -> 0 <= e -> 0 < Y -> 2 ^ e * Y <= N -> N < (n + 1) * 2 ^ u * Y ->
  e <= digits n + u.
Proof.
  intros Hn PU Hu He HY Lo Hi. pose proof (digits_spec n ltac:(lia)) as [_ DS].
  assert (2 ^ e < (n + 1) * 2 ^ u) by (apply Z.mul_lt_mono_pos_r with Y; lia).
  apply Z.lt_succ_r, Z.nle_gt. intros G.
  pose proof (Z.pow_le_mono_r 2 (digits n + u) e ltac:(lia) ltac:(lia)) as P.
  rewrite pow2_split in P by (lia || apply digits_nonneg).
  assert ((n + 1) * 2 ^ u <= 2 ^ digits n * 2 ^ u) by (apply Z.mul_le_mono_nonneg_r; lia). lia.
Qed.

Lemma fdiv_nearest x y :
  fin x = true -> fin y = true -> 0 < fz x -> 0 < fz y ->
  2 ^ (scale - 100) * fz y <= fz x * 2 ^ scale -> fin (fdiv x y) = true ->
  exists M K, fz (fdiv x y) = M * 2 ^ K /\ 0 < K /\ 2 ^ 23 <= M <= 2 ^ 24 /\
    2 * Z.abs (M * 2 ^ K * fz y - fz x * 2 ^ scale) <= 2 ^ K * fz y.
Proof.
  intros Hx Hy X0 Y0 BIG FD.
  destruct x as [sx|sx| |sx mx ex]; try discriminate; try (cbn in X0; lia).
  destruct y as [sy|sy| |sy my ey]; try discriminate; try (cbn in Y0; lia).
  pose proof (fin_pow _ _ _ Hx). pose proof (fin_pow _ _ _ Hy). rewrite fz_finite in X0, Y0.
  assert (sx = false) as -> by (destruct sx; [exfalso; nia|reflexivity]).
  assert (sy = false) as -> by (destruct sy; [exfalso; nia|reflexivity]).
  rewrite !fz_finite, !Z.mul_1_l in *.
  destruct (fdiv_core mx ex my ey (fin_exp _ _ _ Hx) (fin_exp _ _ _ Hy)) as (q & k & l & C).
  destruct (C false) as (Q0 & K0 & KQ & [Lo Hi] & _ & P & D & EV & R). clear C.
  set (X := Zpos mx * 2 ^ (ex + scale)) in *. set (Y := Zpos my * 2 ^ (ey + scale)) in *.
  set (t := loc_code l) in *. assert (Ht : 0 <= t <= 3) by apply loc_code_range.
  fold (SFdiv 24 128 (S754_finite false mx ex) (S754_finite false my ey)) in R.
  change (fdiv (S754_finite false mx ex) (S754_finite false my ey)) with
    (let '(mz, ez, lz) := SFdiv_core_binary 24 128 (Zpos mx) ex (Zpos my) ey in
     binary_round_aux 24 128 false mz ez lz) in *.
  set (r := let '(_, _, _) := _ in _) in *. clearbody r X Y t.
  pose proof (pow2_pos (k - 2) ltac:(lia)) as PU. pose proof (pow2_pos k ltac:(lia)) as PK.
  assert (Q1 : 2 ^ 23 <= q).
  { destruct KQ as [KQ|]; [|assumption].
    assert (L : 2 ^ (scale - 100) < (q + 1) * 2 ^ k) by (apply Z.mul_lt_mono_pos_r with Y; lia).
    pose proof (Z.pow_le_mono_r 2 k (scale - 149) ltac:(lia) KQ) as PW.
    replace (2 ^ (scale - 100)) with (2 ^ 49 * 2 ^ (scale - 149)) in L by reflexivity.
    assert (2 ^ 49 < q + 1); [|lia]. apply Z.mul_lt_mono_pos_r with (2 ^ k); [lia|].
    eapply Z.le_lt_trans; [|exact L]. apply Z.mul_le_mono_nonneg_l; lia. }
  set (n := 4 * q + t) in *. assert (Hn : 2 ^ 25 <= n) by lia.
  pose proof (digits_ge n 25 ltac:(lia) Hn) as DN.
  assert (EN : round_exp (n * 2 ^ (k - 2)) = (digits n - 24) + (k - 2)).
  { unfold round_exp. rewrite digits_mul_pow2 by lia.
    pose proof (units_digits n (k - 2) Y (X * 2 ^ scale) (scale - 100) ltac:(lia) PU ltac:(lia)
      ltac:(unfold scale; lia) Y0 BIG ltac:(lia)). lia. }
  pose proof (rne_error n (digits n - 24) ltac:(lia)) as ER.
  set (j := digits n - 24) in *. set (M := rne n j) in *.
  assert (V : fz r = M * 2 ^ (j + (k - 2))).
  { destruct R as [R R']. destruct (Z.lt_ge_cases (rz (n * 2 ^ (k - 2))) fz_huge) as [G|G].
    - destruct (R G) as [_ ->]. rewrite rz_pos, EN, Z.mul_1_l by (apply Z.mul_pos_pos; lia).
      f_equal. apply rne_scale; lia.
    - rewrite (R' G) in FD. discriminate. }
  exists M, (j + (k - 2)). split; [exact V|]. split; [lia|].
  pose proof (digits_spec n ltac:(lia)) as DS.
  split; [split|].
  - unfold M. rewrite <- (rne_exact (2 ^ 23) j) by lia. apply rne_mono; [lia|].
    rewrite <- pow2_split by lia. replace (23 + j) with (digits n - 1) by lia. lia.
  - unfold M. rewrite <- (rne_exact (2 ^ 24) j) by lia. apply rne_mono; [lia|].
    rewrite <- pow2_split by lia. replace (24 + j) with (digits n) by lia. lia.
  - rewrite (pow2_split j) by lia. rewrite !Z.mul_assoc, <- !(Z.mul_assoc _ (2 ^ (k - 2)) Y).
    apply near_quarters with n; [lia|apply Z.mul_pos_pos; lia|exact ER|rewrite Z.mul_assoc; exact D|].
    rewrite Z.mul_assoc. intros E. apply EV. unfold n in E. rewrite Z.even_add, Z.even_mul in E.
    destruct (Z.even t); [reflexivity|discriminate].
Qed.

(** Multiplying a quotient by ten recovers an integer below 2^15. *)
Lemma mul10_exact M K B :
  0 < K -> 2 ^ 23 <= M <= 2 ^ 24 -> 0 < B -> (B mod 2 ^ (K + 4) = 0) ->
  scale - 149 <= K ->
  2 * Z.abs (M * 2 ^ K * 10 - B) <= 2 ^ K * 10 ->
  rz (M * 2 ^ K * 10) = B.
Proof.
  intros HK HM HB HD Hsc E. pose proof (pow2_pos K ltac:(lia)) as PK.
  apply Z_div_exact_full_2 in HD; [|pose proof (pow2_pos (K + 4) ltac:(lia)); lia].
  set (b := B / 2 ^ (K + 4)) in *. rewrite pow2_split in HD by lia. change (2 ^ 4) with 16 in HD.
  set (r := 10 * M - 16 * b).
  assert (Hr : 2 * Z.abs r <= 10).
  { apply (Z.mul_le_mono_pos_r _ _ (2 ^ K) PK). unfold r.
    rewrite <- Z.mul_assoc, <- (Z.abs_eq (2 ^ K)) at 1 by lia. rewrite <- Z.abs_mul.
    replace ((10 * M - 16 * b) * 2 ^ K) with (M * 2 ^ K * 10 - B) by (rewrite HD; lia). lia. }
  replace (M * 2 ^ K * 10) with ((16 * b + r) * 2 ^ K) by (unfold r; lia).
  rewrite rz_pos by (apply Z.mul_pos_pos; unfold r in *; lia).
  assert (D : digits (16 * b + r) = 27 \/ digits (16 * b + r) = 28).
  { replace (16 * b + r) with (10 * M) by (unfold r; lia).
    pose proof (digits_ge (10 * M) 26 ltac:(lia) ltac:(lia)).
    pose proof (digits_le (10 * M) 28 ltac:(lia) ltac:(lia) ltac:(lia)). lia. }
  assert (RE : round_exp ((16 * b + r) * 2 ^ K) = (digits (16 * b + r) - 24) + K).
  { unfold round_exp. rewrite digits_mul_pow2 by (unfold r in *; lia). lia. }
  rewrite RE. rewrite rne_scale by lia. rewrite pow2_split by lia.
  destruct D as [-> | ->].
  - replace (16 * b + r) with ((2 * b) * 2 ^ (27 - 24) + r) by lia.
    rewrite rne_near; [rewrite HD; lia|lia| |intros _; now rewrite Z.even_mul].
    assert (r mod 2 = 0) by (unfold r; Z.to_euclidean_division_equations; lia).
    change (2 ^ (27 - 24)) with 8. Z.to_euclidean_division_equations. lia.
  - replace (16 * b + r) with (b * 2 ^ (28 - 24) + r) by lia.
    rewrite rne_near; [rewrite HD; lia|lia| |].
    + change (2 ^ (28 - 24)) with 16. lia.
    + change (2 ^ (28 - 24)) with 16. lia.
Qed.

(** The exponent of the quotient of an integer by ten. *)
Lemma div10_exponent M K d S :
  0 < d < 32768 -> 0 < K -> 2 ^ 23 <= M <= 2 ^ 24 -> S = 2 ^ scale ->
  2 * Z.abs (M * 2 ^ K * 10 - d * S) <= 2 ^ K * 10 -> 272 <= K <= 288.
Proof.
  intros Hd HK HM ES E. pose proof (pow2_pos K ltac:(lia)) as PK.
  set (P := 2 ^ K) in *.
  assert (PS : 0 < S) by (subst S; apply pow2_pos; unfold scale; lia).
  assert (U : 2 ^ 26 * P < 2 ^ 15 * S).
  { assert (2 ^ 26 * P <= (10 * M - 5) * P) by (apply Z.mul_le_mono_nonneg_r; lia).
    assert (d * S < 2 ^ 15 * S) by (apply Z.mul_lt_mono_pos_r; lia). lia. }
  assert (L : S <= 2 ^ 28 * P).
  { assert ((10 * M + 5) * P <= 2 ^ 28 * P) by (apply Z.mul_le_mono_nonneg_r; lia).
    assert (1 * S <= d * S) by (apply Z.mul_le_mono_nonneg_r; lia). lia. }
  subst S P. unfold scale in *. rewrite <- (pow2_split 26 K), <- (pow2_split 15 300) in U by lia.
  rewrite <- (pow2_split 28 K) in L by lia.
  apply Z.pow_lt_mono_r_iff in U; [|lia|lia]. apply Z.pow_le_mono_r_iff in L; lia.
Qed.

Lemma div10_mul10_pos d : 0 < d < 32768 ->
  fin (fmul (fdiv (of_Z d) (of_Z 10)) (of_Z 10)) = true /\
  fz (fmul (fdiv (of_Z d) (of_Z 10)) (of_Z 10)) = d * 2 ^ scale.
Proof.
  intros Hd. destruct (of_Z_spec d ltac:(lia)) as [Fd Vd].
  destruct (of_Z_spec 10 ltac:(lia)) as [F10 V10].
  assert (PS : 0 < 2 ^ scale) by (apply pow2_pos; unfold scale; lia).
  destruct (fdiv_le (of_Z d) (of_Z 10) (of_Z d) Fd F10 Fd) as [FD _]; rewrite ?Vd, ?V10; try nia.
  destruct (fdiv_nearest (of_Z d) (of_Z 10) Fd F10) as (M & K & V & HK & HM & NE); rewrite ?Vd, ?V10 in *;
    try nia; try assumption.
  { apply Z.le_trans with (2 ^ scale * 2 ^ scale); [|nia].
    rewrite (Z.mul_comm 10), Z.mul_assoc, Z.mul_comm, Z.mul_assoc. apply Z.mul_le_mono_nonneg_r; [lia|].
    vm_compute; discriminate. }
  pose proof (fmul_spec _ _ FD F10) as R. rewrite V10, V in R.
  replace (M * 2 ^ K * (10 * 2 ^ scale) / 2 ^ scale) with (M * 2 ^ K * 10) in R
    by (rewrite Z.mul_assoc, Z.div_mul by lia; reflexivity).
  assert (E : 2 * Z.abs (M * 2 ^ K * 10 - d * 2 ^ scale) <= 2 ^ K * 10).
  { apply (Z.mul_le_mono_pos_r _ _ (2 ^ scale) PS). clear - NE PS.
    generalize dependent (2 ^ scale). intros S NE PS.
    assert (A : Z.abs (M * 2 ^ K * 10 - d * S) * S = Z.abs (M * 2 ^ K * (10 * S) - d * S * S)).
    { rewrite <- (Z.abs_eq S) at 2 by lia. rewrite <- Z.abs_mul. f_equal. lia. }
    rewrite <- Z.mul_assoc, A. lia. }
  pose proof (div10_exponent M K d _ Hd HK HM eq_refl E) as KB.
  assert (X : rz (M * 2 ^ K * 10) = d * 2 ^ scale).
  { apply mul10_exact; try assumption; [lia| |unfold scale; lia].
    replace scale with ((scale - (K + 4)) + (K + 4)) by lia.
    rewrite pow2_split by (unfold scale; lia). rewrite Z.mul_assoc. apply Z_mod_mult. }
  unfold rounds_to in R. rewrite X in R. apply R.
  rewrite Z.abs_mul, (Z.abs_eq (2 ^ scale)) by lia. rewrite Z.abs_eq by lia.
  unfold fz_huge. rewrite pow2_split by (unfold scale; lia).
  apply Z.mul_lt_mono_pos_r; [exact PS|]. eapply Z.lt_trans; [apply Hd|reflexivity].
Qed.

(** Dividing a 16-bit integer by ten and multiplying it back loses nothing,
    although the quotient is rounded. *)
Lemma div10_mul10 d : -32768 < d < 32768 ->
  trunc (fmul (fdiv (of_Z d) (of_Z 10)) (of_Z 10)) = Some d.
Proof.
  assert (POS : forall d, 0 < d < 32768 -> trunc (fmul (fdiv (of_Z d) (of_Z 10)) (of_Z 10)) = Some d).
  { intros n Hn. destruct (div10_mul10_pos n Hn) as [F V]. rewrite trunc_spec by exact F.
    rewrite V, Z.quot_mul by (pose proof (pow2_pos scale ltac:(unfold scale; lia)); lia). reflexivity. }
  intros Hd. destruct (Z.lt_trichotomy d 0) as [N|[->|P]]; [|reflexivity|apply POS; lia].
  replace d with (- - d) at 1 by lia. rewrite of_Z_opp, fdiv_opp, fmul_opp, trunc_opp by (lia || reflexivity).
  rewrite POS by lia. cbn. f_equal. lia.
Qed.

(** ** Comparisons of any two values *)

Lemma fcompare_antisym x y : SFcompare y x = option_map CompOpp (SFcompare x y).
Proof.
  destruct x as [s|s| |s m e], y as [s'|s'| |s' m' e']; try destruct s; try destruct s'; try reflexivity;
    cbn; rewrite (Z.compare_antisym e e'); destruct (e ?= e'); cbn; try reflexivity;
    rewrite !(Pos.compare_cont_antisym m m'); cbn; try reflexivity;
    destruct (Pos.compare_cont Eq m m'); reflexivity.
Qed.

Lemma fle_not_gt x y : fle x y = true -> flt y x = false.
Proof.
  unfold fle, flt, SFleb, SFltb. rewrite (fcompare_antisym x y).
  destruct (SFcompare x y) as [[]|]; cbn; congruence.
Qed.

Lemma fle_not_fgt x y : fle x y = true -> fgt x y = false.
Proof. exact (fle_not_gt x y). Qed.
