(* ===== verification/Float64.v ===== *)
(** * Binary64 numbers

    The [double]s the user interface hands to the program: they are compared and
    converted to [float] only. Then the theory of the conversion, for the numbers
    between 1 and 2^128. *)

From S2P Require Import Prelude.
From S2P Require Import Float32.

Abbreviation f64 := spec_float.

(** [static_cast<double>] of an integer, and a literal [num/den]. *)
Definition of_Z64 (z : Z) : f64 := binary_normalize 53 1024 z 0 false.

Definition lit64 (num den : positive) : f64 :=
  let '(q, e, l) := SFdiv_core_binary 53 1024 (Zpos num) 0 (Zpos den) 0 in
  binary_round_aux 53 1024 false q e l.

(** A finite double, in its canonical form. *)
Definition fin64 (x : f64) : bool :=
  match x with
  | S754_zero _ => true
  | S754_finite _ m e => bounded 53 1024 m e
  | _ => false
  end.

(** What a [double] is: canonical, or one of the special values. *)
Definition is_f64 (x : f64) : bool := match x with S754_finite _ m e => bounded 53 1024 m e | _ => true end.

(** [static_cast<float>]. *)
Definition to_f32 (x : f64) : f32 :=
  match x with
  | S754_finite s m e => binary_round 24 128 s m e
  | _ => x
  end.

Example lit64_tenth : lit64 1 10 = S754_finite false 7205759403792794 (-56). Proof. reflexivity. Qed.
Example to_f32_tenth : to_f32 (lit64 1 10) = lit 1 10. Proof. reflexivity. Qed.
Example to_f32_huge : to_f32 (of_Z64 (2 ^ 200)) = S754_infinity false. Proof. reflexivity. Qed.

(** * Theorems *)

Lemma bounded64 m e : bounded 53 1024 m e = true ->
  Zpos m < 2 ^ 53 /\ (-1074 < e -> 2 ^ 52 <= Zpos m) /\ e <= 971.
Proof.
  unfold bounded, canonical_mantissa. rewrite digits2_digits, andb_true_iff, Z.eqb_eq, Z.leb_le.
  unfold fexp, emin. intros [C L]. pose proof (digits_spec (Zpos m) ltac:(lia)) as [D1 D2].
  assert (D : digits (Zpos m) <= 53) by lia.
  pose proof (Z.pow_le_mono_r 2 (digits (Zpos m)) 53 ltac:(lia) D). split_and!; [lia| |lia].
  intros G. assert (E : digits (Zpos m) = 53) by lia. rewrite E in D1. exact D1.
Qed.

(** An ordering of doubles whose exponents are not the smallest. *)
Lemma compare64_le m1 e1 m2 e2 : -1074 < e1 -> -1074 < e2 -> bounded 53 1024 m1 e1 = true -> bounded 53 1024 m2 e2 = true ->
  fle (S754_finite false m1 e1) (S754_finite false m2 e2) = true ->
  forall e, e <= e1 -> e <= e2 -> Zpos m1 * 2 ^ (e1 - e) <= Zpos m2 * 2 ^ (e2 - e).
Proof.
  intros G1 G2 B1 B2 L e L1 L2. apply bounded64 in B1 as (U1 & N1 & _), B2 as (U2 & N2 & _).
  specialize (N1 G1). specialize (N2 G2). unfold fle, SFleb, SFcompare in L.
  destruct (Z.compare_spec e1 e2) as [->|C|C]; [| |discriminate].
  - assert (M : Zpos m1 <= Zpos m2).
    { change (Pos.compare_cont Eq m1 m2) with (m1 ?= m2)%positive in L. destruct (Pos.compare_spec m1 m2); [lia|lia|discriminate]. }
    pose proof (pow2_pos (e2 - e) ltac:(lia)). nia.
  - replace (e2 - e) with ((e2 - e1) + (e1 - e)) by lia. rewrite pow2_split by lia.
    assert (P : 2 <= 2 ^ (e2 - e1)) by (change 2 with (2 ^ 1) at 1; apply Z.pow_le_mono_r; lia).
    pose proof (pow2_pos (e1 - e) ltac:(lia)). assert (Zpos m1 <= Zpos m2 * 2 ^ (e2 - e1)) by nia. nia.
Qed.

(** Rounding a double between two of the numbers a [float] can be. *)
Lemma to_f32_between ma ea mb eb x : -300 <= ea -> -300 <= eb ->
  bounded 53 1024 ma ea = true -> bounded 53 1024 mb eb = true ->
  let a := Zpos ma * 2 ^ (ea + scale) in let b := Zpos mb * 2 ^ (eb + scale) in
  rz a = a -> rz b = b -> b < fz_huge ->
  is_f64 x = true -> fle (S754_finite false ma ea) x = true -> fle x (S754_finite false mb eb) = true ->
  fin (to_f32 x) = true /\ a <= fz (to_f32 x) <= b.
Proof.
  intros Ga Gb Ba Bb a b Ra Rb Hb Fx La Lb. destruct x as [s|[]| |[] m e]; try discriminate.
  cbn [is_f64] in Fx. assert (Ge : ea <= e).
  { unfold fle, SFleb, SFcompare in La. destruct (Z.compare_spec ea e); [lia|lia|discriminate]. }
  pose proof (compare64_le ma ea m e ltac:(lia) ltac:(lia) Ba Fx La (- scale) ltac:(unfold scale; lia) ltac:(unfold scale; lia)) as A.
  pose proof (compare64_le m e mb eb ltac:(lia) ltac:(lia) Fx Bb Lb (- scale) ltac:(unfold scale; lia) ltac:(unfold scale; lia)) as B.
  rewrite !Z.sub_opp_r in A, B. fold a in A. fold b in B.
  destruct (binary_round_spec false m e ltac:(unfold scale; lia)) as [R _]. cbn [to_f32].
  apply rz_mono in A, B. rewrite Ra in A. rewrite Rb in B. destruct R as [F E]; [lia|]. split; [exact F|]. lia.
Qed.

(** The targets of a heater. *)
Lemma to_f32_celsius x : is_f64 x = true -> fle (of_Z64 37) x = true -> fle x (of_Z64 160) = true ->
  fin (to_f32 x) = true /\ fge (to_f32 x) (of_Z 37) = true /\ fle (to_f32 x) (of_Z 160) = true.
Proof.
  intros F L U.
  assert (E1 : of_Z64 37 = S754_finite false 5207287069147136 (-47)) by (vm_compute; reflexivity).
  assert (E2 : of_Z64 160 = S754_finite false 5629499534213120 (-45)) by (vm_compute; reflexivity).
  rewrite E1 in L. rewrite E2 in U.
  assert (V1 : 5207287069147136 * 2 ^ (-47 + scale) = 37 * 2 ^ scale) by (vm_compute; reflexivity).
  assert (V2 : 5629499534213120 * 2 ^ (-45 + scale) = 160 * 2 ^ scale) by (vm_compute; reflexivity).
  pose proof (to_f32_between 5207287069147136 (-47) 5629499534213120 (-45) x ltac:(lia) ltac:(lia) eq_refl eq_refl) as T.
  cbv zeta in T. rewrite V1, V2, !rz_exact_abs in T by (unfold scale; lia).
  destruct (T eq_refl eq_refl ltac:(reflexivity) F L U) as (Fx & A & B). split; [exact Fx|].
  destruct (of_Z_spec 37 ltac:(lia)) as [F37 V37], (of_Z_spec 160 ltac:(lia)) as [F160 V160].
  rewrite fge_spec, fle_spec, V37, V160 by assumption. split; now apply Z.leb_le.
Qed.

(** Finite numbers are ordered. *)
Lemma not_flt_fle x y : isfinite x = true -> isfinite y = true -> flt x y = false -> fle y x = true.
Proof.
  intros Fx Fy L. unfold flt, fle, SFltb, SFleb in *. rewrite (fcompare_antisym x y).
  destruct (SFcompare x y) as [[]|] eqn:C; try reflexivity; try discriminate L.
  destruct x as [|[]| |[]], y as [|[]| |[]]; try discriminate; cbn in C; repeat case_match; discriminate.
Qed.
