(* ===== verification/Common.v ===== *)
(** * Shared types and utilities (src/src/common)

    [Status] and [Result] (result.h, [status_name] of logging.cpp), the time
    types (time_types.h), the wire units (units.h), the CRC of C1-Link
    (crc16.cpp) and the fixed-capacity byte queue (ring_buffer.h), with the
    queue's refinement to a FIFO list and the algebra of the CRC. *)

From S2P Require Import Prelude.
From S2P Require Import Float32.
#[local] Open Scope string_scope.
#[local] Open Scope Z_scope.
#[local] Open Scope list_scope.

(** ** result.h *)

Inductive Status :=
| Ok
| Timeout
| CrcMismatch
| Overflow
| InvalidArgument
| NotReady
| HardwareFault
| ProtocolError.

#[export] Instance Status_eq_dec : EqDecision Status.
Proof. solve_decision. Defined.

Definition status_name (status : Status) : string :=
  match status with
  | Ok => "Ok"
  | Timeout => "Timeout"
  | CrcMismatch => "CrcMismatch"
  | Overflow => "Overflow"
  | InvalidArgument => "InvalidArgument"
  | NotReady => "NotReady"
  | HardwareFault => "HardwareFault"
  | ProtocolError => "ProtocolError"
  end.

(** [Result<T>] of an integer type [T]: the value of an error is [T{}], zero. *)
Module Result.

Record Result := { status_ : Status; value_ : Z }.

Definition ok (value : Z) : Result := {| status_ := Ok; value_ := value |}.
Definition err (status : Status) : Result := {| status_ := status; value_ := 0 |}.
Definition is_ok (r : Result) : bool := bool_decide (status_ r = Ok).
Definition status (r : Result) : Status := status_ r.
Definition value (r : Result) : Z := value_ r.

End Result.

(** ** time_types.h *)

(** [to_millis] drops the high bits: [Millis] wraps every 2^32 ms. *)
Definition to_millis (us : Z) : Z := u32 (us / 1000).
Definition ms_to_us (ms : Z) : Z := u64 (ms * 1000).
Definition s_to_us (s : Z) : Z := u64 (s * 1000000).

(** ** units.h *)

Definition to_celsius (deci : Z) : f32 := fdiv (of_Z deci) (of_Z 10).

(** The cast to [DeciCelsius] is undefined outside the 16-bit range. *)
Definition from_celsius (celsius : f32) : option Z := to_i16 (fmul celsius (of_Z 10)).

(** ** crc16.cpp *)

(** One round of the bit loop, and the whole body of the byte loop. *)
Definition crc16_bit (crc : Z) : Z :=
  if negb (Z.land crc 0x8000 =? 0)
  then u16 (Z.lxor (u16 (Z.shiftl crc 1)) 0x1021)
  else u16 (Z.shiftl crc 1).

Definition crc16_byte (crc byte : Z) : Z :=
  Nat.iter 8 crc16_bit (u16 (Z.lxor crc (Z.shiftl byte 8))).

Definition crc16_ccitt (data : list Z) (seed : Z) : Z := fold_left crc16_byte data seed.
#[global] Arguments crc16_byte : simpl never.
#[global] Arguments crc16_ccitt : simpl never.
#[global] Opaque crc16_byte.

(** ** ring_buffer.h *)

Module RingBuffer.

Record RingBuffer := { buf_ : list Z; head_ : nat; tail_ : nat; count_ : nat }.

Section WithCapacity.
Context (Capacity : nat).

Definition empty_buffer : RingBuffer :=
  {| buf_ := replicate Capacity 0; head_ := 0; tail_ := 0; count_ := 0 |}.

Definition push (byte : Z) (rb : RingBuffer) : bool * RingBuffer :=
  if (count_ rb =? Capacity)%nat then (false, rb)
  else (true, {| buf_ := <[head_ rb := byte]> (buf_ rb);
                 head_ := (head_ rb + 1) `mod` Capacity;
                 tail_ := tail_ rb;
                 count_ := S (count_ rb) |}).

(** [None]: the call returns false and leaves [*out] alone. *)
Definition pop (rb : RingBuffer) : option Z * RingBuffer :=
  if (count_ rb =? 0)%nat then (None, rb)
  else (Some (nth (tail_ rb) (buf_ rb) 0),
        {| buf_ := buf_ rb;
           head_ := head_ rb;
           tail_ := (tail_ rb + 1) `mod` Capacity;
           count_ := pred (count_ rb) |}).

Definition empty (rb : RingBuffer) : bool := (count_ rb =? 0)%nat.
Definition size (rb : RingBuffer) : nat := count_ rb.

(** The invariant of the class, and the queue a buffer stands for. *)
Definition wf (rb : RingBuffer) : Prop :=
  length (buf_ rb) = Capacity /\ (tail_ rb < Capacity)%nat /\ (count_ rb <= Capacity)%nat /\
  head_ rb = ((tail_ rb + count_ rb) `mod` Capacity)%nat.

Definition contents (rb : RingBuffer) : list Z :=
  (fun i => nth ((tail_ rb + i) `mod` Capacity)%nat (buf_ rb) 0) <$> seq 0 (count_ rb).

End WithCapacity.
End RingBuffer.

(** * Theorems *)

(** ** The wire units *)

Lemma from_to_celsius_i16 d : in_i16 d -> from_celsius (to_celsius d) = Some d.
Proof.
  intros Hd. unfold from_celsius, to_celsius, to_i16, to_int.
  destruct (Z.eq_dec d (-32768)) as [->|N]; [reflexivity|].
  unfold in_i16 in Hd. rewrite div10_mul10 by lia. cbv beta iota.
  destruct (Z.leb_spec (-32768) d); [|lia]. destruct (Z.leb_spec d 32767); [|lia]. reflexivity.
Qed.

(** A temperature that arrives as a 16-bit number of tenths of a degree is
    the same number after it was converted to degrees and back, although the
    binary32 quotient by ten is rounded. *)
Theorem from_to_celsius d : in_i16 d -> from_celsius (to_celsius d) = Some d.
Proof. apply from_to_celsius_i16. Qed.

Lemma from_to_celsius_witness : in_i16 1655 /\ from_celsius (to_celsius 1655) = Some 1655.
Proof. split; [split; reflexivity || discriminate | apply (from_to_celsius 1655); split; reflexivity || discriminate]. Defined.

(** ** Temperatures as floats *)

(** A tenth-degree reading converts to a finite float no larger than the bound
    of any whole number of sixteenths above it, nor smaller than one below. *)
Lemma to_celsius_pos d : 0 < d < 32769 ->
  fin (to_celsius d) = true /\ 0 < fz (to_celsius d) /\
  forall n, 0 <= n <= 1000000 ->
    (8 * d <= 5 * n -> 16 * fz (to_celsius d) <= n * 2 ^ scale) /\
    (5 * n <= 8 * d -> n * 2 ^ scale <= 16 * fz (to_celsius d)).
Proof.
  intros Hd. unfold to_celsius. destruct (of_Z_spec d ltac:(lia)) as [Fd Vd].
  destruct (of_Z_spec 10 ltac:(lia)) as [F10 V10].
  assert (PS : 0 < 2 ^ scale) by (apply pow2_pos; unfold scale; lia).
  assert (C : forall n, 0 <= n <= 1000000 -> exists c, fin c = true /\ 16 * fz c = n * 2 ^ scale).
  { intros n Hn. pose proof (normalize_spec n (-4) false ltac:(unfold scale; lia)) as R.
    unfold rounds_to in R. rewrite rz_exact_abs in R by (unfold scale; lia).
    destruct R as [R1 R2].
    { rewrite Z.abs_mul, (Z.abs_eq (2 ^ _)) by (apply Z.pow_nonneg; lia). unfold fz_huge.
      replace (2 ^ (128 + scale)) with (2 ^ 132 * 2 ^ (-4 + scale)) by reflexivity.
      apply Z.mul_lt_mono_pos_r; [apply pow2_pos; unfold scale; lia|lia]. }
    eexists. split; [exact R1|]. rewrite R2.
    replace (2 ^ scale) with (2 ^ 4 * 2 ^ (-4 + scale)) by reflexivity. lia. }
  destruct (fdiv_le (of_Z d) (of_Z 10) (of_Z d) Fd F10 Fd) as [FD _]; rewrite ?Vd, ?V10; try nia.
  assert (B : forall n, 0 <= n <= 1000000 ->
    (8 * d <= 5 * n -> 16 * fz (fdiv (of_Z d) (of_Z 10)) <= n * 2 ^ scale) /\
    (5 * n <= 8 * d -> n * 2 ^ scale <= 16 * fz (fdiv (of_Z d) (of_Z 10)))).
  { intros n Hn. destruct (C n Hn) as (c & Fc & Vc). split; intros G.
    - destruct (fdiv_le (of_Z d) (of_Z 10) c Fd F10 Fc) as [_ B]; rewrite ?Vd, ?V10 in *; try lia; nia.
    - assert (fz c <= fz (fdiv (of_Z d) (of_Z 10))); [|lia].
      apply fdiv_ge; rewrite ?Vd, ?V10; try assumption; nia. }
  split; [exact FD|]. split; [|exact B]. destruct (B 1 ltac:(lia)) as [_ B1]. lia.
Qed.

Lemma to_celsius_neg d : d < 0 -> to_celsius d = SFopp (to_celsius (- d)).
Proof.
  intros Hd. unfold to_celsius. replace d with (- - d) at 1 by lia.
  rewrite of_Z_opp, fdiv_opp by (lia || reflexivity). reflexivity.
Qed.

Lemma to_celsius_fin d : in_i16 d ->
  fin (to_celsius d) = true /\ Z.abs (fz (to_celsius d)) <= 3277 * 2 ^ scale.
Proof.
  intros Hd. unfold in_i16 in Hd. destruct (Z.lt_trichotomy d 0) as [N|[->|P]].
  - rewrite to_celsius_neg, fin_opp, fz_opp, Z.abs_opp by lia.
    destruct (to_celsius_pos (- d) ltac:(lia)) as (F & P & B). split; [exact F|].
    destruct (B 52432 ltac:(lia)) as [B1 _]. specialize (B1 ltac:(lia)). lia.
  - split; [reflexivity|]. vm_compute. discriminate.
  - destruct (to_celsius_pos d ltac:(lia)) as (F & Q & B). split; [exact F|].
    destruct (B 52432 ltac:(lia)) as [B1 _]. specialize (B1 ltac:(lia)). lia.
Qed.

(** A whole number of degrees is compared with a reading as tenths are. *)
Lemma to_celsius_gt d k : in_i16 d -> 0 <= k <= 3200 -> fgt (to_celsius d) (of_Z k) = (10 * k <? d).
Proof.
  intros Hd Hk. destruct (to_celsius_fin d Hd) as [F _]. destruct (of_Z_spec k ltac:(lia)) as [Fk Vk].
  rewrite fgt_spec, Vk by assumption. assert (PS : 0 < 2 ^ scale) by (apply pow2_pos; unfold scale; lia).
  unfold in_i16 in Hd. destruct (Z.le_gt_cases d 0) as [N|P].
  - assert (fz (to_celsius d) <= 0).
    { destruct (Z.eq_dec d 0) as [->|]; [reflexivity|]. rewrite to_celsius_neg, fz_opp by lia.
      destruct (to_celsius_pos (- d) ltac:(lia)) as (_ & P & _). lia. }
    destruct (Z.ltb_spec (k * 2 ^ scale) (fz (to_celsius d))), (Z.ltb_spec (10 * k) d); nia || reflexivity.
  - destruct (to_celsius_pos d ltac:(lia)) as (_ & _ & B).
    destruct (B (16 * k) ltac:(lia)) as [B1 _]. destruct (B (16 * k + 1) ltac:(lia)) as [_ B2].
    destruct (Z.ltb_spec (k * 2 ^ scale) (fz (to_celsius d))), (Z.ltb_spec (10 * k) d);
      try reflexivity; exfalso; [specialize (B1 ltac:(lia)); nia|specialize (B2 ltac:(lia)); nia].
Qed.

(** Whole degrees bound the tenths a float converts to. *)
Lemma from_celsius_range x lo hi : fin x = true -> 0 <= lo <= hi -> hi <= 3200 ->
  fge x (of_Z lo) = true -> fle x (of_Z hi) = true ->
  exists d, from_celsius x = Some d /\ 10 * lo <= d <= 10 * hi.
Proof.
  intros F Hlo Hhi L U. assert (PS : 0 < 2 ^ scale) by (apply pow2_pos; unfold scale; lia).
  destruct (of_Z_spec hi ltac:(lia)) as [Fh Vh]. destruct (of_Z_spec lo ltac:(lia)) as [Fl Vl].
  rewrite fge_spec, Vl in L by assumption. rewrite fle_spec, Vh in U by assumption.
  apply Z.leb_le in L, U. destruct (of_Z_spec 10 ltac:(lia)) as [F10 V10].
  pose proof (fmul_spec x (of_Z 10) F F10) as R. rewrite V10, Z.mul_assoc, Z.div_mul in R by lia.
  assert (B : 10 * lo * 2 ^ scale <= rz (fz x * 10) <= 10 * hi * 2 ^ scale).
  { rewrite <- (rz_exact_abs (10 * lo) scale), <- (rz_exact_abs (10 * hi) scale) by (unfold scale; lia).
    split; apply rz_mono; lia. }
  destruct R as [Fm Vm].
  { unfold fz_huge. replace (2 ^ (128 + scale)) with (2 ^ 128 * 2 ^ scale) by reflexivity. nia. }
  unfold from_celsius, to_i16, to_int. rewrite trunc_spec, Vm by assumption.
  rewrite Z.quot_div_nonneg by nia. set (q := rz (fz x * 10) / 2 ^ scale).
  assert (Q : 10 * lo <= q <= 10 * hi).
  { unfold q. split; [apply Z.div_le_lower_bound|apply Z.div_le_upper_bound]; lia. }
  exists q. destruct (Z.leb_spec (-32768) q); [|lia]. destruct (Z.leb_spec q 32767); [|lia]. now split.
Qed.

Lemma to_celsius_ge d k : in_i16 d -> 1 <= k <= 3200 -> fge (to_celsius d) (of_Z k) = (10 * k <=? d).
Proof.
  intros Hd Hk. destruct (to_celsius_fin d Hd) as [F _]. destruct (of_Z_spec k ltac:(lia)) as [Fk Vk].
  rewrite fge_spec, Vk by assumption. assert (PS : 0 < 2 ^ scale) by (apply pow2_pos; unfold scale; lia).
  unfold in_i16 in Hd. destruct (Z.le_gt_cases d 0) as [N|P].
  - assert (fz (to_celsius d) <= 0).
    { destruct (Z.eq_dec d 0) as [->|]; [reflexivity|]. rewrite to_celsius_neg, fz_opp by lia.
      destruct (to_celsius_pos (- d) ltac:(lia)) as (_ & P & _). lia. }
    destruct (Z.leb_spec (k * 2 ^ scale) (fz (to_celsius d))), (Z.leb_spec (10 * k) d); nia || reflexivity.
  - destruct (to_celsius_pos d ltac:(lia)) as (_ & _ & B).
    destruct (B (16 * k) ltac:(lia)) as [_ B1]. destruct (B (16 * k - 1) ltac:(lia)) as [B2 _].
    destruct (Z.leb_spec (k * 2 ^ scale) (fz (to_celsius d))), (Z.leb_spec (10 * k) d);
      try reflexivity; exfalso; [specialize (B2 ltac:(lia)); nia|specialize (B1 ltac:(lia)); nia].
Qed.

#[local] Transparent crc16_byte.

(** ** Algebra of the CRC *)

Lemma crc16_bit_range c : in_u16 (crc16_bit c).
Proof.
  unfold crc16_bit. case_test; apply u16_range.
Qed.

(** The round that gives [crc16_bit c] back. *)
Definition crc16_unbit (c : Z) : Z :=
  if Z.odd c then Z.lor 0x8000 (Z.shiftr (Z.lxor c 0x1021) 1) else Z.shiftr c 1.

Lemma land_top_bit c : Z.land c 0x8000 = if Z.testbit c 15 then 0x8000 else 0.
Proof.
  apply Z.bits_inj'. intros i Hi. rewrite Z.land_spec.
  change 0x8000 with (2 ^ 15). rewrite Z.pow2_bits_eqb by lia.
  destruct (Z.eqb_spec 15 i) as [<-|N].
  - destruct (Z.testbit c 15); [reflexivity|now rewrite Z.bits_0].
  - rewrite andb_false_r. destruct (Z.testbit c 15); [|now rewrite Z.bits_0].
    rewrite Z.pow2_bits_eqb by lia. destruct (Z.eqb_spec 15 i); [lia|reflexivity].
Qed.

(** The feedback of a round depends on the top bit only. *)
Lemma crc16_bit_alt c :
  crc16_bit c = Z.lxor (u16 (Z.shiftl c 1)) (if Z.testbit c 15 then 0x1021 else 0).
Proof.
  unfold crc16_bit. rewrite land_top_bit. destruct (Z.testbit c 15); cbn [Z.eqb negb].
  - unfold u16. change 65536 with (2 ^ 16). rewrite <- !Z.land_ones by lia.
    apply Z.bits_inj'. intros i Hi. rewrite !Z.land_spec, !Z.lxor_spec, !Z.land_spec.
    rewrite Z.testbit_ones by lia. destruct (Z.ltb_spec i 16).
    + destruct (Z.leb_spec 0 i); [|lia]. cbn. now rewrite !andb_true_r.
    + destruct (Z.leb_spec 0 i); [|lia]. cbn. rewrite !andb_false_r. cbn.
      symmetry. apply Z.bits_above_log2; [lia|]. apply Z.lt_le_trans with 16; [reflexivity|lia].
  - now rewrite Z.lxor_0_r.
Qed.

Lemma u16_lxor a b : u16 (Z.lxor a b) = Z.lxor (u16 a) (u16 b).
Proof.
  unfold u16. change 65536 with (2 ^ 16). rewrite <- !Z.land_ones by lia.
  apply Z.bits_inj'. intros i _. rewrite !Z.land_spec, !Z.lxor_spec, !Z.land_spec.
  destruct (Z.testbit (Z.ones 16) i), (Z.testbit a i), (Z.testbit b i); reflexivity.
Qed.

(** A round is linear over exclusive or. *)
Lemma crc16_bit_lxor a b : crc16_bit (Z.lxor a b) = Z.lxor (crc16_bit a) (crc16_bit b).
Proof.
  rewrite !crc16_bit_alt, Z.shiftl_lxor, u16_lxor, Z.lxor_spec.
  destruct (Z.testbit a 15), (Z.testbit b 15); cbn [xorb];
    apply Z.bits_inj'; intros i _; rewrite !Z.lxor_spec, ?Z.bits_0;
    repeat match goal with |- context [Z.testbit ?x i] => destruct (Z.testbit x i) end; reflexivity.
Qed.

Lemma crc16_bits_lxor n a b :
  Nat.iter n crc16_bit (Z.lxor a b) = Z.lxor (Nat.iter n crc16_bit a) (Nat.iter n crc16_bit b).
Proof. induction n as [|n IH]; [reflexivity|]. now rewrite !Nat.iter_succ, IH, crc16_bit_lxor. Qed.

(** The register never reaches zero from a value other than zero. *)
Lemma crc16_bit_nonzero c : in_u16 c -> crc16_bit c = 0 -> c = 0.
Proof.
  intros R H. rewrite crc16_bit_alt in H. apply (proj1 (Z.lxor_eq_0_iff _ _)) in H.
  unfold u16 in H. rewrite Z.shiftl_mul_pow2 in H by lia. change (2 ^ 1) with 2 in H.
  unfold in_u16 in *.
  destruct (Z.testbit c 15) eqn:E.
  - exfalso. Z.to_euclidean_division_equations. lia.
  - assert (c < 32768).
    { apply Z.nle_gt. intros G. rewrite Z.testbit_eqb in E by lia. change (2 ^ 15) with 32768 in E.
      assert (c / 32768 = 1) as Q by (Z.to_euclidean_division_equations; lia).
      now rewrite Q in E. }
    Z.to_euclidean_division_equations. lia.
Qed.

Lemma crc16_bits_range n c : in_u16 c -> in_u16 (Nat.iter n crc16_bit c).
Proof. intros H. destruct n; [exact H|]. apply crc16_bit_range. Qed.

Lemma crc16_bits_nonzero n c : in_u16 c -> Nat.iter n crc16_bit c = 0 -> c = 0.
Proof.
  intros R. induction n as [|n IH]; [auto|]. rewrite Nat.iter_succ. intros H. apply IH.
  apply crc16_bit_nonzero; [|exact H]. now apply crc16_bits_range.
Qed.

Lemma lxor_u16 a b : in_u16 a -> in_u16 b -> in_u16 (Z.lxor a b).
Proof.
  intros Ha Hb. rewrite <- (u16_id a), <- (u16_id b), <- u16_lxor by assumption. apply u16_range.
Qed.

Lemma crc16_bits_inj n a b : in_u16 a -> in_u16 b ->
  Nat.iter n crc16_bit a = Nat.iter n crc16_bit b -> a = b.
Proof.
  intros Ha Hb H. apply Z.lxor_eq_0_iff. apply (crc16_bits_nonzero n).
  - now apply lxor_u16.
  - rewrite crc16_bits_lxor, H. apply Z.lxor_nilpotent.
Qed.

Lemma shiftl8_u16 b : in_u8 b -> in_u16 (Z.shiftl b 8).
Proof. intros H. rewrite Z.shiftl_mul_pow2 by lia. unfold in_u8, in_u16 in *. lia. Qed.

Lemma crc16_byte_alt c b : in_u16 c -> in_u8 b ->
  crc16_byte c b = Nat.iter 8 crc16_bit (Z.lxor c (Z.shiftl b 8)).
Proof.
  intros Hc Hb. unfold crc16_byte. rewrite u16_id; [reflexivity|].
  apply lxor_u16; [exact Hc|now apply shiftl8_u16].
Qed.

Lemma crc16_byte_range c b : in_u16 (crc16_byte c b).
Proof. apply (crc16_bits_range 8). apply u16_range. Qed.

Lemma crc16_range data seed : in_u16 seed -> in_u16 (crc16_ccitt data seed).
Proof.
  revert seed. induction data as [|b data IH]; intros seed H; [exact H|].
  apply IH, crc16_byte_range.
Qed.

Lemma crc16_app a b seed : crc16_ccitt (a ++ b) seed = crc16_ccitt b (crc16_ccitt a seed).
Proof. apply fold_left_app. Qed.

(** Eight rounds move a byte to the high half without feedback. *)
Lemma crc16_bits_byte b : in_u8 b -> Nat.iter 8 crc16_bit b = Z.shiftl b 8.
Proof.
  intros H.
  assert (S : forall k, (k <= 8)%nat -> Nat.iter k crc16_bit b = b * 2 ^ Z.of_nat k).
  { induction k as [|k IH]; intros Hk; [now rewrite Z.mul_1_r|].
    rewrite Nat.iter_succ, IH by lia. set (p := 2 ^ Z.of_nat k).
    assert (P : 1 <= p <= 128).
    { subst p. split; [|change 128 with (2 ^ 7); apply Z.pow_le_mono_r; lia].
      pose proof (Z.pow_pos_nonneg 2 (Z.of_nat k) ltac:(lia) ltac:(lia)). lia. }
    replace (2 ^ Z.of_nat (S k)) with (2 * p)
      by (rewrite Nat2Z.inj_succ, Z.pow_succ_r by lia; reflexivity).
    assert (B : 0 <= b * p < 32768) by (unfold in_u8 in H; nia).
    rewrite crc16_bit_alt, Z.shiftl_mul_pow2 by lia.
    rewrite Z.testbit_eqb by lia. change (2 ^ 15) with 32768. rewrite (Z.div_small (b * p)) by lia.
    cbn [Z.eqb Z.modulo Z.div_eucl Z.div]. rewrite Z.mod_0_l, Z.lxor_0_r by lia.
    rewrite u16_id by (unfold in_u16; lia). lia. }
  rewrite S by lia. now rewrite Z.shiftl_mul_pow2 by lia.
Qed.

(** Two bytes enter the register as one 16-bit word. *)
Lemma crc16_two_bytes c a b : in_u16 c -> in_u8 a -> in_u8 b ->
  crc16_byte (crc16_byte c a) b
  = Nat.iter 16 crc16_bit (Z.lxor c (Z.lxor (Z.shiftl a 8) b)).
Proof.
  intros Hc Ha Hb. rewrite (crc16_byte_alt _ b) by (assumption || apply crc16_byte_range).
  rewrite crc16_byte_alt by assumption. rewrite <- (crc16_bits_byte b) by assumption.
  rewrite <- crc16_bits_lxor, <- Nat.iter_add, <- Z.lxor_assoc. reflexivity.
Qed.

Lemma crc16_pair c a b : in_u16 c -> in_u8 a -> in_u8 b ->
  crc16_ccitt [a; b] c = Nat.iter 16 crc16_bit (Z.lxor c (Z.lxor (Z.shiftl a 8) b)).
Proof. intros Hc Ha Hb. rewrite <- crc16_two_bytes by assumption. reflexivity. Qed.

Lemma word_split a b : in_u8 a -> in_u8 b -> Z.lxor (Z.shiftl a 8) b = 256 * a + b.
Proof.
  intros Ha Hb. rewrite <- Z.add_nocarry_lxor.
  - rewrite Z.shiftl_mul_pow2 by lia. lia.
  - apply Z.bits_inj'. intros i Hi. rewrite Z.land_spec, Z.bits_0, Z.shiftl_spec by lia.
    destruct (Z.lt_ge_cases i 8).
    + now rewrite Z.testbit_neg_r by lia.
    + destruct (Z.eq_dec b 0) as [->|]; [now rewrite Z.bits_0, andb_false_r|].
      rewrite (Z.bits_above_log2 b); [apply andb_false_r|unfold in_u8 in Hb; lia|].
      apply Z.lt_le_trans with 8; [|lia]. apply Z.log2_lt_pow2; unfold in_u8 in Hb; lia.
Qed.

(** The register after a tail is an injective function of the register before
    it. *)
Lemma crc16_state_inj data s t : bytes_ok data -> in_u16 s -> in_u16 t ->
  crc16_ccitt data s = crc16_ccitt data t -> s = t.
Proof.
  revert s t. induction data as [|b data IH]; intros s t B Hs Ht H; [exact H|].
  inversion B as [|? ? Hb B']; subst. apply IH in H; try assumption; try apply crc16_byte_range.
  rewrite !crc16_byte_alt in H by assumption.
  apply (crc16_bits_inj 8) in H; try (apply lxor_u16; [assumption|now apply shiftl8_u16]).
  apply (f_equal (fun x => Z.lxor x (Z.shiftl b 8))) in H.
  now rewrite !Z.lxor_assoc, Z.lxor_nilpotent, !Z.lxor_0_r in H.
Qed.

(** C40: the CRC detects every error confined to two adjacent bytes: two
    messages that are equal except for such a pair have different checksums,
    whatever the seed, the text before and the text after. *)
Theorem crc16_detects_burst pre a b a' b' post seed :
  bytes_ok [a; b] -> bytes_ok [a'; b'] -> bytes_ok post -> in_u16 seed ->
  (a, b) <> (a', b') ->
  crc16_ccitt (pre ++ [a; b] ++ post) seed <> crc16_ccitt (pre ++ [a'; b'] ++ post) seed.
Proof.
  intros Bab Bab' Bpost Hs N E. rewrite !crc16_app in E.
  set (s := crc16_ccitt pre seed) in *.
  assert (Rs : in_u16 s) by now apply crc16_range. clearbody s.
  inversion_clear Bab as [|? ? Ha Bb]. inversion_clear Bb as [|? ? Hb _].
  inversion_clear Bab' as [|? ? Ha' Bb']. inversion_clear Bb' as [|? ? Hb' _].
  apply crc16_state_inj in E; try assumption; try (apply crc16_range; assumption).
  rewrite !crc16_pair in E by assumption.
  assert (W : forall x y, in_u8 x -> in_u8 y -> in_u16 (Z.lxor (Z.shiftl x 8) y)).
  { intros x y Hx Hy. rewrite word_split by assumption. unfold in_u8, in_u16 in *. lia. }
  apply (crc16_bits_inj 16) in E; try (apply lxor_u16; [assumption|now apply W]).
  apply (f_equal (Z.lxor s)) in E. rewrite <- !Z.lxor_assoc, !Z.lxor_nilpotent, !Z.lxor_0_l in E.
  rewrite !word_split in E by assumption. unfold in_u8 in *. apply N. f_equal; lia.
Qed.

(** A CRC-protected pair: the last byte of a frame header hit by noise. *)
Lemma crc16_detects_burst_witness :
  crc16_ccitt ([0xC1; 0x02] ++ [0x10; 0x20] ++ [0x30]) 0xFFFF
  <> crc16_ccitt ([0xC1; 0x02] ++ [0x10; 0x21] ++ [0x30]) 0xFFFF.
Proof.
  apply crc16_detects_burst; repeat constructor; try discriminate.
Defined.

(** ** The byte queue *)

Section RingBufferTheory.
Import RingBuffer.
Context (Capacity : nat) (Hcap : (0 < Capacity)%nat).

Lemma empty_buffer_wf : wf Capacity (empty_buffer Capacity) /\ contents Capacity (empty_buffer Capacity) = [].
Proof.
  split; [|reflexivity]. unfold wf, empty_buffer; cbn. rewrite length_replicate.
  repeat split; try lia. now rewrite Nat.Div0.mod_0_l.
Qed.

Lemma index_neq t i j : (i < j < Capacity)%nat -> (t < Capacity)%nat ->
  ((t + i) `mod` Capacity <> (t + j) `mod` Capacity)%nat.
Proof.
  intros Hij Ht. assert (W : forall x, (x < Capacity)%nat ->
    ((t + x) `mod` Capacity = if t + x <? Capacity then t + x else t + x - Capacity)%nat).
  { intros x Hx. destruct (Nat.ltb_spec (t + x) Capacity); [now apply Nat.mod_small|].
    replace (t + x)%nat with ((t + x - Capacity) + 1 * Capacity)%nat at 1 by lia.
    rewrite Nat.Div0.mod_add. apply Nat.mod_small. lia. }
  rewrite !W by lia. destruct (Nat.ltb_spec (t + i) Capacity), (Nat.ltb_spec (t + j) Capacity); lia.
Qed.

Lemma push_wf b rb : wf Capacity rb -> wf Capacity (push Capacity b rb).2.
Proof.
  intros (L & T & C & H). unfold push. destruct (Nat.eqb_spec (count_ rb) Capacity).
  - now repeat split.
  - unfold wf; cbn. rewrite length_insert. repeat split; try lia.
    rewrite H, Nat.Div0.add_mod_idemp_l. f_equal. lia.
Qed.

Lemma pop_wf rb : wf Capacity rb -> wf Capacity (pop Capacity rb).2.
Proof.
  intros (L & T & C & H). unfold pop. destruct (Nat.eqb_spec (count_ rb) 0).
  - now repeat split.
  - unfold wf; cbn. repeat split; try lia; [apply Nat.mod_upper_bound; lia|].
    rewrite H, Nat.Div0.add_mod_idemp_l. f_equal. lia.
Qed.

Lemma push_contents b rb : wf Capacity rb ->
  contents Capacity (push Capacity b rb).2
  = contents Capacity rb ++ (if (push Capacity b rb).1 then [b] else []).
Proof.
  intros (L & T & C & H). unfold push. destruct (Nat.eqb_spec (count_ rb) Capacity);
    cbn [fst snd]; [now rewrite app_nil_r|].
  unfold contents; cbn [tail_ count_ buf_]. rewrite seq_S, fmap_app. f_equal.
  - apply list_fmap_ext. intros i x Hx. apply lookup_seq in Hx as [-> Hi].
    rewrite H, !nth_lookup, list_lookup_insert_ne; [reflexivity|].
    cbn. apply not_eq_sym, index_neq; lia.
  - cbn. rewrite H, nth_lookup, list_lookup_insert_eq; [reflexivity|].
    rewrite L. apply Nat.mod_upper_bound. lia.
Qed.

Lemma pop_contents rb : wf Capacity rb ->
  (pop Capacity rb).1 = head (contents Capacity rb) /\
  contents Capacity (pop Capacity rb).2 = tail (contents Capacity rb).
Proof.
  intros (L & T & C & H). unfold pop. destruct (Nat.eqb_spec (count_ rb) 0) as [E|N].
  - unfold contents. cbn. rewrite E. now split.
  - unfold contents; cbn [fst snd tail_ count_ buf_].
    destruct (count_ rb) as [|n]; [congruence|]. cbn. split.
    + rewrite Nat.add_0_r, Nat.mod_small by lia. reflexivity.
    + rewrite <- fmap_S_seq, <- list_fmap_compose. apply list_fmap_ext.
      intros i x _. cbn. f_equal. rewrite Nat.Div0.add_mod_idemp_l. f_equal. lia.
Qed.

(** The operations of the queue, on the buffer and on the list it stands for:
    [push] is refused exactly when [Capacity] bytes are queued. *)
Inductive queue_op := Push (b : Z) | Pop.

Definition run_op (op : queue_op) (rb : RingBuffer) : option Z * RingBuffer :=
  match op with
  | Push b => (None, (push Capacity b rb).2)
  | Pop => pop Capacity rb
  end.

Definition spec_op (op : queue_op) (q : list Z) : option Z * list Z :=
  match op with
  | Push b => (None, if (length q =? Capacity)%nat then q else q ++ [b])
  | Pop => (head q, tail q)
  end.

Lemma length_contents rb : length (contents Capacity rb) = count_ rb.
Proof. unfold contents. now rewrite length_fmap, length_seq. Qed.

Lemma run_op_refines op rb : wf Capacity rb ->
  wf Capacity (run_op op rb).2 /\
  (run_op op rb).1 = (spec_op op (contents Capacity rb)).1 /\
  contents Capacity (run_op op rb).2 = (spec_op op (contents Capacity rb)).2.
Proof.
  intros W. destruct op as [b|]; cbn.
  - split; [now apply push_wf|]. split; [reflexivity|]. rewrite push_contents by exact W.
    rewrite length_contents. unfold push. destruct (Nat.eqb_spec (count_ rb) Capacity); cbn;
      [apply app_nil_r|reflexivity].
  - split; [now apply pop_wf|]. now apply pop_contents.
Qed.

(** The values a sequence of operations returns. *)
Fixpoint run_ops (ops : list queue_op) (rb : RingBuffer) : list (option Z) :=
  match ops with
  | [] => []
  | op :: ops' => let '(r, rb') := run_op op rb in r :: run_ops ops' rb'
  end.

Fixpoint spec_ops (ops : list queue_op) (q : list Z) : list (option Z) :=
  match ops with
  | [] => []
  | op :: ops' => let '(r, q') := spec_op op q in r :: spec_ops ops' q'
  end.

Lemma run_ops_refines ops rb : wf Capacity rb -> run_ops ops rb = spec_ops ops (contents Capacity rb).
Proof.
  revert rb. induction ops as [|op ops IH]; intros rb W; [reflexivity|]. cbn [run_ops spec_ops].
  destruct (run_op_refines op rb W) as (W' & E & C).
  destruct (run_op op rb) as [r rb'], (spec_op op _) as [r' q']; cbn in *. subst. f_equal. now apply IH.
Qed.
End RingBufferTheory.

(** C39: the ring buffer refines a first-in first-out queue of bounded length:
    whatever sequence of pushes and pops a client runs on a new buffer, every
    pop returns what the list queue returns, although the indices wrap. *)
Theorem ring_buffer_refines_queue Capacity ops : (0 < Capacity)%nat ->
  run_ops Capacity ops (RingBuffer.empty_buffer Capacity) = spec_ops Capacity ops [].
Proof.
  intros H. destruct (empty_buffer_wf Capacity H) as [W C]. rewrite run_ops_refines by assumption.
  now rewrite C.
Qed.

Lemma ring_buffer_refines_queue_witness :
  (0 < 2)%nat /\
  run_ops 2 [Push 1; Push 2; Push 3; Pop; Push 4; Pop; Pop; Pop] (RingBuffer.empty_buffer 2)
  = [None; None; None; Some 1; None; Some 2; Some 4; None].
Proof. split; [lia|]. rewrite ring_buffer_refines_queue by lia. reflexivity. Defined.
