(* ===== verification/C1Link.v ===== *)
(** * The wire protocol C1-Link (src/src/protocol, without the link object)

    The constants, the frame and the field codecs (c1link.h), the serialiser
    (frame_writer.cpp) and the incremental parser (frame_parser.cpp), with the
    round trips of the codecs, the round trip of a frame through the parser and
    the soundness of the parser. *)

From S2P Require Import Prelude.
From S2P Require Import Common.

(** ** c1link.h *)

Definition kSync0 : Z := 0xA5.
Definition kSync1 : Z := 0x5A.
Definition kVersion : Z := 0x10.
Definition kMaxPayload : Z := 250.
Definition kHeaderSize : Z := 8.
Definition kCrcSize : Z := 2.
Definition kMaxFrameSize : Z := kHeaderSize + kMaxPayload + kCrcSize.

Inductive FrameType := Request | Response | TelemetryFrame | Nack.
#[export] Instance FrameType_eq_dec : EqDecision FrameType.
Proof. solve_decision. Defined.

Definition frame_type_byte (type : FrameType) : Z :=
  match type with
  | Request => 0x01
  | Response => 0x02
  | TelemetryFrame => 0x03
  | Nack => 0x04
  end.

(** [static_cast<FrameType>] of a byte the parser has checked to be 1 to 4. *)
Definition frame_type_of_byte (byte : Z) : FrameType :=
  if byte =? 0x01 then Request
  else if byte =? 0x02 then Response
  else if byte =? 0x03 then TelemetryFrame
  else Nack.

(** The parser casts any byte to [MsgId], and the application any byte to
    [FaultCode]: both are bytes, with names for the enumerators. *)
Module MsgId.
Definition Ping : Z := 0x01.
Definition GetVersion : Z := 0x02.
Definition MotorSetTarget : Z := 0x10.
Definition MotorStop : Z := 0x11.
Definition HeaterSetTarget : Z := 0x20.
Definition HeaterOff : Z := 0x21.
Definition ScaleTare : Z := 0x30.
Definition ScaleRead : Z := 0x31.
Definition LidLock : Z := 0x40.
Definition LidUnlock : Z := 0x41.
Definition Telemetry : Z := 0x80.
Definition Fault : Z := 0x81.
End MsgId.

Module FaultCode.
Definition None : Z := 0.
Definition Overtemp : Z := 1.
Definition MotorStall : Z := 2.
Definition SensorFailure : Z := 3.
Definition LinkLost : Z := 4.
End FaultCode.

Definition kRampGentle : Z := 0.
Definition kRampNormal : Z := 1.
Definition kRampFast : Z := 2.
Definition kRampBurst : Z := 3.

Definition kFlagLidClosed : Z := 0x01.
Definition kFlagLidLocked : Z := 0x02.
Definition kFlagHeaterOn : Z := 0x04.
Definition kFlagMotorStalled : Z := 0x08.

(** [payload] is the whole array of [kMaxPayload] bytes. *)
Record Frame := {
  type : FrameType;
  seq_ : Z;
  msg_id : Z;
  payload_len : Z;
  payload : list Z
}.
#[global] Instance eta_Frame : Eta Frame := fun f =>
  {| type := type f; seq_ := seq_ f; msg_id := msg_id f; payload_len := payload_len f; payload := payload f |}.

Definition default_frame : Frame :=
  {| type := Request; seq_ := 0; msg_id := MsgId.Ping; payload_len := 0;
     payload := replicate (Z.to_nat kMaxPayload) 0 |}.

(** The payload a receiver may read. *)
Definition frame_payload (f : Frame) : list Z := take (Z.to_nat (payload_len f)) (payload f).

Definition kTelemetryPayloadSize : Z := 13.

Record TelemetryData := { tick : Z; deci_celsius : Z; rpm : Z; grams : Z; flags : Z }.
#[global] Instance eta_TelemetryData : Eta TelemetryData := fun d =>
  {| tick := tick d; deci_celsius := deci_celsius d; rpm := rpm d; grams := grams d; flags := flags d |}.

Definition default_telemetry : TelemetryData :=
  {| tick := 0; deci_celsius := 0; rpm := 0; grams := 0; flags := 0 |}.

(** The bytes each [put] stores from [p] on, and the value each [get] reads. *)
Definition put_u16 (v : Z) : list Z := [u8 (Z.land v 0xFF); u8 (Z.shiftr v 8)].
Definition get_u16 (p : list Z) : Z := u16 (Z.lor (nth 0 p 0) (Z.shiftl (nth 1 p 0) 8)).
Definition put_i16 (v : Z) : list Z := put_u16 (u16 v).
Definition get_i16 (p : list Z) : Z := i16 (get_u16 p).
Definition put_u32 (v : Z) : list Z :=
  [u8 (Z.land v 0xFF); u8 (Z.land (Z.shiftr v 8) 0xFF);
   u8 (Z.land (Z.shiftr v 16) 0xFF); u8 (Z.shiftr v 24)].
Definition get_u32 (p : list Z) : Z :=
  Z.lor (Z.lor (Z.lor (nth 0 p 0) (u32 (Z.shiftl (nth 1 p 0) 8)))
    (u32 (Z.shiftl (nth 2 p 0) 16))) (u32 (Z.shiftl (nth 3 p 0) 24)).
Definition put_i32 (v : Z) : list Z := put_u32 (u32 v).
Definition get_i32 (p : list Z) : Z := i32 (get_u32 p).

Definition encode_telemetry (data : TelemetryData) : list Z :=
  put_u32 (tick data) ++ put_i16 (deci_celsius data) ++ put_u16 (rpm data) ++
  put_i32 (grams data) ++ [flags data].

(** ** frame_writer.cpp *)

(** The bytes stored at [out]; their number is the value returned. *)
Definition write_frame (out_cap : Z) (type : FrameType) (seq msg_id : Z)
    (payload : list Z) (payload_len : Z) : list Z :=
  let total := kHeaderSize + payload_len + kCrcSize in
  if (kMaxPayload <? payload_len) || (out_cap <? total) then []
  else
    let body := [kVersion; frame_type_byte type; seq; msg_id] ++ put_u16 payload_len ++
                take (Z.to_nat payload_len) payload in
    [kSync0; kSync1] ++ body ++ put_u16 (crc16_ccitt body 0xFFFF).

(** ** frame_parser.cpp *)

Module FrameParser.

Inductive State :=
| Sync0 | Sync1 | Version | Type_ | Seq | MsgId | LenLo | LenHi | Payload | CrcLo | CrcHi.
#[export] Instance State_eq_dec : EqDecision State.
Proof. solve_decision. Defined.

Record FrameParser := {
  state_ : State;
  frame_ : Frame;
  expected_len_ : Z;
  received_ : Z;
  crc_lo_ : Z;
  running_crc_ : Z
}.
#[global] Instance eta_FrameParser : Eta FrameParser := fun p =>
  {| state_ := state_ p; frame_ := frame_ p; expected_len_ := expected_len_ p;
     received_ := received_ p; crc_lo_ := crc_lo_ p; running_crc_ := running_crc_ p |}.

Definition new_parser : FrameParser :=
  {| state_ := Sync0; frame_ := default_frame; expected_len_ := 0; received_ := 0;
     crc_lo_ := 0; running_crc_ := 0xFFFF |}.

Definition in_progress (p : FrameParser) : bool := bool_decide (state_ p <> Sync0).

Definition reset (p : FrameParser) : FrameParser :=
  p <| state_ := Sync0 |> <| expected_len_ := 0 |> <| received_ := 0 |>
    <| running_crc_ := 0xFFFF |>.

Definition resync (byte : Z) (p : FrameParser) : FrameParser :=
  let p := reset p in
  if byte =? kSync0 then p <| state_ := Sync1 |> else p.

(** The bytes of the states named here are outside the CRC. *)
Definition update_crc (byte : Z) (p : FrameParser) : FrameParser :=
  match state_ p with
  | Sync0 | Sync1 | CrcLo | CrcHi => p
  | _ => p <| running_crc_ := crc16_ccitt [byte] (running_crc_ p) |>
  end.

(** [feed byte out]: [Some f] is the answer true with [*out = f]; [has_out]
    tells whether [out] is a null pointer. *)
Definition feed (byte : Z) (has_out : bool) (p : FrameParser) : option Frame * FrameParser :=
  let p := update_crc byte p in
  match state_ p with
  | Sync0 => (None, if byte =? kSync0 then p <| state_ := Sync1 |> else p)
  | Sync1 =>
      (None, p <| state_ := if byte =? kSync1 then Version
                            else if byte =? kSync0 then Sync1 else Sync0 |>)
  | Version =>
      if negb (Z.land byte 0xF0 =? Z.land kVersion 0xF0) then (None, resync byte p)
      else (None, p <| state_ := Type_ |>)
  | Type_ =>
      if (byte <? 0x01) || (byte >? 0x04) then (None, resync byte p)
      else (None, p <| frame_ := (frame_ p) <| type := frame_type_of_byte byte |> |>
                    <| state_ := Seq |>)
  | Seq => (None, p <| frame_ := (frame_ p) <| seq_ := byte |> |> <| state_ := MsgId |>)
  | MsgId => (None, p <| frame_ := (frame_ p) <| msg_id := byte |> |> <| state_ := LenLo |>)
  | LenLo => (None, p <| expected_len_ := byte |> <| state_ := LenHi |>)
  | LenHi =>
      let p := p <| expected_len_ := u16 (Z.lor (expected_len_ p) (Z.shiftl byte 8)) |> in
      if expected_len_ p >? kMaxPayload then (None, resync byte p)
      else (None, p <| received_ := 0 |>
                    <| state_ := if expected_len_ p =? 0 then CrcLo else Payload |>)
  | Payload =>
      let p := if received_ p <? kMaxPayload
               then p <| frame_ := (frame_ p)
                           <| payload := <[Z.to_nat (received_ p) := byte]> (payload (frame_ p)) |> |>
               else p in
      let p := p <| received_ := u16 (received_ p + 1) |> in
      (None, if received_ p =? expected_len_ p then p <| state_ := CrcLo |> else p)
  | CrcLo => (None, p <| crc_lo_ := byte |> <| state_ := CrcHi |>)
  | CrcHi =>
      let wire_crc := u16 (Z.lor (crc_lo_ p) (Z.shiftl byte 8)) in
      if negb (running_crc_ p =? wire_crc) then (None, resync byte p)
      else
        let p := p <| frame_ := (frame_ p) <| payload_len := expected_len_ p |> |> in
        if negb has_out then (None, reset p)
        else (Some (frame_ p), reset p)
  end.

(** Feeding a run of bytes, with the frames delivered on the way. *)
Fixpoint feed_all (bytes : list Z) (p : FrameParser) : list Frame * FrameParser :=
  match bytes with
  | [] => ([], p)
  | b :: rest =>
      let '(r, p) := feed b true p in
      let '(fs, p) := feed_all rest p in
      (match r with Some f => f :: fs | None => fs end, p)
  end.

(** Reduce the reading of assigned fields. *)
Ltac fields := unfold set;
  cbn [state_ frame_ expected_len_ received_ crc_lo_ running_crc_ type seq_ msg_id payload_len payload
       fst snd] in *.

End FrameParser.

(** * Theorems *)

(** ** Field codecs *)

Lemma lor_shiftl a b k : 0 <= k -> 0 <= a < 2 ^ k -> Z.lor a (Z.shiftl b k) = a + b * 2 ^ k.
Proof.
  intros Hk Ha. rewrite <- Z.shiftl_mul_pow2 by lia. symmetry. rewrite <- Z.lxor_lor.
  - apply Z.add_nocarry_lxor. apply Z.bits_inj'. intros i Hi.
    rewrite Z.land_spec, Z.bits_0, Z.shiftl_spec by lia. destruct (Z.lt_ge_cases i k).
    + rewrite (Z.testbit_neg_r b) by lia. apply andb_false_r.
    + rewrite <- (Z.mod_small a (2 ^ k)), Z.mod_pow2_bits_high by lia. reflexivity.
  - apply Z.bits_inj'. intros i Hi.
    rewrite Z.land_spec, Z.bits_0, Z.shiftl_spec by lia. destruct (Z.lt_ge_cases i k).
    + rewrite (Z.testbit_neg_r b) by lia. apply andb_false_r.
    + rewrite <- (Z.mod_small a (2 ^ k)), Z.mod_pow2_bits_high by lia. reflexivity.
Qed.

Lemma land_255 z : Z.land z 0xFF = z mod 256.
Proof. change 0xFF with (Z.ones 8). now rewrite Z.land_ones by lia. Qed.

Lemma put_u16_bytes v : bytes_ok (put_u16 v).
Proof. repeat constructor; apply u8_range. Qed.

Lemma put_u32_bytes v : bytes_ok (put_u32 v).
Proof. repeat constructor; apply u8_range. Qed.

Lemma put_u16_eq v : in_u16 v -> put_u16 v = [v mod 256; v / 256].
Proof.
  intros H. unfold put_u16. rewrite land_255, Z.shiftr_div_pow2 by lia. change (2 ^ 8) with 256.
  rewrite !u8_id by wrap_lia. reflexivity.
Qed.

Lemma get_u16_nth p : in_u8 (nth 0 p 0) -> in_u8 (nth 1 p 0) -> get_u16 p = nth 0 p 0 + nth 1 p 0 * 256.
Proof.
  intros Ha Hb. unfold get_u16. rewrite lor_shiftl by (unfold in_u8 in *; lia).
  change (2 ^ 8) with 256. apply u16_id. unfold in_u8, in_u16 in *. lia.
Qed.

Lemma get_u16_eq a b rest : in_u8 a -> in_u8 b -> get_u16 (a :: b :: rest) = a + b * 256.
Proof. apply (get_u16_nth (a :: b :: rest)). Qed.

Lemma get_put_u16 v rest : in_u16 v -> get_u16 (put_u16 v ++ rest) = v.
Proof.
  intros H. rewrite put_u16_eq by exact H. cbn [app]. rewrite get_u16_eq by wrap_lia. wrap_lia.
Qed.

(** A length word that was received is the word that was sent. *)
Lemma put_get_u16 a b : in_u8 a -> in_u8 b -> put_u16 (u16 (Z.lor a (Z.shiftl b 8))) = [a; b].
Proof.
  intros Ha Hb. change (put_u16 (get_u16 [a; b]) = [a; b]). rewrite get_u16_eq by assumption.
  rewrite put_u16_eq by (unfold in_u8, in_u16 in *; lia). unfold in_u8 in *.
  f_equal; [|f_equal]; Z.to_euclidean_division_equations; lia.
Qed.

Lemma get_put_i16 v rest : in_i16 v -> get_i16 (put_i16 v ++ rest) = v.
Proof.
  intros H. unfold get_i16, put_i16. rewrite get_put_u16 by apply u16_range. now apply i16_u16.
Qed.

Lemma get_put_u32 v rest : in_u32 v -> get_u32 (put_u32 v ++ rest) = v.
Proof.
  intros H. unfold get_u32, put_u32. cbn [app nth].
  rewrite !land_255, !Z.shiftr_div_pow2 by lia.
  change (2 ^ 8) with 256. change (2 ^ 16) with 65536. change (2 ^ 24) with 16777216.
  rewrite !u8_id by wrap_lia. unfold in_u32 in H.
  assert (E : forall z k, 0 <= z < 256 -> 0 <= k <= 24 -> u32 (Z.shiftl z k) = Z.shiftl z k).
  { intros z k Hz Hk. apply u32_id. rewrite Z.shiftl_mul_pow2 by lia.
    assert (1 <= 2 ^ k <= 2 ^ 24).
    { split; [pose proof (Z.pow_pos_nonneg 2 k ltac:(lia) ltac:(lia)); lia|apply Z.pow_le_mono_r; lia]. }
    unfold in_u32. nia. }
  rewrite !E by (Z.to_euclidean_division_equations; lia).
  rewrite (lor_shiftl _ _ 8) by (Z.to_euclidean_division_equations; lia). change (2 ^ 8) with 256.
  rewrite (lor_shiftl _ _ 16) by (change (2 ^ 16) with 65536; Z.to_euclidean_division_equations; lia).
  change (2 ^ 16) with 65536.
  rewrite (lor_shiftl _ _ 24) by (change (2 ^ 24) with 16777216; Z.to_euclidean_division_equations; lia).
  change (2 ^ 24) with 16777216. Z.to_euclidean_division_equations. lia.
Qed.

Lemma get_put_i32 v rest : in_i32 v -> get_i32 (put_i32 v ++ rest) = v.
Proof.
  intros H. unfold get_i32, put_i32. rewrite get_put_u32 by apply u32_range. now apply i32_u32.
Qed.

Lemma length_encode_telemetry data : length (encode_telemetry data) = Z.to_nat kTelemetryPayloadSize.
Proof. reflexivity. Qed.

Lemma encode_telemetry_bytes data : in_u8 (flags data) -> bytes_ok (encode_telemetry data).
Proof. intros H. repeat constructor; try apply u8_range; apply H. Qed.

(** ** Frames on the wire *)

(** The bytes of a frame, [v] being its version byte: the low nibble (flags) is
    not checked by the receiver. *)
Definition wire_body (v : Z) (f : Frame) : list Z :=
  [v; frame_type_byte (type f); seq_ f; msg_id f] ++ put_u16 (payload_len f) ++ frame_payload f.

Definition wire (v : Z) (f : Frame) : list Z :=
  [kSync0; kSync1] ++ wire_body v f ++ put_u16 (crc16_ccitt (wire_body v f) 0xFFFF).

Definition version_ok (v : Z) : Prop := Z.land v 0xF0 = Z.land kVersion 0xF0.

Definition frame_wf (f : Frame) : Prop :=
  in_u8 (seq_ f) /\ in_u8 (msg_id f) /\ 0 <= payload_len f <= kMaxPayload /\
  length (payload f) = Z.to_nat kMaxPayload /\ bytes_ok (payload f).

Lemma length_frame_payload f : frame_wf f -> length (frame_payload f) = Z.to_nat (payload_len f).
Proof. intros (_ & _ & L & N & _). unfold frame_payload. rewrite length_take. lia. Qed.

(** ** Soundness of the parser *)

Section ParserSoundness.
Import FrameParser.

(** The bytes of the CRC range a parser has taken in since the sync bytes. *)
Definition taken (v : Z) (p : FrameParser) : list Z :=
  let f := frame_ p in
  let header := [v; frame_type_byte (type f); seq_ f; msg_id f] in
  match state_ p with
  | Sync0 | Sync1 | Version => []
  | Type_ => [v]
  | Seq => [v; frame_type_byte (type f)]
  | MsgId => [v; frame_type_byte (type f); seq_ f]
  | LenLo => header
  | LenHi => header ++ [expected_len_ p]
  | Payload => header ++ put_u16 (expected_len_ p) ++ take (Z.to_nat (received_ p)) (payload f)
  | CrcLo | CrcHi =>
      header ++ put_u16 (expected_len_ p) ++ take (Z.to_nat (expected_len_ p)) (payload f)
  end.

(** The bytes since the start of the frame the parser is in. *)
Definition since_sync (v : Z) (p : FrameParser) : list Z :=
  match state_ p with
  | Sync0 => []
  | Sync1 => [kSync0]
  | CrcHi => [kSync0; kSync1] ++ taken v p ++ [crc_lo_ p]
  | _ => [kSync0; kSync1] ++ taken v p
  end.

Definition buffers_ok (p : FrameParser) : Prop :=
  length (payload (frame_ p)) = Z.to_nat kMaxPayload /\ bytes_ok (payload (frame_ p)) /\
  in_u8 (seq_ (frame_ p)) /\ in_u8 (msg_id (frame_ p)) /\ in_u8 (crc_lo_ p).

(** The invariant of the parser. *)
Record tracks (v : Z) (p : FrameParser) : Prop := {
  tr_buffers : buffers_ok p;
  tr_crc : running_crc_ p = crc16_ccitt (taken v p) 0xFFFF;
  tr_version : match state_ p with Sync0 | Sync1 | Version => True | _ => version_ok v end;
  tr_len : match state_ p with
           | LenHi => in_u8 (expected_len_ p)
           | Payload => 0 <= received_ p < expected_len_ p /\ expected_len_ p <= kMaxPayload
           | CrcLo | CrcHi => 0 <= expected_len_ p <= kMaxPayload
           | _ => True
           end
}.

Lemma new_parser_tracks : tracks 0 new_parser.
Proof.
  assert (Z0 : in_u8 0) by (split; reflexivity || discriminate).
  split; cbn; try exact I; try reflexivity.
  repeat split; try reflexivity; try discriminate. now apply Forall_replicate.
Qed.

Lemma reset_tracks w p : buffers_ok p -> tracks w (reset p) /\ since_sync w (reset p) = [].
Proof. intros B. split; [|reflexivity]. split; exact B || exact I || reflexivity. Qed.

(** What one byte may do: the parser stays in step with the wire, and a frame
    it delivers is the frame whose bytes it has taken in. *)
Definition sound_step (v : Z) (p : FrameParser) (b : Z) (r : option Frame * FrameParser) : Prop :=
  exists v', tracks v' r.2 /\
    match r.1 with
    | None => since_sync v' r.2 `suffix_of` since_sync v p ++ [b]
    | Some f => since_sync v p ++ [b] = wire v f /\ version_ok v /\ frame_wf f /\
                since_sync v' r.2 = []
    end.

Lemma resync_sound v p q b : buffers_ok q -> sound_step v p b (None, resync b q).
Proof.
  intros B. exists v. unfold resync. cbn [fst snd]. destruct (Z.eqb_spec b kSync0) as [->|].
  - split; [split; exact B || exact I || reflexivity|]. exists (since_sync v p). reflexivity.
  - split; [split; exact B || exact I || reflexivity|]. exists (since_sync v p ++ [b]).
    symmetry. apply app_nil_r.
Qed.

(** The next state takes the byte in. *)
Lemma advance_sound v w p q b :
  tracks v p -> buffers_ok q -> running_crc_ q = crc16_ccitt [b] (running_crc_ p) ->
  taken w q = taken v p ++ [b] -> since_sync w q = since_sync v p ++ [b] ->
  match state_ q with Sync0 | Sync1 | Version => True | _ => version_ok w end ->
  match state_ q with
  | LenHi => in_u8 (expected_len_ q)
  | Payload => 0 <= received_ q < expected_len_ q /\ expected_len_ q <= kMaxPayload
  | CrcLo | CrcHi => 0 <= expected_len_ q <= kMaxPayload
  | _ => True
  end -> sound_step v p b (None, q).
Proof.
  intros T B C K S V L. exists w. cbn [fst snd]. split.
  - split; try assumption. rewrite C, K, crc16_app. now rewrite (tr_crc _ _ T).
  - rewrite S. reflexivity.
Qed.

Ltac buffers := unfold buffers_ok; fields; repeat (assumption || split).

Lemma frame_type_round b : ~ (b < 1) -> ~ (4 < b) -> frame_type_byte (frame_type_of_byte b) = b.
Proof. intros H1 H2. assert (b = 1 \/ b = 2 \/ b = 3 \/ b = 4) as [-> | [-> | [-> | ->]]] by lia; reflexivity. Qed.

Lemma u8_payload_len : forall n, 0 <= n <= kMaxPayload -> in_u16 n.
Proof. unfold kMaxPayload, in_u16. lia. Qed.

(** The payload state, the only one that writes the array. *)
Lemma feed_payload_sound v p b : in_u8 b -> tracks v p -> state_ p = Payload ->
  sound_step v p b (feed b true p).
Proof.
  intros Hb T E. destruct p as [st f el rc cl run]. cbn in E. subst st.
  pose proof T as [(A & P & Q & I & K) C V [L1 L2]]. fields.
  assert (L3 : (Z.to_nat rc < length (payload f))%nat) by (rewrite A; lia).
  assert (D : take (Z.to_nat (rc + 1)) (<[Z.to_nat rc := b]> (payload f))
              = take (Z.to_nat rc) (payload f) ++ [b]).
  { replace (Z.to_nat (rc + 1)) with (S (Z.to_nat rc)) by lia. now apply take_S_insert. }
  unfold feed, update_crc. fields. destruct (Z.ltb_spec rc kMaxPayload) as [_|]; [|lia]. fields.
  rewrite u16_id by (unfold kMaxPayload, in_u16 in *; lia).
  assert (B : Forall in_u8 (<[Z.to_nat rc := b]> (payload f))) by now apply Forall_insert.
  assert (N : length (<[Z.to_nat rc := b]> (payload f)) = Z.to_nat kMaxPayload) by now rewrite length_insert.
  destruct (Z.eqb_spec (rc + 1) el) as [<-|]; apply advance_sound with v; try assumption; fields;
    try reflexivity; try buffers; try lia;
    unfold since_sync, taken; fields; rewrite D; now rewrite <- ?app_assoc.
Qed.

(** The last state, which delivers a frame. *)
Lemma feed_crc_sound v p b : in_u8 b -> tracks v p -> state_ p = CrcHi ->
  sound_step v p b (feed b true p).
Proof.
  intros Hb T E. destruct p as [st f el rc cl run]. cbn in E. subst st.
  pose proof T as [B C V L]. fields.
  unfold feed, update_crc. fields. destruct (Z.eqb_spec run (u16 (Z.lor cl (b ≪ 8)))) as [W|].
  2: now apply resync_sound. cbn [negb]. pose proof B as (A & P & Q & I & K). fields. exists v. fields.
  destruct (reset_tracks v {| state_ := CrcHi; frame_ := f <| payload_len := el |>; expected_len_ := el;
    received_ := rc; crc_lo_ := cl; running_crc_ := run |}) as [T' S']; [exact B|].
  split; [exact T'|]. split; [|split; [exact V|split; [|exact S']]].
  - unfold wire, wire_body, since_sync, frame_payload, taken in *. fields. rewrite <- C, W.
    rewrite put_get_u16 by assumption. now rewrite <- !app_assoc.
  - unfold frame_wf. fields. repeat split; assumption || apply L || apply Q || apply I.
Qed.

Lemma feed_sound v p b : in_u8 b -> tracks v p -> sound_step v p b (feed b true p).
Proof.
  intros Hb T. destruct p as [st f el rc cl run]. pose proof T as [B C V L]. fields.
  pose proof B as (A & P & Q & I & K). fields.
  destruct st; try (now apply feed_payload_sound); try (now apply feed_crc_sound);
    unfold feed, update_crc; fields.
  - destruct (Z.eqb_spec b kSync0) as [->|]; exists v; fields.
    + split; [split; fields; buffers || exact I || exact C|reflexivity].
    + split; [exact T|]. exists [b]. reflexivity.
  - exists v. fields. destruct (Z.eqb_spec b kSync1) as [->|]; [|destruct (Z.eqb_spec b kSync0) as [->|]];
      (split; [split; fields; buffers || exact Logic.I || exact C|]).
    + reflexivity.
    + exists [kSync0]. reflexivity.
    + exists [kSync0; b]. reflexivity.
  - destruct (Z.eqb_spec (Z.land b 240) (Z.land kVersion 240)) as [W|]; cbn [negb];
      [|apply resync_sound; buffers].
    apply advance_sound with b; try reflexivity; try assumption; try exact Logic.I; buffers.
  - destruct (Z.ltb_spec b 1); cbn [orb]; [apply resync_sound; buffers|].
    rewrite Z.gtb_ltb. destruct (Z.ltb_spec 4 b); [apply resync_sound; buffers|].
    apply advance_sound with v; fields; try reflexivity; try assumption; try exact Logic.I; try buffers;
      unfold since_sync, taken; fields; rewrite frame_type_round by lia; reflexivity.
  - apply advance_sound with v; fields; try reflexivity; try assumption; try exact Logic.I; buffers.
  - apply advance_sound with v; fields; try reflexivity; try assumption; try exact Logic.I; buffers.
  - apply advance_sound with v; fields; try reflexivity; try assumption; try exact Logic.I; buffers.
  - rewrite Z.gtb_ltb. destruct (Z.ltb_spec kMaxPayload (u16 (Z.lor el (b ≪ 8))));
      [apply resync_sound; buffers|].
    pose proof (u16_range (Z.lor el (b ≪ 8))) as R. pose proof (put_get_u16 el b L Hb) as PG.
    set (n := u16 _) in *.
    destruct (Z.eqb_spec n 0) as [Z0|NZ]; (apply advance_sound with v; fields; try reflexivity;
      try assumption; try buffers; unfold since_sync, taken; fields);
      try rewrite PG; try rewrite Z0; try reflexivity; unfold in_u16 in R; lia.
  - exists v. fields. split; [split; fields; buffers || assumption|].
    unfold since_sync, taken; fields. rewrite <- !app_assoc. reflexivity.
Qed.

(** What the receiver may deliver for a stream: frames that occur in it in
    order, disjoint, each with its sync bytes, its version and its checksum. *)
Inductive carries : list Z -> list Frame -> Prop :=
| carries_noise bytes : carries bytes []
| carries_frame noise v f rest fs :
    version_ok v -> frame_wf f -> carries rest fs ->
    carries (noise ++ wire v f ++ rest) (f :: fs).

Lemma carries_app noise bytes fs : carries bytes fs -> carries (noise ++ bytes) fs.
Proof.
  intros H. destruct H as [bytes|n v f rest fs V W H]; [apply carries_noise|].
  rewrite app_assoc. now apply carries_frame.
Qed.

Lemma feed_all_sound bytes v p : bytes_ok bytes -> tracks v p ->
  carries (since_sync v p ++ bytes) (feed_all bytes p).1.
Proof.
  revert v p. induction bytes as [|b bytes IH]; intros v p B T; [apply carries_noise|].
  inversion_clear B as [|? ? Hb B']. cbn [feed_all].
  destruct (feed_sound v p b Hb T) as (w & T' & D). destruct (feed b true p) as [r q]. cbn [fst snd] in *.
  specialize (IH w q B' T'). destruct (feed_all bytes q) as [fs q']. cbn [fst] in *.
  change (b :: bytes) with ([b] ++ bytes). rewrite app_assoc. destruct r as [f|].
  - destruct D as (-> & V & W & S). rewrite S in IH. now apply (carries_frame [] v f bytes fs).
  - destruct D as [noise ->]. rewrite <- app_assoc. now apply carries_app.
Qed.

End ParserSoundness.

(** C20: whatever bytes a new parser is fed, the frames it delivers occur in the
    stream, in order and disjoint, each complete with its sync bytes, a version
    the receiver accepts, its length, its payload and its CRC: noise never
    makes up a frame, and a payload never exceeds its array. *)
Theorem parser_sound bytes : bytes_ok bytes ->
  carries bytes (FrameParser.feed_all bytes FrameParser.new_parser).1.
Proof. intros B. apply (feed_all_sound bytes 0 FrameParser.new_parser B new_parser_tracks). Qed.

(** ** Completeness of the parser *)

Definition same_frame (f g : Frame) : Prop :=
  type f = type g /\ seq_ f = seq_ g /\ msg_id f = msg_id g /\ payload_len f = payload_len g /\
  frame_payload f = frame_payload g.

Section ParserCompleteness.
Import FrameParser.

(** A parser between two frames. *)
Definition idle (p : FrameParser) : Prop :=
  state_ p = Sync0 /\ running_crc_ p = 0xFFFF /\ length (payload (frame_ p)) = Z.to_nat kMaxPayload.

Lemma feed_all_none b rest p q : feed b true p = (None, q) -> feed_all (b :: rest) p = feed_all rest q.
Proof. intros E. cbn [feed_all]. rewrite E. now destruct (feed_all rest q). Qed.

Lemma feed_all_some b rest p f q : feed b true p = (Some f, q) ->
  feed_all (b :: rest) p = let '(fs, r) := feed_all rest q in (f :: fs, r).
Proof. intros E. cbn [feed_all]. now rewrite E. Qed.

Lemma frame_type_byte_range t : 1 <= frame_type_byte t <= 4.
Proof. destruct t; cbn; lia. Qed.

Lemma frame_type_of_byte_round t : frame_type_of_byte (frame_type_byte t) = t.
Proof. destruct t; reflexivity. Qed.

(** After the eight bytes of the header. *)
Lemma feed_header v f rest fr el rc cl :
  version_ok v -> frame_wf f ->
  feed_all ([kSync0; kSync1; v; frame_type_byte (type f); seq_ f; msg_id f] ++ put_u16 (payload_len f) ++ rest)
    {| state_ := Sync0; frame_ := fr; expected_len_ := el; received_ := rc; crc_lo_ := cl;
       running_crc_ := 0xFFFF |}
  = feed_all rest
    {| state_ := if payload_len f =? 0 then CrcLo else Payload;
       frame_ := {| type := type f; seq_ := seq_ f; msg_id := msg_id f;
                    payload_len := payload_len fr; payload := payload fr |};
       expected_len_ := payload_len f; received_ := 0; crc_lo_ := cl;
       running_crc_ := crc16_ccitt ([v; frame_type_byte (type f); seq_ f; msg_id f] ++ put_u16 (payload_len f)) 0xFFFF |}.
Proof.
  intros V (_ & _ & L & _). pose proof (frame_type_byte_range (type f)) as TR.
  rewrite put_u16_eq by (unfold kMaxPayload, in_u16 in *; lia). cbn [app].
  rewrite (feed_all_none _ _ _ {| state_ := Sync1; frame_ := fr; expected_len_ := el; received_ := rc;
    crc_lo_ := cl; running_crc_ := 0xFFFF |}) by reflexivity.
  rewrite (feed_all_none _ _ _ {| state_ := Version; frame_ := fr; expected_len_ := el; received_ := rc;
    crc_lo_ := cl; running_crc_ := 0xFFFF |}) by reflexivity.
  erewrite feed_all_none.
  2: { unfold feed, update_crc. fields. rewrite V, Z.eqb_refl. reflexivity. }
  erewrite feed_all_none.
  2: { unfold feed, update_crc. fields. rewrite Z.gtb_ltb.
       destruct (Z.ltb_spec (frame_type_byte (type f)) 1); [lia|].
       destruct (Z.ltb_spec 4 (frame_type_byte (type f))); [lia|].
       cbn [orb]. rewrite frame_type_of_byte_round. reflexivity. }
  do 3 (erewrite feed_all_none; [|unfold feed, update_crc; fields; reflexivity]).
  erewrite feed_all_none.
  2: { unfold feed, update_crc. fields. rewrite lor_shiftl by (Z.to_euclidean_division_equations; lia).
       change (2 ^ 8) with 256.
       replace (u16 (payload_len f mod 256 + payload_len f / 256 * 256)) with (payload_len f)
         by (unfold kMaxPayload in L; wrap_lia).
       rewrite Z.gtb_ltb. destruct (Z.ltb_spec kMaxPayload (payload_len f)); [lia|]. reflexivity. }
  cbn [app]. rewrite <- !crc16_app. cbn [app]. reflexivity.
Qed.

Lemma feed_payload bs rest : forall fr n r cl run,
  bs <> [] -> 0 <= r -> n = r + Z.of_nat (length bs) -> n <= kMaxPayload ->
  length (payload fr) = Z.to_nat kMaxPayload ->
  feed_all (bs ++ rest)
    {| state_ := Payload; frame_ := fr; expected_len_ := n; received_ := r; crc_lo_ := cl;
       running_crc_ := run |}
  = feed_all rest
    {| state_ := CrcLo; frame_ := fr <| payload := store_at (payload fr) (Z.to_nat r) bs |>;
       expected_len_ := n; received_ := n; crc_lo_ := cl; running_crc_ := crc16_ccitt bs run |}.
Proof.
  induction bs as [|b bs IH]; intros fr n r cl run NE R -> LE LP; [congruence|].
  unfold kMaxPayload in *. cbn [app length] in *.
  assert (F : forall st, st = (if (bool_decide (bs = [])) then CrcLo else Payload) ->
    feed b true {| state_ := Payload; frame_ := fr; expected_len_ := r + Z.of_nat (S (length bs));
                   received_ := r; crc_lo_ := cl; running_crc_ := run |}
    = (None, {| state_ := st; frame_ := fr <| payload := <[Z.to_nat r := b]> (payload fr) |>;
                expected_len_ := r + Z.of_nat (S (length bs)); received_ := r + 1; crc_lo_ := cl;
                running_crc_ := crc16_ccitt [b] run |})).
  { intros st ->. unfold feed, update_crc. fields. unfold kMaxPayload. destruct (Z.ltb_spec r 250); [|lia].
    fields. rewrite u16_id by (unfold in_u16; lia). unfold set.
    destruct (Z.eqb_spec (r + 1) (r + Z.of_nat (S (length bs)))) as [X|X]; destruct bs;
      cbn [length] in X; try lia; reflexivity. }
  rewrite (feed_all_none _ _ _ _ (F _ eq_refl)). destruct bs as [|b' bs].
  - cbn [app bool_decide]. f_equal. f_equal; cbn [length]; try lia. unfold set; cbn.
    f_equal. unfold store_at. cbn [length].
    rewrite insert_take_drop by lia. now rewrite Nat.add_1_r.
  - cbn [bool_decide]. rewrite IH; try lia; try discriminate.
    + f_equal. f_equal; cbn [length] in *; try lia. unfold set; cbn [payload type seq_ msg_id payload_len].
      f_equal. unfold store_at. replace (Z.to_nat (r + 1)) with (S (Z.to_nat r)) by lia.
      rewrite take_S_insert by lia. rewrite <- app_assoc. cbn [app length]. do 3 f_equal.
      rewrite drop_insert_lt by lia. do 2 f_equal. lia.
    + unfold set; cbn [payload]. rewrite length_insert. exact LP.
Qed.

Lemma feed_crc_match (f fr : Frame) rest body n rc cl :
  bytes_ok body -> n = payload_len f ->
  feed_all (put_u16 (crc16_ccitt body 0xFFFF) ++ rest)
    {| state_ := CrcLo; frame_ := fr; expected_len_ := n; received_ := rc; crc_lo_ := cl;
       running_crc_ := crc16_ccitt body 0xFFFF |}
  = let '(fs, p) := feed_all rest
      {| state_ := Sync0; frame_ := fr <| payload_len := n |>; expected_len_ := 0; received_ := 0;
         crc_lo_ := crc16_ccitt body 0xFFFF mod 256; running_crc_ := 0xFFFF |} in
    (fr <| payload_len := n |> :: fs, p).
Proof.
  intros B ->. assert (R : in_u16 (crc16_ccitt body 0xFFFF)) by (apply crc16_range; split; reflexivity || discriminate).
  generalize dependent (crc16_ccitt body 0xFFFF). intros c R. rewrite put_u16_eq by exact R. cbn [app].
  erewrite feed_all_none; [|unfold feed, update_crc; fields; reflexivity].
  erewrite feed_all_some.
  2: { unfold feed, update_crc. fields. rewrite lor_shiftl by (Z.to_euclidean_division_equations; lia).
       change (2 ^ 8) with 256. replace (u16 (c mod 256 + c / 256 * 256)) with c by wrap_lia.
       rewrite Z.eqb_refl. reflexivity. }
  reflexivity.
Qed.

(** A frame fed to an idle parser is delivered, and the parser is idle again. *)
Lemma feed_all_wire v f rest p : version_ok v -> frame_wf f -> in_u8 v -> idle p ->
  exists g q, same_frame f g /\ idle q /\
    feed_all (wire v f ++ rest) p = let '(fs, r) := feed_all rest q in (g :: fs, r).
Proof.
  intros V W Hv (S & C & A). destruct p as [st fr el rc cl run]. fields. subst st run.
  pose proof W as (Q & I & L & N & B). pose proof (length_frame_payload f W) as LF.
  unfold wire, wire_body. rewrite <- !app_assoc.
  set (tail := put_u16 (crc16_ccitt _ _) ++ rest).
  change ([kSync0; kSync1] ++ [v; frame_type_byte (type f); seq_ f; msg_id f] ++ put_u16 (payload_len f) ++
    frame_payload f ++ tail) with ([kSync0; kSync1; v; frame_type_byte (type f); seq_ f; msg_id f] ++
    put_u16 (payload_len f) ++ frame_payload f ++ tail).
  rewrite feed_header by assumption. subst tail.
  assert (BB : bytes_ok ([v; frame_type_byte (type f); seq_ f; msg_id f] ++ put_u16 (payload_len f) ++ frame_payload f)).
  { repeat (apply Forall_app_2 || apply Forall_cons_2 || apply Forall_nil_2); try assumption;
      try apply u8_range; [|now apply Forall_take].
    pose proof (frame_type_byte_range (type f)). unfold in_u8. lia. }
  destruct (Z.eqb_spec (payload_len f) 0) as [Z0|NZ].
  - assert (FP : frame_payload f = []) by (apply nil_length_inv; rewrite LF, Z0; reflexivity).
    rewrite FP in *. rewrite app_nil_r in *. cbn [app] in *.
    rewrite (feed_crc_match f) by assumption || reflexivity.
    eexists _, _. split; [|split; [|reflexivity]].
    + repeat split. unfold frame_payload at 2; fields. now rewrite FP, Z0.
    + repeat split. exact A.
  - rewrite feed_payload; fields; try lia; try assumption;
      try (intros E; apply (f_equal length) in E; rewrite LF in E; cbn in E; lia).
    rewrite <- crc16_app, <- app_assoc. rewrite (feed_crc_match f) by assumption || reflexivity.
    eexists _, _. split; [|split; [|reflexivity]].
    + repeat split. unfold frame_payload at 2; fields.
      rewrite <- LF. symmetry. apply (take_drop_store_at (payload fr) (frame_payload f) 0).
      rewrite LF, A. lia.
    + repeat split. fields. rewrite length_store_at; [exact A|]. rewrite LF, A. lia.
Qed.

Lemma feed_all_wires v fs p : version_ok v -> in_u8 v -> Forall frame_wf fs -> idle p ->
  Forall2 same_frame fs (feed_all (concat (wire v <$> fs)) p).1 /\
  idle (feed_all (concat (wire v <$> fs)) p).2.
Proof.
  intros V Hv W. revert p. induction W as [|f fs Wf W IH]; intros p Hp; [split; [constructor|exact Hp]|].
  cbn [fmap list_fmap concat]. destruct (feed_all_wire v f (concat (wire v <$> fs)) p V Wf Hv Hp)
    as (g & q & E & I & ->). specialize (IH q I).
  destruct (feed_all (concat (wire v <$> fs)) q) as [gs r]. cbn [fst snd] in *.
  split; [constructor; [exact E|apply IH]|apply IH].
Qed.

Lemma new_parser_idle : idle new_parser.
Proof. repeat split. Qed.

End ParserCompleteness.

(** What [write_frame] stores, as a frame on the wire. *)
Definition frame_of (type : FrameType) (seq msg_id : Z) (payload : list Z) : Frame :=
  {| type := type; seq_ := seq; msg_id := msg_id; payload_len := Z.of_nat (length payload);
     payload := store_at (replicate (Z.to_nat kMaxPayload) 0) 0 payload |}.

Definition message_wf (m : FrameType * Z * Z * list Z) : Prop :=
  let '(_, seq, msg_id, payload) := m in
  in_u8 seq /\ in_u8 msg_id /\ Z.of_nat (length payload) <= kMaxPayload /\ bytes_ok payload.

Lemma frame_of_payload type seq msg_id payload : Z.of_nat (length payload) <= kMaxPayload ->
  frame_payload (frame_of type seq msg_id payload) = payload.
Proof.
  intros H. unfold frame_payload, frame_of; cbn [payload_len C1Link.payload].
  rewrite Nat2Z.id. apply (take_drop_store_at (replicate (Z.to_nat kMaxPayload) 0) payload 0).
  rewrite length_replicate. lia.
Qed.

Lemma frame_of_wf type seq msg_id payload : message_wf (type, seq, msg_id, payload) ->
  frame_wf (frame_of type seq msg_id payload).
Proof.
  intros (S & I & L & B). repeat split; try apply S; try apply I; cbn; try lia.
  - rewrite length_store_at; rewrite length_replicate; [reflexivity|lia].
  - unfold store_at. repeat apply Forall_app_2; [constructor|exact B|].
    apply Forall_drop, Forall_replicate. split; reflexivity || discriminate.
Qed.

Lemma write_frame_wire cap type seq msg_id payload :
  Z.of_nat (length payload) <= kMaxPayload -> kHeaderSize + Z.of_nat (length payload) + kCrcSize <= cap ->
  write_frame cap type seq msg_id payload (Z.of_nat (length payload))
  = wire kVersion (frame_of type seq msg_id payload).
Proof.
  intros L C. unfold write_frame.
  destruct (Z.ltb_spec kMaxPayload (Z.of_nat (length payload))); [lia|].
  destruct (Z.ltb_spec cap (kHeaderSize + Z.of_nat (length payload) + kCrcSize)); [lia|]. cbn [orb].
  unfold wire, wire_body. rewrite frame_of_payload by exact L. cbn [frame_of C1Link.type seq_ C1Link.msg_id payload_len].
  rewrite Nat2Z.id, firstn_all. reflexivity.
Qed.

Definition write_message (m : FrameType * Z * Z * list Z) : list Z :=
  let '(type, seq, msg_id, payload) := m in
  write_frame kMaxFrameSize type seq msg_id payload (Z.of_nat (length payload)).

Definition delivers (m : FrameType * Z * Z * list Z) (f : Frame) : Prop :=
  let '(ty, seq, id, pl) := m in
  type f = ty /\ seq_ f = seq /\ msg_id f = id /\
  payload_len f = Z.of_nat (length pl) /\ frame_payload f = pl.

Lemma written_messages_delivered ms : Forall message_wf ms ->
  Forall2 delivers ms (FrameParser.feed_all (concat (write_message <$> ms)) FrameParser.new_parser).1.
Proof.
  intros W. set (fs := (fun '(ty, seq, id, pl) => frame_of ty seq id pl) <$> ms).
  assert (E : write_message <$> ms = wire kVersion <$> fs).
  { subst fs. rewrite <- list_fmap_compose. apply list_fmap_ext. intros i [[[ty seq] id] pl] H. cbn.
    pose proof (Forall_lookup_1 _ _ _ _ W H) as (_ & _ & L & _).
    apply write_frame_wire; [assumption|]. unfold kMaxFrameSize. lia. }
  rewrite E. destruct (feed_all_wires kVersion fs FrameParser.new_parser) as [D _];
    [reflexivity|split; reflexivity || discriminate| |apply new_parser_idle|].
  - apply Forall_fmap. eapply Forall_impl; [exact W|]. intros [[[ty seq] id] pl]. apply frame_of_wf.
  - revert D. generalize (FrameParser.feed_all (concat (wire kVersion <$> fs)) FrameParser.new_parser).1.
    subst fs. clear E. induction W as [|[[[ty seq] id] pl] ms (_ & _ & L & _) W IH]; intros gs D;
      inversion D as [|? g ? ? (S1 & S2 & S3 & S4 & S5) D']; subst; constructor; [|now apply IH].
    cbn in *. rewrite frame_of_payload in S5 by exact L. repeat split; congruence.
Qed.

(** C19: a batch of messages written back to back and fed to an idle receiver is
    delivered whole and in order: every frame has the type, the sequence
    number, the message id and exactly the payload that were sent. *)
Theorem write_parse_round_trip ms : Forall message_wf ms ->
  Forall2 delivers ms (FrameParser.feed_all (concat (write_message <$> ms)) FrameParser.new_parser).1.
Proof. apply written_messages_delivered. Qed.

Definition sample_messages : list (FrameType * Z * Z * list Z) :=
  [(Request, 1, MsgId.MotorSetTarget, put_u16 500 ++ [kRampNormal]); (Response, 1, MsgId.Ping, [0])].

Lemma sample_messages_wf : Forall message_wf sample_messages.
Proof. repeat constructor; discriminate. Qed.

Lemma write_parse_round_trip_witness :
  Forall message_wf sample_messages /\
  Forall2 delivers sample_messages
    (FrameParser.feed_all (concat (write_message <$> sample_messages)) FrameParser.new_parser).1.
Proof. split; [exact sample_messages_wf|]. apply write_parse_round_trip. exact sample_messages_wf. Defined.

(** A stream with noise, a stray sync byte and a frame. *)
Lemma parser_sound_witness :
  let bytes := [0x00; 0xA5] ++ write_message (Request, 7, MsgId.Ping, []) ++ [0xA5; 0x5A] in
  bytes_ok bytes /\ carries bytes (FrameParser.feed_all bytes FrameParser.new_parser).1 /\
  length (FrameParser.feed_all bytes FrameParser.new_parser).1 = 1%nat.
Proof.
  intros bytes. assert (B : bytes_ok bytes) by (apply bytes_ok_check; vm_compute; reflexivity).
  split; [exact B|]. split; [apply parser_sound; exact B|vm_compute; reflexivity].
Defined.
