(* ===== verification/Hal.v ===== *)
(** * The hardware abstraction (src/src/hal)

    The interfaces of the HAL as classes over the type [W] of the world behind
    them: a method that changes hardware maps a world to a world, a [const]
    method reads one. The laws the firmware's theorems rely on are the class
    [BoardLaws]; the simulated board discharges them. *)

From S2P Require Import Prelude.
From S2P Require Import Float32.
From S2P Require Import Common.

(** i_clock.h *)
Class IClock (W : Type) := now_us : W -> Z.
Definition now_ms {W} `{IClock W} (w : W) : Z := to_millis (now_us w).

(** i_motor.h *)
Class IMotor (W : Type) := {
  set_duty : f32 -> W -> W;
  set_reverse : bool -> W -> W;
  motor_rpm : W -> Z;
  current_ma : W -> Z;
  stalled : W -> bool
}.

(** i_heater.h *)
Class IHeater (W : Type) := {
  set_power_w : f32 -> W -> W;
  power_w : W -> f32
}.

(** i_temp_sensor.h *)
Class ITempSensor (W : Type) := read_deci_celsius : W -> Result.Result * W.

(** i_scale.h *)
Class IScale (W : Type) := read_raw : W -> Result.Result * W.

(** i_lid.h *)
Class ILid (W : Type) := {
  is_closed : W -> bool;
  is_locked : W -> bool;
  set_lock : bool -> W -> W
}.

(** i_uart.h. [rx_pending] is no method: it bounds the bytes [uart_read] can
    still return, the measure of the loops that drain the receiver. *)
Class IUart (W : Type) := {
  uart_write : list Z -> W -> nat * W;
  uart_read : W -> option Z * W;
  rx_pending : W -> nat
}.

(** i_watchdog.h *)
Class IWatchdog (W : Type) := {
  watchdog_feed : W -> W;
  timeout_ms : Z
}.

(** ** Laws *)

(** Both operations of a UART are non-blocking. A write accepts a prefix of the
    buffer and hands nothing back to its own receiver; a read takes one byte of
    what has arrived. [tx_log] is the ghost stream of the bytes accepted. *)
Class UartLaws (W : Type) `{IUart W} := {
  tx_log : W -> list Z;
  write_log bs w : tx_log (uart_write bs w).2 = tx_log w ++ take (uart_write bs w).1 bs;
  write_pending bs w : rx_pending (uart_write bs w).2 = rx_pending w;
  read_log w : tx_log (uart_read w).2 = tx_log w;
  read_some w b : (uart_read w).1 = Some b -> in_u8 b /\ (rx_pending (uart_read w).2 < rx_pending w)%nat;
  read_none w : (uart_read w).1 = None -> (rx_pending (uart_read w).2 <= rx_pending w)%nat
}.

(** The board of the application processor: time passes between its operations,
    not inside them, and feeding the watchdog leaves the link alone. *)
Class AppBoardLaws (W : Type) `{IClock W, IWatchdog W, IUart W, !UartLaws W} := {
  clock_write bs w : now_us (uart_write bs w).2 = now_us w;
  clock_read w : now_us (uart_read w).2 = now_us w;
  clock_feed w : now_us (watchdog_feed w) = now_us w;
  log_feed w : tx_log (watchdog_feed w) = tx_log w;
  pending_feed w : rx_pending (watchdog_feed w) = rx_pending w
}.

(** The board of the safety processor. [duty] is the duty the motor driver
    applies; every driver changes its own actuator only, in the range its
    interface documents. The temperature sensor delivers a 16-bit value. The
    interface does not bound the counts of the load cell: [scale_fits] says of a
    board that they stay below 2^30, so that a tared reading fits 32 bits; a
    tick on a board without that bound may overflow. *)
Class BoardLaws (W : Type) `{IMotor W, IHeater W, ITempSensor W, IScale W, ILid W, IUart W, !UartLaws W} := {
  duty : W -> f32;
  duty_set d w : fle fzero d = true -> fle d (of_Z 1) = true -> duty (set_duty d w) = d;
  duty_power x w : duty (set_power_w x w) = duty w;
  duty_lock b w : duty (set_lock b w) = duty w;
  duty_temp w : duty (read_deci_celsius w).2 = duty w;
  duty_scale w : duty (read_raw w).2 = duty w;
  duty_write bs w : duty (uart_write bs w).2 = duty w;
  duty_read w : duty (uart_read w).2 = duty w;

  power_set x w : fle fzero x = true -> fle x (of_Z 1200) = true -> power_w (set_power_w x w) = x;
  power_duty d w : power_w (set_duty d w) = power_w w;
  power_lock b w : power_w (set_lock b w) = power_w w;
  power_temp w : power_w (read_deci_celsius w).2 = power_w w;
  power_scale w : power_w (read_raw w).2 = power_w w;
  power_write bs w : power_w (uart_write bs w).2 = power_w w;
  power_read w : power_w (uart_read w).2 = power_w w;

  lock_held w : is_locked w = true -> is_locked (set_lock true w) = true;
  lock_duty d w : is_locked (set_duty d w) = is_locked w;
  lock_power x w : is_locked (set_power_w x w) = is_locked w;
  lock_temp w : is_locked (read_deci_celsius w).2 = is_locked w;
  lock_scale w : is_locked (read_raw w).2 = is_locked w;
  lock_write bs w : is_locked (uart_write bs w).2 = is_locked w;
  lock_read w : is_locked (uart_read w).2 = is_locked w;

  pending_duty d w : rx_pending (set_duty d w) = rx_pending w;
  pending_power x w : rx_pending (set_power_w x w) = rx_pending w;
  pending_lock b w : rx_pending (set_lock b w) = rx_pending w;
  pending_temp w : rx_pending (read_deci_celsius w).2 = rx_pending w;
  pending_scale w : rx_pending (read_raw w).2 = rx_pending w;

  temp_range w : in_i16 (Result.value_ (read_deci_celsius w).1);
  scale_fits : Prop;
  scale_range w : scale_fits -> -1073741824 <= Result.value_ (read_raw w).1 < 1073741824;
  rpm_range w : in_u16 (motor_rpm w)
}.

(** The frame laws, as a rewriting tactic. *)
Ltac board_simpl :=
  rewrite ?duty_power, ?duty_lock, ?duty_temp, ?duty_scale, ?duty_write, ?duty_read,
    ?power_duty, ?power_lock, ?power_temp, ?power_scale, ?power_write, ?power_read,
    ?lock_duty, ?lock_power, ?lock_temp, ?lock_scale, ?lock_write, ?lock_read,
    ?pending_duty, ?pending_power, ?pending_lock, ?pending_temp, ?pending_scale, ?write_pending.

(** [wp o P]: [o] ends, and [P] holds of its result; it is undefined only if
    the load cell exceeds its bound. *)
Definition wp {W A} `{BoardLaws W} (o : outcome A) (P : A -> Prop) : Prop :=
  match o with Ret a => P a | Undefined => ~ scale_fits | OutOfFuel => False end.

Section Wp.
Context {W : Type} `{BoardLaws W}.

Lemma wp_cases {A} (o : outcome A) P : wp o P -> (exists a, o = Ret a /\ P a) \/ (o = Undefined /\ ~ scale_fits).
Proof. destruct o as [a| |]; cbn; intros Q; [left; now exists a|now right|contradiction]. Qed.

Lemma wp_mono {A} (o : outcome A) (P Q : A -> Prop) : wp o P -> (forall a, P a -> Q a) -> wp o Q.
Proof. destruct o; cbn; auto. Qed.

Lemma wp_bind {A B} (o : outcome A) (f : A -> outcome B) P Q :
  wp o P -> (forall a, P a -> wp (f a) Q) -> wp (o ≫= f) Q.
Proof. destruct o; cbn; auto. Qed.
End Wp.

(** The state of the actuators a tick may set. *)
Definition actuators {W} `{BoardLaws W} (w : W) : f32 * f32 * bool := (duty w, power_w w, is_locked w).

Lemma actuators_write {W} `{BoardLaws W} bs (w : W) : actuators (uart_write bs w).2 = actuators w.
Proof. unfold actuators. now board_simpl. Qed.

Lemma actuators_read {W} `{BoardLaws W} (w : W) : actuators (uart_read w).2 = actuators w.
Proof. unfold actuators. now board_simpl. Qed.
