(* ===== verification/Link.v ===== *)
(** * The link object (src/src/protocol/link.{h,cpp})

    Frames the traffic of a UART: [send] queues a frame in the transmit buffer
    and flushes what the UART takes, [poll] feeds received bytes to the parser
    and drops a frame that stays incomplete for more than [kFrameTimeoutMs]. *)

From S2P Require Import Prelude.
From S2P Require Import Common.
From S2P Require Import C1Link.
From S2P Require Import Hal.

Module Link.

Definition kFrameTimeoutMs : Z := 50.
Definition kTxCapacity : nat := Z.to_nat (kMaxFrameSize * 4).

Record Link := {
  parser_ : FrameParser.FrameParser;
  frame_deadline_ms_ : Z;
  tx_buffer_ : list Z;
  tx_size_ : nat;
  tx_offset_ : nat
}.
#[global] Instance eta_Link : Eta Link := fun l =>
  {| parser_ := parser_ l; frame_deadline_ms_ := frame_deadline_ms_ l; tx_buffer_ := tx_buffer_ l;
     tx_size_ := tx_size_ l; tx_offset_ := tx_offset_ l |}.

Definition new_link : Link :=
  {| parser_ := FrameParser.new_parser; frame_deadline_ms_ := 0;
     tx_buffer_ := replicate kTxCapacity 0; tx_size_ := 0; tx_offset_ := 0 |}.

Definition receiving (l : Link) : bool := FrameParser.in_progress (parser_ l).

Definition cancel_pending_tx (l : Link) : Link := l <| tx_offset_ := O |> <| tx_size_ := O |>.

Section Operations.
Context {W : Type} `{IClock W, IUart W}.

Definition flush_tx (l : Link) (w : W) : Link * W :=
  if (tx_size_ l <=? tx_offset_ l)%nat then (l, w)
  else
    let remaining := (tx_size_ l - tx_offset_ l)%nat in
    let '(written, w) := uart_write (take remaining (drop (tx_offset_ l) (tx_buffer_ l))) w in
    let l := l <| tx_offset_ := (tx_offset_ l + (if (remaining <? written)%nat then remaining else written))%nat |> in
    (if (tx_offset_ l =? tx_size_ l)%nat then l <| tx_offset_ := O |> <| tx_size_ := O |> else l, w).

(** The unsent bytes are moved to the front of the buffer. *)
Definition compact (l : Link) : Link :=
  if (0 <? tx_offset_ l)%nat then
    let queued := (tx_size_ l - tx_offset_ l)%nat in
    l <| tx_buffer_ := store_at (tx_buffer_ l) 0 (take queued (drop (tx_offset_ l) (tx_buffer_ l))) |>
      <| tx_size_ := queued |> <| tx_offset_ := O |>
  else l.

(** [payload = None] is the null pointer. *)
Definition send (type : FrameType) (seq msg_id : Z) (payload : option (list Z)) (payload_len : Z)
    (l : Link) (w : W) : Status * Link * W :=
  if (payload_len >? kMaxPayload) || ((payload_len >? 0) && match payload with None => true | _ => false end)
  then (InvalidArgument, l, w)
  else
    let l := compact l in
    let frame_size := Z.to_nat (kHeaderSize + payload_len + kCrcSize) in
    if (kTxCapacity - tx_size_ l <? frame_size)%nat then (NotReady, l, w)
    else
      let bytes := write_frame (Z.of_nat (kTxCapacity - tx_size_ l)) type seq msg_id
                     (default [] payload) payload_len in
      if (length bytes =? 0)%nat then (InvalidArgument, l, w)
      else
        let l := l <| tx_buffer_ := store_at (tx_buffer_ l) (tx_size_ l) bytes |>
                   <| tx_size_ := (tx_size_ l + length bytes)%nat |> in
        let '(l, w) := flush_tx l w in
        (Ok, l, w).

(** The reading loop of [poll]. *)
Fixpoint read_loop (fuel : nat) (l : Link) (w : W) : outcome (option Frame * Link * W) :=
  match fuel with
  | O => OutOfFuel
  | S fuel =>
      let '(r, w) := uart_read w in
      match r with
      | None => Ret (None, l, w)
      | Some byte =>
          let was_idle := negb (receiving l) in
          let '(out, p) := FrameParser.feed byte true (parser_ l) in
          let l := l <| parser_ := p |> in
          match out with
          | Some frame => Ret (Some frame, l, w)
          | None =>
              read_loop fuel
                (if was_idle && receiving l
                 then l <| frame_deadline_ms_ := u32 (now_ms w + kFrameTimeoutMs) |>
                 else l) w
          end
      end
  end.

(** The frame timer, compared through the signed difference. *)
Definition expire (l : Link) (w : W) : Link :=
  if receiving l && (i32 (u32_sub (now_ms w) (frame_deadline_ms_ l)) >? 0)
  then l <| parser_ := FrameParser.reset (parser_ l) |>
  else l.

Definition poll (l : Link) (w : W) : outcome (option Frame * Link * W) :=
  let '(l, w) := flush_tx l w in
  '(r, l, w) ← read_loop (S (rx_pending w)) l w;
  match r with
  | Some frame => Ret (Some frame, l, w)
  | None => Ret (None, expire l w, w)
  end.

End Operations.

(** Reduce the reading of assigned fields. *)
Ltac fields := unfold set;
  cbn [parser_ frame_deadline_ms_ tx_buffer_ tx_size_ tx_offset_ fst snd] in *.

End Link.

(** * Theorems *)

Section LinkTheory.
Import Link.
Context {W : Type} `{IClock W, UartLaws W}.

(** The transmit buffer as a queue of bytes. *)
Definition tx_wf (l : Link) : Prop :=
  length (tx_buffer_ l) = kTxCapacity /\ (tx_offset_ l <= tx_size_ l <= kTxCapacity)%nat.

Definition queued (l : Link) : list Z := take (tx_size_ l - tx_offset_ l) (drop (tx_offset_ l) (tx_buffer_ l)).

Lemma length_queued l : tx_wf l -> length (queued l) = (tx_size_ l - tx_offset_ l)%nat.
Proof. intros [L B]. unfold queued. rewrite length_take, length_drop. lia. Qed.

Lemma new_link_wf : tx_wf new_link /\ queued new_link = [].
Proof. split; [split; [reflexivity|cbn; lia]|reflexivity]. Qed.

Lemma cancel_wf l : tx_wf l -> tx_wf (cancel_pending_tx l) /\ queued (cancel_pending_tx l) = [].
Proof. intros [L B]. split; [split; [exact L|unfold cancel_pending_tx; fields; lia]|reflexivity]. Qed.

(** What a flush does to the stream: bytes move from the queue to the wire. *)
Lemma flush_spec l (w : W) : tx_wf l ->
  let '(l', w') := flush_tx l w in
  tx_wf l' /\ tx_log w' ++ queued l' = tx_log w ++ queued l /\
  parser_ l' = parser_ l /\ frame_deadline_ms_ l' = frame_deadline_ms_ l /\
  rx_pending w' = rx_pending w.
Proof.
  intros Hl. pose proof Hl as [L B]. unfold flush_tx.
  destruct (Nat.leb_spec (tx_size_ l) (tx_offset_ l)) as [G|G]; [now repeat split|].
  fold (queued l). pose proof (length_queued l Hl) as LQ.
  pose proof (write_log (queued l) w) as WL. pose proof (write_pending (queued l) w) as WP.
  destruct (uart_write (queued l) w) as [n w']. fields.
  set (k := if (tx_size_ l - tx_offset_ l <? n)%nat then (tx_size_ l - tx_offset_ l)%nat else n).
  assert (K : take n (queued l) = take k (queued l) /\ (k <= tx_size_ l - tx_offset_ l)%nat).
  { unfold k. destruct (Nat.ltb_spec (tx_size_ l - tx_offset_ l) n); [|split; [reflexivity|lia]].
    rewrite !take_ge by lia. split; [reflexivity|lia]. }
  destruct K as [K1 K2]. rewrite K1 in WL.
  destruct (Nat.eqb_spec (tx_offset_ l + k) (tx_size_ l)) as [E|N]; fields.
  - split; [split; fields; [exact L|lia]|]. repeat split; try assumption.
    unfold queued at 1. fields. rewrite WL, <- app_assoc, take_ge by lia. now rewrite app_nil_r.
  - split; [split; fields; [exact L|lia]|]. repeat split; try assumption.
    rewrite WL, <- app_assoc. f_equal. unfold queued at 2. fields.
    rewrite Nat.sub_add_distr, <- drop_drop.
    replace (take (tx_size_ l - tx_offset_ l - k) (drop k (drop (tx_offset_ l) (tx_buffer_ l))))
      with (drop k (queued l)) by (unfold queued; now rewrite skipn_firstn_comm).
    apply take_drop.
Qed.

Lemma compact_spec l : tx_wf l -> tx_wf (compact l) /\ queued (compact l) = queued l /\
  tx_size_ (compact l) = length (queued l) /\ tx_offset_ (compact l) = O /\
  parser_ (compact l) = parser_ l /\ frame_deadline_ms_ (compact l) = frame_deadline_ms_ l.
Proof.
  intros Hl. pose proof Hl as [L B]. pose proof (length_queued l Hl) as LQ. unfold compact.
  destruct (Nat.ltb_spec 0 (tx_offset_ l)) as [G|G].
  - fold (queued l). fields. split; [split; fields; [|lia]|].
    + rewrite length_store_at; [exact L|lia].
    + unfold queued at 1; fields. rewrite Nat.sub_0_r. repeat split; [|lia].
      rewrite <- LQ. apply (take_drop_store_at _ _ 0). lia.
  - assert (tx_offset_ l = O) as E by lia. rewrite LQ, E. now repeat split; rewrite ?Nat.sub_0_r.
Qed.

(** When a frame is refused, and what is queued when it is not. *)
Definition frame_bytes (type : FrameType) (seq msg_id : Z) (payload : list Z) : list Z :=
  write_frame kMaxFrameSize type seq msg_id payload (Z.of_nat (length payload)).

Lemma length_frame_bytes type seq msg_id payload : Z.of_nat (length payload) <= kMaxPayload ->
  length (frame_bytes type seq msg_id payload) = Z.to_nat (kHeaderSize + Z.of_nat (length payload) + kCrcSize).
Proof.
  intros LE. unfold frame_bytes, write_frame, kMaxFrameSize.
  destruct (Z.ltb_spec kMaxPayload (Z.of_nat (length payload))); [lia|].
  destruct (Z.ltb_spec (kHeaderSize + kMaxPayload + kCrcSize) (kHeaderSize + Z.of_nat (length payload) + kCrcSize));
    [lia|]. cbn [orb]. rewrite Nat2Z.id, firstn_all. rewrite !length_app. cbn [length put_u16].
  unfold kHeaderSize, kCrcSize. lia.
Qed.

Lemma write_frame_cap cap type seq msg_id payload :
  Z.of_nat (length payload) <= kMaxPayload -> kHeaderSize + Z.of_nat (length payload) + kCrcSize <= cap ->
  write_frame cap type seq msg_id payload (Z.of_nat (length payload)) = frame_bytes type seq msg_id payload.
Proof.
  intros LE C. unfold frame_bytes. rewrite !write_frame_wire; try assumption; [reflexivity|].
  unfold kMaxFrameSize. lia.
Qed.

(** A frame that fits is appended to the queue, which is flushed. *)
Lemma send_flushes type seq msg_id payload l (w : W) :
  tx_wf l -> Z.of_nat (length payload) <= kMaxPayload ->
  (length (queued l) + length (frame_bytes type seq msg_id payload) <= kTxCapacity)%nat ->
  exists m, send type seq msg_id (Some payload) (Z.of_nat (length payload)) l w =
              (let '(l', w') := flush_tx m w in (Ok, l', w')) /\
    tx_wf m /\ queued m = queued l ++ frame_bytes type seq msg_id payload /\
    parser_ m = parser_ l /\ frame_deadline_ms_ m = frame_deadline_ms_ l.
Proof.
  intros Hl LE C. destruct (compact_spec l Hl) as (Hc & Qc & Sc & Oc & Pc & Dc). pose proof Hc as [Lc Bc].
  pose proof (length_frame_bytes type seq msg_id payload LE) as LF. unfold send.
  destruct (Z.gtb_spec (Z.of_nat (length payload)) kMaxPayload); [lia|]. rewrite andb_false_r. cbn [orb default].
  rewrite <- LF, Sc. set (m := compact l) in *. clearbody m.
  destruct (Nat.ltb_spec (kTxCapacity - length (queued l)) (length (frame_bytes type seq msg_id payload))); [lia|].
  rewrite write_frame_cap by (assumption || lia).
  destruct (Nat.eqb_spec (length (frame_bytes type seq msg_id payload)) 0) as [X|_];
    [unfold kHeaderSize, kCrcSize in LF; lia|].
  eexists. split; [reflexivity|]. split; [split; fields; [rewrite length_store_at; [exact Lc|lia]|lia]|].
  repeat split; try assumption.
  assert (Q1 : take (length (queued l)) (tx_buffer_ m) = queued l).
  { rewrite <- Sc, <- Qc. unfold queued. now rewrite Oc, Nat.sub_0_r, drop_0. }
  unfold queued at 1; fields. rewrite Oc, Nat.sub_0_r, drop_0. unfold store_at. rewrite Q1, app_assoc.
  rewrite <- length_app. apply take_app_length.
Qed.

Lemma send_ok type seq msg_id payload l (w : W) :
  tx_wf l -> Z.of_nat (length payload) <= kMaxPayload ->
  let '(st, l', w') := send type seq msg_id (Some payload) (Z.of_nat (length payload)) l w in
  tx_wf l' /\ parser_ l' = parser_ l /\ frame_deadline_ms_ l' = frame_deadline_ms_ l /\
  rx_pending w' = rx_pending w /\
  if (length (queued l) + length (frame_bytes type seq msg_id payload) <=? kTxCapacity)%nat
  then st = Ok /\ tx_log w' ++ queued l' = tx_log w ++ queued l ++ frame_bytes type seq msg_id payload
  else st = NotReady /\ queued l' = queued l /\ w' = w.
Proof.
  intros Hl LE. pose proof (length_frame_bytes type seq msg_id payload LE) as LF.
  destruct (Nat.leb_spec (length (queued l) + length (frame_bytes type seq msg_id payload)) kTxCapacity) as [C|C].
  - destruct (send_flushes type seq msg_id payload l w Hl LE C) as (m & -> & Hm & Qm & Pm & Dm).
    pose proof (flush_spec m w Hm) as F. destruct (flush_tx m w) as [l' w']. destruct F as (F1 & F2 & F3 & F4 & F5).
    rewrite <- Pm, <- Dm, <- Qm. repeat (assumption || reflexivity || split).
  - destruct (compact_spec l Hl) as (Hc & Qc & Sc & Oc & Pc & Dc). unfold send.
    destruct (Z.gtb_spec (Z.of_nat (length payload)) kMaxPayload); [lia|]. rewrite andb_false_r. cbn [orb default].
    rewrite <- LF, Sc. pose proof (proj2 Hc) as Bc. rewrite Sc in Bc.
    destruct (Nat.ltb_spec (kTxCapacity - length (queued l)) (length (frame_bytes type seq msg_id payload))); [|lia].
    split_and!; try assumption; reflexivity.
Qed.

(** [poll] drains the receiver: the fuel is enough, and every frame it
    returns has consumed input. *)
Lemma read_loop_total fuel l (w : W) : (rx_pending w < fuel)%nat ->
  exists r l' w', read_loop fuel l w = Ret (r, l', w') /\ tx_log w' = tx_log w /\
    tx_size_ l' = tx_size_ l /\ tx_offset_ l' = tx_offset_ l /\ tx_buffer_ l' = tx_buffer_ l /\
    (rx_pending w' <= rx_pending w)%nat /\ (r <> None -> rx_pending w' < rx_pending w)%nat.
Proof.
  revert l w. induction fuel as [|fuel IH]; intros l w F; [lia|]. cbn [read_loop].
  pose proof (read_some w) as RS. pose proof (read_none w) as RN. pose proof (read_log w) as RL.
  destruct (uart_read w) as [r w']. fields. destruct r as [b|].
  - destruct (RS b eq_refl) as [_ D]. destruct (FrameParser.feed b true (parser_ l)) as [[f|] p].
    + eexists _, _, _. split; [reflexivity|]. fields. repeat split; auto; lia.
    + edestruct IH as (r & l' & w'' & E & A & B & C & D' & G & K); [|rewrite E].
      { lia. }
      eexists _, _, _. split; [reflexivity|]. rewrite A, B, C, D', RL.
      destruct (_ && _); fields; repeat split; try lia; intros N; specialize (K N); lia.
  - eexists _, _, _. split; [reflexivity|]. specialize (RN eq_refl). repeat split; auto; congruence.
Qed.

Lemma poll_total l (w : W) : tx_wf l ->
  exists r l' w', poll l w = Ret (r, l', w') /\ tx_wf l' /\
    tx_log w' ++ queued l' = tx_log w ++ queued l /\
    (rx_pending w' <= rx_pending w)%nat /\ (r <> None -> rx_pending w' < rx_pending w)%nat.
Proof.
  intros Hl. unfold poll. pose proof (flush_spec l w Hl) as F. destruct (flush_tx l w) as [l1 w1].
  destruct F as ([L1 L2] & F2 & F3 & F4 & F5).
  destruct (read_loop_total (S (rx_pending w1)) l1 w1 ltac:(lia)) as (r & l2 & w2 & E & A & B & C & D & G & K).
  rewrite E. cbn. destruct r as [f|]; (eexists _, _, _; split; [reflexivity|]).
  - split; [unfold tx_wf; now rewrite B, C, D|].
    split; [unfold queued in *; now rewrite A, B, C, D|]. split; [lia|]. intros N. specialize (K N). lia.
  - assert (X : tx_buffer_ (expire l2 w2) = tx_buffer_ l2 /\ tx_size_ (expire l2 w2) = tx_size_ l2 /\
                tx_offset_ (expire l2 w2) = tx_offset_ l2).
    { unfold expire. destruct (_ && _); now repeat split. }
    destruct X as (X1 & X2 & X3). split; [unfold tx_wf; now rewrite X1, X2, X3, B, C, D|].
    split; [unfold queued in *; now rewrite X1, X2, X3, A, B, C, D|]. split; [lia|congruence].
Qed.

(** What the UART leaves alone, the link leaves alone. *)
Lemma flush_preserves {A} (f : W -> A) l w : (forall bs w, f (uart_write bs w).2 = f w) ->
  f (flush_tx l w).2 = f w.
Proof.
  intros P. unfold flush_tx. destruct (_ <=? _)%nat; [reflexivity|].
  specialize (P (take (tx_size_ l - tx_offset_ l) (drop (tx_offset_ l) (tx_buffer_ l))) w).
  destruct (uart_write _ w). exact P.
Qed.

Lemma send_preserves {A} (f : W -> A) type seq id payload n l w : (forall bs w, f (uart_write bs w).2 = f w) ->
  f (send type seq id payload n l w).2 = f w.
Proof.
  intros P. unfold send. destruct (_ || _); [reflexivity|]. destruct (_ <? _)%nat; [reflexivity|].
  destruct (_ =? _)%nat; [reflexivity|].
  match goal with |- context [flush_tx ?l w] => pose proof (flush_preserves f l w P) as F; destruct (flush_tx l w) end.
  exact F.
Qed.

Lemma read_loop_preserves {A} (f : W -> A) fuel : (forall w, f (uart_read w).2 = f w) ->
  forall l w r l' w', read_loop fuel l w = Ret (r, l', w') -> f w' = f w.
Proof.
  intros P. induction fuel as [|fuel IH]; intros l w r l' w' E; [discriminate|]. cbn [read_loop] in E.
  specialize (P w). destruct (uart_read w) as [[b|] w1]; cbn [snd] in P; [|now simplify_eq].
  destruct (FrameParser.feed b true (parser_ l)) as [[g|] p]; [now simplify_eq|].
  apply IH in E. congruence.
Qed.

Lemma poll_preserves {A} (f : W -> A) l w r l' w' :
  (forall bs w, f (uart_write bs w).2 = f w) -> (forall w, f (uart_read w).2 = f w) ->
  poll l w = Ret (r, l', w') -> f w' = f w.
Proof.
  intros PW PR E. unfold poll in E. pose proof (flush_preserves f l w PW) as F.
  destruct (flush_tx l w) as [l1 w1]. cbn [snd] in F.
  destruct (read_loop (S (rx_pending w1)) l1 w1) as [[[r2 l2] w2]| |] eqn:R; try discriminate.
  apply (read_loop_preserves f _ PR) in R. cbn in E. destruct r2; simplify_eq; congruence.
Qed.

Lemma send_none type seq id l (w : W) : send type seq id None 0 l w = send type seq id (Some []) 0 l w.
Proof. reflexivity. Qed.

(** The invariant of a link: its queue, and a parser in step with the wire. *)
Definition link_ok (l : Link) : Prop := tx_wf l /\ exists v, tracks v (parser_ l).

Lemma new_link_ok : link_ok new_link.
Proof. split; [apply new_link_wf|]. exists 0. apply new_parser_tracks. Qed.

Lemma read_loop_frames fuel : forall l (w : W) r l' w',
  (exists v, tracks v (parser_ l)) -> read_loop fuel l w = Ret (r, l', w') ->
  (exists v, tracks v (parser_ l')) /\ match r with Some f => frame_wf f | None => True end.
Proof.
  induction fuel as [|fuel IH]; intros l w r l' w' [v T] E; [discriminate|]. cbn [read_loop] in E.
  pose proof (read_some w) as RS. destruct (uart_read w) as [[b|] w1]; [|simplify_eq; now split; [exists v|]].
  destruct (RS b eq_refl) as [Hb _]. destruct (feed_sound v (parser_ l) b Hb T) as (v' & T' & D).
  destruct (FrameParser.feed b true (parser_ l)) as [[g|] p]; fields.
  - simplify_eq. split; [now exists v'|apply D].
  - apply IH in E; [exact E|]. exists v'. destruct (_ && _); exact T'.
Qed.

Lemma poll_ok l (w : W) : link_ok l ->
  exists r l' w', poll l w = Ret (r, l', w') /\ link_ok l' /\
    match r with Some f => frame_wf f | None => True end /\
    (rx_pending w' <= rx_pending w)%nat /\ (r <> None -> rx_pending w' < rx_pending w)%nat.
Proof.
  intros [Hl [v T]]. destruct (poll_total l w Hl) as (r & l' & w' & E & Hl' & _ & P1 & P2).
  exists r, l', w'. split; [exact E|].
  assert (K : (exists v, tracks v (parser_ l')) /\ match r with Some f => frame_wf f | None => True end).
  { unfold poll in E. pose proof (flush_spec l w Hl) as F. destruct (flush_tx l w) as [l1 w1].
    destruct F as (_ & _ & F3 & _).
    destruct (read_loop (S (rx_pending w1)) l1 w1) as [[[r2 l2] w2]| |] eqn:R; try discriminate.
    apply read_loop_frames in R as [[v2 T2] W2]; [|exists v; now rewrite F3].
    cbn in E. destruct r2; simplify_eq; [split; [now exists v2|exact W2]|].
    split; [|exact I]. unfold expire. destruct (_ && _); [|now exists v2].
    exists v2. fields. now apply (reset_tracks v2), T2. }
  destruct K as [K1 K2]. repeat (assumption || split).
Qed.

End LinkTheory.

(** ** Properties *)

Section LinkProperties.
Import Link.
Context {W : Type} `{IClock W, UartLaws W}.

(** C34: sending is a bounded queue in front of the wire: a frame that fits the
    1040-byte buffer is accepted and its bytes follow, in order and complete,
    everything queued before; one that does not fit is refused with
    [NotReady] and nothing queued is lost or cut. *)
Theorem send_is_fifo type seq msg_id payload l (w : W) :
  tx_wf l -> Z.of_nat (length payload) <= kMaxPayload ->
  let '(st, l', w') := send type seq msg_id (Some payload) (Z.of_nat (length payload)) l w in
  tx_wf l' /\
  if (length (queued l) + length (frame_bytes type seq msg_id payload) <=? kTxCapacity)%nat
  then st = Ok /\ tx_log w' ++ queued l' = tx_log w ++ queued l ++ frame_bytes type seq msg_id payload
  else st = NotReady /\ queued l' = queued l /\ w' = w.
Proof.
  intros T L. pose proof (send_ok type seq msg_id payload l w T L) as S.
  destruct (send type seq msg_id (Some payload) _ l w) as [[st l'] w'].
  destruct S as (S1 & _ & _ & _ & S2). split; assumption.
Qed.

(** [poll] always returns: its loop ends on any input, a frame is returned
    only after bytes were consumed, every frame it returns is well formed,
    and polling neither drops nor reorders what was queued to be sent. *)
Theorem poll_terminates l (w : W) : link_ok l ->
  exists r l' w', poll l w = Ret (r, l', w') /\ link_ok l' /\
    match r with Some f => frame_wf f | None => True end /\
    (r <> None -> (rx_pending w' < rx_pending w)%nat) /\
    tx_log w' ++ queued l' = tx_log w ++ queued l.
Proof.
  intros Hl. destruct (poll_ok l w Hl) as (r & l' & w' & E & Hl' & F & _ & P).
  destruct (poll_total l w (proj1 Hl)) as (r2 & l2 & w2 & E2 & _ & Q & _).
  rewrite E in E2. simplify_eq. exists r2, l2, w2. repeat (assumption || split).
Qed.

(** The frame timer survives the wrap of the 32-bit millisecond clock: when
    a frame started at time [t], a poll that comes [e] milliseconds later
    (less than 2^31) drops the partial frame exactly if more than 50 ms went
    by. *)
Theorem frame_timeout_wraps l (w : W) t e : 0 <= e < 2147483648 ->
  frame_deadline_ms_ l = u32 (t + kFrameTimeoutMs) -> now_ms w = u32 (t + e) ->
  receiving (expire l w) = receiving l && (e <=? 50).
Proof.
  intros He D N. unfold expire, kFrameTimeoutMs in *. rewrite D, N.
  assert (E : i32 (u32_sub (u32 (t + e)) (u32 (t + 50))) = e - 50) by wrap_lia.
  rewrite E, Z.gtb_ltb. destruct (receiving l) eqn:R; cbn [andb]; [|exact R].
  destruct (Z.ltb_spec 0 (e - 50)), (Z.leb_spec e 50); try lia; [reflexivity|exact R].
Qed.

End LinkProperties.
