(* ===== verification/Mcu.v ===== *)
(** * The parts of the safety firmware (src/src/mcu)

    The limits (safety_limits.h), the interlock rules (interlocks.cpp), the
    heater controller (heater_pid.cpp), the motor controller
    (motor_controller.cpp), the command handler (command_handler.cpp) and the
    telemetry publisher (telemetry_publisher.cpp), a module each, and the
    lemmas the control tick of SafetyMcu.v is built from. *)

From S2P Require Import Prelude.
From S2P Require Import Float32.
From S2P Require Import Common.
From S2P Require Import C1Link.
From S2P Require Import Hal.
From S2P Require Import Link.

(** ** safety_limits.h *)
Module limits.
Definition kMaxRpm : Z := 10700.
Definition kLidOpenMaxRpm : Z := 500.
Definition kUnlockedMaxRpm : Z := 6400.
Definition kUnlockMaxRpm : Z := 100.
Definition kSpillGuardTempC : f32 := of_Z 60.
Definition kSpillGuardMaxRpm : Z := 6400.
Definition kTareMaxRpm : Z := 50.
Definition kOvertempCutoffC : f32 := of_Z 165.
Definition kHeaterMinTargetDeci : Z := 370.
Definition kHeaterMaxTargetDeci : Z := 1600.
Definition kLinkTimeoutMs : Z := 5000.
End limits.

(** ** interlocks.cpp *)
Module Interlocks.

Record Inputs := {
  temp_c : f32;
  rpm : Z;
  lid_closed : bool;
  lid_locked : bool;
  motor_stalled : bool
}.
#[global] Instance eta_Inputs : Eta Inputs := fun i =>
  {| temp_c := temp_c i; rpm := rpm i; lid_closed := lid_closed i; lid_locked := lid_locked i;
     motor_stalled := motor_stalled i |}.

Definition default_inputs : Inputs :=
  {| temp_c := of_Z 20; rpm := 0; lid_closed := true; lid_locked := false; motor_stalled := false |}.

Definition clamp_speed_request (requested : Z) (i : Inputs) : Z :=
  let allowed := requested in
  let allowed := if negb (lid_closed i) && (allowed >? limits.kLidOpenMaxRpm)
                 then limits.kLidOpenMaxRpm else allowed in
  let allowed := if lid_closed i && negb (lid_locked i) && (allowed >? limits.kUnlockedMaxRpm)
                 then limits.kUnlockedMaxRpm else allowed in
  let allowed := if fgt (temp_c i) limits.kSpillGuardTempC && (allowed >? limits.kSpillGuardMaxRpm)
                 then limits.kSpillGuardMaxRpm else allowed in
  allowed.

Definition continuous_cap (i : Inputs) : Z :=
  let cap := limits.kMaxRpm in
  let cap := if fgt (temp_c i) limits.kSpillGuardTempC then limits.kSpillGuardMaxRpm else cap in
  if negb (lid_closed i) && (cap >? limits.kLidOpenMaxRpm) then limits.kLidOpenMaxRpm
  else if negb (lid_locked i) && (cap >? limits.kUnlockedMaxRpm) then limits.kUnlockedMaxRpm
  else cap.

Definition evaluate (i : Inputs) : Z :=
  if fge (temp_c i) limits.kOvertempCutoffC then FaultCode.Overtemp
  else if motor_stalled i then FaultCode.MotorStall
  else FaultCode.None.

End Interlocks.

(** ** heater_pid.cpp *)
Module HeaterPid.

Definition kKp : f32 := of_Z 130.
Definition kKi : f32 := of_Z 2.
Definition kMaxWatts : f32 := of_Z 1200.
Definition kIntegralBandC : f32 := of_Z 5.

Record HeaterPid := { enabled_ : bool; target_deci_ : Z; integral_ : f32 }.
#[global] Instance eta_HeaterPid : Eta HeaterPid := fun p =>
  {| enabled_ := enabled_ p; target_deci_ := target_deci_ p; integral_ := integral_ p |}.

Definition new_pid : HeaterPid := {| enabled_ := false; target_deci_ := 0; integral_ := fzero |}.

Definition set_target (target : Z) (p : HeaterPid) : HeaterPid :=
  let p := if negb (enabled_ p) || negb (target =? target_deci_ p) then p <| integral_ := fzero |> else p in
  p <| target_deci_ := target |> <| enabled_ := true |>.

Definition disable (p : HeaterPid) : HeaterPid :=
  p <| enabled_ := false |> <| target_deci_ := 0 |> <| integral_ := fzero |>.

Definition update (measured_c dt_seconds : f32) (p : HeaterPid) : f32 * HeaterPid :=
  if negb (enabled_ p) then (fzero, p)
  else
    let error := fsub (to_celsius (target_deci_ p)) measured_c in
    let p := if flt (fabs error) kIntegralBandC
             then p <| integral_ := fadd (integral_ p) (fmul error dt_seconds) |> else p in
    let watts := fadd (fmul kKp error) (fmul kKi (integral_ p)) in
    let watts := if flt watts fzero then fzero else watts in
    let watts := if fgt watts kMaxWatts then kMaxWatts else watts in
    (watts, p).

Ltac fields := unfold set in *; cbn [enabled_ target_deci_ integral_ fst snd] in *.

End HeaterPid.

(** ** motor_controller.cpp *)
Module MotorController.

Definition ramp_rate_for (profile : Z) : f32 :=
  if profile =? kRampGentle then of_Z 500
  else if profile =? kRampNormal then of_Z 1500
  else if profile =? kRampFast then of_Z 2500
  else of_Z 1500.

Record MotorController := { commanded_rpm_ : f32; target_rpm_ : Z; ramp_rpm_per_s_ : f32 }.
#[global] Instance eta_MotorController : Eta MotorController := fun m =>
  {| commanded_rpm_ := commanded_rpm_ m; target_rpm_ := target_rpm_ m; ramp_rpm_per_s_ := ramp_rpm_per_s_ m |}.

Definition new_motor : MotorController :=
  {| commanded_rpm_ := fzero; target_rpm_ := 0; ramp_rpm_per_s_ := of_Z 500 |}.

Definition set_target (rpm ramp_profile : Z) (m : MotorController) : MotorController :=
  let rpm := if rpm >? limits.kMaxRpm then limits.kMaxRpm else rpm in
  m <| target_rpm_ := rpm |> <| ramp_rpm_per_s_ := ramp_rate_for ramp_profile |>.

Definition burst (rpm : Z) (m : MotorController) : MotorController :=
  let rpm := if rpm >? limits.kMaxRpm then limits.kMaxRpm else rpm in
  m <| target_rpm_ := rpm |> <| commanded_rpm_ := of_Z rpm |>.

Definition stop {W} `{IMotor W} (m : MotorController) (w : W) : MotorController * W :=
  (m <| target_rpm_ := 0 |> <| commanded_rpm_ := fzero |>, set_duty fzero w).

Definition enforce_cap (cap : Z) (m : MotorController) : MotorController :=
  let m := if target_rpm_ m >? cap then m <| target_rpm_ := cap |> else m in
  if fgt (commanded_rpm_ m) (of_Z cap) then m <| commanded_rpm_ := of_Z cap |> else m.

(** The commanded speed one tick later. *)
Definition ramp (m : MotorController) : f32 :=
  let target := of_Z (target_rpm_ m) in
  let max_step := fmul (ramp_rpm_per_s_ m) (lit 1 1000) in
  if flt (commanded_rpm_ m) target then
    let c := fadd (commanded_rpm_ m) max_step in
    if fgt c target then target else c
  else if fgt (commanded_rpm_ m) target then
    let c := fsub (commanded_rpm_ m) (fmul max_step (of_Z 4)) in
    if flt c target then target else c
  else commanded_rpm_ m.

Definition tick_1ms {W} `{IMotor W} (m : MotorController) (w : W) : MotorController * W :=
  let m := m <| commanded_rpm_ := ramp m |> in
  (m, set_duty (fdiv (commanded_rpm_ m) (of_Z limits.kMaxRpm)) w).

Definition active (m : MotorController) : bool :=
  (target_rpm_ m >? 0) || fgt (commanded_rpm_ m) fzero.

Ltac fields := unfold set in *; cbn [commanded_rpm_ target_rpm_ ramp_rpm_per_s_ fst snd] in *.

End MotorController.

(** ** command_handler.cpp

    [State] is the handler's own tare offset with the objects its pointers
    refer to: the link, the motor controller, the heater controller, and the
    world behind the scale, the lid and the UART. *)
Module CommandHandler.

Definition kCountsPerGram : f32 := of_Z 10.

Record State {W : Type} := {
  link_ : Link.Link;
  motor_ : MotorController.MotorController;
  pid_ : HeaterPid.HeaterPid;
  tare_offset_counts_ : Z;
  world : W
}.
Arguments State : clear implicits.
#[global] Instance eta_State {W} : Eta (State W) := fun s =>
  {| link_ := link_ s; motor_ := motor_ s; pid_ := pid_ s;
     tare_offset_counts_ := tare_offset_counts_ s; world := world s |}.

Section Handlers.
Context {W : Type} `{IClock W, IMotor W, IScale W, ILid W, IUart W}.

Definition transmit (type : FrameType) (request : Frame) (payload : option (list Z)) (s : State W) : State W :=
  let '(_, l, w) := Link.send type (seq_ request) (msg_id request) payload
                      (match payload with Some p => Z.of_nat (length p) | None => 0 end)
                      (link_ s) (world s) in
  s <| link_ := l |> <| world := w |>.

Definition respond (request : Frame) (payload : list Z) (s : State W) : State W :=
  transmit Response request (if (length payload =? 0)%nat then None else Some payload) s.

Definition nack (request : Frame) (s : State W) : State W := transmit Nack request None s.

(** The difference of two counts may overflow its 32 bits, and the quotient
    may exceed the integer it is cast to: both are undefined. *)
Definition current_grams (s : State W) : outcome (Z * State W) :=
  let '(raw, w) := read_raw (world s) in
  let s := s <| world := w |> in
  if negb (Result.is_ok raw) then Ret (0, s)
  else
    let counts := Result.value raw - tare_offset_counts_ s in
    if (counts <? -2147483648) || (counts >? 2147483647) then Undefined
    else
      grams ← defined (to_i32 (fdiv (of_Z counts) kCountsPerGram));
      Ret (grams, s).

Definition handle_ping (request : Frame) (_ : Interlocks.Inputs) (s : State W) : outcome (State W) :=
  Ret (if negb (payload_len request =? 0) then nack request s else respond request [] s).

Definition handle_get_version (request : Frame) (_ : Interlocks.Inputs) (s : State W) : outcome (State W) :=
  Ret (if negb (payload_len request =? 0) then nack request s else respond request [0; 9; 0] s).

Definition handle_motor_set_target (request : Frame) (state : Interlocks.Inputs) (s : State W) : outcome (State W) :=
  if negb (payload_len request =? 3) then Ret (nack request s)
  else
    let requested := get_u16 (payload request) in
    let bounded := if requested >? limits.kMaxRpm then limits.kMaxRpm else requested in
    let ramp := nth 2 (payload request) 0 in
    if ramp >? kRampBurst then Ret (nack request s)
    else if ramp =? kRampBurst then
      if negb (Interlocks.lid_locked state) || fgt (Interlocks.temp_c state) limits.kSpillGuardTempC
      then Ret (nack request s)
      else
        let s := s <| motor_ := MotorController.burst bounded (motor_ s) |> in
        Ret (respond request (put_u16 bounded) s)
    else
      let allowed := Interlocks.clamp_speed_request bounded state in
      let s := s <| motor_ := MotorController.set_target allowed ramp (motor_ s) |> in
      Ret (respond request (put_u16 allowed) s).

Definition handle_motor_stop (request : Frame) (_ : Interlocks.Inputs) (s : State W) : outcome (State W) :=
  if negb (payload_len request =? 0) then Ret (nack request s)
  else
    let '(m, w) := MotorController.stop (motor_ s) (world s) in
    Ret (respond request [] (s <| motor_ := m |> <| world := w |>)).

Definition handle_heater_set_target (request : Frame) (_ : Interlocks.Inputs) (s : State W) : outcome (State W) :=
  if negb (payload_len request =? 2) then Ret (nack request s)
  else
    let target := get_i16 (payload request) in
    if (target <? limits.kHeaterMinTargetDeci) || (target >? limits.kHeaterMaxTargetDeci)
    then Ret (nack request s)
    else Ret (respond request [] (s <| pid_ := HeaterPid.set_target target (pid_ s) |>)).

Definition handle_heater_off (request : Frame) (_ : Interlocks.Inputs) (s : State W) : outcome (State W) :=
  if negb (payload_len request =? 0) then Ret (nack request s)
  else Ret (respond request [] (s <| pid_ := HeaterPid.disable (pid_ s) |>)).

Definition handle_scale_tare (request : Frame) (state : Interlocks.Inputs) (s : State W) : outcome (State W) :=
  if negb (payload_len request =? 0) || (Interlocks.rpm state >? limits.kTareMaxRpm)
  then Ret (nack request s)
  else
    let '(raw, w) := read_raw (world s) in
    let s := s <| world := w |> in
    if negb (Result.is_ok raw) then Ret (nack request s)
    else Ret (respond request [] (s <| tare_offset_counts_ := Result.value raw |>)).

Definition handle_scale_read (request : Frame) (_ : Interlocks.Inputs) (s : State W) : outcome (State W) :=
  if negb (payload_len request =? 0) then Ret (nack request s)
  else
    '(grams, s) ← current_grams s;
    Ret (respond request (put_i32 grams) s).

Definition handle_lid_lock (request : Frame) (_ : Interlocks.Inputs) (s : State W) : outcome (State W) :=
  if negb (payload_len request =? 0) then Ret (nack request s)
  else
    let s := s <| world := set_lock true (world s) |> in
    Ret (respond request [if is_locked (world s) then 1 else 0] s).

Definition handle_lid_unlock (request : Frame) (state : Interlocks.Inputs) (s : State W) : outcome (State W) :=
  if negb (payload_len request =? 0) || (Interlocks.rpm state >=? limits.kUnlockMaxRpm)
  then Ret (nack request s)
  else Ret (respond request [] (s <| world := set_lock false (world s) |>)).

Definition kHandlers : list (Z * (Frame -> Interlocks.Inputs -> State W -> outcome (State W))) :=
  [(MsgId.Ping, handle_ping);
   (MsgId.GetVersion, handle_get_version);
   (MsgId.MotorSetTarget, handle_motor_set_target);
   (MsgId.MotorStop, handle_motor_stop);
   (MsgId.HeaterSetTarget, handle_heater_set_target);
   (MsgId.HeaterOff, handle_heater_off);
   (MsgId.ScaleTare, handle_scale_tare);
   (MsgId.ScaleRead, handle_scale_read);
   (MsgId.LidLock, handle_lid_lock);
   (MsgId.LidUnlock, handle_lid_unlock)].

(** The messages a faulted controller still serves. *)
Definition allowed_when_faulted (id : Z) : bool :=
  (id =? MsgId.MotorStop) || (id =? MsgId.HeaterOff) || (id =? MsgId.Ping) || (id =? MsgId.GetVersion).

Definition handle (request : Frame) (state : Interlocks.Inputs) (faulted : bool) (s : State W) : outcome (State W) :=
  if negb (bool_decide (type request = Request)) then Ret s
  else if faulted && negb (allowed_when_faulted (msg_id request)) then Ret (nack request s)
  else
    match List.find (fun entry => fst entry =? msg_id request) kHandlers with
    | Some entry => snd entry request state s
    | None => Ret (nack request s)
    end.

End Handlers.

Ltac fields := unfold set in *; cbn [link_ motor_ pid_ tare_offset_counts_ world fst snd] in *.

End CommandHandler.

(** ** telemetry_publisher.cpp *)
Module TelemetryPublisher.

Definition kPeriodMs : Z := 10.

Record TelemetryPublisher := { last_publish_ms_ : Z; seq_ : Z; pending_fault_ : Z }.
#[global] Instance eta_TelemetryPublisher : Eta TelemetryPublisher := fun p =>
  {| last_publish_ms_ := last_publish_ms_ p; seq_ := seq_ p; pending_fault_ := pending_fault_ p |}.

Definition new_publisher : TelemetryPublisher :=
  {| last_publish_ms_ := 0; seq_ := 0; pending_fault_ := FaultCode.None |}.

Definition publish_fault (code : Z) (p : TelemetryPublisher) : TelemetryPublisher := p <| pending_fault_ := code |>.

Section Publish.
Context {W : Type} `{IClock W, IUart W}.

(** The pending fault goes first; [false] leaves the call early. *)
Definition publish_pending (p : TelemetryPublisher) (l : Link.Link) (w : W)
    : bool * TelemetryPublisher * Link.Link * W :=
  if pending_fault_ p =? FaultCode.None then (true, p, l, w)
  else
    let '(st, l, w) := Link.send TelemetryFrame (seq_ p) MsgId.Fault (Some [u8 (pending_fault_ p)]) 1 l w in
    if negb (bool_decide (st = Ok)) then (false, p, l, w)
    else (true, p <| seq_ := u8 (seq_ p + 1) |> <| pending_fault_ := FaultCode.None |>, l, w).

Definition maybe_publish (data : TelemetryData) (p : TelemetryPublisher) (l : Link.Link) (w : W)
    : TelemetryPublisher * Link.Link * W :=
  let '(go_on, p, l, w) := publish_pending p l w in
  if negb go_on then (p, l, w)
  else
    let now := now_ms w in
    if u32_sub now (last_publish_ms_ p) <? kPeriodMs then (p, l, w)
    else
      let '(st, l, w) := Link.send TelemetryFrame (seq_ p) MsgId.Telemetry
                           (Some (encode_telemetry data)) kTelemetryPayloadSize l w in
      (if bool_decide (st = Ok)
       then p <| seq_ := u8 (seq_ p + 1) |> <| last_publish_ms_ := now |>
       else p, l, w).

End Publish.

Ltac fields := unfold set in *; cbn [last_publish_ms_ seq_ pending_fault_ fst snd] in *.

End TelemetryPublisher.

(** * Theorems *)

(** ** The interlock rules *)

Section InterlocksTheory.
Import Interlocks.

(** The requirement: 500 rpm with the lid open, 6400 rpm while it is closed
    but not locked, 6400 rpm above 60.0 degrees, 10700 rpm at most. *)
Definition speed_limit (hot : bool) (i : Inputs) : Z :=
  Z.min (if negb (lid_closed i) then 500 else if negb (lid_locked i) then 6400 else 10700)
        (if hot then 6400 else 10700).

Lemma continuous_cap_spec i : continuous_cap i = speed_limit (fgt (temp_c i) limits.kSpillGuardTempC) i.
Proof.
  unfold continuous_cap, speed_limit.
  destruct (fgt (temp_c i) limits.kSpillGuardTempC), (lid_closed i), (lid_locked i); reflexivity.
Qed.

Lemma clamp_speed_request_spec r i : r <= limits.kMaxRpm ->
  clamp_speed_request r i = Z.min r (continuous_cap i).
Proof.
  intros H. rewrite continuous_cap_spec. unfold clamp_speed_request, speed_limit,
    limits.kMaxRpm, limits.kLidOpenMaxRpm, limits.kUnlockedMaxRpm, limits.kSpillGuardMaxRpm in *.
  destruct (fgt (temp_c i) limits.kSpillGuardTempC), (lid_closed i), (lid_locked i);
    cbn [negb andb]; case_tests; lia.
Qed.

Lemma continuous_cap_range i : 0 <= continuous_cap i <= 10700.
Proof. rewrite continuous_cap_spec. unfold speed_limit. repeat case_match; lia. Qed.

End InterlocksTheory.

(** The two places that apply the speed rules agree: a request the command
    handler admits is cut to exactly the cap the control tick enforces, so a
    granted speed is never lowered by the next tick while the inputs stay. *)
Theorem grant_agrees_with_cap rpm i : rpm <= limits.kMaxRpm ->
  Interlocks.clamp_speed_request rpm i = Z.min rpm (Interlocks.continuous_cap i).
Proof. apply clamp_speed_request_spec. Qed.

Lemma grant_agrees_with_cap_witness :
  let i := {| Interlocks.temp_c := of_Z 61; Interlocks.rpm := 0; Interlocks.lid_closed := true;
              Interlocks.lid_locked := true; Interlocks.motor_stalled := false |} in
  9000 <= limits.kMaxRpm /\ Interlocks.clamp_speed_request 9000 i = Z.min 9000 (Interlocks.continuous_cap i).
Proof. intros i. split; [discriminate|]. apply grant_agrees_with_cap. discriminate. Defined.

(** The thresholds of the interlocks fall exactly where the requirements
    put them on the sensor's scale, with no rounding error: at a reading of [d]
    tenths the spill guard applies from 60.1 degrees on, and the controller
    trips on overtemperature from 165.0 degrees on, before it looks at a stall. *)
Theorem interlock_thresholds d i : in_i16 d -> Interlocks.temp_c i = to_celsius d ->
  Interlocks.continuous_cap i = speed_limit (600 <? d) i /\
  Interlocks.evaluate i = (if 1650 <=? d then FaultCode.Overtemp
                           else if Interlocks.motor_stalled i then FaultCode.MotorStall
                           else FaultCode.None).
Proof.
  intros Hd E. rewrite continuous_cap_spec, E. unfold limits.kSpillGuardTempC.
  rewrite to_celsius_gt by (assumption || lia). split; [reflexivity|].
  unfold Interlocks.evaluate, limits.kOvertempCutoffC. rewrite E, to_celsius_ge by (assumption || lia). reflexivity.
Qed.

Lemma interlock_thresholds_witness :
  let i := {| Interlocks.temp_c := to_celsius 1649; Interlocks.rpm := 0; Interlocks.lid_closed := true;
              Interlocks.lid_locked := true; Interlocks.motor_stalled := true |} in
  Interlocks.continuous_cap i = 6400 /\ Interlocks.evaluate i = FaultCode.MotorStall.
Proof.
  intros i. apply (interlock_thresholds 1649 i); [split; reflexivity || discriminate|reflexivity].
Defined.

(** ** The heater controller *)

Section HeaterTheory.
Import HeaterPid.

(** The bound on the integral needs no clamp in the code: one step adds less
    than half a unit in the last place of 2^18, where the sum stalls. *)
Definition integral_max : Z := 2 ^ 18 * 2 ^ scale.

Definition pid_ok (p : HeaterPid) : Prop :=
  fin (integral_ p) = true /\ Z.abs (fz (integral_ p)) <= integral_max /\ in_i16 (target_deci_ p) /\
  (enabled_ p = true -> limits.kHeaterMinTargetDeci <= target_deci_ p <= limits.kHeaterMaxTargetDeci).

Definition measured_ok (t : f32) : Prop := fin t = true /\ Z.abs (fz t) <= 3277 * 2 ^ scale.

Lemma new_pid_ok : pid_ok new_pid.
Proof. repeat split; try discriminate. Qed.

Lemma disable_ok p : pid_ok (disable p).
Proof. repeat split; try discriminate. Qed.

Lemma set_target_ok t p : pid_ok p ->
  limits.kHeaterMinTargetDeci <= t <= limits.kHeaterMaxTargetDeci -> pid_ok (set_target t p).
Proof.
  intros (F & B & T & E) Ht. unfold limits.kHeaterMinTargetDeci, limits.kHeaterMaxTargetDeci in *.
  unfold set_target. destruct (_ || _); unfold pid_ok; fields; unfold in_i16, limits.kHeaterMinTargetDeci,
    limits.kHeaterMaxTargetDeci; repeat split; try assumption; try lia; try reflexivity.
  vm_compute. discriminate.
Qed.

(** Rounding a sum or product of known size. *)
Lemma rounds_to_bound v r c : rounds_to v r -> Z.abs v <= c -> rz c = c -> c < fz_huge ->
  fin r = true /\ Z.abs (fz r) <= c.
Proof.
  intros R B E H. pose proof (rz_mono _ _ B) as M. rewrite <- rz_abs, E in M.
  destruct R as [F V]; [lia|]. rewrite V. split; [exact F|lia].
Qed.

Lemma abs_mul_div a b ca cb : Z.abs a <= ca * 2 ^ scale -> Z.abs b <= cb ->
  Z.abs (a * b / 2 ^ scale) <= ca * cb.
Proof.
  intros Ha Hb. assert (PS : 0 < 2 ^ scale) by (apply pow2_pos; unfold scale; lia).
  assert (M : Z.abs (a * b) <= ca * cb * 2 ^ scale) by (rewrite Z.abs_mul; nia).
  generalize dependent (2 ^ scale). intros S _ PS M. apply Z.abs_le. apply Z.abs_le in M.
  split; [apply Z.div_le_lower_bound|apply Z.div_le_upper_bound]; lia.
Qed.

(** The error of a target and a reading, and one step of the integral. *)
Lemma error_ok t m : in_i16 t -> measured_ok m ->
  fin (fsub (to_celsius t) m) = true /\ Z.abs (fz (fsub (to_celsius t) m)) <= 8192 * 2 ^ scale.
Proof.
  intros Ht [Fm Bm]. destruct (to_celsius_fin t Ht) as [Ft Bt].
  apply (rounds_to_bound _ _ _ (fsub_spec _ _ Ft Fm)); [lia|vm_compute; reflexivity|vm_compute; reflexivity].
Qed.

Definition dt_1ms : f32 := lit 1 1000.

Lemma integral_step i e : fin i = true -> Z.abs (fz i) <= integral_max ->
  fin e = true -> Z.abs (fz e) <= 5 * 2 ^ scale ->
  fin (fadd i (fmul e dt_1ms)) = true /\ Z.abs (fz (fadd i (fmul e dt_1ms))) <= integral_max.
Proof.
  intros Fi Bi Fe Be.
  assert (D : fin (fmul e dt_1ms) = true /\ Z.abs (fz (fmul e dt_1ms)) <= 2 ^ (scale - 7)).
  { apply (rounds_to_bound _ _ _ (fmul_spec e dt_1ms Fe eq_refl)).
    - eapply Z.le_trans; [apply (abs_mul_div _ _ 5 (fz dt_1ms) Be); vm_compute; discriminate|].
      vm_compute. discriminate.
    - vm_compute. reflexivity.
    - vm_compute. reflexivity. }
  destruct D as [FD BD]. destruct (fadd_spec i (fmul e dt_1ms) Fi FD) as [R1 R2].
  - eapply Z.le_lt_trans with integral_max; [|vm_compute; reflexivity].
    rewrite rz_abs. apply Z.le_trans with (rz (integral_max + 2 ^ (scale - 7)));
      [apply rz_mono; lia|vm_compute; discriminate].
  - split; [exact R1|]. rewrite R2, rz_abs.
    apply Z.le_trans with (rz (integral_max + 2 ^ (scale - 7))); [apply rz_mono; lia|vm_compute; discriminate].
Qed.

Lemma output_ok e i : fin e = true -> Z.abs (fz e) <= 8192 * 2 ^ scale ->
  fin i = true -> Z.abs (fz i) <= integral_max ->
  fin (fadd (fmul kKp e) (fmul kKi i)) = true.
Proof.
  intros Fe Be Fi Bi.
  assert (A : fin (fmul kKp e) = true /\ Z.abs (fz (fmul kKp e)) <= 2 ^ (scale + 21)).
  { apply (rounds_to_bound _ _ _ (fmul_spec kKp e eq_refl Fe)); [|vm_compute; reflexivity|vm_compute; reflexivity].
    eapply Z.le_trans; [apply (abs_mul_div (fz kKp) _ 130 _ ltac:(vm_compute; discriminate) Be)|].
    vm_compute. discriminate. }
  assert (B : fin (fmul kKi i) = true /\ Z.abs (fz (fmul kKi i)) <= 2 ^ (scale + 20)).
  { apply (rounds_to_bound _ _ _ (fmul_spec kKi i eq_refl Fi)); [|vm_compute; reflexivity|vm_compute; reflexivity].
    eapply Z.le_trans; [apply (abs_mul_div (fz kKi) _ 2 _ ltac:(vm_compute; discriminate) Bi)|].
    vm_compute. discriminate. }
  destruct A as [FA BA], B as [FB BB].
  destruct (rounds_to_bound _ _ (2 ^ (scale + 22)) (fadd_spec _ _ FA FB)) as [F _]; try exact F.
  - replace (2 ^ (scale + 22)) with (4 * 2 ^ (scale + 20)) by reflexivity.
    replace (2 ^ (scale + 21)) with (2 * 2 ^ (scale + 20)) in BA by reflexivity. lia.
  - vm_compute. reflexivity.
  - vm_compute. reflexivity.
Qed.

(** The power is in the heater's range, and the invariant is kept. *)
Lemma update_ok p m : pid_ok p -> measured_ok m ->
  let '(watts, p') := update m dt_1ms p in
  fin watts = true /\ 0 <= fz watts <= 1200 * 2 ^ scale /\ pid_ok p'.
Proof.
  intros Hp Hm. pose proof Hp as (F & B & T & E). unfold update. destruct (negb (enabled_ p)).
  - split; [reflexivity|]. split; [split; vm_compute; discriminate|exact Hp].
  - destruct (error_ok _ _ T Hm) as [Fe Be]. set (e := fsub _ _) in *.
    set (p' := if flt (fabs e) kIntegralBandC then _ else _).
    assert (Hp' : pid_ok p').
    { subst p'. destruct (flt (fabs e) kIntegralBandC) eqn:L; [|exact Hp].
      assert (Be5 : Z.abs (fz e) <= 5 * 2 ^ scale).
      { assert (Fa : fin (fabs e) = true) by (destruct e; assumption || reflexivity).
        rewrite flt_spec in L by (assumption || reflexivity). apply Z.ltb_lt in L.
        replace (fz kIntegralBandC) with (5 * 2 ^ scale) in L by (vm_compute; reflexivity).
        replace (fz (fabs e)) with (Z.abs (fz e)) in L; [lia|].
        destruct e as [| | |s n x]; try reflexivity. unfold fabs, SFabs. pose proof (fin_pow _ _ _ Fe).
        rewrite !fz_finite, Z.abs_mul. destruct s; cbn [Z.abs]; nia. }
      destruct (integral_step _ _ F B Fe Be5) as [F1 B1].
      split; [exact F1|]. split; [exact B1|]. split; [exact T|exact E]. }
    clearbody p'. pose proof Hp' as (F' & B' & _). pose proof (output_ok _ _ Fe Be F' B') as FW.
    set (w := fadd _ _) in *. clearbody w. rewrite (flt_spec w) by (exact FW || reflexivity).
    assert (V1 : fz kMaxWatts = 1200 * 2 ^ scale) by (vm_compute; reflexivity).
    change (fz fzero) with 0.
    destruct (Z.ltb_spec (fz w) 0).
    + split; [reflexivity|]. split; [split; vm_compute; discriminate|exact Hp'].
    + rewrite fgt_spec, V1 by (exact FW || reflexivity). destruct (Z.ltb_spec (1200 * 2 ^ scale) (fz w)).
      * rewrite V1. split; [reflexivity|]. split; [|exact Hp']. split; [vm_compute; discriminate|lia].
      * split; [exact FW|]. split; [lia|exact Hp'].
Qed.

End HeaterTheory.

(** What may be asked of the heater controller. *)
Inductive pid_op := PidSetTarget (t : Z) | PidDisable | PidUpdate (measured : f32).

Definition pid_op_ok (op : pid_op) : Prop :=
  match op with
  | PidSetTarget t => limits.kHeaterMinTargetDeci <= t <= limits.kHeaterMaxTargetDeci
  | PidDisable => True
  | PidUpdate m => measured_ok m
  end.

(** The powers a sequence of operations returns. *)
Fixpoint run_pid (ops : list pid_op) (p : HeaterPid.HeaterPid) : list f32 :=
  match ops with
  | [] => []
  | PidSetTarget t :: ops => run_pid ops (HeaterPid.set_target t p)
  | PidDisable :: ops => run_pid ops (HeaterPid.disable p)
  | PidUpdate m :: ops => let '(w, p) := HeaterPid.update m (lit 1 1000) p in w :: run_pid ops p
  end.

Definition power_in_range (w : f32) : Prop := fle fzero w = true /\ fle w (of_Z 1200) = true.

Lemma fle_range w n : fin w = true -> 0 <= n <= 2 ^ 24 -> 0 <= fz w <= n * 2 ^ scale ->
  fle fzero w = true /\ fle w (of_Z n) = true.
Proof.
  intros F Hn B. destruct (of_Z_spec n ltac:(lia)) as [F' V'].
  rewrite !fle_spec, V' by (assumption || reflexivity). change (fz fzero) with 0.
  split; apply Z.leb_le; apply B.
Qed.

Lemma run_pid_ok ops p : pid_ok p -> Forall pid_op_ok ops -> Forall power_in_range (run_pid ops p).
Proof.
  intros Hp H. revert p Hp. induction H as [|op ops Ho H IH]; intros p Hp; [constructor|].
  destruct op as [t| |m]; cbn [run_pid].
  - apply IH. now apply set_target_ok.
  - apply IH, disable_ok.
  - pose proof (update_ok p m Hp Ho) as U. change dt_1ms with (lit 1 1000) in U.
    destruct (HeaterPid.update m (lit 1 1000) p) as [w p']. destruct U as (F & B & Hp').
    constructor; [now apply fle_range|now apply IH].
Qed.

(** The heater controller never asks for a power outside 0 to 1200 W and
    never for a power that is not a number, for ever: whatever targets in the
    permitted range, stops and sensor readings follow each other. The integral
    has no clamp in the code; it stays below 2^18 because a step smaller than
    half a unit in the last place no longer changes it. *)
Theorem heater_power_bounded ops : Forall pid_op_ok ops ->
  Forall power_in_range (run_pid ops HeaterPid.new_pid).
Proof. intros H. apply run_pid_ok; [apply new_pid_ok|exact H]. Qed.

Lemma heater_power_bounded_witness :
  let ops := [PidSetTarget 1000; PidUpdate (to_celsius 980); PidUpdate (to_celsius 200); PidDisable;
              PidUpdate (to_celsius 200)] in
  Forall pid_op_ok ops /\ Forall power_in_range (run_pid ops HeaterPid.new_pid).
Proof.
  intros ops. assert (H : Forall pid_op_ok ops).
  { repeat constructor; try discriminate; vm_compute; discriminate. }
  split; [exact H|]. apply heater_power_bounded. exact H.
Defined.

(** ** The motor controller *)

Section MotorTheory.
Import MotorController.

Definition motor_ok (m : MotorController) : Prop :=
  fin (commanded_rpm_ m) = true /\ 0 <= fz (commanded_rpm_ m) <= 10700 * 2 ^ scale /\
  0 <= target_rpm_ m <= 10700 /\ exists p, ramp_rpm_per_s_ m = ramp_rate_for p.

(** A command and its target, in units of 2^-300 rpm. *)
Definition commanded (m : MotorController) : Z := fz (commanded_rpm_ m).
Definition target (m : MotorController) : Z := target_rpm_ m * 2 ^ scale.

Lemma new_motor_ok : motor_ok new_motor.
Proof.
  split; [reflexivity|]. split; [split; vm_compute; discriminate|]. split; [cbn; lia|].
  exists kRampGentle. reflexivity.
Qed.

Lemma small_of_Z z : 0 <= z <= 10700 -> fin (of_Z z) = true /\ fz (of_Z z) = z * 2 ^ scale.
Proof. intros H. apply of_Z_spec. lia. Qed.

Lemma scale_mono a b : a <= b -> a * 2 ^ scale <= b * 2 ^ scale.
Proof. intros H. apply Z.mul_le_mono_nonneg_r; [apply Z.lt_le_incl, pow2_pos; unfold scale; lia|exact H]. Qed.

Lemma set_target_motor_ok rpm ramp m : motor_ok m -> 0 <= rpm -> motor_ok (set_target rpm ramp m).
Proof.
  intros (F & B & T & P) Hr. unfold set_target, limits.kMaxRpm.
  split; [exact F|]. split; [exact B|]. split; [fields; case_tests; lia|]. now exists ramp.
Qed.

Lemma burst_ok rpm m : motor_ok m -> 0 <= rpm -> motor_ok (burst rpm m).
Proof.
  intros (F & B & T & P) Hr. unfold burst, limits.kMaxRpm. fields.
  set (r := if rpm >? 10700 then 10700 else rpm).
  assert (R : 0 <= r <= 10700) by (unfold r; case_tests; lia). clearbody r.
  destruct (small_of_Z r R) as [Fr Vr]. split; [exact Fr|]. fields. rewrite Vr.
  split; [|split; [exact R|exact P]]. split; [change 0 with (0 * 2 ^ scale)|]; apply scale_mono; lia.
Qed.

Lemma stop_ok {W} `{IMotor W} m (w : W) : motor_ok m -> motor_ok (stop m w).1.
Proof.
  intros (F & B & T & P). split; [reflexivity|]. split; [split; vm_compute; discriminate|].
  split; [unfold stop; fields; lia|exact P].
Qed.

(** The cap holds at once, for the target and for the command. *)
Lemma enforce_cap_ok cap m : motor_ok m -> 0 <= cap <= 10700 ->
  motor_ok (enforce_cap cap m) /\ commanded (enforce_cap cap m) <= cap * 2 ^ scale /\
  target_rpm_ (enforce_cap cap m) <= cap.
Proof.
  intros (F & B & T & P) Hc. unfold enforce_cap, commanded. destruct (small_of_Z cap Hc) as [Fc Vc].
  assert (E : forall t, fgt (commanded_rpm_ (m <| target_rpm_ := t |>)) (of_Z cap) =
                        (cap * 2 ^ scale <? fz (commanded_rpm_ m)))
    by (intros t; fields; rewrite fgt_spec, Vc by assumption; reflexivity).
  assert (E0 : fgt (commanded_rpm_ m) (of_Z cap) = (cap * 2 ^ scale <? fz (commanded_rpm_ m)))
    by (rewrite fgt_spec, Vc by assumption; reflexivity).
  pose proof (scale_mono 0 cap ltac:(lia)). pose proof (scale_mono cap 10700 ltac:(lia)).
  destruct (Z.gtb_spec (target_rpm_ m) cap); rewrite ?E, ?E0;
    destruct (Z.ltb_spec (cap * 2 ^ scale) (fz (commanded_rpm_ m))); unfold motor_ok; fields; rewrite ?Vc;
    repeat split; try assumption; lia.
Qed.

(** The step of a profile: between half a turn and 2.5 turns per minute. *)
Lemma step_spec m : motor_ok m ->
  let step := fmul (ramp_rpm_per_s_ m) (lit 1 1000) in
  fin step = true /\ fin (fmul step (of_Z 4)) = true /\
  2 ^ scale <= 2 * fz step + 2 ^ (scale - 10) /\ fz step <= 3 * 2 ^ scale /\
  fz step <= fz (fmul step (of_Z 4)) <= 12 * 2 ^ scale.
Proof.
  intros (_ & _ & _ & p & ->). cbv zeta. unfold ramp_rate_for.
  repeat case_match; vm_compute; repeat split; discriminate.
Qed.

(** Rounding up to the largest speed loses less than a thousandth of a turn. *)
Lemma rz_near v : 0 <= v < 16384 * 2 ^ scale -> Z.abs (rz v - v) <= 2 ^ (scale - 11).
Proof.
  intros Hv. destruct (Z.eq_dec v 0) as [->|N]; [rewrite rz_0; vm_compute; discriminate|].
  rewrite rz_pos by lia. set (e := round_exp v).
  assert (He : 0 <= e <= scale - 10).
  { split; [apply round_exp_nonneg|]. unfold e, round_exp.
    pose proof (digits_le v (scale + 14) ltac:(lia) ltac:(unfold scale; lia)
      ltac:(rewrite Z.add_comm, pow2_split by (unfold scale; lia); apply Hv)). unfold scale in *. lia. }
  pose proof (rne_error v e ltac:(lia)) as R.
  pose proof (Z.pow_le_mono_r 2 e (scale - 10) ltac:(lia) ltac:(lia)) as PW.
  replace (2 ^ (scale - 10)) with (2 * 2 ^ (scale - 11)) in PW by reflexivity. lia.
Qed.

(** The least progress of a tick, 511/1024 rpm. *)
Definition progress : Z := 511 * 2 ^ (scale - 10).

Lemma fadd_range c s : fin c = true -> fin s = true -> 0 <= fz c <= 10700 * 2 ^ scale ->
  0 <= fz s <= 12 * 2 ^ scale ->
  fin (fadd c s) = true /\ fz c <= fz (fadd c s) /\ fz c + fz s <= fz (fadd c s) + 2 ^ (scale - 11).
Proof.
  intros Fc Fs Bc Bs. assert (PS : 0 < 2 ^ scale) by (apply pow2_pos; unfold scale; lia).
  pose proof (rz_near (fz c + fz s) ltac:(lia)) as N.
  assert (M : fz c <= rz (fz c + fz s)) by (rewrite <- (rz_fz c Fc) at 1; apply rz_mono; lia).
  destruct (fadd_spec c s Fc Fs) as [F V].
  - assert (fz_huge = 2 ^ 128 * 2 ^ scale) as -> by reflexivity.
    replace (2 ^ scale) with (2048 * 2 ^ (scale - 11)) in * by reflexivity. lia.
  - rewrite V. split; [exact F|]. lia.
Qed.

Lemma fsub_range c s : fin c = true -> fin s = true -> 0 <= fz c <= 10700 * 2 ^ scale ->
  0 <= fz s <= 12 * 2 ^ scale ->
  fin (fsub c s) = true /\ fz (fsub c s) <= fz c /\
  (fz (fsub c s) <= 0 \/ fz (fsub c s) + fz s <= fz c + 2 ^ (scale - 11)).
Proof.
  intros Fc Fs Bc Bs. assert (PS : 0 < 2 ^ scale) by (apply pow2_pos; unfold scale; lia).
  assert (M : rz (fz c - fz s) <= fz c) by (rewrite <- (rz_fz c Fc) at 2; apply rz_mono; lia).
  assert (L : - (12 * 2 ^ scale) <= rz (fz c - fz s)).
  { replace (- (12 * 2 ^ scale)) with (rz (- (12 * 2 ^ scale))) by (vm_compute; reflexivity).
    apply rz_mono. lia. }
  destruct (fsub_spec c s Fc Fs) as [F V].
  - assert (fz_huge = 2 ^ 128 * 2 ^ scale) as -> by reflexivity. lia.
  - rewrite V. split; [exact F|]. split; [exact M|].
    destruct (Z.le_gt_cases 0 (fz c - fz s)) as [P|P].
    + pose proof (rz_near (fz c - fz s) ltac:(lia)) as N. lia.
    + left. apply (rz_mono _ 0). lia.
Qed.

(** One tick moves the command towards the target, never past it, and at
    least by [progress] until it is there. *)
Lemma ramp_spec m : motor_ok m ->
  fin (ramp m) = true /\
  (commanded m <= target m -> commanded m <= fz (ramp m) <= target m /\
     (fz (ramp m) = target m \/ commanded m + progress <= fz (ramp m))) /\
  (target m <= commanded m -> target m <= fz (ramp m) <= commanded m /\
     (fz (ramp m) = target m \/ fz (ramp m) + progress <= commanded m)).
Proof.
  intros Hm. destruct (step_spec m Hm) as (F1 & F4 & L1 & U1 & B4). pose proof Hm as (F & B & T & _).
  destruct (small_of_Z _ T) as [Ft Vt]. unfold ramp, commanded, target. cbv zeta.
  set (step := fmul _ (lit 1 1000)) in *. set (step4 := fmul step (of_Z 4)) in *. clearbody step step4.
  pose proof (scale_mono 0 (target_rpm_ m) ltac:(lia)) as T0.
  rewrite (flt_spec (commanded_rpm_ m)), (fgt_spec (commanded_rpm_ m)), Vt by assumption. set (c := commanded_rpm_ m) in *. clearbody c.
  assert (PG : 2 ^ scale = 1024 * 2 ^ (scale - 10) /\ 2 ^ (scale - 10) = 2 * 2 ^ (scale - 11)) by (split; reflexivity).
  assert (PP : 0 < 2 ^ (scale - 11)) by (apply pow2_pos; unfold scale; lia).
  destruct (Z.ltb_spec (fz c) (target_rpm_ m * 2 ^ scale)) as [G|G].
  - destruct (fadd_range c step F F1 B ltac:(lia)) as (Fa & M & N). rewrite fgt_spec, Vt by assumption.
    destruct (Z.ltb_spec (target_rpm_ m * 2 ^ scale) (fz (fadd c step))) as [O|O].
    + rewrite Vt. split; [exact Ft|]. split; intros X; (split; [lia|left; reflexivity]).
    + split; [exact Fa|]. split; intros K; [|lia]. split; [lia|]. right. unfold progress. lia.
  - destruct (Z.ltb_spec (target_rpm_ m * 2 ^ scale) (fz c)) as [K|K].
    + destruct (fsub_range c step4 F F4 B ltac:(lia)) as (Fs & M & N). rewrite flt_spec, Vt by assumption.
      destruct (Z.ltb_spec (fz (fsub c step4)) (target_rpm_ m * 2 ^ scale)) as [O|O].
      * rewrite Vt. split; [exact Ft|]. split; intros X; [lia|]. split; [lia|left; reflexivity].
      * split; [exact Fs|]. split; intros X; [lia|]. split; [lia|]. unfold progress. lia.
    + split; [exact F|]. split; intros X; (split; [lia|left; lia]).
Qed.

Lemma ramp_ok m : motor_ok m -> motor_ok (m <| commanded_rpm_ := ramp m |>).
Proof.
  intros Hm. destruct (ramp_spec m Hm) as (F & U & D). pose proof Hm as (_ & B & T & P).
  pose proof (scale_mono 0 (target_rpm_ m) ltac:(lia)). pose proof (scale_mono (target_rpm_ m) 10700 ltac:(lia)).
  unfold commanded, target in *. split; [exact F|]. fields. split; [|split; [exact T|exact P]].
  destruct (Z.le_ge_cases (fz (commanded_rpm_ m)) (target_rpm_ m * 2 ^ scale)) as [G|G];
    [specialize (U G)|specialize (D G)]; lia.
Qed.

(** The duty of a command. *)
Definition duty_of (m : MotorController) : f32 := fdiv (commanded_rpm_ m) (of_Z limits.kMaxRpm).

Lemma duty_of_ok m : motor_ok m -> fle fzero (duty_of m) = true /\ fle (duty_of m) (of_Z 1) = true.
Proof.
  intros (F & B & _). destruct (fdiv_unit (commanded_rpm_ m) (of_Z limits.kMaxRpm) F eq_refl) as [Fd Bd].
  - vm_compute. reflexivity.
  - replace (fz (of_Z limits.kMaxRpm)) with (10700 * 2 ^ scale) by (vm_compute; reflexivity). exact B.
  - apply fle_range; [exact Fd|lia|]. rewrite Z.mul_1_l. exact Bd.
Qed.

(** The distance of the command from its target. *)
Definition distance (m : MotorController) : Z := Z.abs (target m - commanded m).

Lemma ramp_distance m : motor_ok m ->
  let m' := m <| commanded_rpm_ := ramp m |> in
  distance m' = 0 \/ distance m' + progress <= distance m.
Proof.
  intros Hm. cbv zeta. destruct (ramp_spec m Hm) as (_ & U & D). unfold distance, commanded, target in *. fields.
  destruct (Z.le_ge_cases (fz (commanded_rpm_ m)) (target_rpm_ m * 2 ^ scale)) as [G|G];
    [specialize (U G)|specialize (D G)]; lia.
Qed.

Section Ticks.
Context {W : Type} `{IMotor W}.

Definition ticks (n : nat) (m : MotorController) (w : W) : MotorController * W :=
  Nat.iter n (fun s => tick_1ms s.1 s.2) (m, w).

Lemma ticks_ok n m w : motor_ok m ->
  motor_ok (ticks n m w).1 /\ target_rpm_ (ticks n m w).1 = target_rpm_ m /\
  (distance (ticks n m w).1 = 0 \/ distance (ticks n m w).1 + Z.of_nat n * progress <= distance m).
Proof.
  intros Hm. unfold ticks. induction n as [|n (I1 & I2 & I3)]; [split; [exact Hm|]; cbn; split; [reflexivity|lia]|].
  rewrite Nat.iter_succ. set (s := Nat.iter n _ _) in *. clearbody s. unfold tick_1ms. fields.
  split; [now apply ramp_ok|]. split; [exact I2|].
  pose proof (ramp_distance s.1 I1) as R. cbv zeta in R. fields.
  assert (PP : 0 < progress) by (vm_compute; reflexivity).
  destruct R as [R|R]; [left; exact R|]. destruct I3 as [I3|I3].
  - left. rewrite I3 in R. unfold distance in *. lia.
  - right. rewrite Nat2Z.inj_succ, Z.mul_succ_l. lia.
Qed.

(** The command stays on its side of the target. *)
Lemma ticks_between n m w : motor_ok m ->
  (commanded m <= target m -> commanded m <= commanded (ticks n m w).1 <= target m) /\
  (target m <= commanded m -> target m <= commanded (ticks n m w).1 <= commanded m).
Proof.
  intros Hm. induction n as [|n [U D]]; [cbn; lia|].
  destruct (ticks_ok n m w Hm) as (I1 & I2 & _). unfold ticks in *. rewrite Nat.iter_succ.
  set (s := Nat.iter n _ _) in *. clearbody s. destruct (ramp_spec s.1 I1) as (_ & RU & RD).
  unfold tick_1ms, commanded, target in *. fields. rewrite I2 in *. lia.
Qed.
End Ticks.

End MotorTheory.

(** C35: a motor command is never left short and never overshoots: while its
    target stays, after any number of ticks the commanded speed lies between what
    it was and the target, no farther from it, the duty lies between 0 and 1, and within 21443 ticks (the
    gentle profile over the whole range) the command is the target exactly,
    although the ramp is summed in rounded binary32 steps. *)
Theorem motor_reaches_target {W} `{IMotor W} n m (w : W) : motor_ok m ->
  let m' := (ticks n m w).1 in
  motor_ok m' /\ MotorController.target_rpm_ m' = MotorController.target_rpm_ m /\
  distance m' <= distance m /\
  (commanded m <= target m -> commanded m <= commanded m' <= target m) /\
  (target m <= commanded m -> target m <= commanded m' <= commanded m) /\
  fle fzero (duty_of m') = true /\ fle (duty_of m') (of_Z 1) = true /\
  (21443 <= Z.of_nat n -> commanded m' = target m).
Proof.
  intros Hm m'. destruct (ticks_ok n m w Hm) as (I1 & I2 & I3). fold m' in I1, I2, I3.
  assert (PP : 0 < progress) by (vm_compute; reflexivity).
  assert (D0 : 0 <= distance m) by apply Z.abs_nonneg.
  split; [exact I1|]. split; [exact I2|]. split; [nia|].
  destruct (ticks_between n m w Hm) as [U D]. split; [exact U|]. split; [exact D|].
  destruct (duty_of_ok m' I1) as [D1 D2]. split; [exact D1|]. split; [exact D2|]. intros N.
  assert (T : target m' = target m) by (unfold target; now rewrite I2). rewrite <- T.
  destruct I3 as [E|E]; [unfold distance in E; lia|]. exfalso.
  assert (DM : distance m <= 10700 * 2 ^ scale).
  { destruct Hm as (_ & B & R & _). unfold distance, commanded, target.
    pose proof (scale_mono 0 (MotorController.target_rpm_ m) ltac:(lia)).
    pose proof (scale_mono (MotorController.target_rpm_ m) 10700 ltac:(lia)). lia. }
  assert (0 <= distance m') by apply Z.abs_nonneg.
  assert (10700 * 2 ^ scale < 21443 * progress) by (vm_compute; reflexivity). nia.
Qed.

(** The commands of the motor tests: half a second towards 1000 rpm. *)
Lemma motor_reaches_target_witness :
  let motor := {| set_duty := fun d (_ : f32) => d; set_reverse := fun _ w => w; motor_rpm := fun _ => 0;
                  current_ma := fun _ => 0; stalled := fun _ => false |} in
  let m := MotorController.set_target 1000 kRampNormal MotorController.new_motor in
  motor_ok m /\ commanded (ticks (Z.to_nat 21500) m fzero).1 = 1000 * 2 ^ scale.
Proof.
  intros motor m.
  assert (Hm : motor_ok m) by (apply set_target_motor_ok; [apply new_motor_ok|discriminate]).
  split; [exact Hm|].
  destruct (motor_reaches_target (Z.to_nat 21500) m fzero Hm) as (_ & _ & _ & _ & _ & _ & _ & R).
  rewrite R; [reflexivity|lia].
Defined.

(** ** The command handler *)

(** A 32-bit count divided by ten fits an integer. *)
Lemma grams_pos c : 0 < c <= 2147483648 ->
  exists g, trunc (fdiv (of_Z c) (of_Z 10)) = Some g /\ 0 <= g <= 268435456.
Proof.
  intros Hc. pose proof (normalize_spec c 0 false ltac:(unfold scale; lia)) as R.
  rewrite Z.add_0_l in R. fold (of_Z c) in R. assert (PS : 0 < 2 ^ scale) by (apply pow2_pos; unfold scale; lia).
  assert (M : 0 < rz (c * 2 ^ scale) <= 2147483648 * 2 ^ scale).
  { split.
    - apply Z.lt_le_trans with (rz (1 * 2 ^ scale)); [vm_compute; reflexivity|apply rz_mono; nia].
    - replace (2147483648 * 2 ^ scale) with (rz (2147483648 * 2 ^ scale)) by (vm_compute; reflexivity).
      apply rz_mono. nia. }
  destruct R as [F V].
  { rewrite Z.abs_eq by lia. eapply Z.le_lt_trans; [apply M|vm_compute; reflexivity]. }
  destruct (fdiv_le (of_Z c) (of_Z 10) (of_Z 268435456) F eq_refl eq_refl) as [FD B]; rewrite ?V; try lia.
  - vm_compute. reflexivity.
  - vm_compute. discriminate.
  - replace (fz (of_Z 268435456)) with (268435456 * 2 ^ scale) by (vm_compute; reflexivity).
    replace (fz (of_Z 10)) with (10 * 2 ^ scale) by (vm_compute; reflexivity). nia.
  - rewrite trunc_spec by exact FD. eexists. split; [reflexivity|].
    replace (fz (of_Z 268435456)) with (268435456 * 2 ^ scale) in B by (vm_compute; reflexivity).
    rewrite Z.quot_div_nonneg by lia. split; [apply Z.div_pos; lia|apply Z.div_le_upper_bound; lia].
Qed.

Lemma grams_ok c : -2147483648 <= c <= 2147483647 ->
  exists g, to_i32 (fdiv (of_Z c) (of_Z 10)) = Some g /\ in_i32 g.
Proof.
  intros Hc.
  assert (T : exists g, trunc (fdiv (of_Z c) (of_Z 10)) = Some g /\ -268435456 <= g <= 268435456).
  { destruct (Z.lt_trichotomy c 0) as [N|[->|P]].
    - replace c with (- - c) by lia. rewrite of_Z_opp, fdiv_opp, trunc_opp by (lia || reflexivity).
      destruct (grams_pos (- c) ltac:(lia)) as (g & -> & B). exists (- g). split; [reflexivity|lia].
    - exists 0. split; [reflexivity|lia].
    - destruct (grams_pos c ltac:(lia)) as (g & E & B). exists g. split; [exact E|lia]. }
  destruct T as (g & E & B). exists g. unfold to_i32, to_int. rewrite E.
  destruct (Z.leb_spec (-2147483648) g); [|lia]. destruct (Z.leb_spec g 2147483647); [|lia].
  split; [reflexivity|unfold in_i32; lia].
Qed.

Section CommandTheory.
Import CommandHandler.
Context {W : Type} `{IClock W, BoardLaws W}.

Definition tare_ok (z : Z) : Prop := scale_fits -> -1073741824 <= z < 1073741824.

Definition handler_ok (s : State W) : Prop :=
  link_ok (link_ s) /\ motor_ok (motor_ s) /\ pid_ok (pid_ s) /\ tare_ok (tare_offset_counts_ s).

(** A reply changes the transmit queue and the wire, nothing else. *)
Definition quiet (s s' : State W) : Prop :=
  motor_ s' = motor_ s /\ pid_ s' = pid_ s /\ tare_offset_counts_ s' = tare_offset_counts_ s /\
  Link.parser_ (link_ s') = Link.parser_ (link_ s) /\
  tx_wf (link_ s') /\ actuators (world s') = actuators (world s) /\
  rx_pending (world s') = rx_pending (world s).

Lemma transmit_quiet type request payload s : tx_wf (link_ s) ->
  Z.of_nat (length (default [] payload)) <= kMaxPayload -> quiet s (transmit type request payload s).
Proof.
  intros T L. unfold transmit.
  assert (E : Link.send type (seq_ request) (msg_id request) payload
                (match payload with Some p => Z.of_nat (length p) | None => 0 end) (link_ s) (world s)
              = Link.send type (seq_ request) (msg_id request) (Some (default [] payload))
                (Z.of_nat (length (default [] payload))) (link_ s) (world s))
    by (destruct payload; reflexivity).
  rewrite E. pose proof (send_ok type (seq_ request) (msg_id request) (default [] payload) (link_ s) (world s) T L) as S.
  pose proof (send_preserves actuators type (seq_ request) (msg_id request) (Some (default [] payload))
    (Z.of_nat (length (default [] payload))) (link_ s) (world s) (fun bs w => actuators_write bs w)) as A.
  destruct (Link.send type (seq_ request) (msg_id request) (Some (default [] payload)) _ (link_ s) (world s))
    as [[st l] w]. destruct S as (S1 & S2 & _ & S4 & _).
  unfold quiet. fields. rewrite S2. repeat (assumption || reflexivity || split).
Qed.

Lemma nack_quiet request s : tx_wf (link_ s) -> quiet s (nack request s).
Proof. intros T. apply transmit_quiet; [exact T|discriminate]. Qed.

Lemma respond_quiet request payload s : tx_wf (link_ s) -> Z.of_nat (length payload) <= kMaxPayload ->
  quiet s (respond request payload s).
Proof. intros T L. apply transmit_quiet; [exact T|]. destruct payload; [discriminate|exact L]. Qed.

Lemma quiet_ok s s' : quiet s s' -> handler_ok s -> handler_ok s'.
Proof.
  intros (E1 & E2 & E3 & E4 & T & _) ((_ & L) & M & P & K). unfold handler_ok, link_ok. rewrite E1, E2, E3, E4.
  repeat (assumption || split).
Qed.

(** A tared reading fits if the counts of the cell do. *)
Lemma current_grams_ok s : tare_ok (tare_offset_counts_ s) ->
  wp (current_grams s) (fun r => exists w, r.2 = s <| world := w |> /\ in_i32 r.1 /\
    actuators w = actuators (world s) /\ rx_pending w = rx_pending (world s)).
Proof.
  intros T. unfold current_grams. pose proof (scale_range (world s)) as R.
  pose proof (duty_scale (world s)) as A1. pose proof (power_scale (world s)) as A2.
  pose proof (lock_scale (world s)) as A3. pose proof (pending_scale (world s)) as A4.
  destruct (read_raw (world s)) as [raw w]. cbn [fst snd] in *.
  assert (A : actuators w = actuators (world s)) by (unfold actuators; congruence).
  destruct (Result.is_ok raw); cbn [negb].
  2: { exists w. repeat (assumption || reflexivity || split); discriminate. }
  change (tare_offset_counts_ (s <| world := w |>)) with (tare_offset_counts_ s).
  set (c := Result.value raw - tare_offset_counts_ s). unfold tare_ok, Result.value in *.
  assert (C : scale_fits -> -2147483648 <= c <= 2147483647) by (intros F; specialize (T F); specialize (R F); lia).
  clearbody c. destruct (Z.ltb_spec c (-2147483648)); [intros F; specialize (C F); lia|].
  destruct (Z.gtb_spec c 2147483647); [intros F; specialize (C F); lia|]. cbn [orb].
  unfold kCountsPerGram. destruct (grams_ok c ltac:(lia)) as (g & -> & G).
  exists w. repeat (assumption || reflexivity || split); apply G.
Qed.

(** The message catalogue of docs/c1link-protocol.md with the conditions of
    docs/safety-requirements.md, on the bytes of the payload: [None] is a
    NACK, [Some bytes] a response. *)
Definition reply_state : Type := option (list Z) * State W.

Definition catalog_motor (bytes : list Z) (state : Interlocks.Inputs) (s : State W) : reply_state :=
  match bytes with
  | [lo; hi; ramp] =>
      let rpm := Z.min (lo + 256 * hi) 10700 in
      if (ramp =? 0) || (ramp =? 1) || (ramp =? 2) then
        let granted := Z.min rpm (Interlocks.continuous_cap state) in
        (Some (put_u16 granted), s <| motor_ := MotorController.set_target granted ramp (motor_ s) |>)
      else if (ramp =? 3) && Interlocks.lid_locked state && negb (fgt (Interlocks.temp_c state) (of_Z 60)) then
        (Some (put_u16 rpm), s <| motor_ := MotorController.burst rpm (motor_ s) |>)
      else (None, s)
  | _ => (None, s)
  end.

Definition catalog_heater (bytes : list Z) (s : State W) : reply_state :=
  match bytes with
  | [lo; hi] =>
      let deci := i16 (lo + 256 * hi) in
      if (370 <=? deci) && (deci <=? 1600)
      then (Some [], s <| pid_ := HeaterPid.set_target deci (pid_ s) |>) else (None, s)
  | _ => (None, s)
  end.

Definition catalog_tare (state : Interlocks.Inputs) (s : State W) : reply_state :=
  if Interlocks.rpm state <=? 50 then
    let '(raw, w) := read_raw (world s) in
    if Result.is_ok raw
    then (Some [], s <| world := w |> <| tare_offset_counts_ := Result.value raw |>)
    else (None, s <| world := w |>)
  else (None, s).

(** The requests without a payload. *)
Definition catalog_plain (id : Z) (state : Interlocks.Inputs) (s : State W) : outcome reply_state :=
  if id =? 0x01 then Ret (Some [], s)
  else if id =? 0x02 then Ret (Some [0; 9; 0], s)
  else if id =? 0x11 then
    let '(m, w) := MotorController.stop (motor_ s) (world s) in
    Ret (Some [], s <| motor_ := m |> <| world := w |>)
  else if id =? 0x21 then Ret (Some [], s <| pid_ := HeaterPid.disable (pid_ s) |>)
  else if id =? 0x30 then Ret (catalog_tare state s)
  else if id =? 0x31 then '(g, s) ← current_grams s; Ret (Some (put_i32 g), s)
  else if id =? 0x40 then
    let s := s <| world := set_lock true (world s) |> in
    Ret (Some [if is_locked (world s) then 1 else 0], s)
  else if id =? 0x41 then
    if Interlocks.rpm state <? 100
    then Ret (Some [], s <| world := set_lock false (world s) |>) else Ret (None, s)
  else Ret (None, s).

Definition catalog (request : Frame) (state : Interlocks.Inputs) (faulted : bool) (s : State W) : outcome reply_state :=
  let id := msg_id request in
  let bytes := frame_payload request in
  if faulted && negb (allowed_when_faulted id) then Ret (None, s)
  else if id =? 0x10 then Ret (catalog_motor bytes state s)
  else if id =? 0x20 then Ret (catalog_heater bytes s)
  else match bytes with [] => catalog_plain id state s | _ => Ret (None, s) end.

(** The reply that is sent for a request. *)
Definition answer (request : Frame) (r : reply_state) : State W :=
  match r with
  | (Some bytes, s) => respond request bytes s
  | (None, s) => nack request s
  end.

(** The payload of a frame by its length. *)
Lemma payload_cases f : frame_wf f ->
  (payload_len f = 0 <-> frame_payload f = []) /\
  (payload_len f = 2 -> frame_payload f = [nth 0 (payload f) 0; nth 1 (payload f) 0]) /\
  (payload_len f = 3 -> frame_payload f = [nth 0 (payload f) 0; nth 1 (payload f) 0; nth 2 (payload f) 0]) /\
  Z.of_nat (length (frame_payload f)) = payload_len f.
Proof.
  intros W0. pose proof (length_frame_payload f W0) as L. destruct W0 as (_ & _ & B & N & _).
  assert (LZ : Z.of_nat (length (frame_payload f)) = payload_len f) by lia.
  split; [|split; [|split; [|exact LZ]]].
  - split; intros E; [apply nil_length_inv; lia|rewrite E in LZ; cbn in LZ; lia].
  - intros E. unfold frame_payload. rewrite E. change (Z.to_nat 2) with 2%nat.
    destruct (payload f) as [|a [|b p]]; try discriminate. reflexivity.
  - intros E. unfold frame_payload. rewrite E. change (Z.to_nat 3) with 3%nat.
    destruct (payload f) as [|a [|b [|c p]]]; try discriminate. reflexivity.
Qed.

Lemma payload_nth f i : frame_wf f -> in_u8 (nth i (payload f) 0).
Proof.
  intros (_ & _ & _ & _ & B). destruct (Nat.lt_ge_cases i (length (payload f))) as [G|G].
  - apply (proj1 (Forall_forall _ _) B), list_elem_of_In. now apply nth_In.
  - rewrite nth_overflow by exact G. split; reflexivity || discriminate.
Qed.

Lemma wrong_length (f : Frame) (s : State W) : frame_wf f -> payload_len f <> 0 ->
  forall A (x y : A), match frame_payload f with [] => x | _ => y end = y.
Proof.
  intros Wf N A x y. destruct (payload_cases f Wf) as ([_ E] & _). destruct (frame_payload f); [|reflexivity].
  exfalso. apply N, E. reflexivity.
Qed.

Lemma motor_set_target_catalog f i s : frame_wf f ->
  handle_motor_set_target f i s = Ret (answer f (catalog_motor (frame_payload f) i s)).
Proof.
  intros Wf. destruct (payload_cases f Wf) as (_ & _ & P3 & L). unfold handle_motor_set_target.
  destruct (Z.eqb_spec (payload_len f) 3) as [E|N]; cbn [negb].
  - rewrite P3 by exact E. pose proof (payload_nth f 0 Wf) as B0. pose proof (payload_nth f 1 Wf) as B1.
    pose proof (payload_nth f 2 Wf) as B2. rewrite get_u16_nth by assumption.
    set (a := nth 0 (payload f) 0) in *. set (b := nth 1 (payload f) 0) in *.
    set (c := nth 2 (payload f) 0) in *. clearbody a b c. unfold catalog_motor, limits.kMaxRpm, limits.kSpillGuardTempC.
    cbv zeta. rewrite !Z.gtb_ltb, (Z.mul_comm 256 b).
    replace (if 10700 <? a + b * 256 then 10700 else a + b * 256) with (Z.min (a + b * 256) 10700)
      by (destruct (Z.ltb_spec 10700 (a + b * 256)); lia).
    set (r := Z.min _ 10700). unfold kRampBurst. unfold in_u8 in B2.
    destruct (Z.ltb_spec 3 c).
    { destruct (Z.eqb_spec c 0), (Z.eqb_spec c 1), (Z.eqb_spec c 2), (Z.eqb_spec c 3); (lia || reflexivity). }
    destruct (Z.eqb_spec c 3) as [->|N3]; cbn [Z.eqb orb andb].
    + destruct (Interlocks.lid_locked i), (fgt (Interlocks.temp_c i) (of_Z 60)); reflexivity.
    + rewrite clamp_speed_request_spec by (unfold r, limits.kMaxRpm; lia).
      destruct (Z.eqb_spec c 0), (Z.eqb_spec c 1), (Z.eqb_spec c 2); (lia || reflexivity).
  - destruct (frame_payload f) as [|a [|b [|c [|d p]]]] eqn:F; try reflexivity. cbn in L. lia.
Qed.

Lemma heater_set_target_catalog f i s : frame_wf f ->
  handle_heater_set_target f i s = Ret (answer f (catalog_heater (frame_payload f) s)).
Proof.
  intros Wf. destruct (payload_cases f Wf) as (_ & P2 & _ & L). unfold handle_heater_set_target.
  destruct (Z.eqb_spec (payload_len f) 2) as [E|N]; cbn [negb].
  - rewrite P2 by exact E. pose proof (payload_nth f 0 Wf) as B0. pose proof (payload_nth f 1 Wf) as B1.
    unfold get_i16. rewrite get_u16_nth by assumption.
    set (a := nth 0 (payload f) 0) in *. set (b := nth 1 (payload f) 0) in *. clearbody a b.
    unfold catalog_heater, limits.kHeaterMinTargetDeci, limits.kHeaterMaxTargetDeci. cbv zeta.
    rewrite (Z.mul_comm 256 b), Z.gtb_ltb. set (t := i16 _).
    destruct (Z.ltb_spec t 370), (Z.leb_spec 370 t); try lia; [reflexivity|]. cbn [orb andb].
    destruct (Z.ltb_spec 1600 t), (Z.leb_spec t 1600); (lia || reflexivity).
  - destruct (frame_payload f) as [|a [|b [|d p]]] eqn:F; try reflexivity. cbn in L. lia.
Qed.

(** The requests that carry no payload. *)
Lemma plain_catalog f i s : frame_wf f ->
  msg_id f <> MsgId.MotorSetTarget -> msg_id f <> MsgId.HeaterSetTarget ->
  match List.find (fun entry => fst entry =? msg_id f) kHandlers with
  | Some entry => snd entry f i s
  | None => Ret (nack f s)
  end = (r ← match frame_payload f with [] => catalog_plain (msg_id f) i s | _ => Ret (None, s) end;
         Ret (answer f r)).
Proof.
  intros Wf N1 N2. destruct (payload_cases f Wf) as ([E0 E1] & _).
  assert (C : (payload_len f =? 0) = match frame_payload f with [] => true | _ => false end).
  { destruct (frame_payload f) eqn:F; destruct (Z.eqb_spec (payload_len f) 0) as [Z0|Z0]; try reflexivity.
    - exfalso. apply Z0, E1. reflexivity.
    - specialize (E0 Z0). discriminate. }
  unfold kHandlers, MsgId.MotorSetTarget, MsgId.HeaterSetTarget, MsgId.Ping, MsgId.GetVersion, MsgId.MotorStop,
    MsgId.HeaterOff, MsgId.ScaleTare, MsgId.ScaleRead, MsgId.LidLock, MsgId.LidUnlock in *.
  unfold catalog_plain. cbn [List.find fst]. rewrite !(Z.eqb_sym _ (msg_id f)).
  destruct (Z.eqb_spec (msg_id f) 16), (Z.eqb_spec (msg_id f) 32); try contradiction.
  destruct (Z.eqb_spec (msg_id f) 1); [cbn [snd]; unfold handle_ping; rewrite C; now destruct (frame_payload f)|].
  destruct (Z.eqb_spec (msg_id f) 2); [cbn [snd]; unfold handle_get_version; rewrite C; now destruct (frame_payload f)|].
  destruct (Z.eqb_spec (msg_id f) 17); [cbn [snd]; unfold handle_motor_stop; rewrite C; now destruct (frame_payload f)|].
  destruct (Z.eqb_spec (msg_id f) 33); [cbn [snd]; unfold handle_heater_off; rewrite C; now destruct (frame_payload f)|].
  destruct (Z.eqb_spec (msg_id f) 48).
  { cbn [snd]. unfold handle_scale_tare, catalog_tare, limits.kTareMaxRpm. rewrite C, Z.gtb_ltb.
    destruct (frame_payload f); [|reflexivity]. cbn [negb orb].
    destruct (Z.ltb_spec 50 (Interlocks.rpm i)), (Z.leb_spec (Interlocks.rpm i) 50); try lia; [reflexivity|].
    destruct (read_raw (world s)) as [raw w]. cbn. now destruct (Result.is_ok raw). }
  destruct (Z.eqb_spec (msg_id f) 49).
  { cbn [snd]. unfold handle_scale_read. rewrite C. destruct (frame_payload f); [|reflexivity]. cbn [negb].
    now destruct (current_grams s) as [[g s']| |]. }
  destruct (Z.eqb_spec (msg_id f) 64); [cbn [snd]; unfold handle_lid_lock; rewrite C; now destruct (frame_payload f)|].
  destruct (Z.eqb_spec (msg_id f) 65).
  { cbn [snd]. unfold handle_lid_unlock, limits.kUnlockMaxRpm. rewrite C, Z.geb_leb.
    destruct (frame_payload f); [|reflexivity]. cbn [negb orb].
    destruct (Z.leb_spec 100 (Interlocks.rpm i)), (Z.ltb_spec (Interlocks.rpm i) 100); (lia || reflexivity). }
  now destruct (frame_payload f).
Qed.

Lemma handle_catalog f i faulted s : frame_wf f -> type f = Request ->
  handle f i faulted s = (r ← catalog f i faulted s; Ret (answer f r)).
Proof.
  intros Wf T. unfold handle. rewrite T, bool_decide_true by reflexivity. cbn [negb].
  unfold catalog. destruct (faulted && negb (allowed_when_faulted (msg_id f))); [reflexivity|].
  destruct (Z.eqb_spec (msg_id f) 16) as [E|N1].
  { rewrite E. cbn. rewrite <- (motor_set_target_catalog f i s Wf). reflexivity. }
  destruct (Z.eqb_spec (msg_id f) 32) as [E|N2].
  { rewrite E. cbn. rewrite <- (heater_set_target_catalog f i s Wf). reflexivity. }
  now apply plain_catalog.
Qed.

Definition stopped (m : MotorController.MotorController) : Prop :=
  MotorController.commanded_rpm_ m = fzero /\ MotorController.target_rpm_ m = 0.

(** What a command may do to the machine. *)
Record effect (f : Frame) (i : Interlocks.Inputs) (faulted : bool) (s s' : State W) : Prop := {
  ef_ok : handler_ok s';
  ef_pending : rx_pending (world s') = rx_pending (world s);
  ef_power : power_w (world s') = power_w (world s);
  ef_motor : faulted = true -> motor_ s' = motor_ s \/ stopped (motor_ s');
  ef_pid : faulted = true -> pid_ s' = pid_ s \/ HeaterPid.enabled_ (pid_ s') = false;
  ef_lock : is_locked (world s) = true -> is_locked (world s') = false ->
            faulted = false /\ msg_id f = MsgId.LidUnlock /\ Interlocks.rpm i < 100
}.

Lemma effect_quiet f i faulted s s1 s2 : quiet s1 s2 -> effect f i faulted s s1 -> effect f i faulted s s2.
Proof.
  intros Q [A1 A2 A3 A4 A5 A6]. pose proof (quiet_ok _ _ Q A1) as A1'.
  destruct Q as (E1 & E2 & E3 & _ & _ & E4 & E5). unfold actuators in E4. injection E4 as E6 E7 E8.
  split; [exact A1'|congruence|congruence|now rewrite E1|now rewrite E2|now rewrite E8].
Qed.

Lemma effect_refl f i faulted s : handler_ok s -> effect f i faulted s s.
Proof. intros Hs. split; try reflexivity; auto; congruence. Qed.

(** An effect that leaves the world alone. *)
Lemma effect_controllers f i faulted s m p : handler_ok s -> motor_ok m -> pid_ok p ->
  (faulted = true -> m = motor_ s \/ stopped m) ->
  (faulted = true -> p = pid_ s \/ HeaterPid.enabled_ p = false) ->
  effect f i faulted s (s <| motor_ := m |> <| pid_ := p |>).
Proof.
  intros (T & M & P & K) Hm Hp Fm Fp. split; fields; try reflexivity; try assumption; try congruence.
  unfold handler_ok. fields. repeat (assumption || split).
Qed.

Lemma effect_world f i faulted s t w : handler_ok s -> tare_ok t ->
  rx_pending w = rx_pending (world s) -> power_w w = power_w (world s) ->
  (is_locked (world s) = true -> is_locked w = false ->
   faulted = false /\ msg_id f = MsgId.LidUnlock /\ Interlocks.rpm i < 100) ->
  effect f i faulted s (s <| world := w |> <| tare_offset_counts_ := t |>).
Proof.
  intros (T & M & P & K) Ht E1 E2 E3. split; fields; try assumption; auto.
  unfold handler_ok. fields. repeat (assumption || split).
Qed.

Definition reply_short (r : option (list Z)) : Prop := Z.of_nat (length (default [] r)) <= 4.

Lemma catalog_motor_effect f bytes i s : handler_ok s -> bytes_ok bytes ->
  let '(r, s1) := catalog_motor bytes i s in
  reply_short r /\ link_ s1 = link_ s /\ effect f i false s s1.
Proof.
  intros Hs B. pose proof Hs as (T & M & P & K). unfold catalog_motor.
  assert (Q : reply_short None) by discriminate.
  destruct bytes as [|lo [|hi [|ramp [|x bytes]]]];
    try (split; [exact Q|split; [reflexivity|now apply effect_refl]]).
  inversion_clear B as [|? ? B0 B']. inversion_clear B' as [|? ? B1 _]. unfold in_u8 in B0, B1.
  cbv zeta. set (r := Z.min _ 10700). pose proof (continuous_cap_range i) as CR.
  assert (R : 0 <= r) by lia. clearbody r.
  destruct (_ || _).
  - split; [discriminate|]. split; [reflexivity|].
    apply (effect_controllers f i false s _ (pid_ s) Hs); try discriminate; [|exact P].
    apply set_target_motor_ok; [exact M|lia].
  - destruct (_ && _); [|split; [exact Q|split; [reflexivity|now apply effect_refl]]].
    split; [discriminate|]. split; [reflexivity|].
    apply (effect_controllers f i false s _ (pid_ s) Hs); try discriminate; [|exact P].
    now apply burst_ok.
Qed.

Lemma catalog_heater_effect f bytes i s : handler_ok s ->
  let '(r, s1) := catalog_heater bytes s in
  reply_short r /\ link_ s1 = link_ s /\ effect f i false s s1.
Proof.
  intros Hs. pose proof Hs as (T & M & P & K). unfold catalog_heater.
  assert (Q : reply_short None) by discriminate.
  destruct bytes as [|lo [|hi [|x bytes]]]; try (split; [exact Q|split; [reflexivity|now apply effect_refl]]).
  cbv zeta. set (t := i16 _). clearbody t. destruct (Z.leb_spec 370 t), (Z.leb_spec t 1600); cbn [andb];
    try (split; [exact Q|split; [reflexivity|now apply effect_refl]]).
  split; [discriminate|]. split; [reflexivity|].
  apply (effect_controllers f i false s (motor_ s) _ Hs); try discriminate; [exact M|].
  apply set_target_ok; [exact P|]. unfold limits.kHeaterMinTargetDeci, limits.kHeaterMaxTargetDeci. lia.
Qed.

Lemma catalog_tare_effect f i s : handler_ok s ->
  let '(r, s1) := catalog_tare i s in
  reply_short r /\ link_ s1 = link_ s /\ effect f i false s s1.
Proof.
  intros Hs. pose proof Hs as (_ & _ & _ & K). unfold catalog_tare. assert (Q : reply_short None) by discriminate.
  destruct (_ <=? _); [|split; [exact Q|split; [reflexivity|now apply effect_refl]]].
  pose proof (scale_range (world s)) as R. pose proof (power_scale (world s)) as A2.
  pose proof (lock_scale (world s)) as A3. pose proof (pending_scale (world s)) as A4.
  destruct (read_raw (world s)) as [raw w]. cbn [fst snd] in *.
  destruct (Result.is_ok raw); (split; [discriminate|split; [reflexivity|]]).
  - apply effect_world; auto; congruence.
  - apply (effect_world f i false s (tare_offset_counts_ s) w); auto; congruence.
Qed.

Lemma motor_stop_effect f i faulted s : handler_ok s ->
  let '(m, w) := MotorController.stop (motor_ s) (world s) in
  effect f i faulted s (s <| motor_ := m |> <| world := w |>).
Proof.
  intros (T & M & P & K). unfold MotorController.stop. split; fields; board_simpl; try reflexivity; try congruence.
  - unfold handler_ok. fields. pose proof (stop_ok (motor_ s) (world s) M). repeat (assumption || split).
  - right. split; reflexivity.
  - now left.
Qed.

Lemma heater_off_effect f i faulted s : handler_ok s ->
  effect f i faulted s (s <| pid_ := HeaterPid.disable (pid_ s) |>).
Proof.
  intros Hs. pose proof Hs as (T & M & P & K).
  apply (effect_controllers f i faulted s (motor_ s) _ Hs M (disable_ok (pid_ s))); [now left|now right].
Qed.

(** The fault flag only narrows what is served. *)
Lemma effect_unfaulted f i s s' faulted : effect f i false s s' ->
  faulted = false -> effect f i faulted s s'.
Proof. now intros E ->. Qed.

(** The result of a catalogue entry. *)
Definition entry_ok (f : Frame) (i : Interlocks.Inputs) (faulted : bool) (s : State W) (r : reply_state) : Prop :=
  reply_short r.1 /\ link_ r.2 = link_ s /\ effect f i faulted s r.2.

Lemma entry_refused f i faulted s : handler_ok s -> entry_ok f i faulted s (None, s).
Proof. intros Hs. split; [discriminate|]. split; [reflexivity|now apply effect_refl]. Qed.

Lemma entry_quiet f i faulted s bytes : handler_ok s -> Z.of_nat (length bytes) <= 4 ->
  entry_ok f i faulted s (Some bytes, s).
Proof. intros Hs L. split; [exact L|]. split; [reflexivity|now apply effect_refl]. Qed.

Lemma catalog_plain_effect f i faulted s : handler_ok s ->
  faulted = false \/ allowed_when_faulted (msg_id f) = true ->
  wp (catalog_plain (msg_id f) i s) (entry_ok f i faulted s).
Proof.
  intros Hs A. pose proof Hs as (T & M & P & K). unfold catalog_plain.
  unfold allowed_when_faulted, MsgId.MotorStop, MsgId.HeaterOff, MsgId.Ping, MsgId.GetVersion in A.
  destruct (Z.eqb_spec (msg_id f) 1); [now apply entry_quiet|].
  destruct (Z.eqb_spec (msg_id f) 2); [now apply entry_quiet|].
  destruct (Z.eqb_spec (msg_id f) 17).
  { pose proof (motor_stop_effect f i faulted s Hs) as E. destruct (MotorController.stop _ _) as [m w].
    split; [discriminate|]. split; [reflexivity|exact E]. }
  destruct (Z.eqb_spec (msg_id f) 33).
  { split; [discriminate|]. split; [reflexivity|now apply heater_off_effect]. }
  cbn [orb] in A. destruct A as [->|A]; [|discriminate].
  destruct (Z.eqb_spec (msg_id f) 48).
  { pose proof (catalog_tare_effect f i s Hs) as E. now destruct (catalog_tare i s) as [r s1]. }
  destruct (Z.eqb_spec (msg_id f) 49).
  { eapply wp_bind; [now apply current_grams_ok|]. intros [g s1] (w & E & _ & E1 & E2). cbn in E. subst s1.
    unfold actuators in E1. injection E1 as E3 E4 E5. split; [discriminate|]. split; [reflexivity|].
    apply (effect_world f i false s (tare_offset_counts_ s) w); auto; congruence. }
  destruct (Z.eqb_spec (msg_id f) 64).
  { split; [discriminate|]. split; [reflexivity|].
    apply (effect_world f i false s (tare_offset_counts_ s) (set_lock true (world s)) Hs K);
      [board_simpl; reflexivity|board_simpl; reflexivity|]. intros L N. rewrite lock_held in N by exact L. discriminate. }
  destruct (Z.eqb_spec (msg_id f) 65); [|now apply entry_refused].
  destruct (Z.ltb_spec (Interlocks.rpm i) 100); [|now apply entry_refused].
  split; [discriminate|]. split; [reflexivity|].
  apply (effect_world f i false s (tare_offset_counts_ s) (set_lock false (world s)) Hs K);
    [board_simpl; reflexivity|board_simpl; reflexivity|]. now auto.
Qed.

Lemma catalog_effect f i faulted s : frame_wf f -> handler_ok s ->
  wp (catalog f i faulted s) (entry_ok f i faulted s).
Proof.
  intros Wf Hs. unfold catalog.
  destruct (faulted && negb (allowed_when_faulted (msg_id f))) eqn:A; [now apply entry_refused|].
  assert (F : faulted = false \/ allowed_when_faulted (msg_id f) = true)
    by (destruct faulted, (allowed_when_faulted (msg_id f)); auto).
  assert (NF : allowed_when_faulted (msg_id f) = false -> faulted = false) by (intros X; destruct F; congruence).
  assert (B : bytes_ok (frame_payload f)) by (apply Forall_take; apply Wf).
  destruct (Z.eqb_spec (msg_id f) 16) as [E|N1].
  { pose proof (catalog_motor_effect f (frame_payload f) i s Hs B) as E1. rewrite E in NF.
    rewrite (NF eq_refl). now destruct (catalog_motor _ i s) as [r s1]. }
  destruct (Z.eqb_spec (msg_id f) 32) as [E|N2].
  { pose proof (catalog_heater_effect f (frame_payload f) i s Hs) as E1. rewrite E in NF.
    rewrite (NF eq_refl). now destruct (catalog_heater _ s) as [r s1]. }
  destruct (frame_payload f); [now apply catalog_plain_effect|now apply entry_refused].
Qed.

(** Every command is served, and does no more than [effect] allows. *)
Lemma handle_effect f i faulted s : frame_wf f -> handler_ok s ->
  wp (handle f i faulted s) (effect f i faulted s).
Proof.
  intros Wf Hs. destruct (decide (type f = Request)) as [T|N].
  - rewrite handle_catalog by assumption. eapply wp_bind; [now apply catalog_effect|].
    intros [r s1] (Q & L & E). apply effect_quiet with s1; [|exact E].
    pose proof (ef_ok _ _ _ _ _ E) as ([Tx _] & _). unfold answer, reply_short in *. cbn in Q.
    destruct r; [apply respond_quiet|apply nack_quiet]; try assumption. unfold kMaxPayload. cbn in Q. lia.
  - unfold handle. rewrite bool_decide_false by exact N. now apply effect_refl.
Qed.

End CommandTheory.

(** ** The telemetry publisher *)

Section PublisherTheory.
Import TelemetryPublisher.
Context {W : Type} `{IClock W, BoardLaws W}.

(** A send seen from the rest of the machine. *)
Lemma send_quiet type seq id payload l (w : W) : link_ok l -> Z.of_nat (length payload) <= kMaxPayload ->
  let '(st, l', w') := Link.send type seq id (Some payload) (Z.of_nat (length payload)) l w in
  link_ok l' /\ actuators w' = actuators w /\ rx_pending w' = rx_pending w.
Proof.
  intros [T P] L. pose proof (send_ok type seq id payload l w T L) as S.
  pose proof (send_preserves actuators type seq id (Some payload) (Z.of_nat (length payload)) l w
    (fun bs w => actuators_write bs w)) as A.
  destruct (Link.send type seq id (Some payload) _ l w) as [[st l'] w'].
  destruct S as (S1 & S2 & _ & S4 & _). unfold link_ok. rewrite S2. repeat (assumption || split).
Qed.

Lemma publish_pending_quiet p l (w : W) : link_ok l ->
  let '(_, p', l', w') := publish_pending p l w in
  link_ok l' /\ actuators w' = actuators w /\ rx_pending w' = rx_pending w.
Proof.
  intros Hl. unfold publish_pending. destruct (_ =? _); [now repeat split; try apply Hl|].
  pose proof (send_quiet TelemetryFrame (seq_ p) MsgId.Fault [u8 (pending_fault_ p)] l w Hl ltac:(discriminate)) as S.
  change (Z.of_nat (length [u8 (pending_fault_ p)])) with 1 in S.
  destruct (Link.send _ _ _ (Some [u8 (pending_fault_ p)]) 1 l w) as [[st l'] w'].
  destruct (negb _); exact S.
Qed.

Lemma maybe_publish_quiet data p l (w : W) : link_ok l ->
  let '(p', l', w') := maybe_publish data p l w in
  link_ok l' /\ actuators w' = actuators w /\ rx_pending w' = rx_pending w.
Proof.
  intros Hl. unfold maybe_publish. pose proof (publish_pending_quiet p l w Hl) as P.
  destruct (publish_pending p l w) as [[[go p1] l1] w1]. destruct P as (P1 & P2 & P3).
  destruct (negb go); [now repeat split; try apply P1|].
  destruct (_ <? _); [now repeat split; try apply P1|].
  pose proof (send_quiet TelemetryFrame (seq_ p1) MsgId.Telemetry (encode_telemetry data) l1 w1 P1
    ltac:(rewrite length_encode_telemetry; discriminate)) as S.
  change (Z.of_nat (length (encode_telemetry data))) with kTelemetryPayloadSize in S.
  destruct (Link.send _ _ _ (Some (encode_telemetry data)) kTelemetryPayloadSize l1 w1) as [[st l'] w'].
  destruct S as (S1 & S2 & S3). repeat split; try apply S1; congruence.
Qed.

End PublisherTheory.

(** ** Properties of the command handler *)

Section CommandProperties.
Context {W : Type} `{IClock W, BoardLaws W}.

(** C18: the handler implements the message catalogue: for every well-formed
    request it serves the entry of its id on the bytes of the payload, sends
    the response or the NACK the catalogue gives, and changes the machine as
    the entry says; a payload of the wrong length, a value out of range, an
    unknown id and a command refused by an interlock or a fault are NACKs. *)
Theorem handle_implements_catalog f i faulted (s : CommandHandler.State W) : frame_wf f -> type f = Request ->
  CommandHandler.handle f i faulted s = (r ← catalog f i faulted s; Ret (answer f r)).
Proof. apply handle_catalog. Qed.

End CommandProperties.
