(* ===== verification/SafetyMcu.v ===== *)
(** * The safety processor's control tick (src/src/mcu/safety_mcu.cpp)

    Samples the sensors, serves the commands that arrived, evaluates the
    interlocks and the link supervision, drives the heater and the motor, and
    publishes telemetry: each phase is a definition, [tick_1ms] their
    composition in the order of the code. *)

From S2P Require Import Prelude.
From S2P Require Import Float32.
From S2P Require Import Common.
From S2P Require Import C1Link.
From S2P Require Import Hal.
From S2P Require Import Link.
From S2P Require Import Mcu.

Module SafetyMcu.

(** [handler_] holds the members the command handler points to ([link_],
    [motor_ctrl_], [pid_]) and the world behind the hardware. *)
Record SafetyMcu {W : Type} := {
  handler_ : CommandHandler.State W;
  telemetry_ : TelemetryPublisher.TelemetryPublisher;
  inputs_ : Interlocks.Inputs;
  fault_ : Z;
  tick_count_ : Z;
  last_valid_frame_ms_ : Z;
  temp_sensor_ok_ : bool
}.
Arguments SafetyMcu : clear implicits.
#[global] Instance eta_SafetyMcu {W} : Eta (SafetyMcu W) := fun m =>
  {| handler_ := handler_ m; telemetry_ := telemetry_ m; inputs_ := inputs_ m; fault_ := fault_ m;
     tick_count_ := tick_count_ m; last_valid_frame_ms_ := last_valid_frame_ms_ m;
     temp_sensor_ok_ := temp_sensor_ok_ m |}.

Section Tick.
Context {W : Type}.
Context `{IClock W, IMotor W, IHeater W, ITempSensor W, IScale W, ILid W, IUart W}.

Definition new_mcu (w : W) : SafetyMcu W :=
  {| handler_ := {| CommandHandler.link_ := Link.new_link;
                    CommandHandler.motor_ := MotorController.new_motor;
                    CommandHandler.pid_ := HeaterPid.new_pid;
                    CommandHandler.tare_offset_counts_ := 0;
                    CommandHandler.world := w |};
     telemetry_ := TelemetryPublisher.new_publisher;
     inputs_ := Interlocks.default_inputs;
     fault_ := FaultCode.None;
     tick_count_ := 0;
     last_valid_frame_ms_ := now_ms w;
     temp_sensor_ok_ := true |}.

(** The world and the controllers, read and replaced in place. *)
Definition world (m : SafetyMcu W) : W := CommandHandler.world (handler_ m).
Definition motor_ctrl_ (m : SafetyMcu W) := CommandHandler.motor_ (handler_ m).
Definition pid_ (m : SafetyMcu W) := CommandHandler.pid_ (handler_ m).
Definition link_ (m : SafetyMcu W) := CommandHandler.link_ (handler_ m).

Definition with_world (w : W) (m : SafetyMcu W) : SafetyMcu W :=
  m <| handler_ := (handler_ m) <| CommandHandler.world := w |> |>.
Definition with_motor (c : MotorController.MotorController) (m : SafetyMcu W) : SafetyMcu W :=
  m <| handler_ := (handler_ m) <| CommandHandler.motor_ := c |> |>.
Definition with_pid (p : HeaterPid.HeaterPid) (m : SafetyMcu W) : SafetyMcu W :=
  m <| handler_ := (handler_ m) <| CommandHandler.pid_ := p |> |>.
Definition with_link (l : Link.Link) (m : SafetyMcu W) : SafetyMcu W :=
  m <| handler_ := (handler_ m) <| CommandHandler.link_ := l |> |>.

Definition sample_inputs (m : SafetyMcu W) : bool * SafetyMcu W :=
  let '(reading, w) := read_deci_celsius (world m) in
  let m := with_world w m <| temp_sensor_ok_ := Result.is_ok reading |> in
  if negb (temp_sensor_ok_ m) then (false, m)
  else (true, m <| inputs_ := {| Interlocks.temp_c := to_celsius (Result.value reading);
                                 Interlocks.rpm := motor_rpm w;
                                 Interlocks.lid_closed := is_closed w;
                                 Interlocks.lid_locked := is_locked w;
                                 Interlocks.motor_stalled := stalled w |} |>).

Definition enter_fault (code : Z) (m : SafetyMcu W) : SafetyMcu W :=
  let m := m <| fault_ := code |> in
  let '(c, w) := MotorController.stop (motor_ctrl_ m) (world m) in
  let m := with_world w (with_motor c m) in
  let m := with_pid (HeaterPid.disable (pid_ m)) m in
  let m := with_world (set_power_w fzero (world m)) m in
  m <| telemetry_ := TelemetryPublisher.publish_fault code (telemetry_ m) |>.

Definition can_clear_fault (m : SafetyMcu W) : bool :=
  if (fault_ m =? FaultCode.None) || (fault_ m =? FaultCode.LinkLost) then true
  else if fault_ m =? FaultCode.MotorStall then true
  else if fault_ m =? FaultCode.SensorFailure then temp_sensor_ok_ m
  else if fault_ m =? FaultCode.Overtemp
       then flt (Interlocks.temp_c (inputs_ m)) limits.kOvertempCutoffC
  else false.

(** Lines 54-56: the sensors. *)
Definition sample_phase (m : SafetyMcu W) : SafetyMcu W :=
  let '(ok, m) := sample_inputs m in
  if negb ok && negb (fault_ m =? FaultCode.SensorFailure)
  then enter_fault FaultCode.SensorFailure m else m.

(** The body of the receive loop, for one frame. *)
Definition serve_frame (frame : Frame) (m : SafetyMcu W) : outcome (SafetyMcu W) :=
  let m := if bool_decide (type frame = Request)
           then m <| last_valid_frame_ms_ := now_ms (world m) |> else m in
  h ← CommandHandler.handle frame (inputs_ m) (negb (fault_ m =? FaultCode.None)) (handler_ m);
  let m := m <| handler_ := h |> in
  Ret (if bool_decide (type frame = Request) && (msg_id frame =? MsgId.MotorStop) &&
          (payload_len frame =? 0) && can_clear_fault m
       then m <| fault_ := FaultCode.None |> else m).

(** Lines 59-69: every frame that has arrived. *)
Fixpoint serve_loop (fuel : nat) (m : SafetyMcu W) : outcome (SafetyMcu W) :=
  match fuel with
  | O => OutOfFuel
  | S fuel =>
      '(r, l, w) ← Link.poll (link_ m) (world m);
      let m := with_world w (with_link l m) in
      match r with
      | None => Ret m
      | Some frame =>
          m ← serve_frame frame m;
          serve_loop fuel m
      end
  end.

(** Lines 71-76: the interlocks. *)
Definition interlock_phase (m : SafetyMcu W) : SafetyMcu W :=
  if fault_ m =? FaultCode.None then
    let tripped := Interlocks.evaluate (inputs_ m) in
    if negb (tripped =? FaultCode.None) then enter_fault tripped m else m
  else m.

(** Lines 78-81: the link supervision. *)
Definition supervise_phase (m : SafetyMcu W) : SafetyMcu W :=
  if (fault_ m =? FaultCode.None) &&
     (MotorController.active (motor_ctrl_ m) || HeaterPid.enabled_ (pid_ m)) &&
     (u32_sub (now_ms (world m)) (last_valid_frame_ms_ m) >=? limits.kLinkTimeoutMs)
  then enter_fault FaultCode.LinkLost m else m.

(** Lines 83-92: the cap, the heater and the motor. *)
Definition drive_phase (m : SafetyMcu W) : f32 * SafetyMcu W :=
  let m := with_motor (MotorController.enforce_cap (Interlocks.continuous_cap (inputs_ m)) (motor_ctrl_ m)) m in
  let '(watts, p) :=
    if (fault_ m =? FaultCode.None) && HeaterPid.enabled_ (pid_ m) && Interlocks.lid_closed (inputs_ m)
    then HeaterPid.update (Interlocks.temp_c (inputs_ m)) (lit 1 1000) (pid_ m)
    else (fzero, pid_ m) in
  let m := with_pid p m in
  let m := with_world (set_power_w watts (world m)) m in
  let '(c, w) := MotorController.tick_1ms (motor_ctrl_ m) (world m) in
  (watts, with_world w (with_motor c m)).

Definition telemetry_flags (watts : f32) (i : Interlocks.Inputs) : Z :=
  u8 (Z.lor (Z.lor (Z.lor (if Interlocks.lid_closed i then kFlagLidClosed else 0)
                          (if Interlocks.lid_locked i then kFlagLidLocked else 0))
                   (if fgt watts fzero then kFlagHeaterOn else 0))
            (if Interlocks.motor_stalled i then kFlagMotorStalled else 0)).

(** Lines 94-102: the telemetry. *)
Definition publish_phase (watts : f32) (m : SafetyMcu W) : outcome (SafetyMcu W) :=
  deci ← defined (from_celsius (Interlocks.temp_c (inputs_ m)));
  '(grams, h) ← CommandHandler.current_grams (handler_ m);
  let m := m <| handler_ := h |> in
  let data := {| tick := tick_count_ m; deci_celsius := deci; rpm := Interlocks.rpm (inputs_ m);
                 grams := grams; flags := telemetry_flags watts (inputs_ m) |} in
  let '(p, l, w) := TelemetryPublisher.maybe_publish data (telemetry_ m) (link_ m) (world m) in
  Ret (with_world w (with_link l (m <| telemetry_ := p |>))).

Definition tick_1ms (m : SafetyMcu W) : outcome (SafetyMcu W) :=
  let m := m <| tick_count_ := u32 (tick_count_ m + 1) |> in
  let m := sample_phase m in
  m ← serve_loop (S (rx_pending (world m))) m;
  let m := interlock_phase m in
  let m := supervise_phase m in
  let '(watts, m) := drive_phase m in
  publish_phase watts m.

(** Ticks in sequence, the world moving between them as [env] says. *)
Fixpoint run (env : list (W -> W)) (m : SafetyMcu W) : outcome (SafetyMcu W) :=
  match env with
  | [] => Ret m
  | e :: env => m ← tick_1ms (with_world (e (world m)) m); run env m
  end.

End Tick.

Ltac fields := unfold with_world, with_motor, with_pid, with_link, world, motor_ctrl_, pid_, link_ in *; simp_set;
  cbn [handler_ telemetry_ inputs_ fault_ tick_count_ last_valid_frame_ms_ temp_sensor_ok_
       CommandHandler.link_ CommandHandler.motor_ CommandHandler.pid_
       CommandHandler.tare_offset_counts_ CommandHandler.world fst snd] in *.

End SafetyMcu.

(** * Theorems *)

Section SafetyTheory.
Import SafetyMcu.
Context {W : Type} `{IClock W, BoardLaws W}.

(** The invariant between the phases of a tick. *)
Record mcu_ok (m : SafetyMcu W) : Prop := {
  mo_handler : handler_ok (handler_ m);
  mo_inputs : exists d, in_i16 d /\ Interlocks.temp_c (inputs_ m) = to_celsius d;
  mo_fault : fault_ m <> FaultCode.None -> stopped (motor_ctrl_ m) /\ HeaterPid.enabled_ (pid_ m) = false;
  mo_sensor : temp_sensor_ok_ m = false -> fault_ m = FaultCode.SensorFailure
}.

Lemma new_mcu_ok (w : W) : mcu_ok (new_mcu w).
Proof.
  split; cbn.
  - split; [apply new_link_ok|]. split; [apply new_motor_ok|]. split; [apply new_pid_ok|]. intros _. split; discriminate || reflexivity.
  - exists 200. split; [split; reflexivity || discriminate|]. vm_compute. reflexivity.
  - intros E. now contradiction E.
  - discriminate.
Qed.

(** Entering a fault stops the motor and the heater at once. *)
Lemma enter_fault_spec code m : handler_ok (handler_ m) ->
  let m' := enter_fault code m in
  handler_ok (handler_ m') /\ inputs_ m' = inputs_ m /\ fault_ m' = code /\
  temp_sensor_ok_ m' = temp_sensor_ok_ m /\ stopped (motor_ctrl_ m') /\
  HeaterPid.enabled_ (pid_ m') = false /\ power_w (world m') = fzero /\ duty (world m') = fzero /\
  rx_pending (world m') = rx_pending (world m) /\
  TelemetryPublisher.pending_fault_ (telemetry_ m') = code /\ tick_count_ m' = tick_count_ m.
Proof.
  intros (T & M & P & K). unfold enter_fault. cbv zeta. unfold MotorController.stop. fields.
  pose proof (stop_ok (CommandHandler.motor_ (handler_ m)) (CommandHandler.world (handler_ m)) M) as S.
  unfold MotorController.stop in S. fields.
  board_simpl. rewrite power_set, duty_set by reflexivity.
  split_and!; try reflexivity.
  - split; fields; [exact T|]. split; fields; [exact S|]. split; fields; [apply disable_ok|exact K].
  - split; reflexivity.
  - now board_simpl.
Qed.

Lemma sample_phase_ok m : mcu_ok m ->
  mcu_ok (sample_phase m) /\ rx_pending (world (sample_phase m)) = rx_pending (world m) /\
  tick_count_ (sample_phase m) = tick_count_ m.
Proof.
  intros [Hh Hi Hf Hs]. unfold sample_phase, sample_inputs.
  pose proof (temp_range (world m)) as TR. pose proof (pending_temp (world m)) as PT.
  destruct (read_deci_celsius (world m)) as [r w]. cbn [fst snd] in *.
  destruct (Result.is_ok r) eqn:Ok; fields; cbn [negb andb fst snd]; fields.
  - split; [|split; [exact PT|reflexivity]]. split; fields; try assumption; [|discriminate].
    eexists. split; [exact TR|reflexivity].
  - destruct (Z.eqb_spec (fault_ m) FaultCode.SensorFailure) as [E|N]; cbn [negb].
    + split; [|split; [exact PT|reflexivity]]. split; fields; try assumption. now intros _.
    + match goal with |- context [enter_fault ?c ?x] => pose proof (enter_fault_spec c x Hh) as F end.
      cbv zeta in F. fields. destruct F as (F1 & F2 & F3 & F4 & F5 & F6 & F7 & F8 & F9 & _ & F11).
      split; [|split; [rewrite F9; exact PT|exact F11]].
      split; [exact F1|rewrite F2; exact Hi|intros _; now split|intros _; exact F3].
Qed.

(** One command keeps the invariant: a fault is cleared only when its
    recovery condition holds. *)
Definition frame_served (f : Frame) (m m' : SafetyMcu W) : Prop :=
  mcu_ok m' /\ rx_pending (world m') = rx_pending (world m) /\ inputs_ m' = inputs_ m /\
  temp_sensor_ok_ m' = temp_sensor_ok_ m /\ tick_count_ m' = tick_count_ m /\
  (fault_ m' = fault_ m \/
   fault_ m' = FaultCode.None /\ type f = Request /\ msg_id f = MsgId.MotorStop /\ payload_len f = 0 /\
   can_clear_fault m = true).

Lemma serve_frame_ok f m : frame_wf f -> mcu_ok m -> wp (serve_frame f m) (frame_served f m).
Proof.
  intros Wf [Hh Hi Hf Hs]. unfold serve_frame. set (m1 := if bool_decide _ then _ else m).
  assert (E : handler_ m1 = handler_ m /\ inputs_ m1 = inputs_ m /\ fault_ m1 = fault_ m /\
              temp_sensor_ok_ m1 = temp_sensor_ok_ m /\ tick_count_ m1 = tick_count_ m)
    by (subst m1; destruct (bool_decide (type f = Request)); repeat split).
  clearbody m1. destruct E as (E1 & E2 & E3 & E4 & E5). rewrite E1, E2, E3.
  eapply wp_bind; [now apply handle_effect|]. intros s' [A1 A2 A3 A4 A5 A6]. cbv zeta. unfold wp, frame_served.
  assert (C : can_clear_fault (m1 <| handler_ := s' |>) = can_clear_fault m)
    by (unfold can_clear_fault; fields; now rewrite E2, E3, E4).
  rewrite C.
  assert (Inv : fault_ m <> FaultCode.None -> stopped (CommandHandler.motor_ s') /\ HeaterPid.enabled_ (CommandHandler.pid_ s') = false).
  { intros N. destruct (Hf N) as [S1 S2]. apply Z.eqb_neq in N. rewrite N in *. fields.
    destruct (A4 eq_refl) as [->|X], (A5 eq_refl) as [->|Y]; auto. }
  destruct (bool_decide (type f = Request)) eqn:B1; cbn [andb].
  2: { fields. rewrite E2, E3, E4, E5.
       split; [split; fields; rewrite ?E2, ?E3, ?E4; auto|]. auto 10. }
  destruct (Z.eqb_spec (msg_id f) MsgId.MotorStop) as [B2|B2], (Z.eqb_spec (payload_len f) 0) as [B3|B3],
    (can_clear_fault m) eqn:B4; cbn [andb];
    try (fields; rewrite E2, E3, E4, E5;
         split; [split; fields; rewrite ?E2, ?E3, ?E4; auto|]; auto 10).
  apply bool_decide_eq_true in B1. fields. rewrite E2, E4, E5.
  split; [split; fields; rewrite ?E2, ?E4|auto 15].
  - exact A1.
  - exact Hi.
  - intros X. now contradiction X.
  - intros X. specialize (Hs X). unfold can_clear_fault in B4. rewrite Hs in B4. cbn in B4. congruence.
Qed.

(** What serving may change in a tick. *)
Definition served (m m' : SafetyMcu W) : Prop :=
  mcu_ok m' /\ inputs_ m' = inputs_ m /\ temp_sensor_ok_ m' = temp_sensor_ok_ m /\
  tick_count_ m' = tick_count_ m.

Lemma serve_loop_ok fuel m : (rx_pending (world m) < fuel)%nat -> mcu_ok m ->
  wp (serve_loop fuel m) (served m).
Proof.
  revert m. induction fuel as [|fuel IH]; intros m F Hm; [lia|]. cbn [serve_loop].
  pose proof Hm as [Hh Hi Hf Hs]. pose proof Hh as (Hl & Hr).
  destruct (poll_ok (link_ m) (world m) Hl) as (r & l & w & -> & Hl' & Hw & P1 & P2).
  cbn [mbind outcome_bind]. set (m1 := with_world w (with_link l m)).
  assert (Hm1 : mcu_ok m1 /\ rx_pending (world m1) = rx_pending w /\ inputs_ m1 = inputs_ m /\
    temp_sensor_ok_ m1 = temp_sensor_ok_ m /\ tick_count_ m1 = tick_count_ m).
  { subst m1. fields. split_and!; try reflexivity. split; fields; try assumption. split; fields; assumption. }
  clearbody m1. destruct Hm1 as (Hm1 & E1 & E2 & E3 & E4). destruct r as [f|].
  - eapply wp_bind; [now apply serve_frame_ok|]. intros m2 (Hm2 & Q1 & Q2 & Q3 & Q4 & _).
    specialize (P2 ltac:(discriminate)).
    eapply wp_mono; [apply IH; [lia|exact Hm2]|]. intros m3 (Hm3 & R1 & R2 & R3).
    unfold served. rewrite R1, R2, R3, Q2, Q3, Q4. repeat (assumption || split).
  - cbn. repeat (assumption || split).
Qed.

Lemma enter_fault_ok code m : mcu_ok m -> temp_sensor_ok_ m = true -> mcu_ok (enter_fault code m).
Proof.
  intros [Hh Hi Hf Hs] T. destruct (enter_fault_spec code m Hh) as (F1 & F2 & F3 & F4 & F5 & F6 & _).
  split; [exact F1|rewrite F2; exact Hi|intros _; now split|]. rewrite F4, T. discriminate.
Qed.

Lemma none_sensor_ok m : mcu_ok m -> fault_ m = FaultCode.None -> temp_sensor_ok_ m = true.
Proof.
  intros [_ _ _ Hs] E. destruct (temp_sensor_ok_ m); [reflexivity|]. specialize (Hs eq_refl). rewrite E in Hs. discriminate.
Qed.

Lemma interlock_phase_ok m : mcu_ok m ->
  mcu_ok (interlock_phase m) /\ inputs_ (interlock_phase m) = inputs_ m /\
  temp_sensor_ok_ (interlock_phase m) = temp_sensor_ok_ m /\ tick_count_ (interlock_phase m) = tick_count_ m /\
  (fault_ (interlock_phase m) = FaultCode.None -> Interlocks.evaluate (inputs_ m) = FaultCode.None) /\
  (fault_ m = FaultCode.None -> fault_ (interlock_phase m) = Interlocks.evaluate (inputs_ m)).
Proof.
  intros Hm. unfold interlock_phase. destruct (Z.eqb_spec (fault_ m) FaultCode.None) as [E|N].
  2: { split_and!; try reflexivity; try exact Hm; auto; intros; contradiction. }
  destruct (Z.eqb_spec (Interlocks.evaluate (inputs_ m)) FaultCode.None) as [T|T]; cbn [negb].
  - split_and!; try reflexivity; try exact Hm; auto. intros _. now rewrite E, T.
  - destruct (enter_fault_spec (Interlocks.evaluate (inputs_ m)) m (mo_handler _ Hm)) as (F1 & F2 & F3 & F4 & _ & _ & _ & _ & _ & _ & F11).
    split; [apply enter_fault_ok; [exact Hm|now apply none_sensor_ok]|]. split_and!; auto.
Qed.

Lemma supervise_phase_ok m : mcu_ok m ->
  let m' := supervise_phase m in
  mcu_ok m' /\ inputs_ m' = inputs_ m /\ temp_sensor_ok_ m' = temp_sensor_ok_ m /\
  tick_count_ m' = tick_count_ m /\
  (fault_ m' = fault_ m \/ fault_ m = FaultCode.None /\ fault_ m' = FaultCode.LinkLost) /\
  (fault_ m' = FaultCode.None ->
   MotorController.active (motor_ctrl_ m') = true \/ HeaterPid.enabled_ (pid_ m') = true ->
   u32_sub (now_ms (world m')) (last_valid_frame_ms_ m') < 5000).
Proof.
  intros Hm. unfold supervise_phase, limits.kLinkTimeoutMs. cbv zeta.
  destruct (Z.eqb_spec (fault_ m) FaultCode.None) as [E|N]; cbn [andb].
  2: { split_and!; try reflexivity; try exact Hm; auto; intros; contradiction. }
  destruct (MotorController.active (motor_ctrl_ m) || HeaterPid.enabled_ (pid_ m)) eqn:A; cbn [andb].
  2: { split_and!; try reflexivity; try exact Hm; auto. intros _ [X|X]; rewrite X in A;
       [discriminate|rewrite orb_true_r in A; discriminate]. }
  rewrite Z.geb_leb. destruct (Z.leb_spec 5000 (u32_sub (now_ms (world m)) (last_valid_frame_ms_ m))).
  2: { split_and!; try reflexivity; try exact Hm; auto. }
  destruct (enter_fault_spec FaultCode.LinkLost m (mo_handler _ Hm)) as (F1 & F2 & F3 & F4 & F5 & F6 & _ & _ & _ & _ & F11).
  split; [apply enter_fault_ok; [exact Hm|now apply none_sensor_ok]|].
  split; [exact F2|]. split; [exact F4|]. split; [exact F11|].
  split; [right; now split|]. rewrite F3. discriminate.
Qed.

(** The outputs a tick leaves on the board. *)
Record outputs_safe (watts : f32) (m : SafetyMcu W) : Prop := {
  os_duty : duty (world m) = duty_of (motor_ctrl_ m);
  os_command : commanded (motor_ctrl_ m) <= Interlocks.continuous_cap (inputs_ m) * 2 ^ scale;
  os_target : MotorController.target_rpm_ (motor_ctrl_ m) <= Interlocks.continuous_cap (inputs_ m);
  os_power : power_w (world m) = watts;
  os_range : power_in_range watts;
  os_heater : fault_ m <> FaultCode.None \/ HeaterPid.enabled_ (pid_ m) = false \/
              Interlocks.lid_closed (inputs_ m) = false -> watts = fzero;
  os_stopped : fault_ m <> FaultCode.None -> duty (world m) = fzero
}.

(** The heater's part of the phase. *)
Lemma heater_watts_ok m : mcu_ok m ->
  let '(watts, p) :=
    if (fault_ m =? FaultCode.None) && HeaterPid.enabled_ (pid_ m) && Interlocks.lid_closed (inputs_ m)
    then HeaterPid.update (Interlocks.temp_c (inputs_ m)) (lit 1 1000) (pid_ m)
    else (fzero, pid_ m) in
  fin watts = true /\ 0 <= fz watts <= 1200 * 2 ^ scale /\ pid_ok p /\
  HeaterPid.enabled_ p = HeaterPid.enabled_ (pid_ m) /\
  HeaterPid.target_deci_ p = HeaterPid.target_deci_ (pid_ m) /\
  (fault_ m <> FaultCode.None \/ HeaterPid.enabled_ (pid_ m) = false \/
   Interlocks.lid_closed (inputs_ m) = false -> watts = fzero).
Proof.
  intros [Hh [d [Hd Hi]] Hf Hs]. pose proof Hh as (_ & _ & P & _). fields.
  assert (Z0 : fin fzero = true /\ 0 <= fz fzero <= 1200 * 2 ^ scale)
    by (split; [reflexivity|split; vm_compute; discriminate]).
  destruct (Z.eqb_spec (fault_ m) FaultCode.None) as [E|N];
    [|cbn [andb]; split_and!; try apply Z0; auto].
  destruct (HeaterPid.enabled_ (CommandHandler.pid_ (handler_ m))) eqn:En;
    [|cbn [andb]; split_and!; try apply Z0; auto].
  destruct (Interlocks.lid_closed (inputs_ m)); [|cbn [andb]; split_and!; try apply Z0; auto]. cbn [andb].
  assert (Hm : measured_ok (Interlocks.temp_c (inputs_ m))) by (rewrite Hi; now apply to_celsius_fin).
  pose proof (update_ok _ _ P Hm) as U. change dt_1ms with (lit 1 1000) in U.
  assert (K : let '(w, p) := HeaterPid.update (Interlocks.temp_c (inputs_ m)) (lit 1 1000) (CommandHandler.pid_ (handler_ m)) in
              HeaterPid.enabled_ p = HeaterPid.enabled_ (CommandHandler.pid_ (handler_ m)) /\
              HeaterPid.target_deci_ p = HeaterPid.target_deci_ (CommandHandler.pid_ (handler_ m))).
  { unfold HeaterPid.update. rewrite En. cbn [negb]. destruct (flt _ HeaterPid.kIntegralBandC); split; (exact En || reflexivity). }
  destruct (HeaterPid.update _ _ _) as [w p]. destruct U as (U1 & U2 & U3), K as [K1 K2].
  rewrite En in K1. split_and!; try assumption; try apply U2. intros [X|[X|X]]; (contradiction || discriminate).
Qed.

Lemma stopped_drive cap c : stopped c -> 0 <= cap <= 10700 ->
  let c' := MotorController.enforce_cap cap c in
  let c'' := c' <| MotorController.commanded_rpm_ := MotorController.ramp c' |> in
  stopped c'' /\ duty_of c'' = fzero.
Proof.
  intros [C T] Hc. destruct c as [cm tg rp]. cbn in C, T. subst cm tg.
  unfold MotorController.enforce_cap. cbn [MotorController.target_rpm_]. rewrite Z.gtb_ltb.
  destruct (Z.ltb_spec cap 0); [lia|]. cbn [MotorController.commanded_rpm_].
  assert (G : fgt fzero (of_Z cap) = false).
  { destruct (small_of_Z cap Hc) as [F V]. rewrite fgt_spec, V by (assumption || reflexivity).
    apply Z.ltb_ge. change (fz fzero) with (0 * 2 ^ scale). apply scale_mono. lia. }
  rewrite G. cbv zeta. split; [split|]; reflexivity.
Qed.

Lemma drive_phase_ok m : mcu_ok m ->
  let '(watts, m') := drive_phase m in
  mcu_ok m' /\ inputs_ m' = inputs_ m /\ fault_ m' = fault_ m /\ temp_sensor_ok_ m' = temp_sensor_ok_ m /\
  outputs_safe watts m'.
Proof.
  intros Hm. pose proof (heater_watts_ok m Hm) as HW. pose proof Hm as [Hh Hi Hf Hs]. unfold drive_phase.
  pose proof (continuous_cap_range (inputs_ m)) as CR. pose proof Hh as (T & M & P & K).
  fields. set (cap := Interlocks.continuous_cap (inputs_ m)) in *.
  match type of HW with context [if ?b then HeaterPid.update ?x ?y ?z else ?e] =>
    destruct (if b then HeaterPid.update x y z else e) as [watts p] end.
  destruct HW as (F & B & Hp & Ep & _ & Hz). pose proof (fle_range watts 1200 F ltac:(lia) B) as R.
  destruct (enforce_cap_ok cap _ M CR) as (M1 & M2 & M3).
  pose proof (stopped_drive cap (CommandHandler.motor_ (handler_ m))) as SD. cbv zeta in SD.
  set (c := MotorController.enforce_cap cap (CommandHandler.motor_ (handler_ m))) in *. clearbody c.
  destruct (ramp_spec c M1) as (_ & U & D). unfold MotorController.tick_1ms. cbv zeta. cbn [fst snd].
  pose proof (ramp_ok c M1) as M4. fields.
  destruct (duty_of_ok _ M4) as [D1 D2].
  assert (RC : fz (MotorController.ramp c) <= cap * 2 ^ scale).
  { pose proof (scale_mono (MotorController.target_rpm_ c) cap M3). unfold target in *.
    destruct (Z.le_ge_cases (commanded c) (MotorController.target_rpm_ c * 2 ^ scale)) as [G|G];
      [specialize (U G)|specialize (D G)]; lia. }
  unfold duty_of in *. fields.
  split; [|split; [reflexivity|split; [reflexivity|split; [reflexivity|]]]].
  - split; fields; try assumption.
    + split; fields; [exact T|]. split; fields; [exact M4|]. split; fields; assumption.
    + intros N. specialize (Hf N). rewrite Ep. split; [|apply Hf]. apply SD; [apply Hf|exact CR].
  - split; fields.
    + apply duty_set; assumption.
    + exact RC.
    + exact M3.
    + rewrite power_duty. apply power_set; apply R.
    + exact R.
    + rewrite Ep. exact Hz.
    + intros N. specialize (Hf N). rewrite duty_set by assumption. now apply SD; [apply Hf|].
Qed.

Definition published (m m' : SafetyMcu W) : Prop :=
  mcu_ok m' /\ inputs_ m' = inputs_ m /\ fault_ m' = fault_ m /\ temp_sensor_ok_ m' = temp_sensor_ok_ m /\
  motor_ctrl_ m' = motor_ctrl_ m /\ pid_ m' = pid_ m /\ actuators (world m') = actuators (world m).

Lemma publish_phase_ok watts m : mcu_ok m -> wp (publish_phase watts m) (published m).
Proof.
  intros [Hh [d [Hd Hi]] Hf Hs]. unfold publish_phase. rewrite Hi, from_to_celsius_i16 by exact Hd.
  cbn [mbind outcome_bind defined]. pose proof Hh as (T & M & P & K).
  eapply wp_bind; [now apply current_grams_ok|]. intros [g h] (w & E & _ & A1 & A2). cbn in E. subst h.
  cbv zeta. set (data := Build_TelemetryData _ _ _ _ _). clearbody data. fields.
  pose proof (maybe_publish_quiet data (telemetry_ m) (CommandHandler.link_ (handler_ m)) w T) as Q.
  destruct (TelemetryPublisher.maybe_publish data _ _ w) as [[p l] w']. destruct Q as (Q1 & Q2 & Q3).
  unfold wp, published. fields. split_and!; try reflexivity; [|congruence].
  split; fields; try assumption; [|now exists d]. split; fields; [exact Q1|].
  split; fields; [exact M|]. split; assumption.
Qed.

(** A whole tick. *)
Record tick_safe (m : SafetyMcu W) : Prop := {
  ts_outputs : outputs_safe (power_w (world m)) m;
  ts_interlocks : fault_ m = FaultCode.None -> Interlocks.evaluate (inputs_ m) = FaultCode.None
}.

Lemma outputs_safe_transfer watts m m' : outputs_safe watts m ->
  inputs_ m' = inputs_ m -> fault_ m' = fault_ m -> motor_ctrl_ m' = motor_ctrl_ m -> pid_ m' = pid_ m ->
  actuators (world m') = actuators (world m) -> outputs_safe (power_w (world m')) m'.
Proof.
  intros [O1 O2 O3 O4 O5 O6 O7] E1 E2 E3 E4 A. unfold actuators in A. injection A as A1 A2 A3.
  split; rewrite ?E1, ?E2, ?E3, ?E4, ?A1, ?A2, ?O4; auto.
Qed.

Lemma tick_ok m : mcu_ok m -> wp (tick_1ms m) (fun m' => mcu_ok m' /\ tick_safe m').
Proof.
  intros Hm. unfold tick_1ms. set (m0 := m <| tick_count_ := _ |>).
  assert (H0' : mcu_ok m0) by (destruct Hm; subst m0; split; fields; assumption). clearbody m0.
  destruct (sample_phase_ok m0 H0') as (H1' & _ & _). set (m1 := sample_phase m0) in *. clearbody m1. cbv zeta.
  eapply wp_bind; [apply serve_loop_ok; [lia|exact H1']|]. intros m2 (H2' & _).
  destruct (interlock_phase_ok m2 H2') as (H3' & E3 & _ & _ & F3 & _).
  set (m3 := interlock_phase m2) in *. clearbody m3.
  destruct (supervise_phase_ok m3 H3') as (H4' & E4 & _ & _ & F4 & _).
  set (m4 := supervise_phase m3) in *. clearbody m4.
  pose proof (drive_phase_ok m4 H4') as D. destruct (drive_phase m4) as [watts m5].
  destruct D as (H5' & E5 & F5 & _ & O5).
  eapply wp_mono; [now apply publish_phase_ok|]. intros m6 (H6' & E6 & F6 & _ & G6 & P6 & A6).
  split; [exact H6'|]. split; [now apply (outputs_safe_transfer watts m5)|].
  rewrite F6, F5, E6, E5, E4, E3. intros N. apply F3. destruct F4 as [F4|[_ F4]]; [congruence|].
  rewrite N in F4. discriminate.
Qed.

Lemma with_world_ok w (m : SafetyMcu W) : mcu_ok m -> mcu_ok (with_world w m).
Proof. intros []. now split. Qed.

Lemma run_ok env m : mcu_ok m -> wp (run env m) (fun m' => mcu_ok m' /\ (env <> [] -> tick_safe m')).
Proof.
  revert m. induction env as [|e env IH]; intros m Hm; [split; [exact Hm|congruence]|].
  cbn [run]. eapply wp_bind; [now apply tick_ok, with_world_ok|]. intros m1 (Hm' & S).
  destruct env as [|e' env]; [split; [exact Hm'|now intros _]|].
  eapply wp_mono; [now apply IH|]. intros m2 (Hm2 & S2). split; [exact Hm2|]. intros _. now apply S2.
Qed.

Lemma run_safe env (w : W) m : env <> [] -> run env (new_mcu w) = Ret m -> mcu_ok m /\ tick_safe m.
Proof.
  intros N E. pose proof (run_ok env (new_mcu w) (new_mcu_ok w)) as R. rewrite E in R.
  destruct R as [Hm S]. split; [exact Hm|now apply S].
Qed.

End SafetyTheory.

(** ** The requirements

    [run env (new_mcu w)] is any history of the controller: [env] is what the
    rest of the world does before each tick (time, temperature, lid, speed,
    load cell, and the bytes that arrive). *)

Section Requirements.
Import SafetyMcu.
Context {W : Type} `{IClock W, BoardLaws W}.

(** What a safe tick means for the heater, and for a latched fault. *)
Lemma heater_safe (m : SafetyMcu W) : mcu_ok m -> tick_safe m ->
  fle fzero (power_w (world m)) = true /\ fle (power_w (world m)) (of_Z 1200) = true /\
  (power_w (world m) <> fzero ->
   fault_ m = FaultCode.None /\ temp_sensor_ok_ m = true /\ Interlocks.lid_closed (inputs_ m) = true /\
   fge (Interlocks.temp_c (inputs_ m)) (of_Z 165) = false /\ Interlocks.motor_stalled (inputs_ m) = false /\
   HeaterPid.enabled_ (pid_ m) = true /\ 370 <= HeaterPid.target_deci_ (pid_ m) <= 1600).
Proof.
  intros Hm [[_ _ _ _ O5 O6 _] I].
  split; [apply O5|]. split; [apply O5|]. intros P.
  assert (F : fault_ m = FaultCode.None) by (destruct (Z.eq_dec (fault_ m) FaultCode.None); [assumption|]; contradict P; auto).
  assert (En : HeaterPid.enabled_ (pid_ m) = true) by (destruct (HeaterPid.enabled_ (pid_ m)) eqn:X; [reflexivity|]; contradict P; auto).
  assert (L : Interlocks.lid_closed (inputs_ m) = true) by (destruct (Interlocks.lid_closed (inputs_ m)) eqn:X; [reflexivity|]; contradict P; auto).
  specialize (I F). unfold Interlocks.evaluate in I.
  change limits.kOvertempCutoffC with (of_Z 165) in I.
  destruct (fge (Interlocks.temp_c (inputs_ m)) (of_Z 165)); [discriminate|].
  destruct (Interlocks.motor_stalled (inputs_ m)); [discriminate|].
  pose proof (mo_handler _ Hm) as (_ & _ & (_ & _ & _ & PT) & _).
  split_and!; auto; [now apply none_sensor_ok|apply PT|apply PT]; exact En.
Qed.

Lemma fault_off (m : SafetyMcu W) : mcu_ok m -> tick_safe m -> fault_ m <> FaultCode.None ->
  duty (world m) = fzero /\ power_w (world m) = fzero /\ HeaterPid.enabled_ (pid_ m) = false /\
  MotorController.commanded_rpm_ (motor_ctrl_ m) = fzero /\ MotorController.target_rpm_ (motor_ctrl_ m) = 0.
Proof. intros [_ _ Hf _] [[_ _ _ _ _ O6 O7] _] F. destruct (Hf F) as [[S1 S2] S3]. split_and!; auto. Qed.

(** C1: no history of inputs, bytes on the wire and sensor failures drives the
    control tick into undefined behaviour, and its receive loop ends in every
    tick: on a board whose load cell stays within its bound every tick
    completes. *)
Theorem tick_always_completes env (w : W) : scale_fits -> exists m, run env (new_mcu w) = Ret m.
Proof.
  intros F. destruct (wp_cases _ _ (run_ok env (new_mcu w) (new_mcu_ok w))) as [(m & E & _)|[_ N]];
    [now exists m|contradiction].
Qed.

(** C4 (SR-001, SR-002): after every tick the duty on the motor is the commanded
    speed over the maximum of 10700 rpm, between 0 and 1, and neither the command
    nor its target exceeds 10700 rpm, 500 rpm while the lid is open, 6400 rpm
    while it is not locked, and 6400 rpm while the bowl is above 60 degrees, as
    the inputs of that tick were sampled and whatever was requested, in a burst
    or not. *)
Theorem motor_stays_below_cap env (w : W) m : env <> [] -> run env (new_mcu w) = Ret m ->
  let i := inputs_ m in
  let speed := MotorController.commanded_rpm_ (motor_ctrl_ m) in
  let below rpm := fle speed (of_Z rpm) = true /\ MotorController.target_rpm_ (motor_ctrl_ m) <= rpm in
  duty (world m) = fdiv speed (of_Z 10700) /\
  fle fzero (duty (world m)) = true /\ fle (duty (world m)) (of_Z 1) = true /\
  below 10700 /\
  (Interlocks.lid_closed i = false -> below 500) /\
  (Interlocks.lid_locked i = false -> below 6400) /\
  (fgt (Interlocks.temp_c i) (of_Z 60) = true -> below 6400).
Proof.
  intros N E i speed below. destruct (run_safe env w m N E) as [[(_ & M & _) _ _ _] [[O1 O2 O3 _ _ _ _] _]].
  rewrite O1. destruct (duty_of_ok _ M) as [D1 D2].
  assert (B : forall rpm, 0 <= rpm <= 10700 -> Interlocks.continuous_cap i <= rpm -> below rpm).
  { intros rpm R L. split; [|exact (Z.le_trans _ _ _ O3 L)]. destruct (small_of_Z rpm R) as [F V]. destruct M as (FM & _).
    unfold speed. rewrite fle_spec, V by assumption. apply Z.leb_le. etrans; [exact O2|]. now apply scale_mono. }
  pose proof (continuous_cap_spec i) as S. unfold speed_limit in S.
  change limits.kSpillGuardTempC with (of_Z 60) in S.
  split_and!; try assumption; try reflexivity; [apply B; [lia|apply continuous_cap_range]|..]; intros X; apply B; try lia; rewrite S, X;
    destruct (Interlocks.lid_closed i); cbn [negb]; lia.
Qed.

(** C3 (fault handling): while a fault is latched the motor command, its target,
    the duty and the heater power are all zero and the heater controller is
    off, at the end of every tick. *)
Theorem fault_means_off env (w : W) m : env <> [] -> run env (new_mcu w) = Ret m ->
  fault_ m <> FaultCode.None ->
  duty (world m) = fzero /\ power_w (world m) = fzero /\ HeaterPid.enabled_ (pid_ m) = false /\
  MotorController.commanded_rpm_ (motor_ctrl_ m) = fzero /\ MotorController.target_rpm_ (motor_ctrl_ m) = 0.
Proof.
  intros N E F. destruct (run_safe env w m N E). now apply fault_off.
Qed.

(** C2 (SR-003, SR-004, SR-007): the heater has power only while no fault is
    latched, the lid is closed, the temperature sensor works, the bowl is
    below 165.0 degrees, the motor is not stalled, and a target between 37.0
    and 160.0 degrees is set; the power is between 0 and 1200 W. *)
Theorem heater_powered_only_when_safe env (w : W) m : env <> [] -> run env (new_mcu w) = Ret m ->
  fle fzero (power_w (world m)) = true /\ fle (power_w (world m)) (of_Z 1200) = true /\
  (power_w (world m) <> fzero ->
   fault_ m = FaultCode.None /\ temp_sensor_ok_ m = true /\ Interlocks.lid_closed (inputs_ m) = true /\
   fge (Interlocks.temp_c (inputs_ m)) (of_Z 165) = false /\ Interlocks.motor_stalled (inputs_ m) = false /\
   HeaterPid.enabled_ (pid_ m) = true /\ 370 <= HeaterPid.target_deci_ (pid_ m) <= 1600).
Proof. intros N E. destruct (run_safe env w m N E). now apply heater_safe. Qed.

(** (SR-007): a failed reading of the bowl temperature leaves the controller
    in the sensor-failure fault at the end of the tick, whatever commands
    arrived in it. *)
Theorem sensor_failure_latches env (w : W) m : env <> [] -> run env (new_mcu w) = Ret m ->
  temp_sensor_ok_ m = false -> fault_ m = FaultCode.SensorFailure.
Proof. intros N E. destruct (run_safe env w m N E) as [[_ _ _ Hs] _]. exact Hs. Qed.

(** (SR-008): a command unlocks the lid only if it is an unlock request, no
    fault is latched, and the measured speed is below 100 rpm. *)
Theorem unlock_only_when_slow f i faulted (s s' : CommandHandler.State W) : frame_wf f -> handler_ok s ->
  CommandHandler.handle f i faulted s = Ret s' ->
  is_locked (CommandHandler.world s) = true -> is_locked (CommandHandler.world s') = false ->
  faulted = false /\ msg_id f = MsgId.LidUnlock /\ Interlocks.rpm i < 100.
Proof.
  intros Wf Hs E. pose proof (handle_effect f i faulted s Wf Hs) as Ef. rewrite E in Ef. apply Ef.
Qed.

End Requirements.
