(* ===== verification/Supervision.v ===== *)
(** * The control tick over time

    What a tick leaves alone, the frames it receives, and what they are needed for:
    nothing but a MOTOR_STOP takes a fault away, and nothing stays driven without
    requests. *)

From S2P Require Import Prelude.
From S2P Require Import Float32.
From S2P Require Import Common.
From S2P Require Import C1Link.
From S2P Require Import Hal.
From S2P Require Import Link.
From S2P Require Import Mcu.
From S2P Require Import SafetyMcu.

(** ** A tick after its sensors were sampled *)

Section Halves.
Import SafetyMcu.
Context {W : Type} `{IClock W, IMotor W, IHeater W, ITempSensor W, IScale W, ILid W, IUart W}.

(** The state when the receive loop begins. *)
Definition sampled (m : SafetyMcu W) : SafetyMcu W :=
  sample_phase (m <| tick_count_ := u32 (tick_count_ m + 1) |>).

Definition after_sampling (m : SafetyMcu W) : outcome (SafetyMcu W) :=
  m ← serve_loop (S (rx_pending (world m))) m;
  let '(watts, m) := drive_phase (supervise_phase (interlock_phase m)) in
  publish_phase watts m.

Lemma tick_halves m : SafetyMcu.tick_1ms m = after_sampling (sampled m).
Proof. reflexivity. Qed.

End Halves.

(** ** What a control tick leaves alone *)

Section McuPreserves.
Import SafetyMcu.
Context {W : Type} `{IClock W, IMotor W, IHeater W, ITempSensor W, IScale W, ILid W, IUart W}.
Context {A : Type} (f : W -> A).

(** [f] reads nothing that the safety processor drives or draws from once it has
    sampled the bowl temperature; nor the sensor of that. *)
Class Undriven : Prop := {
  un_duty d w : f (set_duty d w) = f w;
  un_power x w : f (set_power_w x w) = f w;
  un_lock l w : f (set_lock l w) = f w;
  un_scale w : f (read_raw w).2 = f w;
  un_write bs w : f (uart_write bs w).2 = f w;
  un_read w : f (uart_read w).2 = f w
}.
Class Untouched : Prop := {
  un_undriven :: Undriven;
  un_temp w : f (read_deci_celsius w).2 = f w
}.

Section Phases.
Context `{Undriven}.

Definition seen (s : CommandHandler.State W) : A := f (CommandHandler.world s).

Lemma transmit_seen ty rq p s : seen (CommandHandler.transmit ty rq p s) = seen s.
Proof.
  unfold CommandHandler.transmit, seen.
  match goal with |- context [Link.send ?a ?b ?c ?d ?e ?l ?w] =>
    pose proof (send_preserves f a b c d e l w un_write) as S; destruct (Link.send a b c d e l w) as [[st l'] w'] end.
  exact S.
Qed.

Lemma stop_seen c w : f (MotorController.stop c w).2 = f w.
Proof. apply un_duty. Qed.

Lemma current_grams_seen s r : CommandHandler.current_grams s = Ret r -> seen r.2 = seen s.
Proof.
  unfold CommandHandler.current_grams. pose proof (un_scale (CommandHandler.world s)) as U.
  destruct (read_raw _) as [raw w]. cbn [snd] in U. destruct (negb _); [intros [= <-]; exact U|].
  destruct (_ || _); [discriminate|]. cbn. destruct (to_i32 _); [|discriminate]. intros [= <-]. exact U.
Qed.

Definition keeps_seen (h : Frame -> Interlocks.Inputs -> CommandHandler.State W -> outcome (CommandHandler.State W)) : Prop :=
  forall rq i s s', h rq i s = Ret s' -> seen s' = seen s.

Ltac sent := etrans; [apply transmit_seen|]; reflexivity.

Lemma handlers_seen : Forall (fun e => keeps_seen e.2) CommandHandler.kHandlers.
Proof.
  unfold CommandHandler.kHandlers. repeat (apply Forall_cons; split); [..|apply Forall_nil; exact I];
    intros rq i s s'; cbn [snd].
  - unfold CommandHandler.handle_ping. destruct (negb _); intros [= <-]; sent.
  - unfold CommandHandler.handle_get_version. destruct (negb _); intros [= <-]; sent.
  - unfold CommandHandler.handle_motor_set_target. destruct (negb _); [intros [= <-]; sent|].
    cbv zeta. destruct (_ >? kRampBurst); [intros [= <-]; sent|].
    destruct (_ =? kRampBurst); [|intros [= <-]; sent].
    destruct (_ || _); intros [= <-]; sent.
  - unfold CommandHandler.handle_motor_stop. destruct (negb _); [intros [= <-]; sent|].
    cbn [MotorController.stop]. intros [= <-]. etrans; [apply transmit_seen|]. apply un_duty.
  - unfold CommandHandler.handle_heater_set_target. destruct (negb _); [intros [= <-]; sent|].
    cbv zeta. destruct (_ || _); intros [= <-]; sent.
  - unfold CommandHandler.handle_heater_off. destruct (negb _); intros [= <-]; sent.
  - unfold CommandHandler.handle_scale_tare. destruct (_ || _); [intros [= <-]; sent|].
    pose proof (un_scale (CommandHandler.world s)) as U. destruct (read_raw _) as [raw w]. cbn [snd] in U. cbv zeta.
    destruct (negb _); intros [= <-]; (etrans; [apply transmit_seen|exact U]).
  - unfold CommandHandler.handle_scale_read. destruct (negb _); [intros [= <-]; sent|].
    pose proof (current_grams_seen s) as G. destruct (CommandHandler.current_grams s) as [[g s1]| |]; try discriminate.
    cbn. intros [= <-]. etrans; [apply transmit_seen|]. exact (G (g, s1) eq_refl).
  - unfold CommandHandler.handle_lid_lock. destruct (negb _); [intros [= <-]; sent|].
    intros [= <-]. etrans; [apply transmit_seen|]. apply un_lock.
  - unfold CommandHandler.handle_lid_unlock. destruct (_ || _); [intros [= <-]; sent|].
    intros [= <-]. etrans; [apply transmit_seen|]. apply un_lock.
Qed.

Lemma handle_seen rq i fl s s' : CommandHandler.handle rq i fl s = Ret s' -> seen s' = seen s.
Proof.
  unfold CommandHandler.handle. destruct (negb (bool_decide _)); [now intros [= <-]|].
  destruct (_ && _); [intros [= <-]; sent|].
  destruct (List.find _ _) as [e|] eqn:E; [|intros [= <-]; sent].
  apply find_some in E as [E _]. apply list_elem_of_In in E.
  exact (proj1 (Forall_forall _ _) handlers_seen e E rq i s s').
Qed.

Lemma publish_seen d p l w : f (TelemetryPublisher.maybe_publish d p l w).2 = f w.
Proof.
  unfold TelemetryPublisher.maybe_publish.
  assert (P : f (TelemetryPublisher.publish_pending p l w).2 = f w).
  { unfold TelemetryPublisher.publish_pending. destruct (_ =? _); [reflexivity|].
    match goal with |- context [Link.send ?a ?b ?c ?d ?e l w] =>
      pose proof (send_preserves f a b c d e l w un_write) as S; destruct (Link.send a b c d e l w) as [[st l'] w'] end.
    now destruct (negb _). }
  destruct (TelemetryPublisher.publish_pending p l w) as [[[go p1] l1] w1]. cbn [snd] in P. rewrite <- P.
  destruct (negb go); [reflexivity|]. cbv zeta. destruct (_ <? _); [reflexivity|].
  match goal with |- context [Link.send ?a ?b ?c ?d ?e l1 w1] =>
    pose proof (send_preserves f a b c d e l1 w1 un_write) as S; destruct (Link.send a b c d e l1 w1) as [[st l'] w'] end.
  exact S.
Qed.

Definition watched (m : SafetyMcu W) : A := f (world m).

Lemma enter_fault_seen code m : watched (enter_fault code m) = watched m.
Proof.
  unfold watched, enter_fault. cbn [MotorController.stop]. unfold world, with_world, with_motor, with_pid. simp_set.
  now rewrite un_power, un_duty.
Qed.

Lemma serve_loop_seen fuel : forall m m', serve_loop fuel m = Ret m' -> watched m' = watched m.
Proof.
  induction fuel as [|fuel IH]; intros m m' E; [discriminate|]. cbn [serve_loop] in E.
  destruct (Link.poll (link_ m) (world m)) as [[[r l] w]| |] eqn:P; try discriminate. cbn in E.
  apply (poll_preserves f) in P; [|apply un_write|apply un_read].
  destruct r as [fr|]; [|simplify_eq; exact P].
  unfold serve_frame in E.
  match type of E with context [CommandHandler.handle ?a ?b ?c ?d] =>
    destruct (CommandHandler.handle a b c d) as [h| |] eqn:Hd; try discriminate end.
  cbn in E. apply IH in E. apply handle_seen in Hd.
  rewrite E. destruct (_ && _ && _ && _); destruct (bool_decide _); unfold watched, world; simp_set;
    (etrans; [exact Hd|exact P]).
Qed.

Lemma supervision_seen m : watched (supervise_phase (interlock_phase m)) = watched m.
Proof.
  unfold supervise_phase, interlock_phase. destruct (fault_ m =? FaultCode.None);
    [destruct (negb _)|]; (destruct (_ && _ && _); rewrite ?enter_fault_seen; reflexivity).
Qed.

Lemma drive_phase_seen m : watched (drive_phase m).2 = watched m.
Proof.
  unfold drive_phase, MotorController.tick_1ms. cbv zeta.
  match goal with |- context [let '(_, _) := ?x in _] => destruct x as [watts p] end.
  unfold watched, with_world, with_pid, with_motor, world, motor_ctrl_, pid_. cbn [snd]. simp_set.
  now rewrite un_duty, un_power.
Qed.

Lemma publish_phase_seen watts m m' : publish_phase watts m = Ret m' -> watched m' = watched m.
Proof.
  unfold publish_phase. destruct (from_celsius _); [|discriminate]. cbn.
  pose proof (current_grams_seen (handler_ m)) as G.
  destruct (CommandHandler.current_grams (handler_ m)) as [[g h]| |]; try discriminate. cbn.
  specialize (G (g, h) eq_refl). cbn [snd] in G.
  match goal with |- context [TelemetryPublisher.maybe_publish ?d ?p ?l ?w] =>
    pose proof (publish_seen d p l w) as P; destruct (TelemetryPublisher.maybe_publish d p l w) as [[p' l'] w'] end.
  cbn [snd] in P. intros [= <-]. unfold watched, with_world, with_link, world. simp_set. rewrite P. exact G.
Qed.

Lemma rest_seen m m' : after_sampling m = Ret m' -> watched m' = watched m.
Proof.
  unfold after_sampling. intros E. apply bind_ret in E as (m1 & E1 & E). apply serve_loop_seen in E1.
  rewrite <- E1, <- (supervision_seen m1), <- (drive_phase_seen (supervise_phase _)).
  destruct (drive_phase _) as [watts m2]. now apply publish_phase_seen in E.
Qed.

End Phases.

Lemma sample_phase_seen `{Untouched} m : watched (sample_phase m) = watched m.
Proof.
  unfold sample_phase, sample_inputs. pose proof (un_temp (world m)) as U.
  destruct (read_deci_celsius (world m)) as [r w]. cbn [snd] in U.
  destruct (negb _) eqn:B; (destruct (negb _ && negb _); [rewrite enter_fault_seen|]); exact U.
Qed.

Lemma tick_seen `{Untouched} m m' : SafetyMcu.tick_1ms m = Ret m' -> watched m' = watched m.
Proof. rewrite tick_halves. intros E. apply rest_seen in E. rewrite E. exact (sample_phase_seen _). Qed.

End McuPreserves.

(** ** What is received *)

Section Received.
Import SafetyMcu.
Context {W : Type} `{IClock W, IMotor W, IHeater W, ITempSensor W, IScale W, ILid W, IUart W}.

(** The frames the receive loop takes from the link, each with the time it is
    served at. *)
Fixpoint received (fuel : nat) (m : SafetyMcu W) : list (Z * Frame) :=
  match fuel with
  | O => []
  | S fuel =>
      match Link.poll (link_ m) (world m) with
      | Ret (Some f, l, w) =>
          (now_ms w, f) ::
            match serve_frame f (with_world w (with_link l m)) with
            | Ret m => received fuel m
            | _ => []
            end
      | _ => []
      end
  end.

(** In a tick, and in a history of ticks. *)
Definition tick_received (m : SafetyMcu W) : list (Z * Frame) :=
  received (S (rx_pending (world (sampled m)))) (sampled m).

Fixpoint run_received (env : list (W -> W)) (m : SafetyMcu W) : list (Z * Frame) :=
  match env with
  | [] => []
  | e :: env =>
      let m := with_world (e (world m)) m in
      tick_received m ++ match SafetyMcu.tick_1ms m with Ret m => run_received env m | _ => [] end
  end.

End Received.

(** What acknowledges a fault: a MOTOR_STOP request without arguments. *)
Definition acknowledges (f : Frame) : Prop :=
  type f = Request /\ msg_id f = MsgId.MotorStop /\ payload_len f = 0.

Section SupervisionTheory.
Import SafetyMcu.
Context {W : Type} `{IClock W, BoardLaws W}.

Implicit Types m : SafetyMcu W.

Lemma received_ok l w m : mcu_ok m -> link_ok l -> mcu_ok (with_world w (with_link l m)).
Proof.
  intros Hm L. apply with_world_ok. destruct Hm as [(T & M & P & K) Hi Hf Hs]. split; fields; try assumption.
  split; fields; [exact L|]. split_and!; assumption.
Qed.

(** A turn of the receive loop. *)
Lemma serve_turn fuel m m' : mcu_ok m -> serve_loop (S fuel) m = Ret m' ->
  exists r l w, Link.poll (link_ m) (world m) = Ret (r, l, w) /\ mcu_ok (with_world w (with_link l m)) /\
    match r with
    | None => m' = with_world w (with_link l m) /\ received (S fuel) m = []
    | Some f => exists m1, frame_wf f /\ serve_frame f (with_world w (with_link l m)) = Ret m1 /\
        frame_served f (with_world w (with_link l m)) m1 /\ serve_loop fuel m1 = Ret m' /\
        received (S fuel) m = (now_ms w, f) :: received fuel m1
    end.
Proof.
  intros Hm E. cbn [serve_loop received] in *. pose proof Hm as [(Hl & _) _ _ _].
  destruct (poll_ok (link_ m) (world m) Hl) as (r & l & w & Ep & Hl' & Hw & _). rewrite Ep in *.
  cbn [mbind outcome_bind] in E. pose proof (received_ok l w m Hm Hl') as K. exists r, l, w. split_and!; [reflexivity|exact K|].
  destruct r as [f|]; [|now injection E as <-]. apply bind_ret in E as (m1 & E1 & E). exists m1.
  pose proof (serve_frame_ok f _ Hw K) as S. rewrite E1 in *. now split_and!.
Qed.

(** The receive loop takes a fault away only for an acknowledgement. *)
Lemma serve_loop_fault fuel : forall m m', mcu_ok m -> serve_loop fuel m = Ret m' ->
  fault_ m' = fault_ m \/ fault_ m' = FaultCode.None /\ can_clear_fault m = true /\
    exists t f, In (t, f) (received fuel m) /\ acknowledges f.
Proof.
  induction fuel as [|fuel IH]; intros m m' Hm E; [discriminate|].
  destruct (serve_turn fuel m m' Hm E) as (r & l & w & _ & K & T). set (m0 := with_world w (with_link l m)) in *.
  assert (E0 : fault_ m0 = fault_ m /\ can_clear_fault m0 = can_clear_fault m) by now split. destruct E0 as [E0 C0].
  destruct r as [f|]; [|left; destruct T as [-> _]; exact E0].
  destruct T as (m1 & _ & _ & (K1 & _ & I1 & S1 & _ & F1) & E1 & ->).
  destruct F1 as [F1|(F1 & A1 & A2 & A3 & A4)].
  - assert (C1 : can_clear_fault m1 = can_clear_fault m).
    { rewrite <- C0. unfold can_clear_fault. now rewrite F1, I1, S1. }
    destruct (IH m1 m' K1 E1) as [F|(F & C & t & g & G & A)]; [left; congruence|right].
    split_and!; [exact F|congruence|]. exists t, g. split; [now right|exact A].
  - assert (D : fault_ m' = FaultCode.None) by (destruct (IH m1 m' K1 E1) as [F|[F _]]; congruence).
    right. split_and!; [exact D|congruence|]. exists (now_ms w), f. split; [now left|]. now split_and!.
Qed.

(** What the phases after the receive loop do to the fault. *)
Lemma rest_fault m m' : mcu_ok m -> after_sampling m = Ret m' ->
  exists m2, serve_loop (S (rx_pending (world m))) m = Ret m2 /\ inputs_ m' = inputs_ m /\
    temp_sensor_ok_ m' = temp_sensor_ok_ m /\ mcu_ok m' /\
    (fault_ m2 <> FaultCode.None -> fault_ m' = fault_ m2) /\
    (fault_ m' = FaultCode.None -> fault_ m2 = FaultCode.None /\ Interlocks.evaluate (inputs_ m) = FaultCode.None).
Proof.
  intros Hm E. unfold after_sampling in E. apply bind_ret in E as (m2 & E2 & E). exists m2. split; [exact E2|].
  pose proof (serve_loop_ok (S (rx_pending (world m))) m ltac:(lia) Hm) as K. rewrite E2 in K. destruct K as (K2 & I2 & S2 & _).
  destruct (interlock_phase_ok m2 K2) as (K3 & I3 & S3 & _ & F3 & G3).
  assert (L3 : fault_ m2 <> FaultCode.None -> fault_ (interlock_phase m2) = fault_ m2).
  { intros N. unfold interlock_phase. now destruct (Z.eqb_spec (fault_ m2) FaultCode.None). }
  destruct (supervise_phase_ok _ K3) as (K4 & I4 & S4 & _ & F4 & _).
  set (m4 := supervise_phase _) in *. clearbody m4.
  pose proof (drive_phase_ok m4 K4) as D. destruct (drive_phase m4) as [watts m5]. destruct D as (K5 & I5 & F5 & S5 & _).
  pose proof (publish_phase_ok watts m5 K5) as P. rewrite E in P. destruct P as (K6 & I6 & F6 & S6 & _).
  split_and!; [congruence|congruence|exact K6| |].
  - intros N. specialize (L3 N). destruct F4 as [F4|[F4 _]]; congruence.
  - intros N. rewrite F6, F5 in N. destruct F4 as [F4|[_ F4]]; [|rewrite N in F4; discriminate].
    rewrite N in F4. symmetry in F4. split; [|rewrite <- I2; exact (F3 F4)].
    destruct (Z.eq_dec (fault_ m2) FaultCode.None) as [X|X]; [exact X|]. rewrite (L3 X) in F4. contradiction.
Qed.

Lemma sampled_ok m : mcu_ok m -> mcu_ok (sampled m) /\ last_valid_frame_ms_ (sampled m) = last_valid_frame_ms_ m /\
  (fault_ (sampled m) = fault_ m \/ temp_sensor_ok_ (sampled m) = false /\ fault_ (sampled m) = FaultCode.SensorFailure).
Proof.
  intros Hm. unfold sampled. set (m0 := m <| tick_count_ := _ |>).
  assert (K : mcu_ok m0) by (destruct Hm; subst m0; split; fields; assumption).
  split; [now apply sample_phase_ok|]. unfold sample_phase, sample_inputs.
  destruct (read_deci_celsius (world m0)) as [r w]. destruct (Result.is_ok r) eqn:Ok; fields; cbn [negb andb fst snd].
  - split; [reflexivity|now left].
  - match goal with |- context [if ?b then _ else _] => destruct b end; (split; [reflexivity|]); [right; now split|now left].
Qed.

(** A controller whose sensor reads has sampled its inputs. *)
Lemma sampled_inputs m : temp_sensor_ok_ (sampled m) = true ->
  let '(r, w) := read_deci_celsius (world m) in
  Result.is_ok r = true /\ world (sampled m) = w /\
  inputs_ (sampled m) = {| Interlocks.temp_c := to_celsius (Result.value r); Interlocks.rpm := motor_rpm w;
    Interlocks.lid_closed := is_closed w; Interlocks.lid_locked := is_locked w; Interlocks.motor_stalled := stalled w |}.
Proof.
  unfold sampled. set (m0 := m <| tick_count_ := _ |>). change (world m) with (world m0).
  unfold sample_phase, sample_inputs. destruct (read_deci_celsius (world m0)) as [r w].
  destruct (Result.is_ok r) eqn:Ok; fields; cbn [negb andb fst snd].
  - now intros _.
  - match goal with |- context [if ?b then _ else _] => destruct b end; discriminate.
Qed.

(** ** Silence on the link *)

(** Neither the motor nor the heater is asked for anything. *)
Definition inactive m : Prop := MotorController.active (motor_ctrl_ m) = false /\ HeaterPid.enabled_ (pid_ m) = false.

Lemma stopped_inactive (c : MotorController.MotorController) : stopped c -> MotorController.active c = false.
Proof. intros [C T]. unfold MotorController.active. now rewrite C, T. Qed.

Lemma faulted_inactive m : mcu_ok m -> fault_ m <> FaultCode.None -> inactive m.
Proof. intros Hm F. destruct (mo_fault m Hm F) as [S P]. split; [now apply stopped_inactive|exact P]. Qed.

Lemma inactive_zero (c : MotorController.MotorController) : motor_ok c -> MotorController.active c = false ->
  MotorController.target_rpm_ c = 0 /\ exists s, MotorController.commanded_rpm_ c = S754_zero s.
Proof.
  intros (F & B & T & _) A. apply orb_false_iff in A as [A1 A2]. split.
  - destruct (Z.gtb_spec (MotorController.target_rpm_ c) 0); [discriminate|lia].
  - rewrite fgt_spec in A2 by (exact F || reflexivity). apply Z.ltb_ge in A2. change (fz fzero) with 0 in A2.
    apply fz_zero_inv; [exact F|lia].
Qed.

(** What is not asked for is not driven. *)
Lemma inactive_drive m : mcu_ok m -> inactive m ->
  inactive (drive_phase m).2 /\ feq (duty (world (drive_phase m).2)) fzero = true /\ power_w (world (drive_phase m).2) = fzero.
Proof.
  intros Hm [A P]. pose proof Hm as [(_ & M & _) _ _ _]. fields. destruct (inactive_zero _ M A) as [T [s C]].
  pose proof (continuous_cap_range (inputs_ m)) as R. destruct (small_of_Z _ R) as [F V].
  pose proof (scale_mono 0 _ (proj1 R)) as S0.
  assert (E : MotorController.enforce_cap (Interlocks.continuous_cap (inputs_ m))
    (CommandHandler.motor_ (handler_ m)) = CommandHandler.motor_ (handler_ m)).
  { unfold MotorController.enforce_cap. rewrite T. destruct (Z.gtb_spec 0 (Interlocks.continuous_cap (inputs_ m))); [lia|].
    rewrite C, fgt_spec, V by (assumption || reflexivity). change (fz (S754_zero s)) with 0.
    destruct (Z.ltb_spec (Interlocks.continuous_cap (inputs_ m) * 2 ^ scale) 0); [lia|reflexivity]. }
  assert (Q : MotorController.ramp (CommandHandler.motor_ (handler_ m)) = S754_zero s).
  { unfold MotorController.ramp. rewrite T, C. now destruct s. }
  unfold drive_phase, MotorController.tick_1ms, inactive. fields. rewrite E. fields. rewrite P, andb_false_r. cbn [andb]. fields.
  unfold MotorController.active in *. fields. rewrite Q, T. rewrite C in A. board_simpl. rewrite duty_set, power_set by (destruct s; reflexivity).
  split_and!; try assumption; try reflexivity; destruct s; reflexivity.
Qed.

(** The time of the last valid frame is that of a request that was received, or
    nothing was asked for yet. *)
Definition attended (log : list (Z * Frame)) m : Prop :=
  (exists f, In (last_valid_frame_ms_ m, f) log /\ type f = Request) \/ inactive m.

Lemma attended_more log log' m m' : (forall x, In x log -> In x log') ->
  last_valid_frame_ms_ m' = last_valid_frame_ms_ m -> (inactive m -> inactive m') -> attended log m -> attended log' m'.
Proof. intros L E I [(f & G & T)|A]; [left|right; auto]. exists f. rewrite E. split; [now apply L|exact T]. Qed.

Lemma enter_fault_inactive code m : inactive (enter_fault code m).
Proof. split; reflexivity. Qed.

Lemma sampled_attended log m : attended log m -> attended log (sampled m).
Proof.
  apply attended_more; [auto|..]; unfold sampled, sample_phase, sample_inputs;
    destruct (read_deci_celsius _) as [r w]; destruct (Result.is_ok r); fields; cbn [negb andb fst snd]; auto;
    match goal with |- context [if ?b then _ else _] => destruct b end; auto. intros _. apply enter_fault_inactive.
Qed.

Lemma serve_frame_attended f m m' log : serve_frame f m = Ret m' -> attended log m ->
  attended (log ++ [(now_ms (world m), f)]) m'.
Proof.
  unfold serve_frame. intros E. apply bind_ret in E as (h & Hd & E). injection E as <-.
  destruct (bool_decide_reflect (type f = Request)) as [T|N]; cbn [andb] in *.
  - intros _. left. exists f. split; [|exact T]. apply in_or_app. right. left.
    now destruct (_ && _ && _).
  - unfold CommandHandler.handle in Hd. rewrite bool_decide_false in Hd by exact N. injection Hd as <-.
    apply attended_more; auto. intros x. intros I. apply in_or_app. now left.
Qed.

Lemma serve_loop_attended fuel : forall log m m', mcu_ok m -> serve_loop fuel m = Ret m' -> attended log m ->
  attended (log ++ received fuel m) m'.
Proof.
  induction fuel as [|fuel IH]; intros log m m' Hm E A; [discriminate|].
  destruct (serve_turn fuel m m' Hm E) as (r & l & w & _ & K & T). set (m0 := with_world w (with_link l m)) in *.
  assert (A0 : attended log m0) by (revert A; now apply attended_more).
  destruct r as [f|]; [|destruct T as [-> ->]; now rewrite app_nil_r].
  destruct T as (m1 & _ & E1 & (K1 & _) & E2 & ->).
  apply (serve_frame_attended f m0 m1 log E1) in A0. apply (IH _ m1 m' K1 E2) in A0. now rewrite <- app_assoc in A0.
Qed.

(** What is driven at the end of a tick was asked for less than five seconds
    before. *)
Definition quiet m : Prop := inactive m /\ feq (duty (world m)) fzero = true /\ power_w (world m) = fzero.

Lemma supervise_cases m : mcu_ok m -> inactive (supervise_phase m) \/
  u32_sub (now_ms (world (supervise_phase m))) (last_valid_frame_ms_ (supervise_phase m)) < 5000.
Proof.
  intros Hm. destruct (supervise_phase_ok m Hm) as (K & _ & _ & _ & _ & S).
  destruct (Z.eq_dec (fault_ (supervise_phase m)) FaultCode.None) as [F|F]; [|left; now apply faulted_inactive].
  destruct (MotorController.active (motor_ctrl_ (supervise_phase m))) eqn:A; [right; auto|].
  destruct (HeaterPid.enabled_ (pid_ (supervise_phase m))) eqn:P; [right; auto|left; now split].
Qed.

Lemma supervision_attended log m : mcu_ok m -> attended log m -> attended log (supervise_phase (interlock_phase m)).
Proof.
  intros Hm A. assert (A1 : attended log (interlock_phase m)).
  { revert A. unfold interlock_phase. destruct (_ =? _); [|auto]. cbv zeta. destruct (negb _); [|auto].
    apply attended_more; auto. intros _. apply enter_fault_inactive. }
  revert A1. unfold supervise_phase. destruct (_ && _ && _); [|auto].
  apply attended_more; auto. intros _. apply enter_fault_inactive.
Qed.

Lemma drive_valid m : last_valid_frame_ms_ (drive_phase m).2 = last_valid_frame_ms_ m.
Proof.
  unfold drive_phase. cbv zeta. match goal with |- context [let '(_, _) := ?x in _] => destruct x as [watts p] end. reflexivity.
Qed.

Lemma publish_valid watts m m' : publish_phase watts m = Ret m' -> last_valid_frame_ms_ m' = last_valid_frame_ms_ m.
Proof.
  unfold publish_phase. intros E. apply bind_ret in E as (deci & _ & E). apply bind_ret in E as ([g h] & _ & E).
  cbv zeta in E. match type of E with (let '(_, _) := ?x in _) = _ => destruct x as [[p l] w] end.
  injection E as <-. reflexivity.
Qed.

(** The hardware of the safety processor takes no time: the clock moves between
    the ticks. *)
Context `{timeless : !Undriven (now_us (W := W))}.

Lemma rest_attended log m m' : mcu_ok m -> after_sampling m = Ret m' -> attended log m ->
  attended (log ++ received (S (rx_pending (world m))) m) m' /\
  (quiet m' \/ u32_sub (now_ms (world m')) (last_valid_frame_ms_ m') < 5000).
Proof.
  intros Hm E A. unfold after_sampling in E. apply bind_ret in E as (m2 & E2 & E).
  pose proof (serve_loop_ok (S (rx_pending (world m))) m ltac:(lia) Hm) as K. rewrite E2 in K. destruct K as [K2 _].
  pose proof (serve_loop_attended _ log m m2 Hm E2 A) as A2. pose proof (supervision_attended _ m2 K2 A2) as A4.
  pose proof (proj1 (interlock_phase_ok m2 K2)) as K3.
  pose proof (proj1 (supervise_phase_ok _ K3)) as K4. pose proof (supervise_cases _ K3) as C.
  set (m4 := supervise_phase _) in *. clearbody m4.
  pose proof (drive_phase_ok m4 K4) as D. pose proof (inactive_drive m4 K4) as I. pose proof (drive_valid m4) as V.
  pose proof (drive_phase_seen now_us m4) as T. destruct (drive_phase m4) as [watts m5]. cbn [snd] in *.
  destruct D as (K5 & _). pose proof (publish_phase_ok watts m5 K5) as P. rewrite E in P.
  destruct P as (_ & _ & _ & _ & Pm & Pp & Pa). pose proof (publish_valid watts m5 m' E) as V6.
  pose proof (publish_phase_seen now_us watts m5 m' E) as T6. unfold watched, actuators in *. injection Pa as Pd Pw _.
  assert (I6 : inactive m4 -> inactive m') by (unfold inactive in *; rewrite Pm, Pp; intros X; apply I, X).
  split; [revert A4; apply attended_more; auto; congruence|].
  destruct C as [C|C]; [left|right].
  - unfold quiet. rewrite Pd, Pw. split; [exact (I6 C)|]. apply I, C.
  - unfold now_ms in *. rewrite T6, T, V6, V. exact C.
Qed.

Lemma run_attended env : forall log m m', mcu_ok m -> run env m = Ret m' -> attended log m ->
  attended (log ++ run_received env m) m' /\
  (env <> [] -> quiet m' \/ u32_sub (now_ms (world m')) (last_valid_frame_ms_ m') < 5000).
Proof.
  induction env as [|e env IH]; intros log m m' Hm E A; cbn [run run_received] in *.
  { injection E as <-. rewrite app_nil_r. split; [exact A|congruence]. }
  apply bind_ret in E as (m1 & E1 & E). set (m0 := with_world (e (world m)) m) in *. rewrite E1.
  assert (K0 : mcu_ok m0) by now apply with_world_ok.
  assert (A0 : attended log m0) by (revert A; now apply attended_more).
  pose proof (tick_ok m0 K0) as K1. rewrite E1 in K1. destruct K1 as [K1 _].
  destruct (sampled_ok m0 K0) as (Ks & _). pose proof E1 as E1'. rewrite tick_halves in E1'.
  destruct (rest_attended log (sampled m0) m1 Ks E1' (sampled_attended log m0 A0)) as [A1 Q1].
  rewrite app_assoc. destruct (IH _ m1 m' K1 E A1) as [A2 Q2]. split; [exact A2|]. intros _.
  destruct env; [|now apply Q2]. cbn in E. now injection E as <-.
Qed.

End SupervisionTheory.

(** ** Properties *)

Section SupervisionProperties.
Import SafetyMcu.
Context {W : Type} `{IClock W, BoardLaws W}.

(** C5 (SR-004, SR-007, recovery): the only way out of a fault is a MOTOR_STOP
    request without arguments: in whatever history a fault is latched, the next
    tick ends without one only if such a request is among the frames it received,
    the sensor reads, the bowl is below 165 degrees and the motor is not
    stalled; and without such a request the fault stays the one it was, unless
    the sensor fails. *)
Theorem fault_cleared_only_by_motor_stop env e (w : W) m m' : run env (new_mcu w) = Ret m ->
  fault_ m <> FaultCode.None ->
  let m0 := with_world (e (world m)) m in
  let acknowledged := exists t f, In (t, f) (tick_received m0) /\ acknowledges f in
  SafetyMcu.tick_1ms m0 = Ret m' ->
  (fault_ m' = FaultCode.None -> acknowledged /\ temp_sensor_ok_ m' = true /\
     fge (Interlocks.temp_c (inputs_ m')) (of_Z 165) = false /\ Interlocks.motor_stalled (inputs_ m') = false) /\
  (fault_ m' <> fault_ m -> acknowledged \/ temp_sensor_ok_ m' = false /\ fault_ m' = FaultCode.SensorFailure).
Proof.
  intros R F m0 acknowledged E. pose proof (run_ok env _ (new_mcu_ok w)) as Hm. rewrite R in Hm. destruct Hm as [Hm _].
  assert (K0 : mcu_ok m0) by now apply with_world_ok.
  destruct (sampled_ok m0 K0) as (Ks & _ & Fs). rewrite tick_halves in E.
  destruct (rest_fault _ m' Ks E) as (m2 & E2 & Ei & Es & K' & F1 & F2). change (fault_ m0) with (fault_ m) in Fs.
  assert (N : fault_ (sampled m0) <> FaultCode.None) by (destruct Fs as [Fs|[_ Fs]]; rewrite Fs; [exact F|discriminate]).
  destruct (serve_loop_fault _ _ m2 Ks E2) as [S|(S & _ & A)].
  - rewrite <- S in N. rewrite (F1 N), S. split; [intros X; congruence|]. intros X. right. destruct Fs as [Fs|[Fs1 Fs2]]; [contradiction|].
    split; congruence.
  - split; [|now left]. intros X. destruct (F2 X) as [_ Ev]. split; [exact A|]. rewrite Ei.
    unfold Interlocks.evaluate in Ev. change limits.kOvertempCutoffC with (of_Z 165) in Ev.
    destruct (fge _ (of_Z 165)); [discriminate|]. destruct (Interlocks.motor_stalled _); [discriminate|].
    split_and!; [now apply none_sensor_ok|reflexivity..].
Qed.

(** C33 (SR-005): nothing stays driven without requests: on hardware that takes no
    time itself, when at the end of a tick every request received since power-on
    is at least five seconds old, on the wrapping 32-bit millisecond clock, no
    speed is commanded or targeted, the heater controller is off, and neither the
    motor nor the heater is driven. *)
Theorem supervision_bounds_silence env (w : W) m : Undriven (now_us (W := W)) -> env <> [] -> run env (new_mcu w) = Ret m ->
  (forall t f, In (t, f) (run_received env (new_mcu w)) -> type f = Request -> 5000 <= u32_sub (now_ms (world m)) t) ->
  MotorController.active (motor_ctrl_ m) = false /\ HeaterPid.enabled_ (pid_ m) = false /\
  feq (duty (world m)) fzero = true /\ power_w (world m) = fzero.
Proof.
  intros T N R Old. destruct (run_attended env [] (new_mcu w) m (new_mcu_ok w) R) as [A Q]; [right; now split|].
  destruct (run_safe env w m N R) as [Hm S]. destruct (Q N) as [([I1 I2] & Q1 & Q2)|Y]; [now split_and!|].
  destruct A as [(f & G & Ty)|[I1 I2]].
  - specialize (Old _ f G Ty). lia.
  - destruct S as [[O1 _ _ O4 _ O6 _] _]. pose proof Hm as [(_ & M & _) _ _ _]. destruct (inactive_zero _ M I1) as [_ [s C]].
    split_and!; [exact I1|exact I2| |apply O6; right; now left]. rewrite O1. unfold duty_of. fields. rewrite C. now destruct s.
Qed.

End SupervisionProperties.
