(* ===== verification/Sim.v ===== *)
(** * The simulated board (src/src/sim)

    The physical models, the board that offers them through the HAL, the
    in-memory transport and the simulated clock. The seeded noise of the sensors
    is the C++ library's normal distribution, whose algorithm the standard
    leaves to the implementation: it is the class [NoiseSource]. A conversion
    of a float that does not fit its integer type is undefined; a step in which
    one happens is [Undefined]. *)

From S2P Require Import Prelude.
From S2P Require Import Float32.
From S2P Require Import Common.
From S2P Require Import C1Link.
From S2P Require Import Hal.

(** ** lid_model.h *)
Module LidModel.
Record LidModel := { closed_ : bool; locked_ : bool }.
#[global] Instance eta_LidModel : Eta LidModel := fun l => {| closed_ := closed_ l; locked_ := locked_ l |}.

Definition new_lid : LidModel := {| closed_ := true; locked_ := false |}.

Definition user_open (l : LidModel) : LidModel := if negb (locked_ l) then l <| closed_ := false |> else l.
Definition user_close (l : LidModel) : LidModel := l <| closed_ := true |>.
Definition set_lock (locked : bool) (l : LidModel) : LidModel :=
  if closed_ l then l <| locked_ := locked |> else l.
End LidModel.

(** ** motor_model.cpp *)
Module MotorModel.
Definition kMaxRpm : f32 := of_Z 10700.
Definition kSpeedTauSeconds : f32 := lit 4 10.
Definition kIdleCurrentMa : f32 := of_Z 150.
Definition kCurrentPerRpmMa : f32 := lit 5 100.
Definition kStallLoadLimit : f32 := of_Z 9000.

Record MotorModel := {
  duty_ : f32; rpm_ : f32; viscosity_ : f32; reverse_ : bool; stalled_ : bool; current_ma_ : Z
}.
#[global] Instance eta_MotorModel : Eta MotorModel := fun m =>
  {| duty_ := duty_ m; rpm_ := rpm_ m; viscosity_ := viscosity_ m; reverse_ := reverse_ m;
     stalled_ := stalled_ m; current_ma_ := current_ma_ m |}.

Definition new_motor : MotorModel :=
  {| duty_ := fzero; rpm_ := fzero; viscosity_ := of_Z 1; reverse_ := false; stalled_ := false; current_ma_ := 0 |}.

Definition set_duty (duty : f32) (m : MotorModel) : MotorModel :=
  let duty := if flt duty fzero then fzero else duty in
  let duty := if fgt duty (of_Z 1) then of_Z 1 else duty in
  let m := m <| duty_ := duty |> in
  if feq (duty_ m) fzero then m <| stalled_ := false |> else m.

Definition set_reverse (reverse : bool) (m : MotorModel) : MotorModel := m <| reverse_ := reverse |>.
Definition set_viscosity (factor : f32) (m : MotorModel) : MotorModel := m <| viscosity_ := factor |>.

(** [None]: the cast to [Rpm] is undefined. *)
Definition rpm (m : MotorModel) : option Z := to_u16 (if flt (rpm_ m) fzero then fzero else rpm_ m).

Definition step (dt_seconds contents_grams : f32) (m : MotorModel) : outcome MotorModel :=
  if stalled_ m then Ret (m <| rpm_ := fzero |> <| current_ma_ := 2500 |>)
  else
    let target := fmul (duty_ m) kMaxRpm in
    let m := m <| rpm_ := fadd (rpm_ m)
               (fdiv (fmul (fsub target (rpm_ m)) dt_seconds) kSpeedTauSeconds) |> in
    let load := fmul (fmul (fdiv (rpm_ m) kMaxRpm) (viscosity_ m)) (fadd (of_Z 500) contents_grams) in
    if fgt load kStallLoadLimit
    then Ret (m <| stalled_ := true |> <| rpm_ := fzero |> <| current_ma_ := 2500 |>)
    else
      current ← defined (to_u16 (if fgt (duty_ m) fzero
                  then fadd (fadd kIdleCurrentMa (fmul kCurrentPerRpmMa (rpm_ m))) (fmul load (lit 1 10))
                  else fzero));
      Ret (m <| current_ma_ := current |>).
End MotorModel.

(** ** thermal_model.cpp *)
Module ThermalModel.
Definition kBowlHeatCapacityJPerK : f32 := of_Z 500.
Definition kContentsHeatCapacityJPerGK : f32 := lit 418 100.
Definition kLossWPerK : f32 := of_Z 5.

Record ThermalModel := { temperature_c_ : f32; ambient_c_ : f32 }.
#[global] Instance eta_ThermalModel : Eta ThermalModel := fun t =>
  {| temperature_c_ := temperature_c_ t; ambient_c_ := ambient_c_ t |}.

Definition new_thermal : ThermalModel := {| temperature_c_ := of_Z 20; ambient_c_ := of_Z 20 |}.

Definition set_temperature_c (celsius : f32) (t : ThermalModel) : ThermalModel := t <| temperature_c_ := celsius |>.
Definition set_ambient_c (celsius : f32) (t : ThermalModel) : ThermalModel := t <| ambient_c_ := celsius |>.

Definition step (dt_seconds heater_watts contents_grams : f32) (t : ThermalModel) : ThermalModel :=
  let capacity := fadd kBowlHeatCapacityJPerK (fmul kContentsHeatCapacityJPerGK contents_grams) in
  let loss_watts := fmul kLossWPerK (fsub (temperature_c_ t) (ambient_c_ t)) in
  let t := t <| temperature_c_ := fadd (temperature_c_ t)
             (fdiv (fmul (fsub heater_watts loss_watts) dt_seconds) capacity) |> in
  if flt (temperature_c_ t) (fsub (ambient_c_ t) (of_Z 40))
  then t <| temperature_c_ := fsub (ambient_c_ t) (of_Z 40) |> else t.
End ThermalModel.

(** The seeded [std::normal_distribution<float>] of a sensor. *)
Class NoiseSource (N : Type) := { new_noise : Z -> f32 -> N; draw : N -> f32 * N }.

(** ** scale_model.cpp *)
Module ScaleModel.
Definition kDriftGramsPerMinute : f32 := lit 5 100.
Definition kMaxRpm : f32 := of_Z 10700.
Definition kVibrationAmplitudeG : f32 := of_Z 90.
Definition kCountsPerGram : f32 := of_Z 10.

Record ScaleModel {N : Type} := { true_mass_g_ : f32; drift_g_ : f32; vibration_rpm_ : f32; noise_ : N }.
Arguments ScaleModel : clear implicits.
#[global] Instance eta_ScaleModel {N} : Eta (ScaleModel N) := fun s =>
  {| true_mass_g_ := true_mass_g_ s; drift_g_ := drift_g_ s; vibration_rpm_ := vibration_rpm_ s; noise_ := noise_ s |}.

Section Scale.
Context {N : Type} `{NoiseSource N}.

Definition new_scale (seed : Z) : ScaleModel N :=
  {| true_mass_g_ := fzero; drift_g_ := fzero; vibration_rpm_ := fzero; noise_ := new_noise seed (lit 4 10) |}.

Definition add_mass (grams : f32) (s : ScaleModel N) : ScaleModel N := s <| true_mass_g_ := fadd (true_mass_g_ s) grams |>.
Definition clear_mass (s : ScaleModel N) : ScaleModel N := s <| true_mass_g_ := fzero |>.

Definition step (dt_seconds motor_rpm : f32) (s : ScaleModel N) : ScaleModel N :=
  s <| drift_g_ := fadd (drift_g_ s) (fdiv (fmul kDriftGramsPerMinute dt_seconds) (of_Z 60)) |>
    <| vibration_rpm_ := motor_rpm |>.

Definition read_raw_counts (s : ScaleModel N) : option Z * ScaleModel N :=
  let speed_ratio := fdiv (vibration_rpm_ s) kMaxRpm in
  let '(n1, noise) := draw (noise_ s) in
  let vibration := fmul (fmul (fmul kVibrationAmplitudeG speed_ratio) speed_ratio) n1 in
  let '(gauss, noise) := draw noise in
  let grams := fadd (fadd (fadd (true_mass_g_ s) (drift_g_ s)) gauss) vibration in
  (to_i32 (fmul grams kCountsPerGram), s <| noise_ := noise |>).
End Scale.
End ScaleModel.

(** ** sim_clock.h *)
Module SimClock.
Record SimClock := { now_us_ : Z }.
Definition advance_us (delta : Z) (c : SimClock) : SimClock := {| now_us_ := u64 (now_us_ c + delta) |}.
Definition now_ms (c : SimClock) : Z := to_millis (now_us_ c).
End SimClock.

(** ** sim_board.h *)

(** [HeaterHal]: the driver clamps the power. *)
Module HeaterHal.
Definition kMaxWatts : f32 := of_Z 1200.
Definition set_power_w (watts : f32) : f32 :=
  let watts := if flt watts fzero then fzero else watts in
  if fgt watts kMaxWatts then kMaxWatts else watts.
End HeaterHal.

(** [Watchdog]: armed by its first feed. *)
Module Watchdog.
Definition kTimeoutMs : Z := 500.
Record Watchdog := { last_feed_ms_ : Z; armed_ : bool; tripped_ : bool }.
#[global] Instance eta_Watchdog : Eta Watchdog := fun d =>
  {| last_feed_ms_ := last_feed_ms_ d; armed_ := armed_ d; tripped_ := tripped_ d |}.

Definition new_watchdog : Watchdog := {| last_feed_ms_ := 0; armed_ := false; tripped_ := false |}.
Definition feed (now : Z) (d : Watchdog) : Watchdog := d <| armed_ := true |> <| last_feed_ms_ := now |>.
Definition check (now : Z) (d : Watchdog) : Watchdog :=
  if armed_ d && (u32_sub now (last_feed_ms_ d) >? kTimeoutMs) then d <| tripped_ := true |> else d.
End Watchdog.

Module SimBoard.
Record SimBoard {N : Type} := {
  clock_ : SimClock.SimClock;
  thermal_model_ : ThermalModel.ThermalModel;
  motor_model_ : MotorModel.MotorModel;
  scale_model_ : ScaleModel.ScaleModel N;
  lid_model_ : LidModel.LidModel;
  heater_watts_ : f32;
  temp_noise_ : N;
  temp_failed_ : bool;
  watchdog_ : Watchdog.Watchdog
}.
Arguments SimBoard : clear implicits.
#[global] Instance eta_SimBoard {N} : Eta (SimBoard N) := fun b =>
  {| clock_ := clock_ b; thermal_model_ := thermal_model_ b; motor_model_ := motor_model_ b;
     scale_model_ := scale_model_ b; lid_model_ := lid_model_ b; heater_watts_ := heater_watts_ b;
     temp_noise_ := temp_noise_ b; temp_failed_ := temp_failed_ b; watchdog_ := watchdog_ b |}.

Section Board.
Context {N : Type} `{NoiseSource N}.

Definition new_board (seed : Z) : SimBoard N :=
  {| clock_ := {| SimClock.now_us_ := 0 |};
     thermal_model_ := ThermalModel.new_thermal;
     motor_model_ := MotorModel.new_motor;
     scale_model_ := ScaleModel.new_scale seed;
     lid_model_ := LidModel.new_lid;
     heater_watts_ := fzero;
     temp_noise_ := new_noise (u32 (seed + 1)) (lit 15 100);
     temp_failed_ := false;
     watchdog_ := Watchdog.new_watchdog |}.

Definition set_temp_sensor_failed (failed : bool) (b : SimBoard N) : SimBoard N := b <| temp_failed_ := failed |>.

(** [TempSensorHal::read_deci_celsius]; [None] is an undefined cast. *)
Definition read_deci_celsius (b : SimBoard N) : option Result.Result * SimBoard N :=
  if temp_failed_ b then (Some (Result.err HardwareFault), b)
  else
    let '(n, noise) := draw (temp_noise_ b) in
    let reading := fadd (ThermalModel.temperature_c_ (thermal_model_ b)) n in
    (Result.ok <$> from_celsius reading, b <| temp_noise_ := noise |>).

(** One millisecond of the loop of [step_ms]. *)
Definition step_1ms (b : SimBoard N) : outcome (SimBoard N) :=
  let kDtSeconds := lit 1 1000 in
  let b := b <| clock_ := SimClock.advance_us 1000 (clock_ b) |> in
  motor ← MotorModel.step kDtSeconds (ScaleModel.true_mass_g_ (scale_model_ b)) (motor_model_ b);
  let b := b <| motor_model_ := motor |> in
  rpm ← defined (MotorModel.rpm (motor_model_ b));
  let b := b <| scale_model_ := ScaleModel.step kDtSeconds (of_Z rpm) (scale_model_ b) |> in
  let b := b <| thermal_model_ := ThermalModel.step kDtSeconds (heater_watts_ b)
                  (ScaleModel.true_mass_g_ (scale_model_ b)) (thermal_model_ b) |> in
  Ret (b <| watchdog_ := Watchdog.check (SimClock.now_ms (clock_ b)) (watchdog_ b) |>).

Fixpoint step_ms (ms : nat) (b : SimBoard N) : outcome (SimBoard N) :=
  match ms with
  | O => Ret b
  | S ms => b ← step_1ms b; step_ms ms b
  end.
(** The user's actions. *)
Definition add_mass (grams : f32) (b : SimBoard N) : SimBoard N :=
  b <| scale_model_ := ScaleModel.add_mass grams (scale_model_ b) |>.
Definition set_viscosity (factor : f32) (b : SimBoard N) : SimBoard N :=
  b <| motor_model_ := MotorModel.set_viscosity factor (motor_model_ b) |>.
Definition open_lid (b : SimBoard N) : SimBoard N := b <| lid_model_ := LidModel.user_open (lid_model_ b) |>.
Definition close_lid (b : SimBoard N) : SimBoard N := b <| lid_model_ := LidModel.user_close (lid_model_ b) |>.
Definition true_mass_g (b : SimBoard N) : f32 := ScaleModel.true_mass_g_ (scale_model_ b).
End Board.
End SimBoard.

(** ** in_memory_transport.h *)
Module InMemoryTransport.
Definition kQueueCapacity : nat := Z.to_nat 4096.

Record InMemoryTransport := { app_to_mcu_ : RingBuffer.RingBuffer; mcu_to_app_ : RingBuffer.RingBuffer }.
#[global] Instance eta_InMemoryTransport : Eta InMemoryTransport := fun t =>
  {| app_to_mcu_ := app_to_mcu_ t; mcu_to_app_ := mcu_to_app_ t |}.

Definition new_transport : InMemoryTransport :=
  {| app_to_mcu_ := RingBuffer.empty_buffer kQueueCapacity; mcu_to_app_ := RingBuffer.empty_buffer kQueueCapacity |}.

(** [Endpoint::write] and [Endpoint::read] on the queue they use. *)
Fixpoint write (data : list Z) (tx : RingBuffer.RingBuffer) : nat * RingBuffer.RingBuffer :=
  match data with
  | [] => (O, tx)
  | b :: data =>
      let '(ok, tx) := RingBuffer.push kQueueCapacity b tx in
      if ok then let '(n, tx) := write data tx in (S n, tx) else (O, tx)
  end.

Definition read (rx : RingBuffer.RingBuffer) : option Z * RingBuffer.RingBuffer :=
  let '(r, rx) := RingBuffer.pop kQueueCapacity rx in (u8 <$> r, rx).
End InMemoryTransport.

(** ** The board as the world of the safety processor *)

(** Its end of the transport; [sent_] is the ghost log of the bytes its UART
    accepted. *)
Module McuEnd.
Record McuEnd := { transport : InMemoryTransport.InMemoryTransport; sent_ : list Z }.
#[global] Instance eta_McuEnd : Eta McuEnd := fun e => {| transport := transport e; sent_ := sent_ e |}.

Definition new_end : McuEnd := {| transport := InMemoryTransport.new_transport; sent_ := [] |}.
End McuEnd.

#[export] Instance end_uart : IUart McuEnd.McuEnd := {|
  uart_write bs e :=
    let '(n, q) := InMemoryTransport.write bs (InMemoryTransport.mcu_to_app_ (McuEnd.transport e)) in
    (n, e <| McuEnd.transport := (McuEnd.transport e) <| InMemoryTransport.mcu_to_app_ := q |> |>
          <| McuEnd.sent_ := McuEnd.sent_ e ++ take n bs |>);
  uart_read e :=
    let '(r, q) := InMemoryTransport.read (InMemoryTransport.app_to_mcu_ (McuEnd.transport e)) in
    (r, e <| McuEnd.transport := (McuEnd.transport e) <| InMemoryTransport.app_to_mcu_ := q |> |>);
  rx_pending e := RingBuffer.count_ (InMemoryTransport.app_to_mcu_ (McuEnd.transport e))
|}.

(** The simulated board with any serial line to the application. *)
Module McuWorld.
Record McuWorld {N U : Type} := { board : SimBoard.SimBoard N; line : U }.
Arguments McuWorld : clear implicits.
#[global] Instance eta_McuWorld {N U} : Eta (McuWorld N U) := fun w => {| board := board w; line := line w |}.
End McuWorld.

Section McuInstances.
Import McuWorld.
Context {N : Type} `{NoiseSource N} {U : Type} `{IUart U}.

(** A cast the language leaves undefined may give any value of its type. *)
Definition any_of (o : option Z) : Z := default 0 o.

#[export] Instance sim_clock : IClock (McuWorld N U) := fun w => SimClock.now_us_ (SimBoard.clock_ (board w)).

Definition on_motor (f : MotorModel.MotorModel -> MotorModel.MotorModel) (w : McuWorld N U) : McuWorld N U :=
  w <| board := (board w) <| SimBoard.motor_model_ := f (SimBoard.motor_model_ (board w)) |> |>.

#[export] Instance sim_motor : IMotor (McuWorld N U) := {|
  set_duty d := on_motor (MotorModel.set_duty d);
  set_reverse r := on_motor (MotorModel.set_reverse r);
  motor_rpm w := any_of (MotorModel.rpm (SimBoard.motor_model_ (board w)));
  current_ma w := MotorModel.current_ma_ (SimBoard.motor_model_ (board w));
  stalled w := MotorModel.stalled_ (SimBoard.motor_model_ (board w))
|}.

#[export] Instance sim_heater : IHeater (McuWorld N U) := {|
  set_power_w x w := w <| board := (board w) <| SimBoard.heater_watts_ := HeaterHal.set_power_w x |> |>;
  power_w w := SimBoard.heater_watts_ (board w)
|}.

#[export] Instance sim_temp : ITempSensor (McuWorld N U) := fun w =>
  let '(r, b) := SimBoard.read_deci_celsius (board w) in
  (default (Result.ok 0) r, w <| board := b |>).

#[export] Instance sim_scale : IScale (McuWorld N U) := fun w =>
  let '(r, s) := ScaleModel.read_raw_counts (SimBoard.scale_model_ (board w)) in
  (Result.ok (any_of r), w <| board := (board w) <| SimBoard.scale_model_ := s |> |>).

#[export] Instance sim_lid : ILid (McuWorld N U) := {|
  is_closed w := LidModel.closed_ (SimBoard.lid_model_ (board w));
  is_locked w := LidModel.locked_ (SimBoard.lid_model_ (board w));
  set_lock l w := w <| board := (board w) <| SimBoard.lid_model_ := LidModel.set_lock l (SimBoard.lid_model_ (board w)) |> |>
|}.

#[export] Instance mcu_uart : IUart (McuWorld N U) := {|
  uart_write bs w := let '(n, l) := uart_write bs (line w) in (n, w <| line := l |>);
  uart_read w := let '(r, l) := uart_read (line w) in (r, w <| line := l |>);
  rx_pending w := rx_pending (line w)
|}.
End McuInstances.

(** * Theorems *)

(** ** The laws of the board *)

Lemma heater_hal_id x : fle fzero x = true -> fle x (of_Z 1200) = true -> HeaterHal.set_power_w x = x.
Proof.
  intros L U. unfold HeaterHal.set_power_w, HeaterHal.kMaxWatts.
  now rewrite (fle_not_gt _ _ L), (fle_not_fgt _ _ U).
Qed.

Lemma motor_duty_id d m : fle fzero d = true -> fle d (of_Z 1) = true ->
  MotorModel.duty_ (MotorModel.set_duty d m) = d.
Proof.
  intros L U. unfold MotorModel.set_duty. rewrite (fle_not_gt _ _ L), (fle_not_fgt _ _ U). cbv zeta.
  now destruct (feq _ fzero).
Qed.

Lemma to_int_range lo hi x z : to_int lo hi x = Some z -> lo <= z <= hi.
Proof.
  unfold to_int. destruct (trunc x) as [y|]; [|discriminate].
  destruct (Z.leb_spec lo y), (Z.leb_spec y hi); cbn; intros E; simplify_eq; lia.
Qed.

Lemma pop_count q : (RingBuffer.count_ (InMemoryTransport.read q).2 <= RingBuffer.count_ q)%nat /\
  (forall b, (InMemoryTransport.read q).1 = Some b ->
   in_u8 b /\ (RingBuffer.count_ (InMemoryTransport.read q).2 < RingBuffer.count_ q)%nat).
Proof.
  unfold InMemoryTransport.read, RingBuffer.pop.
  destruct (Nat.eqb_spec (RingBuffer.count_ q) 0) as [E|E]; cbn; [split; [lia|discriminate]|].
  split; [lia|]. intros b [= <-]. split; [apply u8_range|lia].
Qed.

#[export] Instance end_uart_laws : UartLaws McuEnd.McuEnd.
Proof.
  refine {| tx_log := McuEnd.sent_ |}.
  - intros bs e. cbn. now destruct (InMemoryTransport.write bs _).
  - intros bs e. cbn. now destruct (InMemoryTransport.write bs _).
  - intros e. cbn. now destruct (InMemoryTransport.read _).
  - intros e b. cbn. destruct (pop_count (InMemoryTransport.app_to_mcu_ (McuEnd.transport e))) as [_ P].
    destruct (InMemoryTransport.read _) as [r q]. exact (P b).
  - intros e. cbn. destruct (pop_count (InMemoryTransport.app_to_mcu_ (McuEnd.transport e))) as [P _].
    destruct (InMemoryTransport.read _) as [r q]. intros _. exact P.
Defined.

Section McuLaws.
Import McuWorld.
Context {N : Type} `{NoiseSource N} {U : Type} `{IUart U, !UartLaws U}.

#[export] Instance mcu_uart_laws : UartLaws (McuWorld N U).
Proof.
  refine {| tx_log := fun w => tx_log (line w) |}.
  - intros bs w. pose proof (write_log bs (line w)) as L. cbn. now destruct (uart_write bs (line w)).
  - intros bs w. pose proof (write_pending bs (line w)) as L. cbn. now destruct (uart_write bs (line w)).
  - intros w. pose proof (read_log (line w)) as L. cbn. now destruct (uart_read (line w)).
  - intros w b. pose proof (read_some (line w) b) as L. cbn. now destruct (uart_read (line w)).
  - intros w. pose proof (read_none (line w)) as L. cbn. now destruct (uart_read (line w)).
Defined.

(** The load cell of a simulation is unbounded: the user may put any mass on
    it. *)
Definition cell_fits : Prop := forall w : McuWorld N U,
  -1073741824 <= Result.value_ (read_raw w).1 < 1073741824.

Lemma read_deci_frame (w : McuWorld N U) : let w' := (Hal.read_deci_celsius w).2 in
  SimBoard.motor_model_ (board w') = SimBoard.motor_model_ (board w) /\
  SimBoard.heater_watts_ (board w') = SimBoard.heater_watts_ (board w) /\
  SimBoard.lid_model_ (board w') = SimBoard.lid_model_ (board w) /\ line w' = line w.
Proof.
  cbv zeta. unfold Hal.read_deci_celsius, sim_temp, SimBoard.read_deci_celsius. destruct (SimBoard.temp_failed_ (board w)); [split_and!; reflexivity|].
  destruct (draw _) as [n noise]. split_and!; reflexivity.
Qed.

Lemma read_raw_frame (w : McuWorld N U) : let w' := (read_raw w).2 in
  SimBoard.motor_model_ (board w') = SimBoard.motor_model_ (board w) /\
  SimBoard.heater_watts_ (board w') = SimBoard.heater_watts_ (board w) /\
  SimBoard.lid_model_ (board w') = SimBoard.lid_model_ (board w) /\ line w' = line w.
Proof.
  cbv zeta. unfold read_raw, sim_scale. destruct (ScaleModel.read_raw_counts _) as [r s]. split_and!; reflexivity.
Qed.

Lemma uart_frame (w : McuWorld N U) :
  (forall bs, board (uart_write bs w).2 = board w) /\ board (uart_read w).2 = board w.
Proof.
  split; [intros bs|]; cbn; [now destruct (uart_write bs (line w))|now destruct (uart_read (line w))].
Qed.

#[export] Instance mcu_board_laws : BoardLaws (McuWorld N U).
Proof.
  refine {| duty := fun w : McuWorld N U => MotorModel.duty_ (SimBoard.motor_model_ (board w)); scale_fits := cell_fits |};
    try (intros; reflexivity);
    try (intros; cbn [power_w is_locked is_closed sim_heater sim_lid]; rewrite (proj1 (uart_frame w)); reflexivity);
    try (intros; cbn [power_w is_locked is_closed sim_heater sim_lid]; rewrite (proj2 (uart_frame w)); reflexivity);
    try (intros w; cbn [power_w is_locked is_closed sim_heater sim_lid rx_pending mcu_uart];
         destruct (read_deci_frame w) as (E1 & E2 & E3 & E4); congruence);
    try (intros w; cbn [power_w is_locked is_closed sim_heater sim_lid rx_pending mcu_uart];
         destruct (read_raw_frame w) as (E1 & E2 & E3 & E4); congruence).
  all: try (intros w; destruct (read_deci_frame w) as (E1 & E2 & E3 & E4); cbn; congruence).
  - intros d w L R. now apply motor_duty_id.
  - intros x w L R. now apply heater_hal_id.
  - intros w L. cbn in *. unfold LidModel.set_lock. now destruct (LidModel.closed_ _).
  - intros w. unfold read_deci_celsius, sim_temp, SimBoard.read_deci_celsius, from_celsius.
    destruct (SimBoard.temp_failed_ (board w)); [split; reflexivity || discriminate|].
    destruct (draw _) as [n noise]. cbn [fst]. destruct (to_i16 _) as [z|] eqn:E; cbn;
      [apply to_int_range in E; unfold in_i16; lia|split; reflexivity || discriminate].
  - intros w F. apply F.
  - intros w. cbn. unfold any_of, MotorModel.rpm. destruct (to_u16 _) as [z|] eqn:E; cbn;
      [apply to_int_range in E; unfold in_u16; lia|split; reflexivity || discriminate].
Defined.
End McuLaws.

(** ** The bowl *)

(** A bowl holds between nothing and 2200 g. *)
Definition bowl_mass_ok (mass : f32) : Prop := fin mass = true /\ 0 <= fz mass <= fz (of_Z 2200).

(** Rounding included: what is at most the rounded room can be added, and the
    rounded sum is at most 2200 g. *)
Lemma mass_fits mass grams : bowl_mass_ok mass -> fin grams = true -> flt grams (lit 1 10) = false ->
  fgt grams (fsub (of_Z 2200) mass) = false -> bowl_mass_ok (fadd mass grams).
Proof.
  intros [F [L U]] Fg Lg Ug. destruct (of_Z_spec 2200 ltac:(lia)) as [FM EM].
  set (M := fz (of_Z 2200)) in *.
  assert (C : rz (M + 2 ^ (round_exp M - 1)) = M /\ 0 < fz (lit 1 10) /\ fin (lit 1 10) = true /\ M < fz_huge /\
    2 * 2 ^ (round_exp M - 1) = 2 ^ round_exp M) by (vm_compute; split_and!; reflexivity).
  destruct C as (C1 & C2 & C3 & C4 & C5).
  rewrite flt_spec in Lg by assumption. apply Z.ltb_ge in Lg.
  assert (R0 : 0 <= rz (M - fz mass) <= M).
  { split; [apply rz_nonneg; lia|]. pose proof (rz_fz (of_Z 2200) FM) as RM. fold M in RM. rewrite <- RM at 2. apply rz_mono. lia. }
  destruct (fsub_spec (of_Z 2200) mass FM F) as [Fr Er]; [fold M; lia|]. fold M in Er.
  rewrite fgt_spec, Er in Ug by assumption. apply Z.ltb_ge in Ug.
  assert (E : fz mass + fz grams <= M + 2 ^ (round_exp M - 1)).
  { destruct (Z.eq_dec (M - fz mass) 0) as [E0|]; [rewrite E0, rz_0 in Ug; lia|].
    pose proof (rz_error (M - fz mass) M ltac:(lia)). lia. }
  apply rz_mono in E. rewrite C1 in E. pose proof (rz_nonneg (fz mass + fz grams) ltac:(lia)) as P.
  destruct (fadd_spec mass grams F Fg) as [Fs Es]; [lia|]. split; [exact Fs|]. rewrite Es. fold M. lia.
Qed.

Section Bowl.
Context {N : Type} `{NoiseSource N}.

Definition bowl_ok (b : SimBoard.SimBoard N) : Prop := bowl_mass_ok (SimBoard.true_mass_g b).

Lemma new_bowl_ok seed : bowl_ok (SimBoard.new_board (N := N) seed).
Proof. split; [reflexivity|]. split; [reflexivity|]. vm_compute. discriminate. Qed.

Lemma add_bowl_ok grams viscosity (b : SimBoard.SimBoard N) : bowl_ok b -> fin grams = true -> flt grams (lit 1 10) = false ->
  fgt grams (fsub (of_Z 2200) (SimBoard.true_mass_g b)) = false ->
  bowl_ok (SimBoard.set_viscosity viscosity (SimBoard.add_mass grams b)).
Proof. intros K F L G. exact (mass_fits _ _ K F L G). Qed.

Lemma step_bowl (b b' : SimBoard.SimBoard N) : SimBoard.step_ms 1 b = Ret b' -> SimBoard.true_mass_g b' = SimBoard.true_mass_g b.
Proof.
  cbn [SimBoard.step_ms]. unfold SimBoard.step_1ms. intros E.
  destruct (MotorModel.step _ _ _) as [mo| |]; try discriminate. cbn in E.
  destruct (MotorModel.rpm _) as [r|]; try discriminate. cbn in E. simplify_eq. reflexivity.
Qed.

(** The models of the board always step. *)
Lemma board_step_ends (b : SimBoard.SimBoard N) : SimBoard.step_ms 1 b <> OutOfFuel.
Proof.
  cbn [SimBoard.step_ms]. unfold SimBoard.step_1ms, MotorModel.step.
  repeat (match goal with |- context [if ?b then _ else _] => destruct b end; try discriminate);
  repeat (match goal with |- context [defined ?o] => destruct o end; cbn; try discriminate).
Qed.

End Bowl.
