(* ===== verification/Bench.v ===== *)
(** * The safety processor on the simulated board

    A bench with silent sensors and a load cell that reads a constant, on which
    the theorems about the controller are applied to concrete histories, and the
    theorems about the board's own models. *)

From S2P Require Import Prelude.
From S2P Require Import Float32.
From S2P Require Import Common.
From S2P Require Import C1Link.
From S2P Require Import Hal.
From S2P Require Import Link.
From S2P Require Import Mcu.
From S2P Require Import SafetyMcu.
From S2P Require Import Supervision.
From S2P Require Import Sim.

(** ** The bench *)

#[export] Instance silence : NoiseSource unit := {| new_noise := fun _ _ => tt; draw := fun n => (fzero, n) |}.

Definition Bench : Type := McuWorld.McuWorld unit McuEnd.McuEnd.

(** The load cell of the bench. *)
#[local] Instance bench_scale : IScale Bench := fun w => (Result.ok 1250, w).

#[local] Instance bench_laws : @BoardLaws Bench _ _ _ bench_scale _ _ _.
Proof.
  refine {| duty := fun w : Bench => MotorModel.duty_ (SimBoard.motor_model_ (McuWorld.board w)); scale_fits := True |};
    try (intros; reflexivity);
    first [exact (@duty_set Bench _ _ _ _ _ _ _ mcu_board_laws) | exact (@duty_temp Bench _ _ _ _ _ _ _ mcu_board_laws)
      | exact (@duty_write Bench _ _ _ _ _ _ _ mcu_board_laws) | exact (@duty_read Bench _ _ _ _ _ _ _ mcu_board_laws)
      | exact (@power_set Bench _ _ _ _ _ _ _ mcu_board_laws) | exact (@power_temp Bench _ _ _ _ _ _ _ mcu_board_laws)
      | exact (@power_write Bench _ _ _ _ _ _ _ mcu_board_laws) | exact (@power_read Bench _ _ _ _ _ _ _ mcu_board_laws)
      | exact (@lock_held Bench _ _ _ _ _ _ _ mcu_board_laws) | exact (@lock_temp Bench _ _ _ _ _ _ _ mcu_board_laws)
      | exact (@lock_write Bench _ _ _ _ _ _ _ mcu_board_laws) | exact (@lock_read Bench _ _ _ _ _ _ _ mcu_board_laws)
      | exact (@pending_temp Bench _ _ _ _ _ _ _ mcu_board_laws) | exact (@temp_range Bench _ _ _ _ _ _ _ mcu_board_laws)
      | exact (@rpm_range Bench _ _ _ _ _ _ _ mcu_board_laws) | split; discriminate || reflexivity].
Defined.

Definition bench0 : Bench :=
  {| McuWorld.board := SimBoard.new_board 42; McuWorld.line := McuEnd.new_end |}.

(** What happens between two ticks. *)
Definition wait_ms (ms : Z) (w : Bench) : Bench :=
  w <| McuWorld.board := (McuWorld.board w) <| SimBoard.clock_ :=
    SimClock.advance_us (ms * 1000) (SimBoard.clock_ (McuWorld.board w)) |> |>.

Definition receive (m : FrameType * Z * Z * list Z) (w : Bench) : Bench :=
  let t := McuEnd.transport (McuWorld.line w) in
  w <| McuWorld.line := (McuWorld.line w) <| McuEnd.transport := t <| InMemoryTransport.app_to_mcu_ :=
    (InMemoryTransport.write (write_message m) (InMemoryTransport.app_to_mcu_ t)).2 |> |> |>.

Definition break_sensor (w : Bench) : Bench :=
  w <| McuWorld.board := SimBoard.set_temp_sensor_failed true (McuWorld.board w) |>.

Definition start_state : SafetyMcu.SafetyMcu Bench := SafetyMcu.new_mcu bench0.
Definition result (o : outcome (SafetyMcu.SafetyMcu Bench)) : SafetyMcu.SafetyMcu Bench :=
  match o with Ret m => m | _ => start_state end.

Lemma bench_run env : SafetyMcu.run env start_state = Ret (result (SafetyMcu.run env start_state)).
Proof.
  destruct (wp_cases _ _ (run_ok env (SafetyMcu.new_mcu bench0) (new_mcu_ok bench0))) as [(m & E & _)|[_ N]].
  - unfold start_state. now rewrite E.
  - destruct (N I).
Qed.

(** ** Witnesses *)

(** A speed request and a heater request, then a burst. *)
Definition history : list (Bench -> Bench) :=
  [receive (Request, 1, MsgId.MotorSetTarget, put_u16 9000 ++ [kRampNormal]); wait_ms 1;
   receive (Request, 2, MsgId.HeaterSetTarget, put_i16 1000)].

Lemma tick_always_completes_witness :
  exists m, SafetyMcu.run history start_state = Ret m.
Proof. apply tick_always_completes. exact I. Defined.


(** The same, with the lid open from the start. *)
Definition open_history : list (Bench -> Bench) :=
  (fun w : Bench => w <| McuWorld.board := SimBoard.open_lid (McuWorld.board w) |>) :: history.

Lemma motor_stays_below_cap_witness :
  let m := result (SafetyMcu.run open_history start_state) in
  Interlocks.lid_closed (SafetyMcu.inputs_ m) = false /\
  MotorController.target_rpm_ (SafetyMcu.motor_ctrl_ m) <= 500.
Proof.
  intros m. assert (L : Interlocks.lid_closed (SafetyMcu.inputs_ m) = false) by (vm_compute; reflexivity).
  split; [exact L|]. destruct (motor_stays_below_cap open_history bench0 m) as (_ & _ & _ & _ & B & _);
    [discriminate|apply bench_run|]. exact (proj2 (B L)).
Defined.

Lemma heater_powered_only_when_safe_witness :
  let m := result (SafetyMcu.run history start_state) in fle (power_w (SafetyMcu.world m)) (of_Z 1200) = true.
Proof.
  intros m. destruct (heater_powered_only_when_safe history bench0 m) as (_ & A & _);
    [discriminate|apply bench_run|exact A].
Defined.

(** The temperature sensor fails. *)
Definition broken : SafetyMcu.SafetyMcu Bench := result (SafetyMcu.run [break_sensor] start_state).

Lemma fault_means_off_witness : SafetyMcu.fault_ broken <> FaultCode.None /\ power_w (SafetyMcu.world broken) = fzero.
Proof.
  assert (F : SafetyMcu.fault_ broken <> FaultCode.None) by (intros E; vm_compute in E; discriminate).
  split; [exact F|].
  destruct (fault_means_off [break_sensor] bench0 broken) as (_ & A & _);
    [discriminate|apply bench_run|exact F|exact A].
Defined.

Lemma sensor_failure_latches_witness : SafetyMcu.fault_ broken = FaultCode.SensorFailure.
Proof. apply (sensor_failure_latches [break_sensor] bench0); [discriminate|apply bench_run|vm_compute; reflexivity]. Defined.

Definition motor_stop_frame : Frame := frame_of Request 9 MsgId.MotorStop [].

Lemma short_frame_wf id : in_u8 id -> frame_wf (frame_of Request 9 id []).
Proof. intros I. apply frame_of_wf. repeat split; try apply I; try discriminate. constructor. Qed.

(** The link goes silent for five seconds, and the fault is acknowledged. *)
Definition silent : list (Bench -> Bench) := history ++ [wait_ms 5000].
Definition lost : SafetyMcu.SafetyMcu Bench := result (SafetyMcu.run silent start_state).
Definition stop_pressed : Bench -> Bench := receive (Request, 9, MsgId.MotorStop, []).
Definition acknowledged : SafetyMcu.SafetyMcu Bench :=
  result (SafetyMcu.tick_1ms (SafetyMcu.with_world (stop_pressed (SafetyMcu.world lost)) lost)).

Lemma bench_tick m : mcu_ok m -> SafetyMcu.tick_1ms m = Ret (result (SafetyMcu.tick_1ms m)).
Proof. intros K. destruct (wp_cases _ _ (tick_ok m K)) as [(m' & -> & _)|[_ N]]; [reflexivity|destruct (N I)]. Qed.

Lemma fault_cleared_only_by_motor_stop_witness :
  SafetyMcu.fault_ lost = FaultCode.LinkLost /\ SafetyMcu.fault_ acknowledged = FaultCode.None /\
  exists t f, In (t, f) (tick_received (SafetyMcu.with_world (stop_pressed (SafetyMcu.world lost)) lost)) /\ acknowledges f.
Proof.
  assert (L : SafetyMcu.fault_ lost = FaultCode.LinkLost) by (vm_compute; reflexivity).
  assert (A : SafetyMcu.fault_ acknowledged = FaultCode.None) by (vm_compute; reflexivity).
  split; [exact L|]. split; [exact A|]. pose proof (bench_run silent : SafetyMcu.run silent start_state = Ret lost) as R.
  apply (fault_cleared_only_by_motor_stop silent stop_pressed bench0 lost acknowledged R).
  - rewrite L. discriminate.
  - apply bench_tick, with_world_ok. pose proof (run_ok silent _ (new_mcu_ok bench0)) as K.
    unfold start_state in R. rewrite R in K. exact (proj1 K).
  - exact A.
Defined.

#[local] Instance bench_timeless : Undriven (now_us (W := Bench)).
Proof. split; intros; try reflexivity; apply (f_equal (fun b => SimClock.now_us_ (SimBoard.clock_ b))); apply uart_frame. Qed.

Lemma supervision_bounds_silence_witness :
  length (run_received silent start_state) = 2%nat /\ MotorController.active (SafetyMcu.motor_ctrl_ lost) = false.
Proof.
  split; [vm_compute; reflexivity|].
  assert (Old : forallb (fun x => 5000 <=? u32_sub (now_ms (SafetyMcu.world lost)) x.1) (run_received silent start_state) = true)
    by (vm_compute; reflexivity).
  pose proof (bench_run silent : SafetyMcu.run silent (SafetyMcu.new_mcu bench0) = Ret lost) as R.
  destruct (supervision_bounds_silence silent bench0 lost bench_timeless ltac:(discriminate) R) as [A _]; [|exact A].
  intros t f I _. rewrite forallb_forall in Old. apply Z.leb_le. exact (Old (t, f) I).
Defined.

(** Unlocking a locked lid at rest. *)
Lemma unlock_only_when_slow_witness :
  let s := SafetyMcu.handler_ (SafetyMcu.new_mcu (set_lock true bench0)) in
  let f := frame_of Request 9 MsgId.LidUnlock [] in
  is_locked (CommandHandler.world s) = true /\ Interlocks.rpm Interlocks.default_inputs < 100.
Proof.
  intros s f. split; [reflexivity|].
  assert (F : frame_wf f) by (apply short_frame_wf; split; reflexivity || discriminate).
  apply (unlock_only_when_slow f Interlocks.default_inputs false s
    (CommandHandler.respond f [] (s <| CommandHandler.world := set_lock false (CommandHandler.world s) |>)) F).
  - apply (new_mcu_ok (set_lock true bench0)).
  - reflexivity.
  - reflexivity.
  - vm_compute. reflexivity.
Defined.

Lemma handle_implements_catalog_witness :
  let s := SafetyMcu.handler_ start_state in
  frame_wf motor_stop_frame /\
  CommandHandler.handle motor_stop_frame Interlocks.default_inputs true s
  = (r ← catalog motor_stop_frame Interlocks.default_inputs true s; Ret (answer motor_stop_frame r)).
Proof.
  intros s. assert (F : frame_wf motor_stop_frame) by (apply short_frame_wf; split; reflexivity || discriminate).
  split; [exact F|]. apply handle_implements_catalog; [exact F|reflexivity].
Defined.

(** ** The link on the bench *)

Lemma send_is_fifo_witness :
  let '(st, l', w') := Link.send Request 1 MsgId.Ping (Some []) 0 Link.new_link bench0 in
  tx_wf l' /\ st = Ok.
Proof.
  pose proof (send_is_fifo Request 1 MsgId.Ping [] Link.new_link bench0 (proj1 new_link_wf) ltac:(discriminate)) as S.
  change (Z.of_nat (length (@nil Z))) with 0 in S.
  destruct (Link.send Request 1 MsgId.Ping (Some []) 0 Link.new_link bench0) as [[st l'] w'].
  destruct S as [A B]. split; [exact A|]. exact (proj1 B).
Defined.

Lemma poll_terminates_witness : exists r l' w', Link.poll Link.new_link bench0 = Ret (r, l', w') /\ link_ok l'.
Proof.
  destruct (poll_terminates Link.new_link bench0 new_link_ok) as (r & l & w & E & L & _).
  exists r, l, w. split; assumption.
Defined.

(** A frame that started 40 ms before the clock wraps, 51 ms later. *)
Lemma frame_timeout_wraps_witness :
  let l := Link.new_link <| Link.frame_deadline_ms_ := 10 |>
             <| Link.parser_ := FrameParser.new_parser <| FrameParser.state_ := FrameParser.Type_ |> |> in
  Link.receiving l = true /\ Link.receiving (Link.expire l (wait_ms 11 bench0)) = false.
Proof.
  intros l. split; [reflexivity|].
  rewrite (frame_timeout_wraps l (wait_ms 11 bench0) (4294967296 - 40) 51); try reflexivity.
  split; [discriminate|reflexivity].
Defined.
