(* ===== verification/TelemetryStore.v ===== *)
(** * The telemetry history (src/src/app/telemetry_store.{h,cpp})

    A bounded history of samples, the oldest first, as the deque holds them. The
    mutex makes every method one atomic step; a method is one function here. *)

From S2P Require Import Prelude.
From S2P Require Import Float32.
From S2P Require Import Common.

Module TelemetryStore.

Definition kMaxSamples : Z := 360000.

Record Sample := { t_ms : Z; deci_celsius : Z; rpm : Z; grams : Z; flags : Z }.
#[global] Instance eta_Sample : Eta Sample := fun s =>
  {| t_ms := t_ms s; deci_celsius := deci_celsius s; rpm := rpm s; grams := grams s; flags := flags s |}.

Definition default_sample : Sample := {| t_ms := 0; deci_celsius := 0; rpm := 0; grams := 0; flags := 0 |}.

Record TelemetryStore := { samples_ : list Sample }.

Definition new_store : TelemetryStore := {| samples_ := [] |}.

Definition size (store : TelemetryStore) : Z := Z.of_nat (length (samples_ store)).
Definition has_data (store : TelemetryStore) : bool :=
  match samples_ store with [] => false | _ => true end.

Definition append (sample : Sample) (store : TelemetryStore) : TelemetryStore :=
  let samples := samples_ store ++ [sample] in
  {| samples_ := if Z.of_nat (length samples) >? kMaxSamples then tail samples else samples |}.

Definition latest (store : TelemetryStore) : Sample := List.last (samples_ store) default_sample.

(** The loops run from the newest sample backwards and break at the first one
    older than the window. *)
Fixpoint average_loop (newest window_ms : Z) (it : list Sample) (sum : f32) (count : Z) : f32 * Z :=
  match it with
  | [] => (sum, count)
  | s :: it =>
      if u32_sub newest (t_ms s) >? window_ms then (sum, count)
      else average_loop newest window_ms it (fadd sum (to_celsius (deci_celsius s))) (count + 1)
  end.

Definition average_temp_c (window_ms : Z) (store : TelemetryStore) : f32 :=
  if negb (has_data store) then fzero
  else
    let newest := t_ms (latest store) in
    let '(sum, count) := average_loop newest window_ms (rev (samples_ store)) fzero 0 in
    if count >? 0 then fdiv sum (of_Z count) else fzero.

Fixpoint max_loop (newest window_ms : Z) (it : list Sample) (max_c : f32) : f32 :=
  match it with
  | [] => max_c
  | s :: it =>
      if u32_sub newest (t_ms s) >? window_ms then max_c
      else
        let c := to_celsius (deci_celsius s) in
        max_loop newest window_ms it (if fgt c max_c then c else max_c)
  end.

Definition max_temp_c (window_ms : Z) (store : TelemetryStore) : f32 :=
  if negb (has_data store) then fzero
  else
    let newest := t_ms (latest store) in
    max_loop newest window_ms (rev (samples_ store)) (of_Z (-1000)).

End TelemetryStore.

(** * Theorems *)

Section StoreTheory.
Import TelemetryStore.

(** The samples the two metrics look at, the newest first. *)
Fixpoint within (newest window_ms : Z) (it : list Sample) : list Sample :=
  match it with
  | [] => []
  | s :: it => if u32_sub newest (t_ms s) >? window_ms then [] else s :: within newest window_ms it
  end.

Definition window (window_ms : Z) (store : TelemetryStore) : list Sample :=
  within (t_ms (latest store)) window_ms (rev (samples_ store)).

(** Every reading of a store is a 16-bit value. *)
Definition store_ok (store : TelemetryStore) : Prop :=
  Forall (fun s => in_i16 (deci_celsius s)) (samples_ store).

Lemma new_store_ok : store_ok new_store.
Proof. constructor. Qed.

Lemma append_ok sample store : in_i16 (deci_celsius sample) -> store_ok store -> store_ok (append sample store).
Proof.
  unfold store_ok, append. cbn. intros Hs H.
  assert (F : Forall (fun s => in_i16 (deci_celsius s)) (samples_ store ++ [sample])).
  { apply Forall_app. split; [exact H|]. now constructor. }
  destruct (_ >? _); [|exact F]. now apply Forall_tail.
Qed.

Lemma length_samples_append sample store :
  length (samples_ store ++ [sample]) = S (length (samples_ store)).
Proof. rewrite length_app. cbn. lia. Qed.

Lemma append_drop sample store : size store <= kMaxSamples ->
  samples_ (append sample store)
  = drop (S (length (samples_ store)) - Z.to_nat kMaxSamples) (samples_ store ++ [sample]).
Proof.
  unfold size, append. cbn [samples_]. rewrite length_samples_append. intros B.
  destruct (Z.gtb_spec (Z.of_nat (S (length (samples_ store)))) kMaxSamples) as [G|G].
  - replace (S (length (samples_ store)) - Z.to_nat kMaxSamples)%nat with 1%nat by lia.
    now destruct (samples_ store ++ [sample]).
  - replace (S (length (samples_ store)) - Z.to_nat kMaxSamples)%nat with 0%nat by lia. reflexivity.
Qed.

Lemma append_size sample store : size store <= kMaxSamples -> size (append sample store) <= kMaxSamples.
Proof.
  intros B. unfold size at 1. rewrite append_drop, length_drop, length_samples_append by exact B.
  unfold size, kMaxSamples in *. lia.
Qed.

Lemma latest_append sample store : size store <= kMaxSamples -> latest (append sample store) = sample.
Proof.
  intros B. unfold latest. rewrite append_drop by exact B. unfold size, kMaxSamples in *.
  rewrite drop_app_le by lia. apply List.last_last.
Qed.

Definition append_all (l : list Sample) : TelemetryStore := fold_left (flip append) l new_store.

Lemma append_all_samples l :
  samples_ (append_all l) = drop (length l - Z.to_nat kMaxSamples) l /\ size (append_all l) <= kMaxSamples.
Proof.
  induction l as [|s l [E B]] using rev_ind; [split; [reflexivity|discriminate]|].
  unfold append_all in *. rewrite fold_left_app. cbn [fold_left flip].
  split; [|now apply append_size]. rewrite append_drop, E, length_drop by exact B.
  rewrite length_app. cbn [length]. replace (length l + 1)%nat with (S (length l)) by lia.
  destruct (Nat.le_gt_cases (S (length l)) (Z.to_nat kMaxSamples)) as [L|L].
  - replace (length l - Z.to_nat kMaxSamples)%nat with 0%nat by lia. now rewrite drop_0, Nat.sub_0_r.
  - rewrite <- drop_app_le by lia. rewrite drop_drop. f_equal. lia.
Qed.

(** ** The running maximum *)

Lemma max_loop_spec newest window_ms it m : Forall (fun s => in_i16 (deci_celsius s)) it -> fin m = true ->
  let r := max_loop newest window_ms it m in
  fin r = true /\ fz m <= fz r /\
  (r = m \/ exists s, In s (within newest window_ms it) /\ r = to_celsius (deci_celsius s)) /\
  (forall s, In s (within newest window_ms it) -> fz (to_celsius (deci_celsius s)) <= fz r).
Proof.
  intros H. revert m. induction H as [|s it Hs H IH]; intros m Fm; cbn.
  { split_and!; [exact Fm|lia|now left|contradiction]. }
  destruct (_ >? _); [split_and!; [exact Fm|lia|now left|contradiction]|].
  destruct (to_celsius_fin _ Hs) as [Fs _]. rewrite fgt_spec by assumption.
  set (m' := if _ <? _ then _ else m).
  assert (M : fin m' = true /\ fz m <= fz m' /\ fz (to_celsius (deci_celsius s)) <= fz m' /\
              (m' = m \/ m' = to_celsius (deci_celsius s))).
  { subst m'. destruct (Z.ltb_spec (fz m) (fz (to_celsius (deci_celsius s)))); split_and!; auto; lia. }
  destruct M as (M1 & M2 & M3 & M4). specialize (IH m' M1). cbv zeta in IH.
  destruct IH as (I1 & I2 & I3 & I4). clearbody m'.
  split_and!; [exact I1|lia| |].
  - destruct I3 as [->|(x & Hx & ->)]; [|right; exists x; split; [now right|reflexivity]].
    destruct M4 as [->| ->]; [now left|right; exists s; split; [now left|reflexivity]].
  - intros x [<-|Hx]; [lia|now apply I4].
Qed.

Lemma window_ok window_ms store s : store_ok store -> In s (window window_ms store) -> in_i16 (deci_celsius s).
Proof.
  unfold store_ok, window. intros H. apply Forall_rev in H.
  induction H as [|x it Hx H IH]; cbn; [contradiction|].
  destruct (_ >? _); [contradiction|]. intros [<-|I]; auto.
Qed.

(** A reading above -1000 C is above the value the maximum starts from. *)
Lemma above_floor d : in_i16 d -> -10000 < d -> fz (of_Z (-1000)) < fz (to_celsius d).
Proof.
  intros Hd L. replace (fz (of_Z (-1000))) with (-1000 * 2 ^ scale) by reflexivity.
  assert (PS : 0 < 2 ^ scale) by (apply pow2_pos; unfold scale; lia). unfold in_i16 in Hd.
  destruct (Z.lt_trichotomy d 0) as [N|[->|P]].
  - rewrite to_celsius_neg, fz_opp by exact N.
    destruct (to_celsius_pos (- d) ltac:(lia)) as (_ & _ & B).
    destruct (B 15999 ltac:(lia)) as [B1 _]. specialize (B1 ltac:(lia)). lia.
  - change (fz (to_celsius 0)) with 0. lia.
  - destruct (to_celsius_pos d ltac:(lia)) as (_ & B & _). lia.
Qed.

Lemma max_temp_spec window_ms store : store_ok store ->
  (exists s, In s (window window_ms store) /\ -10000 < deci_celsius s) ->
  fin (max_temp_c window_ms store) = true /\
  (exists s, In s (window window_ms store) /\ max_temp_c window_ms store = to_celsius (deci_celsius s)) /\
  (forall s, In s (window window_ms store) -> fz (to_celsius (deci_celsius s)) <= fz (max_temp_c window_ms store)).
Proof.
  intros H (s & I & L). pose proof (window_ok _ _ _ H I) as Hs. unfold max_temp_c, window in *.
  assert (D : has_data store = true).
  { unfold has_data. destruct (samples_ store); [contradiction|reflexivity]. }
  rewrite D. apply Forall_rev in H. cbn [negb].
  destruct (max_loop_spec (t_ms (latest store)) window_ms (rev (samples_ store)) (of_Z (-1000)) H eq_refl)
    as (F & _ & A & G). split_and!; [exact F| |exact G].
  destruct A as [A|A]; [|exact A]. specialize (G s I). rewrite A in G.
  pose proof (above_floor _ Hs L). lia.
Qed.

Lemma max_temp_gt window_ms store k : store_ok store -> 0 <= k <= 3200 ->
  (exists s, In s (window window_ms store) /\ -10000 < deci_celsius s) ->
  fgt (max_temp_c window_ms store) (of_Z k) = existsb (fun s => 10 * k <? deci_celsius s) (window window_ms store).
Proof.
  intros H Hk E. destruct (max_temp_spec window_ms store H E) as (F & (m & Im & Em) & G).
  apply eq_true_iff_eq. rewrite existsb_exists, Em, to_celsius_gt by (assumption || now apply (window_ok window_ms store)).
  split; intros Hx; [now exists m|]. destruct Hx as (s & I & L).
  rewrite <- to_celsius_gt in * by (assumption || eapply window_ok; eassumption).
  destruct (to_celsius_fin _ (window_ok _ _ _ H I)) as [Fs _]. destruct (of_Z_spec k ltac:(lia)) as [Fk _].
  rewrite <- Em. rewrite fgt_spec in * by assumption. specialize (G s I). lia.
Qed.

End StoreTheory.

(** ** Properties *)

Section StoreProperties.
Import TelemetryStore.

(** The store is a bounded history: after any sequence of appends it holds
    the newest [kMaxSamples] samples, in order, and [latest] is the last one
    appended. *)
Theorem store_keeps_newest l :
  samples_ (append_all l) = drop (length l - Z.to_nat kMaxSamples) l /\
  size (append_all l) <= kMaxSamples /\ latest (append_all l) = List.last l default_sample.
Proof.
  destruct (append_all_samples l) as [E B]. split_and!; [exact E|exact B|].
  unfold latest. rewrite E. destruct l as [|s l _] using rev_ind; [reflexivity|].
  rewrite drop_app_le by (rewrite length_app; cbn; unfold kMaxSamples; lia). now rewrite !List.last_last.
Qed.

(** The hottest reading of a window is one of its readings, none of them
    exceeds it, and it is above a whole number of degrees exactly when some
    reading is: what the 60 C spill-guard display compares. *)
Theorem max_temp_is_hottest window_ms store k : store_ok store -> 0 <= k <= 3200 ->
  (exists s, In s (window window_ms store) /\ -10000 < deci_celsius s) ->
  (exists s, In s (window window_ms store) /\ max_temp_c window_ms store = to_celsius (deci_celsius s)) /\
  (forall s, In s (window window_ms store) -> fle (to_celsius (deci_celsius s)) (max_temp_c window_ms store) = true) /\
  fgt (max_temp_c window_ms store) (of_Z k) = existsb (fun s => 10 * k <? deci_celsius s) (window window_ms store).
Proof.
  intros H Hk E. destruct (max_temp_spec window_ms store H E) as (F & (m & Im & Em) & G).
  split_and!; [now exists m| |].
  - intros s I. destruct (to_celsius_fin _ (window_ok _ _ _ H I)) as [Fs _].
    rewrite fle_spec by assumption. now apply Z.leb_le, G.
  - now apply max_temp_gt.
Qed.

(** Three readings, the first too old for the window. *)
Lemma max_temp_is_hottest_witness :
  let reading t d := {| t_ms := t; deci_celsius := d; rpm := 0; grams := 0; flags := 1 |} in
  let store := append_all [reading 100 700; reading 4000 605; reading 5000 590] in
  store_ok store /\ (exists s, In s (window 2000 store) /\ -10000 < deci_celsius s) /\
  fgt (max_temp_c 2000 store) (of_Z 60) = true /\ fgt (max_temp_c 500 store) (of_Z 60) = false.
Proof.
  intros reading store.
  assert (H : store_ok store) by (repeat constructor; discriminate).
  assert (E : forall w, w = 2000 \/ w = 500 -> exists s, In s (window w store) /\ -10000 < deci_celsius s).
  { intros w Hw. exists (reading 5000 590). split; [|reflexivity].
    destruct Hw as [-> | ->]; vm_compute; now left. }
  split_and!; [exact H|apply E; now left| |].
  - rewrite (proj2 (proj2 (max_temp_is_hottest 2000 store 60 H ltac:(lia) (E 2000 (or_introl eq_refl))))). reflexivity.
  - rewrite (proj2 (proj2 (max_temp_is_hottest 500 store 60 H ltac:(lia) (E 500 (or_intror eq_refl))))). reflexivity.
Defined.

End StoreProperties.
