(* ===== verification/McuClient.v ===== *)
(** * The application's view of the safety processor (src/src/app/mcu_client.{h,cpp})

    One request is in flight at a time: it is retried once after
    [kResponseTimeoutMs] and given up after another such period, or after
    [kRequestDeadlineMs] in all. Telemetry goes to the store, a response or a
    NACK is matched to the pending request by message id and sequence number.

    [IMcuClient] is what the cooking programs use of the client. *)

From S2P Require Import Prelude.
From S2P Require Import Common.
From S2P Require Import C1Link.
From S2P Require Import Hal.
From S2P Require Import Link.
From S2P Require Import TelemetryStore.

(** [request id payload len]: [None] is the null pointer. *)
Class IMcuClient (M : Type) := request : Z -> option (list Z) -> Z -> M -> Status * M.

Section Commands.
Context {M : Type} `{IMcuClient M}.

Definition set_motor (rpm ramp_profile : Z) : M -> Status * M :=
  request MsgId.MotorSetTarget (Some (put_u16 rpm ++ [ramp_profile])) 3.

Definition motor_stop : M -> Status * M := request MsgId.MotorStop None 0.

Definition set_heater (target : Z) : M -> Status * M :=
  request MsgId.HeaterSetTarget (Some (put_i16 target)) 2.

Definition heater_off : M -> Status * M := request MsgId.HeaterOff None 0.

Definition tare : M -> Status * M := request MsgId.ScaleTare None 0.

Definition lock_lid (locked : bool) : M -> Status * M :=
  request (if locked then MsgId.LidLock else MsgId.LidUnlock) None 0.
End Commands.

(** The commands as data. *)
Inductive command :=
| SetMotor (rpm ramp_profile : Z)
| MotorStop
| SetHeater (target : Z)
| HeaterOff
| Tare
| LockLid (locked : bool).

Definition issue {M} `{IMcuClient M} (cmd : command) : M -> Status * M :=
  match cmd with
  | SetMotor rpm ramp => set_motor rpm ramp
  | MotorStop => motor_stop
  | SetHeater target => set_heater target
  | HeaterOff => heater_off
  | Tare => tare
  | LockLid locked => lock_lid locked
  end.

(** The message a command is: its id and its payload. *)
Definition message (cmd : command) : Z * list Z :=
  match cmd with
  | SetMotor rpm ramp => (MsgId.MotorSetTarget, put_u16 rpm ++ [ramp])
  | MotorStop => (MsgId.MotorStop, [])
  | SetHeater target => (MsgId.HeaterSetTarget, put_i16 target)
  | HeaterOff => (MsgId.HeaterOff, [])
  | Tare => (MsgId.ScaleTare, [])
  | LockLid locked => (if locked then MsgId.LidLock else MsgId.LidUnlock, [])
  end.

Definition command_bytes (cmd : command) : Prop :=
  match cmd with SetMotor _ ramp => in_u8 ramp | _ => True end.

Lemma issue_is_request {M} `{IMcuClient M} cmd :
  exists id payload len, forall m, issue cmd m = request id payload len m.
Proof. destruct cmd; now repeat eexists. Qed.

Module McuClient.

Definition kResponseTimeoutMs : Z := 50.
Definition kRequestDeadlineMs : Z := 150.
Definition kHeartbeatIntervalMs : Z := 1000.

Record McuClient := {
  link_ : Link.Link;
  next_seq_ : Z;
  pending_seq_ : Z;
  waiting_ : bool;
  pending_msg_id_ : Z;
  response_ready_ : bool;
  response_ : Frame;
  last_fault_ : Z;
  sent_at_ms_ : Z;
  request_started_ms_ : Z;
  retried_ : bool;
  pending_payload_ : list Z;
  pending_payload_len_ : Z;
  last_command_status_ : Status;
  last_tx_ms_ : Z
}.
#[global] Instance eta_McuClient : Eta McuClient := fun c =>
  {| link_ := link_ c; next_seq_ := next_seq_ c; pending_seq_ := pending_seq_ c; waiting_ := waiting_ c;
     pending_msg_id_ := pending_msg_id_ c; response_ready_ := response_ready_ c; response_ := response_ c;
     last_fault_ := last_fault_ c; sent_at_ms_ := sent_at_ms_ c; request_started_ms_ := request_started_ms_ c;
     retried_ := retried_ c; pending_payload_ := pending_payload_ c;
     pending_payload_len_ := pending_payload_len_ c; last_command_status_ := last_command_status_ c;
     last_tx_ms_ := last_tx_ms_ c |}.

Definition new_client : McuClient :=
  {| link_ := Link.new_link; next_seq_ := 0; pending_seq_ := 0; waiting_ := false;
     pending_msg_id_ := MsgId.Ping; response_ready_ := false; response_ := default_frame;
     last_fault_ := FaultCode.None; sent_at_ms_ := 0; request_started_ms_ := 0; retried_ := false;
     pending_payload_ := replicate (Z.to_nat kMaxPayload) 0; pending_payload_len_ := 0;
     last_command_status_ := Ok; last_tx_ms_ := 0 |}.

Definition awaiting_response (c : McuClient) : bool := waiting_ c.
Definition last_command_status (c : McuClient) : Status := last_command_status_ c.
Definition clear_command_status (c : McuClient) : McuClient := c <| last_command_status_ := Ok |>.
Definition last_fault (c : McuClient) : Z := last_fault_ c.
Definition clear_fault (c : McuClient) : McuClient := c <| last_fault_ := FaultCode.None |>.

(** [has_out]: the pointer to the result is not null. *)
Definition take_response (has_out : bool) (c : McuClient) : option Frame * McuClient :=
  if negb (response_ready_ c) || negb has_out then (None, c)
  else (Some (response_ c), c <| response_ready_ := false |>).

Section Operations.
Context {W : Type} `{IClock W, IUart W}.

(** Giving a request up. *)
Definition abandon (c : McuClient) : McuClient :=
  c <| link_ := Link.cancel_pending_tx (link_ c) |> <| waiting_ := false |> <| last_command_status_ := Timeout |>.

(** The second and last transmission of a request. *)
Definition retry (c : McuClient) (w : W) : McuClient * W :=
  let retry_seq := next_seq_ c in
  let '(retry_status, link, w) :=
    Link.send Request retry_seq (pending_msg_id_ c) (Some (pending_payload_ c)) (pending_payload_len_ c)
      (link_ c) w in
  let c := c <| link_ := link |> in
  (if bool_decide (retry_status = Ok) then
     c <| next_seq_ := u8 (next_seq_ c + 1) |> <| pending_seq_ := retry_seq |> <| retried_ := true |>
       <| sent_at_ms_ := now_ms w |> <| last_tx_ms_ := now_ms w |>
   else c, w).

Definition check_timeouts (c : McuClient) (w : W) : McuClient * W :=
  if waiting_ c && (u32_sub (now_ms w) (request_started_ms_ c) >=? kRequestDeadlineMs)
  then (abandon c, w)
  else if waiting_ c && (i32 (u32 (now_ms w - sent_at_ms_ c - kResponseTimeoutMs)) >? 0)
  then if negb (retried_ c) then retry c w else (abandon c, w)
  else (c, w).

(** What one received frame does, at the time [now]. *)
Definition dispatch (now : Z) (frame : Frame) (c : McuClient) (store : TelemetryStore.TelemetryStore)
    : McuClient * TelemetryStore.TelemetryStore :=
  if bool_decide (type frame = TelemetryFrame) && (msg_id frame =? MsgId.Telemetry) &&
     (payload_len frame =? kTelemetryPayloadSize)
  then
    let sample :=
      {| TelemetryStore.t_ms := now;
         TelemetryStore.deci_celsius := get_i16 (drop 4 (payload frame));
         TelemetryStore.rpm := get_u16 (drop 6 (payload frame));
         TelemetryStore.grams := get_i32 (drop 8 (payload frame));
         TelemetryStore.flags := nth 12 (payload frame) 0 |} in
    (c, TelemetryStore.append sample store)
  else if bool_decide (type frame = TelemetryFrame) && (msg_id frame =? MsgId.Fault) && (payload_len frame =? 1)
  then (c <| last_fault_ := nth 0 (payload frame) 0 |>, store)
  else if bool_decide (type frame = Response) || bool_decide (type frame = Nack)
  then
    (if waiting_ c && (msg_id frame =? pending_msg_id_ c) && (seq_ frame =? pending_seq_ c)
     then c <| response_ := frame |> <| response_ready_ := true |> <| waiting_ := false |>
            <| last_command_status_ := if bool_decide (type frame = Response) then Ok else ProtocolError |>
     else c, store)
  else (c, store).

(** The receiving loop of [poll]. *)
Fixpoint receive_loop (fuel : nat) (c : McuClient) (store : TelemetryStore.TelemetryStore) (w : W)
    : outcome (McuClient * TelemetryStore.TelemetryStore * W) :=
  match fuel with
  | O => OutOfFuel
  | S fuel =>
      '(r, link, w) ← Link.poll (link_ c) w;
      let c := c <| link_ := link |> in
      match r with
      | Some frame =>
          let '(c, store) := dispatch (now_ms w) frame c store in
          receive_loop fuel c store w
      | None => Ret (c, store, w)
      end
  end.

Definition heartbeat (c : McuClient) (w : W) : McuClient * W :=
  if negb (waiting_ c) && (u32_sub (now_ms w) (last_tx_ms_ c) >=? kHeartbeatIntervalMs) then
    let heartbeat_seq := next_seq_ c in
    let c := c <| next_seq_ := u8 (next_seq_ c + 1) |> in
    let '(st, link, w) := Link.send Request heartbeat_seq MsgId.Ping None 0 (link_ c) w in
    let c := c <| link_ := link |> in
    (if bool_decide (st = Ok) then c <| last_tx_ms_ := now_ms w |> else c, w)
  else (c, w).

Definition poll (c : McuClient) (store : TelemetryStore.TelemetryStore) (w : W)
    : outcome (McuClient * TelemetryStore.TelemetryStore * W) :=
  let '(c, w) := check_timeouts c w in
  '(c, store, w) ← receive_loop (S (rx_pending w)) c store w;
  let '(c, w) := heartbeat c w in
  Ret (c, store, w).

#[global] Instance client_request : IMcuClient (McuClient * W) := fun id payload len '(c, w) =>
  if waiting_ c || response_ready_ c then (NotReady, (c, w))
  else if (len >? kMaxPayload) || ((len >? 0) && match payload with None => true | _ => false end)
  then (InvalidArgument, (c, w))
  else
    let c := c <| pending_seq_ := next_seq_ c |> <| next_seq_ := u8 (next_seq_ c + 1) |> in
    let '(sent, link, w) := Link.send Request (pending_seq_ c) id payload len (link_ c) w in
    let c := c <| link_ := link |> in
    if negb (bool_decide (sent = Ok)) then (sent, (c, w))
    else
      let c := c <| waiting_ := true |> <| pending_msg_id_ := id |> <| response_ready_ := false |>
                 <| sent_at_ms_ := now_ms w |> <| request_started_ms_ := now_ms w |>
                 <| last_tx_ms_ := now_ms w |> <| retried_ := false |> <| last_command_status_ := Ok |> in
      let c := if len >? 0
               then c <| pending_payload_ := store_at (pending_payload_ c) 0 (take (Z.to_nat len) (default [] payload)) |>
               else c in
      (Ok, (c <| pending_payload_len_ := len |>, w)).

End Operations.
End McuClient.

(** * Theorems *)

Lemma frame_bytes_wire ty seq id payload : Z.of_nat (length payload) <= kMaxPayload ->
  frame_bytes ty seq id payload = wire kVersion (frame_of ty seq id payload).
Proof. intros L. apply write_frame_wire; [exact L|]. unfold kMaxFrameSize. lia. Qed.

Section ClientTheory.
Import McuClient.
#[local] Opaque frame_bytes Link.kTxCapacity.
Context {W : Type} `{AppBoardLaws W}.

(** What the link object promises the client. *)
Lemma write_frame_take cap ty seq id p n :
  write_frame cap ty seq id (take (Z.to_nat n) p) n = write_frame cap ty seq id p n.
Proof. unfold write_frame. now rewrite take_take, Nat.min_id. Qed.

Lemma send_take ty seq id p n l (w : W) : 0 <= n ->
  Link.send ty seq id (Some p) n l w = Link.send ty seq id (Some (take (Z.to_nat n) p)) n l w.
Proof. intros Hn. unfold Link.send. cbn [from_option Datatypes.id]. now rewrite write_frame_take. Qed.

Lemma send_link ty seq id p n l (w : W) : link_ok l -> 0 <= n <= kMaxPayload -> n <= Z.of_nat (length p) ->
  let '(st, l', w') := Link.send ty seq id (Some p) n l w in
  link_ok l' /\ rx_pending w' = rx_pending w /\ now_us w' = now_us w /\
  (st = Ok /\ tx_log w' ++ queued l' = tx_log w ++ queued l ++ frame_bytes ty seq id (take (Z.to_nat n) p) \/
   st = NotReady /\ tx_log w' ++ queued l' = tx_log w ++ queued l).
Proof.
  intros [T P] Hn L. rewrite send_take by lia. set (q := take (Z.to_nat n) p).
  assert (Lq : n = Z.of_nat (length q)) by (unfold q; rewrite length_take; lia). clearbody q. subst n.
  pose proof (send_ok ty seq id q l w T ltac:(lia)) as S.
  pose proof (send_preserves now_us ty seq id (Some q) (Z.of_nat (length q)) l w clock_write) as C.
  destruct (Link.send ty seq id (Some q) _ l w) as [[st l'] w'].
  destruct S as (S1 & S2 & _ & S4 & S5). cbn [snd] in C.
  split_and!; [split; [exact S1|now rewrite S2]|exact S4|exact C|].
  destruct (_ <=? _)%nat; [now left|right]. destruct S5 as (-> & -> & ->). now split.
Qed.

(** ** The invariant *)

Record client_ok (c : McuClient) : Prop := {
  ok_link : link_ok (link_ c);
  ok_next : in_u8 (next_seq_ c);
  ok_pending : in_u8 (pending_seq_ c) /\ in_u8 (pending_msg_id_ c);
  ok_payload : length (pending_payload_ c) = Z.to_nat kMaxPayload /\ bytes_ok (pending_payload_ c);
  ok_payload_len : 0 <= pending_payload_len_ c <= kMaxPayload;
  ok_exclusive : waiting_ c && response_ready_ c = false;
  ok_response : response_ready_ c = true ->
    (type (response_ c) = Response \/ type (response_ c) = Nack) /\
    msg_id (response_ c) = pending_msg_id_ c /\ seq_ (response_ c) = pending_seq_ c /\ frame_wf (response_ c)
}.

Lemma new_client_ok : client_ok new_client.
Proof.
  split; try apply new_link_ok; repeat (split; try (reflexivity || discriminate)); try discriminate.
  apply Forall_replicate. split; reflexivity || discriminate.
Qed.

(** The bytes on their way to the safety processor. *)
Definition stream (c : McuClient) (w : W) : list Z := tx_log w ++ queued (link_ c).

(** A request of the pending message with the sequence number [seq]. *)
Definition pending_frame (c : McuClient) (seq : Z) : list Z :=
  frame_bytes Request seq (pending_msg_id_ c) (take (Z.to_nat (pending_payload_len_ c)) (pending_payload_ c)).

(** A request or its response is with the client. *)
Definition busy (c : McuClient) : bool := waiting_ c || response_ready_ c.

(** Polling starts no request and never changes which one is pending. *)
Definition keeps_request (c c' : McuClient) : Prop :=
  pending_msg_id_ c' = pending_msg_id_ c /\ (busy c' = true -> busy c = true).

Lemma keeps_trans c1 c2 c3 : keeps_request c1 c2 -> keeps_request c2 c3 -> keeps_request c1 c3.
Proof. intros [E1 B1] [E2 B2]. split; [congruence|auto]. Qed.

(** Changes of the bookkeeping that keep the invariant. *)
Lemma client_ok_link c l : client_ok c -> link_ok l -> client_ok (c <| link_ := l |>).
Proof. intros [] L. now split. Qed.

Lemma abandon_ok c : client_ok c ->
  client_ok (abandon c) /\ queued (link_ (abandon c)) = [] /\ waiting_ (abandon c) = false /\
  last_command_status_ (abandon c) = Timeout.
Proof.
  intros K. destruct K as [[T P] ? ? ? ? ? ?]. destruct (cancel_wf _ T) as [T' Q'].
  split; [|split_and!; [exact Q'|reflexivity..]].
  unfold abandon. split; simp_set; try assumption; [split; assumption|reflexivity].
Qed.

Lemma retry_ok c (w : W) : client_ok c -> waiting_ c = true ->
  let '(c', w') := retry c w in
  client_ok c' /\ rx_pending w' = rx_pending w /\ now_us w' = now_us w /\
  (stream c' w' = stream c w ++ pending_frame c (next_seq_ c) /\
   c' = c <| link_ := link_ c' |> <| next_seq_ := u8 (next_seq_ c + 1) |> <| pending_seq_ := next_seq_ c |>
          <| retried_ := true |> <| sent_at_ms_ := now_ms w |> <| last_tx_ms_ := now_ms w |> \/
   stream c' w' = stream c w /\ c' = c <| link_ := link_ c' |>).
Proof.
  intros K Wt. unfold retry. destruct K as [L N [P I] [A B] PL X R].
  pose proof (send_link Request (next_seq_ c) (pending_msg_id_ c) (pending_payload_ c)
    (pending_payload_len_ c) (link_ c) w L PL ltac:(lia)) as S.
  destruct (Link.send _ _ _ _ _ _ _) as [[st l] w']. destruct S as (L' & Rx & C & E).
  assert (Nr : response_ready_ c = false) by (rewrite Wt in X; exact X).
  unfold now_ms. rewrite C. destruct E as [[-> E]|[-> E]]; cbn [bool_decide decide_rel];
    rewrite bool_decide_decide; destruct (decide _) as [D|D]; try congruence.
  - split; [|split_and!; [exact Rx|reflexivity|left; split; [|reflexivity]]].
    + split; simp_set; try assumption; [apply u8_range|now split|split; assumption|]. now rewrite Nr.
    + unfold stream, pending_frame. simp_set. rewrite E; apply app_assoc.
  - split; [split; simp_set; try assumption; now split|]. split_and!; [exact Rx|reflexivity|right].
    split; [exact E|reflexivity].
Qed.

Lemma check_timeouts_ok c (w : W) : client_ok c ->
  let '(c', w') := check_timeouts c w in
  client_ok c' /\ rx_pending w' = rx_pending w /\ now_us w' = now_us w /\ last_fault_ c' = last_fault_ c /\
  keeps_request c c'.
Proof.
  intros K. assert (G0 : keeps_request c (abandon c)).
  { split; [reflexivity|]. unfold busy, abandon. simp_set. cbn [orb]. intros ->. apply orb_true_r. }
  unfold check_timeouts. destruct (waiting_ c) eqn:Wt; cbn [andb]; [|now split_and!].
  destruct (abandon_ok c K) as (G & _). destruct (_ >=? _); [now split_and!|].
  destruct (_ >? _); [|now split_and!]. destruct (negb _); [|now split_and!].
  pose proof (retry_ok c w K Wt) as R. destruct (retry c w) as [c' w'].
  assert (F : forall A (f : _ -> A) d, c' = d -> f c' = f d) by congruence.
  destruct R as (R1 & R2 & R3 & [[_ E]|[_ E]]); (split_and!; [assumption..|exact (F _ last_fault_ _ E)|]);
    (split; [exact (F _ pending_msg_id_ _ E)|intros _; unfold busy; now rewrite Wt]).
Qed.

Lemma dispatch_ok now f c store : client_ok c -> store_ok store -> frame_wf f ->
  let '(c', store') := dispatch now f c store in
  client_ok c' /\ store_ok store' /\ link_ c' = link_ c /\ keeps_request c c'.
Proof.
  intros K S F. unfold dispatch. destruct (_ && _ && _); [split_and!; [exact K| |reflexivity|now split]|].
  { apply append_ok; [apply i16_range|exact S]. }
  destruct (_ && _ && _); [split_and!; [destruct K; split; simp_set; assumption|exact S|reflexivity|now split]|].
  destruct (bool_decide (type f = Response) || bool_decide (type f = Nack)) eqn:Ty; [|now split_and!].
  destruct (waiting_ c && _ && _) eqn:M; [|now split_and!].
  apply andb_true_iff in M as [M M3]. apply andb_true_iff in M as [M1 M2].
  split_and!; [|exact S|reflexivity|split; [reflexivity|intros _; unfold busy; now rewrite M1]].
  destruct K. split; simp_set; try assumption; [reflexivity|].
  intros _. apply orb_true_iff in Ty. rewrite !bool_decide_eq_true in Ty.
  split_and!; [exact Ty|lia|lia|exact F].
Qed.

(** A client that does not wait takes no response. *)
Lemma dispatch_idle now f c store : waiting_ c = false ->
  let c' := (dispatch now f c store).1 in
  waiting_ c' = false /\ response_ready_ c' = response_ready_ c /\
  last_command_status_ c' = last_command_status_ c.
Proof.
  intros Wt. unfold dispatch. destruct (_ && _ && _); [now split_and!|].
  destruct (_ && _ && _); [now split_and!|]. destruct (_ || _); [|now split_and!].
  rewrite Wt. now split_and!.
Qed.

(** The receiving loop ends: every frame consumed input. *)
Lemma receive_loop_ok fuel : forall c store (w : W), client_ok c -> store_ok store ->
  (rx_pending w < fuel)%nat ->
  exists c' store' w', receive_loop fuel c store w = Ret (c', store', w') /\
    client_ok c' /\ store_ok store' /\ now_us w' = now_us w /\ (rx_pending w' <= rx_pending w)%nat /\
    stream c' w' = stream c w /\ keeps_request c c' /\
    (waiting_ c = false -> waiting_ c' = false /\ response_ready_ c' = response_ready_ c /\
       last_command_status_ c' = last_command_status_ c).
Proof.
  induction fuel as [|fuel IH]; intros c store w K S B; [lia|]. cbn [receive_loop].
  destruct (poll_total (link_ c) w (proj1 (ok_link c K))) as (r0 & l0 & w0 & E0 & _ & Q & _).
  destruct (poll_ok (link_ c) w (ok_link c K)) as (r & l & w1 & E & L & F & R1 & R2).
  rewrite E0 in E. simplify_eq.
  pose proof (poll_preserves now_us _ w r l w1 clock_write clock_read E0) as C.
  rewrite E0. cbn. pose proof (client_ok_link c l K L) as K1. destruct r as [f|].
  - pose proof (dispatch_ok (now_ms w1) f _ store K1 S F) as D.
    pose proof (dispatch_idle (now_ms w1) f (c <| link_ := l |>) store) as I.
    destruct (dispatch _ f _ store) as [c2 st2]. destruct D as (D1 & D2 & D3 & D4). cbn [fst] in I.
    destruct (IH c2 st2 w1 D1 D2) as (c3 & st3 & w3 & E3 & K3 & S3 & C3 & B3 & Q3 & T3 & I3).
    { specialize (R2 ltac:(discriminate)). lia. }
    exists c3, st3, w3. rewrite E3. split_and!; try assumption; try congruence.
    + lia.
    + rewrite Q3. unfold stream. now rewrite D3.
    + refine (keeps_trans _ _ _ _ T3). exact D4.
    + intros Wt. destruct (I Wt) as (I1 & I2 & I3'). destruct (I3 I1) as (J1 & J2 & J3).
      rewrite J2, J3, I2, I3'. now split_and!.
  - exists (c <| link_ := l |>), store, w1. split_and!; try assumption; try reflexivity; auto; now split.
Qed.

Lemma heartbeat_ok c (w : W) : client_ok c ->
  let '(c', w') := heartbeat c w in
  client_ok c' /\ rx_pending w' = rx_pending w /\ now_us w' = now_us w /\ last_fault_ c' = last_fault_ c /\
  waiting_ c' = waiting_ c /\ response_ready_ c' = response_ready_ c /\
  last_command_status_ c' = last_command_status_ c /\ pending_msg_id_ c' = pending_msg_id_ c /\
  (waiting_ c = false -> kHeartbeatIntervalMs <= u32_sub (now_ms w) (last_tx_ms_ c) ->
     stream c' w' = stream c w ++ frame_bytes Request (next_seq_ c) MsgId.Ping [] /\ last_tx_ms_ c' = now_ms w \/
     stream c' w' = stream c w /\ (Link.kTxCapacity < length (queued (link_ c')) + 10)%nat).
Proof.
  intros K. unfold heartbeat.
  destruct (negb (waiting_ c) && _) eqn:T; [|split_and!; try reflexivity; [exact K|]].
  2:{ intros Wt G. rewrite Wt in T. cbn [negb andb] in T. rewrite Z.geb_leb in T. lia. }
  clear T. simp_set. rewrite send_none.
  pose proof (send_link Request (next_seq_ c) MsgId.Ping [] 0 (link_ c) w (ok_link c K) ltac:(split; discriminate)
    ltac:(discriminate)) as S.
  pose proof (send_ok Request (next_seq_ c) MsgId.Ping [] (link_ c) w (proj1 (ok_link c K)) ltac:(discriminate)) as S'.
  change (Z.of_nat (length [])) with 0 in S'.
  destruct (Link.send Request (next_seq_ c) MsgId.Ping (Some []) 0 (link_ c) w) as [[st l] w'].
  destruct S as (L & Rx & C & E). destruct S' as (_ & _ & _ & _ & S').
  rewrite (length_frame_bytes Request (next_seq_ c) MsgId.Ping [] ltac:(discriminate)) in S'.
  unfold now_ms. rewrite C, bool_decide_decide.
  destruct K. destruct E as [[-> E]|[-> E]]; (destruct (decide _) as [D|D]; try congruence);
    (split_and!; [split; simp_set; auto using u8_range|exact Rx|reflexivity..| ]).
  - intros _ _. left. split; [|reflexivity]. unfold stream. simp_set. rewrite E; apply app_assoc.
  - intros _ _. right. split; [exact E|].
    destruct (Nat.leb_spec (length (queued (link_ c)) + Z.to_nat (kHeaderSize + Z.of_nat (length (@nil Z)) + kCrcSize)) Link.kTxCapacity)
      as [G|G]; [now destruct S'|]. simp_set. destruct S' as (_ & -> & _). exact G.
Qed.

Lemma client_poll_ok c store (w : W) : client_ok c -> store_ok store ->
  exists c' store' w', poll c store w = Ret (c', store', w') /\ client_ok c' /\ store_ok store' /\
    now_us w' = now_us w /\ (rx_pending w' <= rx_pending w)%nat /\ keeps_request c c'.
Proof.
  intros K St. unfold poll. pose proof (check_timeouts_ok c w K) as T. destruct (check_timeouts c w) as [c1 w1].
  destruct T as (K1 & R1 & C1 & _ & P1).
  destruct (receive_loop_ok (Datatypes.S (rx_pending w1)) c1 store w1 K1 St ltac:(lia))
    as (c2 & st2 & w2 & E & K2 & S2 & C2 & R2 & _ & P2 & _).
  rewrite E. cbn. pose proof (heartbeat_ok c2 w2 K2) as B. destruct (heartbeat c2 w2) as [c3 w3].
  destruct B as (K3 & R3 & C3 & _ & B1 & B2 & _ & B3 & _). exists c3, st2, w3.
  split_and!; [reflexivity|exact K3|exact S2|congruence|lia|].
  apply (keeps_trans _ _ _ P1), (keeps_trans _ _ _ P2). split; [exact B3|]. unfold busy. now rewrite B1, B2.
Qed.

(** ** Requests *)

(** The bookkeeping of an accepted request. *)
Definition requested (c : McuClient) (id : Z) (payload : list Z) (now : Z) (c' : McuClient) : Prop :=
  waiting_ c' = true /\ response_ready_ c' = false /\ pending_msg_id_ c' = id /\
  pending_seq_ c' = next_seq_ c /\ next_seq_ c' = u8 (next_seq_ c + 1) /\ retried_ c' = false /\
  sent_at_ms_ c' = now /\ request_started_ms_ c' = now /\ last_tx_ms_ c' = now /\
  last_command_status_ c' = Ok /\ (forall seq, pending_frame c' seq = frame_bytes Request seq id payload).

Lemma take_store_at_front {A} (buf bs : list A) : take (length bs) (store_at buf 0 bs) = bs.
Proof. exact (take_app_length bs _). Qed.

Lemma store_at_bytes buf bs : bytes_ok buf -> bytes_ok bs -> bytes_ok (store_at buf 0 bs).
Proof. intros B1 B2. unfold store_at. apply Forall_app_2; [constructor|]. apply Forall_app_2; [exact B2|now apply Forall_drop]. Qed.

Lemma request_ok id payload c (w : W) : client_ok c -> in_u8 id -> bytes_ok payload ->
  Z.of_nat (length payload) <= kMaxPayload ->
  let '(st, (c', w')) := request id (Some payload) (Z.of_nat (length payload)) (c, w) in
  client_ok c' /\ rx_pending w' = rx_pending w /\ now_us w' = now_us w /\ last_fault_ c' = last_fault_ c /\
  if busy c then st = NotReady /\ c' = c /\ w' = w
  else
    st = Ok /\ stream c' w' = stream c w ++ frame_bytes Request (next_seq_ c) id payload /\
    requested c id payload (now_ms w) c' \/
    st = NotReady /\ stream c' w' = stream c w /\ busy c' = false /\
    last_command_status_ c' = last_command_status_ c.
Proof.
  intros K Hid B L. unfold request, client_request. fold (busy c).
  destruct (busy c) eqn:Bu; [now split_and!|]. unfold busy in Bu. apply orb_false_iff in Bu as [Wt Rr].
  destruct (Z.gtb_spec (Z.of_nat (length payload)) kMaxPayload); [lia|]. rewrite andb_false_r. cbn [orb]. simp_set.
  pose proof (send_link Request (next_seq_ c) id payload (Z.of_nat (length payload)) (link_ c) w (ok_link c K)
    ltac:(lia) ltac:(lia)) as S.
  destruct (Link.send Request (next_seq_ c) id (Some payload) _ (link_ c) w) as [[st l] w'].
  destruct S as (L' & Rx & C & E). rewrite Nat2Z.id, firstn_all in E.
  destruct K as [Lk N [P I] [A PB] PL X R].
  destruct E as [[-> E]|[-> E]]; cbn [bool_decide decide negb]; rewrite bool_decide_decide; (destruct (decide _) as [D|D]; try congruence); cbn [negb].
  - unfold now_ms. rewrite C. destruct (Z.gtb_spec (Z.of_nat (length payload)) 0) as [G|G].
    + cbn [from_option Datatypes.id]. rewrite Nat2Z.id, firstn_all.
      split_and!; [|exact Rx|reflexivity|reflexivity|left].
      { split; simp_set; try assumption; [apply u8_range|now split| |lia|reflexivity|discriminate].
        split; [rewrite length_store_at; [exact A|rewrite A; lia]|now apply store_at_bytes]. }
      split; [reflexivity|]. split; [unfold stream; simp_set; rewrite E; apply app_assoc|].
      unfold requested, pending_frame. simp_set. rewrite Nat2Z.id, take_store_at_front.
      now split_and!.
    + assert (payload = []) as -> by (destruct payload; [reflexivity|cbn in G; lia]).
      split_and!; [|exact Rx|reflexivity|reflexivity|left].
      { split; simp_set; try assumption; [apply u8_range|now split|now split|lia|reflexivity|discriminate]. }
      split; [reflexivity|]. split; [unfold stream; simp_set; rewrite E; apply app_assoc|].
      unfold requested, pending_frame. simp_set. now split_and!.
  - split_and!; [|exact Rx|exact C|reflexivity|right].
    { split; simp_set; try assumption; [apply u8_range|now split|now split|]. rewrite Rr. discriminate. }
    split_and!; [reflexivity|exact E| |reflexivity]. unfold busy. simp_set. now rewrite Wt, Rr.
Qed.

Lemma request_none id (m : McuClient * W) : request id None 0 m = request id (Some []) 0 m.
Proof. now destruct m. Qed.

(** ** Commands *)

Definition command_ok (cmd : command) : Prop :=
  match cmd with
  | SetMotor rpm ramp => in_u16 rpm /\ in_u8 ramp
  | SetHeater target => in_i16 target
  | _ => True
  end.

(** What the command handler of the safety processor reads from a frame. *)
Definition reads (cmd : command) (f : Frame) : Prop :=
  match cmd with
  | SetMotor rpm ramp =>
      msg_id f = MsgId.MotorSetTarget /\ payload_len f = 3 /\ get_u16 (payload f) = rpm /\ nth 2 (payload f) 0 = ramp
  | MotorStop => msg_id f = MsgId.MotorStop /\ payload_len f = 0
  | SetHeater target => msg_id f = MsgId.HeaterSetTarget /\ payload_len f = 2 /\ get_i16 (payload f) = target
  | HeaterOff => msg_id f = MsgId.HeaterOff /\ payload_len f = 0
  | Tare => msg_id f = MsgId.ScaleTare /\ payload_len f = 0
  | LockLid locked => msg_id f = (if locked then MsgId.LidLock else MsgId.LidUnlock) /\ payload_len f = 0
  end.

Lemma issue_request cmd (m : McuClient * W) :
  issue cmd m = request (message cmd).1 (Some (message cmd).2) (Z.of_nat (length (message cmd).2)) m.
Proof. destruct cmd, m; reflexivity. Qed.

Lemma command_ok_bytes cmd : command_ok cmd -> command_bytes cmd.
Proof. destruct cmd; cbn; tauto. Qed.

Lemma message_ok cmd : command_bytes cmd ->
  in_u8 (message cmd).1 /\ bytes_ok (message cmd).2 /\ Z.of_nat (length (message cmd).2) <= kMaxPayload.
Proof.
  destruct cmd as [rpm ramp| |target| | |[]]; cbn [command_bytes message fst snd]; intros C;
    (split_and!; [split; reflexivity || discriminate| |discriminate || (unfold kMaxPayload; cbn; lia)]);
    try (exact (Forall_nil_2 _)).
  - apply Forall_app. split; [apply put_u16_bytes|]. constructor; [exact C|constructor].
  - apply put_u16_bytes.
Qed.

Lemma issue_ok cmd (m : McuClient * W) : command_bytes cmd -> client_ok m.1 -> client_ok (issue cmd m).2.1.
Proof.
  intros C K. destruct m as [c w]. rewrite issue_request. destruct (message_ok cmd C) as (Hid & B & L).
  pose proof (request_ok _ _ c w K Hid B L) as R. destruct (request _ _ _ (c, w)) as [st [c' w']]. apply R.
Qed.

Lemma issue_clock cmd (m : McuClient * W) : command_bytes cmd -> client_ok m.1 ->
  now_us (issue cmd m).2.2 = now_us m.2.
Proof.
  intros C K. destruct m as [c w]. rewrite issue_request. destruct (message_ok cmd C) as (Hid & B & L).
  pose proof (request_ok _ _ c w K Hid B L) as R. destruct (request _ _ _ (c, w)) as [st [c' w']]. apply R.
Qed.

Lemma message_reads cmd seq : command_ok cmd ->
  reads cmd (frame_of Request seq (message cmd).1 (message cmd).2).
Proof.
  destruct cmd as [rpm ramp| |target| | |[]]; cbn [command_ok]; intros C; try (now split).
  - split_and!; [reflexivity..| |reflexivity]. apply get_put_u16, C.
  - split_and!; [reflexivity..|]. now apply get_put_i16.
Qed.

(** ** What the caller does to the client *)

Lemma take_response_ok c : client_ok c -> client_ok (take_response true c).2.
Proof.
  intros K. unfold take_response. destruct (_ || _); [exact K|]. cbn [snd].
  destruct K. split; simp_set; try assumption; [apply andb_false_r|discriminate].
Qed.

Lemma clear_status_ok c : client_ok c -> client_ok (clear_command_status c).
Proof. intros []. now split. Qed.

Lemma clear_fault_ok c : client_ok c -> client_ok (clear_fault c).
Proof. intros []. now split. Qed.

(** ** Confirmations *)

Definition confirms (id : Z) (r : option Frame) : Prop :=
  exists f, r = Some f /\ type f = Response /\ msg_id f = id.

(** Among the responses, one to HEATER_OFF and, in a later tick, one to
    MOTOR_STOP. *)
Definition both_confirmed (rs : list (option Frame)) : Prop :=
  exists a r1 b r2 d, rs = a ++ r1 :: b ++ r2 :: d /\ confirms MsgId.HeaterOff r1 /\ confirms MsgId.MotorStop r2.

Lemma both_confirmed_app rs r : both_confirmed rs -> both_confirmed (rs ++ [r]).
Proof.
  intros (a & r1 & b & r2 & d & -> & C1 & C2). exists a, r1, b, r2, (d ++ [r]). split; [|now split].
  now rewrite <- !app_assoc, <- !app_comm_cons, <- app_assoc, <- app_comm_cons.
Qed.

End ClientTheory.

(** ** Properties *)

Section ClientProperties.
Import McuClient.
#[local] Opaque frame_bytes Link.kTxCapacity.
Context {W : Type} `{AppBoardLaws W}.

(** C25: a command is the request the protocol documents: from a client that is
    not busy it either puts exactly one request frame, from which the safety
    processor reads back the command and its arguments, behind everything
    already on its way, or is refused because the queue is full; a busy client
    refuses it and changes nothing, so one request is in flight at a time. *)
Theorem commands_reach_the_mcu cmd c (w : W) : client_ok c -> command_ok cmd ->
  let '(st, (c', w')) := issue cmd (c, w) in
  client_ok c' /\
  if busy c then st = NotReady /\ c' = c /\ w' = w
  else
    (exists f, st = Ok /\ waiting_ c' = true /\ type f = Request /\ seq_ f = pending_seq_ c' /\ frame_wf f /\
       reads cmd f /\ stream c' w' = stream c w ++ wire kVersion f) \/
    st = NotReady /\ stream c' w' = stream c w /\ busy c' = false.
Proof.
  intros K C. rewrite issue_request. destruct (message_ok cmd (command_ok_bytes cmd C)) as (Hid & B & L).
  pose proof (request_ok (message cmd).1 (message cmd).2 c w K Hid B L) as R.
  destruct (request _ _ _ (c, w)) as [st [c' w']]. destruct R as (K' & _ & _ & _ & R).
  split; [exact K'|]. destruct (busy c); [exact R|].
  destruct R as [(-> & E & Q)|(-> & E & Q & _)]; [left|right; now split_and!].
  exists (frame_of Request (next_seq_ c) (message cmd).1 (message cmd).2).
  destruct Q as (Q1 & _ & _ & Q2 & _). split_and!; try reflexivity; [exact Q1|now rewrite Q2| |now apply message_reads|].
  - apply frame_of_wf. split_and!; [apply K|exact Hid|exact L|exact B].
  - rewrite E. f_equal. now apply frame_bytes_wire.
Qed.

(** The timeouts of a first transmission, for every 32-bit clock value: the
    client is patient for 50 ms, then transmits the same message once more
    under a new sequence number (if the queue has room), and from 150 ms on it
    gives up: nothing stays queued and the status is [Timeout]. *)
Theorem first_timeout c (w : W) t e : client_ok c -> waiting_ c = true -> retried_ c = false ->
  sent_at_ms_ c = u32 t -> request_started_ms_ c = u32 t -> 0 <= e < 2147483648 -> now_ms w = u32 (t + e) ->
  let '(c', w') := check_timeouts c w in
  if e <=? 50 then c' = c /\ w' = w
  else if e <? 150 then
    waiting_ c' = true /\
    (stream c' w' = stream c w ++ pending_frame c (next_seq_ c) /\ retried_ c' = true /\
       pending_seq_ c' = next_seq_ c /\ next_seq_ c' = u8 (next_seq_ c + 1) \/
     stream c' w' = stream c w /\ retried_ c' = false)
  else waiting_ c' = false /\ last_command_status_ c' = Timeout /\ queued (link_ c') = [] /\ w' = w.
Proof.
  intros K Wt Nr S R He N. unfold check_timeouts. rewrite Wt, Nr, S, R, N. cbn [andb negb].
  assert (E1 : u32_sub (u32 (t + e)) (u32 t) = e) by wrap_lia.
  assert (E2 : i32 (u32 (u32 (t + e) - u32 t - kResponseTimeoutMs)) = e - 50) by (unfold kResponseTimeoutMs; wrap_lia).
  rewrite E1, E2, Z.geb_leb. unfold kRequestDeadlineMs.
  destruct (abandon_ok c K) as (_ & Q & G1 & G2).
  destruct (Z.leb_spec 150 e), (Z.leb_spec e 50), (Z.ltb_spec e 150); try lia; [now split_and!| |].
  { rewrite Z.gtb_ltb. destruct (Z.ltb_spec 0 (e - 50)); [lia|]. now split. }
  rewrite Z.gtb_ltb. destruct (Z.ltb_spec 0 (e - 50)); [|lia].
  pose proof (retry_ok c w K Wt) as X. destruct (retry c w) as [c' w'].
  destruct X as (_ & _ & _ & X).
  assert (F : forall A (f : _ -> A) d, c' = d -> f c' = f d) by congruence.
  destruct X as [[X E]|[X E]]; (split; [rewrite (F _ waiting_ _ E); exact Wt|]).
  - left. rewrite (F _ retried_ _ E), (F _ pending_seq_ _ E), (F _ next_seq_ _ E). now split_and!.
  - right. rewrite (F _ retried_ _ E). now split.
Qed.

(** C36: no request is pending for ever: a poll that comes 150 ms or more after
    the request ends the wait with the status [Timeout], whatever arrives in
    the same poll, and leaves no response behind. *)
Theorem request_deadline c store (w : W) : client_ok c -> store_ok store -> waiting_ c = true ->
  kRequestDeadlineMs <= u32_sub (now_ms w) (request_started_ms_ c) ->
  exists c' store' w', poll c store w = Ret (c', store', w') /\ client_ok c' /\
    waiting_ c' = false /\ response_ready_ c' = false /\ last_command_status_ c' = Timeout.
Proof.
  intros K St Wt D. unfold poll, check_timeouts. rewrite Wt, Z.geb_leb. apply Z.leb_le in D. rewrite D. cbn [andb].
  destruct (abandon_ok c K) as (K1 & _ & G1 & G2).
  destruct (receive_loop_ok (S (rx_pending w)) (abandon c) store w K1 St ltac:(lia))
    as (c2 & st2 & w2 & E & K2 & _ & _ & _ & _ & _ & I).
  rewrite E. cbn. destruct (I G1) as (I1 & I2 & I3).
  pose proof (heartbeat_ok c2 w2 K2) as B. destruct (heartbeat c2 w2) as [c3 w3].
  destruct B as (K3 & _ & _ & _ & B1 & B2 & B3 & _). exists c3, st2, w3.
  split_and!; [reflexivity|exact K3|congruence| |congruence].
  rewrite B2, I2. unfold abandon. simp_set. pose proof (ok_exclusive c K) as X. now rewrite Wt in X.
Qed.

(** The client keeps the link alive: after any poll that leaves no request
    in flight, less than a second has passed since the last transmission,
    unless the transmit queue has no room for a PING. *)
Theorem link_kept_alive c store (w : W) : client_ok c -> store_ok store ->
  exists c' store' w', poll c store w = Ret (c', store', w') /\ client_ok c' /\ store_ok store' /\
    (waiting_ c' = false ->
       u32_sub (now_ms w') (last_tx_ms_ c') < kHeartbeatIntervalMs \/
       (Link.kTxCapacity < length (queued (link_ c')) + 10)%nat).
Proof.
  intros K St. unfold poll. pose proof (check_timeouts_ok c w K) as T. destruct (check_timeouts c w) as [c1 w1].
  destruct T as (K1 & _).
  destruct (receive_loop_ok (S (rx_pending w1)) c1 store w1 K1 St ltac:(lia)) as (c2 & st2 & w2 & E & K2 & S2 & _).
  rewrite E. cbn. pose proof (heartbeat_ok c2 w2 K2) as B. destruct (heartbeat c2 w2) as [c3 w3] eqn:Hb.
  destruct B as (K3 & _ & C3 & _ & B1 & _ & _ & _ & B). exists c3, st2, w3.
  split_and!; [reflexivity|exact K3|exact S2|]. rewrite B1. intros Wt. unfold now_ms in *. rewrite C3.
  destruct (Z.le_gt_cases kHeartbeatIntervalMs (u32_sub (to_millis (now_us w2)) (last_tx_ms_ c2))) as [G|G].
  - destruct (B Wt G) as [[_ ->]|[_ Q]]; [left|now right].
    unfold u32_sub. rewrite Z.sub_diag. reflexivity.
  - left. unfold heartbeat in Hb. rewrite Wt in Hb. cbn [negb andb] in Hb. unfold now_ms in Hb.
    rewrite Z.geb_leb in Hb. destruct (Z.leb_spec kHeartbeatIntervalMs (u32_sub (to_millis (now_us w2)) (last_tx_ms_ c2))); [lia|].
    simplify_eq. exact G.
Qed.

(** Telemetry arrives as it was sent: the bytes of a telemetry frame parse
    to exactly one frame, and receiving it adds one sample with the reading's
    temperature, speed, weight and flags to the store, stamped with the
    client's clock, and touches nothing of the client. *)
Theorem telemetry_end_to_end data seq now c store :
  in_i16 (C1Link.deci_celsius data) -> in_u16 (C1Link.rpm data) -> in_i32 (C1Link.grams data) ->
  in_u8 (C1Link.flags data) -> in_u8 seq ->
  exists f,
    (FrameParser.feed_all (write_message (TelemetryFrame, seq, MsgId.Telemetry, encode_telemetry data))
       FrameParser.new_parser).1 = [f] /\
    dispatch now f c store =
      (c, TelemetryStore.append
            {| TelemetryStore.t_ms := now; TelemetryStore.deci_celsius := C1Link.deci_celsius data;
               TelemetryStore.rpm := C1Link.rpm data; TelemetryStore.grams := C1Link.grams data;
               TelemetryStore.flags := C1Link.flags data |} store).
Proof.
  intros Hd Hr Hg Hf Hs. set (m := (TelemetryFrame, seq, MsgId.Telemetry, encode_telemetry data)).
  assert (Wm : Forall message_wf [m]).
  { constructor; [|constructor]. split_and!; [exact Hs|now split|discriminate|now apply encode_telemetry_bytes]. }
  pose proof (written_messages_delivered [m] Wm) as D. cbn [fmap list_fmap concat] in D. rewrite app_nil_r in D.
  apply Forall2_cons_inv_l in D as (f & gs & (D1 & _ & D3 & D4 & D5) & N & ->). apply Forall2_nil_inv_l in N as ->.
  exists f. split; [reflexivity|]. unfold dispatch. rewrite D1, D3, D4. rewrite length_encode_telemetry.
  cbn [bool_decide]. rewrite bool_decide_eq_true_2 by reflexivity. cbn [andb Z.eqb MsgId.Telemetry].
  assert (P : payload f = encode_telemetry data ++ drop 13 (payload f)).
  { rewrite <- D5. unfold frame_payload. rewrite D4, length_encode_telemetry. symmetry. apply take_drop. }
  rewrite P. unfold encode_telemetry. rewrite <- !app_assoc.
  change (drop 4 (put_u32 (tick data) ++ ?x)) with x.
  change (drop 6 (put_u32 (tick data) ++ put_i16 (C1Link.deci_celsius data) ++ ?x)) with x.
  change (drop 8 (put_u32 (tick data) ++ put_i16 (C1Link.deci_celsius data) ++ put_u16 (C1Link.rpm data) ++ ?x)) with x.
  rewrite get_put_i16, get_put_u16, get_put_i32 by assumption. reflexivity.
Qed.

End ClientProperties.

(** ** A run of the client

    The operations of the client in any order, each at its own state of the
    outside world. [accepted] is the ghost id of the last request accepted. *)

Section ClientRun.
Import McuClient.
Context {W : Type} `{AppBoardLaws W}.

Inductive client_op := Poll | Submit (cmd : command) | TakeResponse | ClearStatus | ClearFault.

Definition client_op_ok (op : client_op) : Prop :=
  match op with Submit cmd => command_ok cmd | _ => True end.

(** The client, the store, the last accepted request and the responses taken,
    each with the request that was the last one accepted. *)
Record session := {
  client : McuClient; history : TelemetryStore.TelemetryStore; accepted : Z; taken : list (Frame * Z)
}.

Definition client_step (s : session) (op : client_op) (w : W) : outcome session :=
  match op with
  | Poll =>
      '(c, store, _) ← poll (client s) (history s) w;
      Ret {| client := c; history := store; accepted := accepted s; taken := taken s |}
  | Submit cmd =>
      let '(st, (c, _)) := issue cmd (client s, w) in
      Ret {| client := c; history := history s;
             accepted := if bool_decide (st = Ok) then (message cmd).1 else accepted s; taken := taken s |}
  | TakeResponse =>
      let '(r, c) := take_response true (client s) in
      Ret {| client := c; history := history s; accepted := accepted s;
             taken := match r with Some f => taken s ++ [(f, accepted s)] | None => taken s end |}
  | ClearStatus => Ret {| client := clear_command_status (client s); history := history s;
                          accepted := accepted s; taken := taken s |}
  | ClearFault => Ret {| client := clear_fault (client s); history := history s;
                         accepted := accepted s; taken := taken s |}
  end.

Fixpoint client_run (s : session) (ops : list (client_op * W)) : outcome session :=
  match ops with
  | [] => Ret s
  | (op, w) :: ops => s ← client_step s op w; client_run s ops
  end.

Definition new_session : session :=
  {| client := new_client; history := TelemetryStore.new_store; accepted := MsgId.Ping; taken := [] |}.

Definition answers (r : Frame * Z) : Prop :=
  (type r.1 = Response \/ type r.1 = Nack) /\ msg_id r.1 = r.2 /\ frame_wf r.1.

Record session_ok (s : session) : Prop := {
  sok_client : client_ok (client s);
  sok_history : store_ok (history s);
  sok_accepted : busy (client s) = true -> pending_msg_id_ (client s) = accepted s;
  sok_taken : Forall answers (taken s)
}.

Lemma session_step_ok s op (w : W) : session_ok s -> client_op_ok op ->
  exists s', client_step s op w = Ret s' /\ session_ok s'.
Proof.
  intros [K St A T] O. destruct op as [|cmd| | |]; cbn [client_step].
  - destruct (client_poll_ok _ _ w K St) as (c' & st' & w' & -> & K' & St' & _ & _ & P1 & P2). cbn.
    eexists. split; [reflexivity|]. split; cbn; try assumption. intros B. rewrite P1. auto.
  - rewrite issue_request. destruct (message_ok cmd (command_ok_bytes cmd O)) as (Hid & B & L).
    pose proof (request_ok _ _ _ w K Hid B L) as R. destruct (request _ _ _ (client s, w)) as [st [c' w']].
    destruct R as (K' & _ & _ & _ & R). eexists. split; [reflexivity|].
    split; cbn; try assumption. destruct (busy (client s)) eqn:Bu.
    + destruct R as (-> & -> & ->). intros _. rewrite bool_decide_eq_false_2 by discriminate. auto.
    + destruct R as [(-> & _ & Q)|(-> & _ & Q & _)]; [|congruence]. intros _.
      rewrite bool_decide_eq_true_2 by reflexivity. apply Q.
  - unfold take_response. destruct (response_ready_ (client s)) eqn:Rr; cbn [negb orb]; eexists; (split; [reflexivity|]).
    + destruct (ok_response _ K Rr) as (Q1 & Q2 & _ & Q4). split; cbn; try assumption.
      * destruct K. split; simp_set; try assumption; [apply andb_false_r|discriminate].
      * unfold busy. simp_set. intros B. apply A. unfold busy. now rewrite Rr, orb_true_r.
      * apply Forall_app. split; [exact T|]. constructor; [|constructor]. unfold answers. cbn.
        split_and!; [exact Q1| |exact Q4]. rewrite Q2. apply A. unfold busy. now rewrite Rr, orb_true_r.
    + now split.
  - eexists. split; [reflexivity|]. split; cbn; try assumption. destruct K. now split.
  - eexists. split; [reflexivity|]. split; cbn; try assumption. destruct K. now split.
Qed.

Lemma session_run_ok ops s : session_ok s -> Forall (fun o : client_op * W => client_op_ok o.1) ops ->
  exists s', client_run s ops = Ret s' /\ session_ok s'.
Proof.
  intros K F. revert s K. induction F as [|[op w] ops O F IH]; intros s K; [now exists s|].
  cbn. destruct (session_step_ok s op w K O) as (s1 & -> & K1). cbn. auto.
Qed.

Lemma new_session_ok : session_ok new_session.
Proof. split; [apply new_client_ok|apply new_store_ok|discriminate|constructor]. Qed.

End ClientRun.

Section ClientRunProperties.
Import McuClient.
Context {W : Type} `{AppBoardLaws W}.

(** C24: whatever is received and in whatever order the client is used, no
    operation hangs, and every response a caller takes is a well-formed
    response or NACK to the last request that was accepted: a late answer to an
    earlier request, or to a message nobody asked for, is never handed out. *)
Theorem responses_answer_the_last_request ops :
  Forall (fun o : client_op * W => client_op_ok o.1) ops ->
  exists s, client_run new_session ops = Ret s /\ client_ok (client s) /\ store_ok (history s) /\
    Forall answers (taken s).
Proof.
  intros F. destruct (session_run_ok ops new_session new_session_ok F) as (s & E & []). exists s. now split_and!.
Qed.

End ClientRunProperties.
