(* ===== verification/OtaUpdater.v ===== *)
(** * Firmware image verification (src/src/app/ota/ota_updater.{h,cpp})

    The image is checked in chunks of [kChunkBytes], one per tick. The updater
    keeps a pointer to the staged image; its caller leaves the bytes alone while
    the updater is busy (cli/commands.cpp refuses to), so the image is a value
    here. A null pointer is [None]; the length of the image is its size. *)

From S2P Require Import Prelude.
From S2P Require Import Common.

Module OtaUpdater.

Inductive State := Idle | Verifying | Ready | Failed.
#[global] Instance State_eq_dec : EqDecision State.
Proof. solve_decision. Defined.

Definition kChunkBytes : nat := Z.to_nat 4096.

Record OtaUpdater := {
  state_ : State;
  image_ : list Z;
  image_len_ : nat;
  verified_ : nat;
  expected_crc_ : Z;
  running_crc_ : Z
}.
#[global] Instance eta_OtaUpdater : Eta OtaUpdater := fun o =>
  {| state_ := state_ o; image_ := image_ o; image_len_ := image_len_ o; verified_ := verified_ o;
     expected_crc_ := expected_crc_ o; running_crc_ := running_crc_ o |}.

Definition new_updater : OtaUpdater :=
  {| state_ := Idle; image_ := []; image_len_ := 0; verified_ := 0; expected_crc_ := 0; running_crc_ := 0xFFFF |}.

Definition busy (o : OtaUpdater) : bool := bool_decide (state_ o = Verifying).

Definition begin (image : option (list Z)) (len : nat) (expected_crc : Z) (o : OtaUpdater) : Status * OtaUpdater :=
  match image with
  | Some image =>
      if (len =? 0)%nat then (InvalidArgument, o)
      else if bool_decide (state_ o = Verifying) then (NotReady, o)
      else (Ok, o <| image_ := image |> <| image_len_ := len |> <| verified_ := O |>
                  <| expected_crc_ := expected_crc |> <| running_crc_ := 0xFFFF |> <| state_ := Verifying |>)
  | None => (InvalidArgument, o)
  end.

Definition step (o : OtaUpdater) : OtaUpdater :=
  if negb (bool_decide (state_ o = Verifying)) then o
  else
    let chunk := (image_len_ o - verified_ o)%nat in
    let chunk := if (kChunkBytes <? chunk)%nat then kChunkBytes else chunk in
    let o := o <| running_crc_ := crc16_ccitt (take chunk (drop (verified_ o) (image_ o))) (running_crc_ o) |>
               <| verified_ := (verified_ o + chunk)%nat |> in
    if (image_len_ o <=? verified_ o)%nat
    then o <| state_ := if running_crc_ o =? expected_crc_ o then Ready else Failed |>
    else o.

Definition progress_percent (o : OtaUpdater) : Z :=
  if (image_len_ o =? 0)%nat then 0
  else u64 (Z.of_nat (verified_ o) * 100) / Z.of_nat (image_len_ o).

End OtaUpdater.

(** * Theorems *)

Section OtaTheory.
Import OtaUpdater.

Definition steps (n : nat) (o : OtaUpdater) : OtaUpdater := Nat.iter n step o.

(** The ticks an image of [len] bytes takes. *)
Definition ticks_needed (len : nat) : nat := ((len + kChunkBytes - 1) / kChunkBytes)%nat.

(** A verification of [image] that has covered the first [v] bytes. *)
Definition verifying (image : list Z) (crc : Z) (v : nat) (o : OtaUpdater) : Prop :=
  state_ o = Verifying /\ image_ o = image /\ image_len_ o = length image /\ verified_ o = v /\
  expected_crc_ o = crc /\ running_crc_ o = crc16_ccitt (take v image) 0xFFFF.

Definition verdict (image : list Z) (crc : Z) : State :=
  if crc16_ccitt image 0xFFFF =? crc then Ready else Failed.

Lemma chunk_pos : (0 < kChunkBytes)%nat.
Proof. unfold kChunkBytes. lia. Qed.

(** One step covers one chunk more, or concludes. *)
Lemma step_verifying image crc v o : verifying image crc v o -> (v < length image)%nat ->
  if (length image <=? v + kChunkBytes)%nat
  then state_ (step o) = verdict image crc /\ verified_ (step o) = length image /\ image_len_ (step o) = length image
  else verifying image crc (v + kChunkBytes) (step o).
Proof.
  intros (E1 & E2 & E3 & E4 & E5 & E6) L. unfold step. rewrite E1, E3, E4, E2, E6. cbn [bool_decide negb].
  rewrite bool_decide_eq_true_2 by reflexivity. cbn [negb]. simp_set. rewrite E3, E5.
  set (chunk := if (kChunkBytes <? length image - v)%nat then kChunkBytes else (length image - v)%nat).
  assert (C : crc16_ccitt (take chunk (drop v image)) (crc16_ccitt (take v image) 0xFFFF)
              = crc16_ccitt (take (v + chunk) image) 0xFFFF).
  { rewrite <- crc16_app. f_equal. now rewrite take_take_drop. }
  rewrite C. pose proof chunk_pos as CP.
  destruct (Nat.leb_spec (length image) (v + kChunkBytes)) as [B|B].
  - assert (chunk = (length image - v)%nat) as ->.
    { subst chunk. destruct (Nat.ltb_spec kChunkBytes (length image - v)); lia. }
    rewrite (take_ge image) by lia. destruct (Nat.leb_spec (length image) (v + (length image - v))); [|lia].
    simp_set. split_and!; [reflexivity|lia|exact E3].
  - assert (chunk = kChunkBytes) as ->.
    { subst chunk. destruct (Nat.ltb_spec kChunkBytes (length image - v)); [reflexivity|lia]. }
    destruct (Nat.leb_spec (length image) (v + kChunkBytes)); [lia|].
    unfold verifying. simp_set. now split_and!.
Qed.

Lemma steps_verifying image crc n o : verifying image crc 0 o -> (n * kChunkBytes < length image)%nat ->
  verifying image crc (n * kChunkBytes) (steps n o).
Proof.
  intros V. induction n as [|n IH]; intros L; [exact V|]. cbn [steps Nat.iter].
  assert (L' : (n * kChunkBytes < length image)%nat) by lia.
  pose proof (step_verifying _ _ _ _ (IH L') L') as Sv.
  destruct (Nat.leb_spec (length image) (n * kChunkBytes + kChunkBytes)); [lia|].
  replace (S n * kChunkBytes)%nat with (n * kChunkBytes + kChunkBytes)%nat by lia. exact Sv.
Qed.

Lemma ticks_needed_spec len : (0 < len)%nat ->
  (0 < ticks_needed len)%nat /\ ((ticks_needed len - 1) * kChunkBytes < len <= ticks_needed len * kChunkBytes)%nat.
Proof.
  intros L. pose proof chunk_pos as CP. unfold ticks_needed. set (k := kChunkBytes) in *. clearbody k.
  pose proof (Nat.div_mod (len + k - 1) k ltac:(lia)) as D.
  pose proof (Nat.mod_upper_bound (len + k - 1) k ltac:(lia)) as M.
  set (q := ((len + k - 1) / k)%nat) in *. clearbody q.
  destruct q as [|q]; [lia|]. split; [lia|]. replace (S q - 1)%nat with q by lia. nia.
Qed.

Lemma step_done o : state_ o <> Verifying -> step o = o.
Proof. intros N. unfold step. now rewrite bool_decide_eq_false_2. Qed.

Lemma steps_done n o : state_ o <> Verifying -> steps n o = o.
Proof.
  intros N. induction n as [|n IH]; [reflexivity|]. cbn [steps Nat.iter]. change (step (steps n o) = o).
  rewrite IH. now apply step_done.
Qed.

Lemma begin_verifying image crc o : image <> [] -> state_ o <> Verifying ->
  exists o', begin (Some image) (length image) crc o = (Ok, o') /\ verifying image crc 0 o'.
Proof.
  intros N S. unfold begin. destruct (Nat.eqb_spec (length image) 0) as [E|_].
  { now destruct image. }
  rewrite bool_decide_eq_false_2 by exact S. eexists. split; [reflexivity|]. unfold verifying. simp_set.
  now split_and!.
Qed.

Definition updater_ok (o : OtaUpdater) : Prop := (verified_ o <= image_len_ o)%nat.

End OtaTheory.

(** ** Properties *)

Section OtaProperties.
Import OtaUpdater.

(** C38: verification in chunks is verification of the whole image: after
    [begin] the updater stays busy for exactly the ticks the image needs at
    4096 bytes each, then reports [Ready] if the CRC of all of it is the
    expected one and [Failed] if not, and further ticks change nothing. *)
Theorem ota_verifies_the_whole_image image crc o n : image <> [] -> state_ o <> Verifying ->
  exists o', begin (Some image) (length image) crc o = (Ok, o') /\
    state_ (steps n o') =
      (if (n <? ticks_needed (length image))%nat then Verifying
       else if crc16_ccitt image 0xFFFF =? crc then Ready else Failed).
Proof.
  intros N Hs. destruct (begin_verifying image crc o N Hs) as (o' & E & V). exists o'. split; [exact E|].
  assert (L : (0 < length image)%nat) by (destruct image; [congruence|cbn; lia]).
  destruct (ticks_needed_spec _ L) as [T1 T2]. pose proof chunk_pos as CP.
  destruct (Nat.ltb_spec n (ticks_needed (length image))) as [B|B].
  { apply (steps_verifying image crc n o' V). nia. }
  fold (verdict image crc). set (m := (ticks_needed (length image) - 1)%nat) in *.
  pose proof (step_verifying _ _ _ _ (steps_verifying image crc m o' V ltac:(lia)) ltac:(lia)) as F.
  destruct (Nat.leb_spec (length image) (m * kChunkBytes + kChunkBytes)); [|nia].
  change (step (steps m o')) with (steps (S m) o') in F.
  replace n with ((n - S m) + S m)%nat by lia. unfold steps in *. rewrite Nat.iter_add.
  change (Nat.iter (n - S m) step ?x) with (steps (n - S m) x).
  rewrite steps_done; [apply F|]. rewrite (proj1 F). unfold verdict. now destruct (_ =? _).
Qed.

(** A verification in progress cannot be replaced, and an empty or missing
    image is rejected: [begin] then returns the error and the updater goes on
    as it was. *)
Theorem ota_begin_rejects image len crc o :
  image = None \/ len = O \/ state_ o = Verifying ->
  exists st, begin image len crc o = (st, o) /\ st <> Ok.
Proof.
  intros C. unfold begin. destruct image as [image|]; [|now exists InvalidArgument].
  destruct (Nat.eqb_spec len 0); [now exists InvalidArgument|].
  destruct C as [C|[C|C]]; [discriminate|lia|]. exists NotReady.
  now rewrite bool_decide_eq_true_2.
Qed.

Lemma ota_verifies_the_whole_image_witness :
  let image := [1; 2; 3; 4; 5; 6; 7; 8; 9] in
  image <> [] /\ state_ new_updater <> Verifying /\
  exists o', begin (Some image) (length image) 0 new_updater = (Ok, o') /\
    state_ (steps 1 o') = (if (1 <? ticks_needed 9)%nat then Verifying
                           else if crc16_ccitt image 0xFFFF =? 0 then Ready else Failed).
Proof.
  intros image. split_and!; [discriminate|discriminate|].
  apply (ota_verifies_the_whole_image image 0 new_updater 1); discriminate.
Defined.

Lemma ota_begin_rejects_witness : exists st, begin (Some [1; 2]) 0 7 new_updater = (st, new_updater) /\ st <> Ok.
Proof. apply ota_begin_rejects. right. now left. Defined.

End OtaProperties.
