(* ===== verification/CString.v ===== *)
(** * C strings and the numbers in them

    The Standard Library routines of C and C++ the text formats of the program
    are read with: [strchr], [fgets], [strtol], [strtoul], [strtof] in the C
    locale, with a 64-bit [long], as the GNU C library implements them. A C string
    is a [string] without its terminator.

    Then src/src/common/parse_number.h. *)

From Stdlib Require Import Ascii.
From S2P Require Import Prelude.
From S2P Require Import Float32.

(** ** Characters *)

Definition nul : ascii := "000"%char.
Definition newline : ascii := "010"%char.

(** [isspace]. *)
Definition is_space : ascii -> bool := Ascii.is_space.

Definition code (c : ascii) : Z := Z.of_nat (nat_of_ascii c).

Definition digit_value (c : ascii) : option Z := Z.of_nat <$> Ascii.is_nat c.

Definition hex_value (c : ascii) : option Z :=
  let c := code c in
  if (48 <=? c) && (c <=? 57) then Some (c - 48)
  else if (97 <=? c) && (c <=? 102) then Some (c - 87)
  else if (65 <=? c) && (c <=? 70) then Some (c - 55)
  else None.

(** [tolower]. *)
Definition to_lower (c : ascii) : ascii :=
  if (65 <=? code c) && (code c <=? 90) then ascii_of_nat (nat_of_ascii c + 32) else c.

(** ** Strings *)

Fixpoint skip_while (p : ascii -> bool) (s : string) : string :=
  match s with
  | EmptyString => EmptyString
  | String c s' => if p c then skip_while p s' else s
  end.

(** The part before the first [c], and the part behind it if there is one. *)
Fixpoint cut (c : ascii) (s : string) : string * option string :=
  match s with
  | EmptyString => (EmptyString, None)
  | String a s => if Ascii.eqb a c then (EmptyString, Some s) else let '(t, r) := cut c s in (String a t, r)
  end.

(** All parts of a string between the separators [c]. *)
Fixpoint split_on (c : ascii) (s : string) : list string :=
  match s with
  | EmptyString => [EmptyString]
  | String a s =>
      if Ascii.eqb a c then EmptyString :: split_on c s
      else match split_on c s with
           | t :: ts => String a t :: ts
           | [] => [String a EmptyString]
           end
  end.

(** [strncpy] into a buffer of [n + 1] zeros: the first [n] characters. *)
Fixpoint prefix_of (n : nat) (s : string) : string :=
  match n, s with
  | S n, String a s => String a (prefix_of n s)
  | _, _ => EmptyString
  end.

(** [strncmp (s, p, strlen (p)) == 0]: what is left of [s] behind [p]. *)
Fixpoint strip (p s : string) : option string :=
  match p, s with
  | EmptyString, _ => Some s
  | String a p, String b s => if Ascii.eqb a b then strip p s else None
  | String _ _, EmptyString => None
  end.

(** A byte buffer read as a C string. *)
Definition c_str (s : string) : string := (cut nul s).1.

(** [fgets] of at most [n] characters: the line, what is left, and whether it ran
    into the end of the text. *)
Fixpoint fgets (n : nat) (s : string) : string * string * bool :=
  match n, s with
  | O, _ => (EmptyString, s, false)
  | S _, EmptyString => (EmptyString, EmptyString, true)
  | S n, String c s =>
      if Ascii.eqb c newline then (String c EmptyString, s, false)
      else let '(l, r, e) := fgets n s in (String c l, r, e)
  end.

(** ** Integers *)

Definition sign (s : string) : bool * string :=
  match s with
  | String c s' => if Ascii.eqb c "-" then (true, s') else if Ascii.eqb c "+" then (false, s') else (false, s)
  | EmptyString => (false, s)
  end.

(** Digits to the base [base], behind the number [acc] of [n] digits. *)
Fixpoint scan_digits (value : ascii -> option Z) (base acc : Z) (n : nat) (s : string) : Z * nat * string :=
  match s with
  | String c s' =>
      match value c with
      | Some d => scan_digits value base (acc * base + d) (S n) s'
      | None => (acc, n, s)
      end
  | EmptyString => (acc, n, s)
  end.

(** What a conversion returns: the number, whether [errno] is [ERANGE], and the
    text behind the number; nothing when there is no number. *)
Definition strtol (s : string) : option (Z * bool * string) :=
  let '(negative, s) := sign (skip_while is_space s) in
  let '(v, n, rest) := scan_digits digit_value 10 0 0 s in
  if (n =? 0)%nat then None
  else
    let v := if negative then - v else v in
    Some (if v >? 9223372036854775807 then (9223372036854775807, true, rest)
          else if v <? -9223372036854775808 then (-9223372036854775808, true, rest)
          else (v, false, rest)).

Definition strtoul (s : string) : option (Z * bool * string) :=
  let '(negative, s) := sign (skip_while is_space s) in
  let '(v, n, rest) := scan_digits digit_value 10 0 0 s in
  if (n =? 0)%nat then None
  else Some (if v >? 18446744073709551615 then (18446744073709551615, true, rest)
             else (u64 (if negative then - v else v), false, rest)).

(** ** Floating-point numbers *)

(** Digits with at most one point: the number without the point, how many digits
    it has, and how many of them are behind the point. *)
Definition scan_mantissa (value : ascii -> option Z) (base : Z) (s : string) : Z * nat * nat * string :=
  let '(m, n, s1) := scan_digits value base 0 0 s in
  match s1 with
  | String c s2 =>
      if Ascii.eqb c "." then
        let '(m, k, s3) := scan_digits value base m 0 s2 in (m, (n + k)%nat, k, s3)
      else (m, n, O, s1)
  | EmptyString => (m, n, O, s1)
  end.

(** An exponent behind [marker]; none is 0. *)
Definition scan_exponent (marker : ascii) (s : string) : Z * string :=
  match s with
  | String c s1 =>
      if Ascii.eqb (to_lower c) marker then
        let '(negative, s2) := sign s1 in
        let '(e, n, s3) := scan_digits digit_value 10 0 0 s2 in
        if (n =? 0)%nat then (0, s) else (if negative then - e else e, s3)
      else (0, s)
  | EmptyString => (0, s)
  end.

(** The number nearest to [m * base ^ e]. [errno] is [ERANGE] when it is too large,
    or neither normal nor exact. *)
Definition nearest (m base e : Z) : f32 * bool :=
  let num := if 0 <=? e then m * base ^ e else m in
  let den := if 0 <=? e then 1 else base ^ (- e) in
  (lit num (Z.to_pos den),
   match lit num (Z.to_pos den) with
   | S754_infinity _ => true
   | _ => (0 <? num) && (num * 2 ^ 126 <? den) && negb ((num * 2 ^ 149) mod den =? 0)
   end).

Definition scan_decimal (s : string) : option (f32 * bool * string) :=
  let '(m, n, k, s1) := scan_mantissa digit_value 10 s in
  if (n =? 0)%nat then None
  else
    let '(e, s2) := scan_exponent "e" s1 in
    Some (nearest m 10 (e - Z.of_nat k), s2).

Definition scan_hex (s : string) : option (f32 * bool * string) :=
  let '(m, n, k, s1) := scan_mantissa hex_value 16 s in
  if (n =? 0)%nat then None
  else
    let '(e, s2) := scan_exponent "p" s1 in
    Some (nearest m 2 (e - 4 * Z.of_nat k), s2).

(** [strip], without regard to the case of [s]. *)
Fixpoint strip_lower (p s : string) : option string :=
  match p, s with
  | EmptyString, _ => Some s
  | String a p, String b s => if Ascii.eqb a (to_lower b) then strip_lower p s else None
  | String _ _, EmptyString => None
  end.

(** The optional [(name)] behind a NaN. *)
Definition skip_nan_name (s : string) : string :=
  match strip "(" s with
  | Some s1 =>
      let word c := bool_decide (is_Some (hex_value c)) || Ascii.eqb c "_" ||
                    ((97 <=? code (to_lower c)) && (code (to_lower c) <=? 122)) in
      match strip ")" (skip_while word s1) with Some s2 => s2 | None => s end
  | None => s
  end.

Definition scan_magnitude (s : string) : option (f32 * bool * string) :=
  match strip_lower "0x" s ≫= scan_hex with
  | Some r => Some r
  | None =>
      match strip_lower "infinity" s, strip_lower "inf" s, strip_lower "nan" s with
      | Some rest, _, _ | None, Some rest, _ => Some (S754_infinity false, false, rest)
      | None, None, Some rest => Some (S754_nan, false, skip_nan_name rest)
      | None, None, None => scan_decimal s
      end
  end.

Definition strtof (s : string) : option (f32 * bool * string) :=
  let '(negative, s) := sign (skip_while is_space s) in
  (fun '(x, erange, rest) => (if negative then SFopp x else x, erange, rest)) <$> scan_magnitude s.

(** ** parse_number.h *)

(** A null pointer is [None]; [Some] is the number stored. *)
Definition parse_float (text : option string) (min max : f32) : option f32 :=
  text ← text;
  '(value, erange, rest) ← strtof text;
  if erange || negb (bool_decide (rest = "")) || negb (isfinite value) || flt value min || fgt value max
  then None else Some value.

Definition parse_u32 (text : option string) (max : Z) : option Z :=
  text ← text;
  if bool_decide (text = "") || bool_decide (is_Some (strip "-" text)) then None
  else
    '(value, erange, rest) ← strtoul text;
    if erange || negb (bool_decide (rest = "")) || (value >? max) || (value >? 4294967295) then None else Some value.

(** * Theorems *)

(** A conversion to a finite number gives a canonical one. *)
Lemma nearest_fin m base e x : (nearest m base e).1 = x -> isfinite x = true -> fin x = true.
Proof. intros <-. apply lit_fin. Qed.

#[local] Opaque nearest.

Lemma scan_magnitude_fin s x e rest : scan_magnitude s = Some (x, e, rest) -> isfinite x = true -> fin x = true.
Proof.
  unfold scan_magnitude. destruct (strip_lower "0x" s ≫= scan_hex) as [r|] eqn:H.
  - apply bind_Some in H as (s1 & _ & H). unfold scan_hex in H.
    destruct (scan_mantissa hex_value 16 s1) as [[[m n] k] s2]. destruct (n =? 0)%nat; [discriminate|].
    destruct (scan_exponent "p" s2) as [ex s3]. intros [= ->]. injection H as N _ _. exact (nearest_fin _ _ _ _ N).
  - destruct (strip_lower "infinity" s); [intros; simplify_eq; discriminate|].
    destruct (strip_lower "inf" s); [intros; simplify_eq; discriminate|].
    destruct (strip_lower "nan" s); [intros; simplify_eq; discriminate|]. unfold scan_decimal.
    destruct (scan_mantissa digit_value 10 s) as [[[m n] k] s2]. destruct (n =? 0)%nat; [discriminate|].
    destruct (scan_exponent "e" s2) as [ex s3]. intros [= N _ _]. exact (nearest_fin _ _ _ _ N).
Qed.

Lemma strtof_fin s x e rest : strtof s = Some (x, e, rest) -> isfinite x = true -> fin x = true.
Proof.
  unfold strtof. destruct (sign _) as [negative s1]. intros E F. apply fmap_Some in E as ([[y e'] r'] & M & E).
  simplify_eq. apply scan_magnitude_fin in M; [destruct negative; now rewrite ?fin_opp|].
  destruct negative; [|exact F]. now destruct y.
Qed.

(** A comparison that fails bounds the number from the other side. *)
Lemma not_flt_fge x y : fin x = true -> fin y = true -> flt x y = false -> fge x y = true.
Proof. intros Fx Fy. rewrite flt_spec, fge_spec by assumption. intros L. apply Z.ltb_ge in L. now apply Z.leb_le. Qed.

Lemma not_fgt_fle x y : fin x = true -> fin y = true -> fgt x y = false -> fle x y = true.
Proof. intros Fx Fy. rewrite fgt_spec, fle_spec by assumption. intros L. apply Z.ltb_ge in L. now apply Z.leb_le. Qed.

(** What the two parsers of the command lines accept. *)
Lemma parse_float_range t lo hi x : fin lo = true -> fin hi = true -> parse_float (Some t) lo hi = Some x ->
  fin x = true /\ fge x lo = true /\ fle x hi = true.
Proof.
  intros Flo Fhi E. unfold parse_float in E. cbn [mbind option_bind] in E.
  destruct (strtof t) as [[[y e] rest]|] eqn:S; [|discriminate].
  cbn in E. destruct e; [discriminate|]. destruct (bool_decide _); [|discriminate].
  destruct (isfinite y) eqn:Fi; [|discriminate]. cbn in E. apply (strtof_fin _ _ _ _ S) in Fi.
  destruct (flt y lo) eqn:L; [discriminate|]. destruct (fgt y hi) eqn:G; [discriminate|]. cbn in E. simplify_eq.
  split_and!; [exact Fi|now apply not_flt_fge|now apply not_fgt_fle].
Qed.

Lemma strtoul_range t v e rest : strtoul t = Some (v, e, rest) -> 0 <= v.
Proof.
  unfold strtoul. destruct (sign _) as [negative s]. destruct (scan_digits _ _ _ _ s) as [[m n] r].
  destruct (n =? 0)%nat; [discriminate|]. intros E. destruct (m >? _); simplify_eq; [lia|]. apply Z.mod_pos_bound. lia.
Qed.

Lemma parse_u32_range t max v : parse_u32 (Some t) max = Some v -> 0 <= v <= max.
Proof.
  unfold parse_u32. cbn [mbind option_bind]. destruct (_ || _); [discriminate|]. intros E.
  destruct (strtoul t) as [[[y e] rest]|] eqn:S; [|discriminate]. apply strtoul_range in S. cbn in E.
  destruct e; [discriminate|]. destruct (bool_decide _); [|discriminate]. cbn in E.
  destruct (Z.gtb_spec y max); [discriminate|]. cbn in E. destruct (y >? _); [discriminate|]. simplify_eq. lia.
Qed.

#[local] Transparent nearest.

Example strtol_spaces : strtol "  -42 g" = Some (-42, false, " g"). Proof. reflexivity. Qed.
Example strtof_forms :
  strtof <$> ["103.7x"; ".5"; "1e2"; "0x1.8p1"; "0x"; "-inf"; "nan(a1)b"; "1e"; "."] =
  [Some (lit 1037 10, false, "x"); Some (lit 1 2, false, ""); Some (lit 100 1, false, ""); Some (lit 3 1, false, "");
   Some (fzero, false, "x"); Some (S754_infinity true, false, ""); Some (S754_nan, false, "b");
   Some (lit 1 1, false, "e"); None].
Proof. vm_compute. reflexivity. Qed.
Example strtof_range : strtof "1e39" = Some (S754_infinity false, true, "") /\ strtof "1e-60" = Some (fzero, true, "").
Proof. split; vm_compute; reflexivity. Qed.
