(* ===== verification/Dump.v ===== *)
(** * The capture tool (src/tools/c1link_dump.cpp)

    It reads a hex capture of the serial link and lists the frames in it. A read
    of the bytes outside the capture is [Undefined]. What is printed of a frame is
    its [Line]; the messages on [stderr] are not modelled. *)

From Stdlib Require Import Ascii.
From S2P Require Import Prelude.
From S2P Require Import Common.
From S2P Require Import C1Link.
From S2P Require Import CString.

Module C1LinkDump.

(** ** Reading a capture *)

(** The value a character adds to a byte, if it is in range. *)
Definition nibble_value (c : ascii) : option Z :=
  let value := match digit_value c with Some d => d | None => code (to_lower c) - code "a" + 10 end in
  if (value <? 0) || (value >? 15) then None else Some value.

(** The loop over the characters; [None] for a [nibble] of -1. *)
Fixpoint read_chars (s : string) (nibble : option Z) (in_comment : bool) : list Z :=
  match s with
  | EmptyString => []
  | String c s =>
      let in_comment := if Ascii.eqb c "#" then true else in_comment in
      let in_comment := if Ascii.eqb c newline then false else in_comment in
      if in_comment || is_space c then read_chars s nibble in_comment
      else
        match nibble_value c, nibble with
        | None, _ => read_chars s nibble in_comment
        | Some value, None => read_chars s (Some value) in_comment
        | Some value, Some high => u8 (Z.lor (Z.shiftl high 4) value) :: read_chars s None in_comment
        end
  end.

(** [file] is the text of the capture, if it can be opened. *)
Definition read_capture (file : option string) : list Z :=
  match file with None => [] | Some text => read_chars text None false end.

(** ** Decoding *)

Record Line := { offset : nat; type_name : string; line_seq : Z; line_msg : Z; line_payload : list Z; crc_ok : bool }.

Definition type_name_of (type : Z) : string :=
  if type =? 0x01 then "REQ"
  else if type =? 0x02 then "RSP"
  else if type =? 0x03 then "TLM"
  else if type =? 0x04 then "NAK"
  else "???".

Definition byte_at (bytes : list Z) (i : nat) : outcome Z := defined (bytes !! i).

Definition u16_at (bytes : list Z) (i : nat) : outcome Z :=
  lo ← byte_at bytes i; hi ← byte_at bytes (i + 1)%nat; Ret (get_u16 [lo; hi]).

(** The [len] bytes at [i], which must exist. *)
Definition slice (bytes : list Z) (i len : nat) : outcome (list Z) :=
  if (i + len <=? length bytes)%nat then Ret (take len (drop i bytes)) else Undefined.

Definition header : nat := Z.to_nat kHeaderSize.

Record Report := { lines : list Line; malformed : bool }.
#[global] Instance eta_Report : Eta Report := fun r => {| lines := lines r; malformed := malformed r |}.

(** The loop over the bytes: where it stops, and what it found. *)
Fixpoint decode (fuel : nat) (bytes : list Z) (i : nat) (r : Report) : outcome (nat * Report) :=
  match fuel with
  | O => OutOfFuel
  | S fuel =>
      if (header + i <=? length bytes)%nat then
        b0 ← byte_at bytes i;
        b1 ← byte_at bytes (i + 1)%nat;
        if negb (b0 =? kSync0) || negb (b1 =? kSync1) then decode fuel bytes (S i) r
        else
          type ← byte_at bytes (i + 3)%nat;
          seq ← byte_at bytes (i + 4)%nat;
          msg ← byte_at bytes (i + 5)%nat;
          len ← u16_at bytes (i + 6)%nat;
          let n := Z.to_nat len in
          let frame_size := (header + n + Z.to_nat kCrcSize)%nat in
          if (len >? kMaxPayload) || (length bytes - i <? frame_size)%nat
          then decode fuel bytes (S i) (r <| malformed := true |>)
          else
            payload ← slice bytes (i + header) n;
            wire_crc ← u16_at bytes (i + header + n)%nat;
            body ← slice bytes (i + 2) (header - 2 + n);
            let computed := crc16_ccitt body 0xFFFF in
            let line := {| offset := i; type_name := type_name_of type; line_seq := seq; line_msg := msg;
                           line_payload := payload; crc_ok := wire_crc =? computed |} in
            decode fuel bytes (i + frame_size)%nat
              (r <| lines := lines r ++ [line] |> <| malformed := malformed r || negb (wire_crc =? computed) |>)
      else Ret (i, r)
  end.

(** The lines printed, and the exit status. [argv] are the arguments after the
    name of the program, [fopen] what a path opens. *)
Definition main (fopen : string -> option string) (argv : list string) : outcome (list Line * Z) :=
  match argv with
  | [path] =>
      let bytes := read_capture (fopen path) in
      if (length bytes =? 0)%nat then Ret ([], 1)
      else
        '(i, r) ← decode (S (length bytes)) bytes 0 {| lines := []; malformed := false |};
        let malformed := malformed r || (i <? length bytes)%nat in
        Ret (lines r, if (0 <? length (lines r))%nat && negb malformed then 0 else 1)
  | _ => Ret ([], 2)
  end.

End C1LinkDump.

(** * Theorems *)

Section DumpTheory.
Import C1LinkDump.

(** ** Characters *)

Definition hex_digit (d : Z) : ascii := ascii_of_nat (Z.to_nat (if d <? 10 then 48 + d else 87 + d)).

(** Bytes as the captures in [data/captures] have them. *)
Fixpoint hex_text (bytes : list Z) : string :=
  match bytes with
  | [] => ""
  | b :: bytes => String (hex_digit (b / 16)) (String (hex_digit (b `mod` 16)) (String " " (hex_text bytes)))
  end.

Lemma hex_digit_value d : 0 <= d < 16 ->
  nibble_value (hex_digit d) = Some d /\ Ascii.eqb (hex_digit d) "#" = false /\
  Ascii.eqb (hex_digit d) newline = false /\ is_space (hex_digit d) = false.
Proof.
  intros D.
  assert (A : forallb (fun d => bool_decide (nibble_value (hex_digit d) = Some d) &&
    negb (Ascii.eqb (hex_digit d) "#") && negb (Ascii.eqb (hex_digit d) newline) && negb (is_space (hex_digit d)))
    (seqZ 0 16) = true) by (vm_compute; reflexivity).
  rewrite forallb_forall in A. specialize (A d). rewrite !andb_true_iff, !negb_true_iff, bool_decide_eq_true in A.
  destruct A as [[[A1 A2] A3] A4]; [|now split_and!]. apply list_elem_of_In, elem_of_seqZ. lia.
Qed.

Lemma read_digit d s nibble : 0 <= d < 16 ->
  read_chars (String (hex_digit d) s) nibble false =
  match nibble with
  | None => read_chars s (Some d) false
  | Some high => u8 (Z.lor (Z.shiftl high 4) d) :: read_chars s None false
  end.
Proof. intros D. destruct (hex_digit_value d D) as (V & C & N & S). cbn [read_chars]. now rewrite C, N, S, V. Qed.

(** What is printed is read back. *)
Lemma read_hex_text bytes : bytes_ok bytes -> read_chars (hex_text bytes) None false = bytes.
Proof.
  induction 1 as [|b bytes B F IH]; [reflexivity|]. unfold in_u8 in B. cbn [hex_text].
  rewrite !read_digit by (Z.to_euclidean_division_equations; lia).
  change (read_chars (String " " (hex_text bytes)) None false) with (read_chars (hex_text bytes) None false).
  rewrite IH. f_equal. rewrite Z.lor_comm, lor_shiftl by (Z.to_euclidean_division_equations; lia).
  rewrite u8_id; unfold in_u8; change (2 ^ 4) with 16; Z.to_euclidean_division_equations; lia.
Qed.

(** ** Reads *)

Lemma byte_at_drop bytes i k : byte_at bytes (i + k)%nat = defined (drop i bytes !! k).
Proof. unfold byte_at. now rewrite lookup_drop. Qed.

Lemma byte_at_first bytes i : byte_at bytes i = defined (drop i bytes !! 0%nat).
Proof. rewrite <- byte_at_drop. f_equal. lia. Qed.

Lemma slice_drop bytes i k n : (i + k + n <= length bytes)%nat ->
  slice bytes (i + k)%nat n = Ret (take n (drop k (drop i bytes))).
Proof. intros L. unfold slice. now rewrite drop_drop, (proj2 (Nat.leb_le _ _) L). Qed.

Lemma u16_at_drop bytes i k :
  u16_at bytes (i + k)%nat = match drop k (drop i bytes) with lo :: hi :: _ => Ret (get_u16 [lo; hi]) | _ => Undefined end.
Proof.
  unfold u16_at. rewrite (byte_at_first bytes (i + k)), (byte_at_drop bytes (i + k) 1), drop_drop.
  now destruct (drop (i + k) bytes) as [|lo [|hi l]].
Qed.

(** ** The loop *)

(** A line tells what stands at its offset: the sync bytes, a header with its
    type, numbers and length, the payload, and whether the CRC is right. *)
Definition describes (bytes : list Z) (l : Line) : Prop :=
  exists version type len body crc,
    body = [version; type; line_seq l; line_msg l] ++ len ++ line_payload l /\
    prefix ([kSync0; kSync1] ++ body ++ crc) (drop (offset l) bytes) /\
    type_name l = type_name_of type /\ get_u16 len = Z.of_nat (length (line_payload l)) /\
    Z.of_nat (length (line_payload l)) <= kMaxPayload /\ length len = 2%nat /\ length crc = 2%nat /\
    crc_ok l = (get_u16 crc =? crc16_ccitt body 0xFFFF).

(** What the loop keeps: every line is one of the capture, and a wrong CRC was noticed. *)
Definition faithful (bytes : list Z) (r : Report) : Prop :=
  Forall (describes bytes) (lines r) /\ (malformed r = false -> Forall (fun l => crc_ok l = true) (lines r)).

(** The line of a frame that stands at [i]. *)
Definition line_of (i : nat) (type seq msg : Z) (payload : list Z) (ok : bool) : Line :=
  {| offset := i; type_name := type_name_of type; line_seq := seq; line_msg := msg; line_payload := payload;
     crc_ok := ok |}.

Lemma decode_frame fuel bytes i r version type seq msg l0 l1 payload lo hi post :
  drop i bytes = [kSync0; kSync1; version; type; seq; msg; l0; l1] ++ payload ++ [lo; hi] ++ post ->
  get_u16 [l0; l1] = Z.of_nat (length payload) -> Z.of_nat (length payload) <= kMaxPayload ->
  let ok := get_u16 [lo; hi] =? crc16_ccitt ([version; type; seq; msg; l0; l1] ++ payload) 0xFFFF in
  decode (S fuel) bytes i r = decode fuel bytes (i + (8 + length payload + 2))%nat
    (r <| lines := lines r ++ [line_of i type seq msg payload ok] |> <| malformed := malformed r || negb ok |>).
Proof.
  intros E Ln Lp ok. pose proof (f_equal length E) as D. rewrite length_drop, !length_app in D. cbn [length] in D.
  cbn [decode]. change header with 8%nat. change (Z.to_nat kCrcSize) with 2%nat.
  rewrite (proj2 (Nat.leb_le (8 + i) (length bytes))) by lia.
  assert (U : u16_at bytes (i + 6) = Ret (Z.of_nat (length payload))) by (rewrite u16_at_drop, E, <- Ln; reflexivity).
  rewrite (byte_at_first bytes i), !(byte_at_drop bytes i), U, E.
  cbn [app lookup list_lookup defined mbind outcome_bind]. rewrite !Z.eqb_refl. cbn [negb orb]. cbv zeta.
  rewrite Nat2Z.id, Z.gtb_ltb, (proj2 (Z.ltb_ge _ _) Lp), (proj2 (Nat.ltb_ge (length bytes - i) _)) by lia. cbn [orb].
  assert (P1 : slice bytes (i + 8) (length payload) = Ret payload).
  { rewrite slice_drop, E by lia. change (drop 8 _) with (payload ++ [lo; hi] ++ post). now rewrite take_app_length. }
  assert (P2 : u16_at bytes (i + 8 + length payload) = Ret (get_u16 [lo; hi])).
  { rewrite <- Nat.add_assoc, u16_at_drop, <- (drop_drop _ (length payload) 8), E.
    change (drop 8 _) with (payload ++ [lo; hi] ++ post). now rewrite drop_app_length. }
  assert (P3 : slice bytes (i + 2) (8 - 2 + length payload) = Ret ([version; type; seq; msg; l0; l1] ++ payload)).
  { rewrite slice_drop, E by lia. change (drop 2 _) with ([version; type; seq; msg; l0; l1] ++ payload ++ [lo; hi] ++ post).
    rewrite app_assoc, take_app_length' by (rewrite length_app; reflexivity). reflexivity. }
  rewrite P1. cbn [mbind outcome_bind]. rewrite P2. cbn [mbind outcome_bind]. rewrite P3. reflexivity.
Qed.

(** The three ways on from a place with room for a header. *)
Lemma decode_step fuel bytes i r : (8 + i <= length bytes)%nat ->
  decode (S fuel) bytes i r = decode fuel bytes (S i) r \/
  decode (S fuel) bytes i r = decode fuel bytes (S i) (r <| malformed := true |>) \/
  exists line n, describes bytes line /\ (10 <= n)%nat /\ (i + n <= length bytes)%nat /\
    decode (S fuel) bytes i r = decode fuel bytes (i + n)%nat
      (r <| lines := lines r ++ [line] |> <| malformed := malformed r || negb (crc_ok line) |>).
Proof.
  intros L. assert (D : length (drop i bytes) = (length bytes - i)%nat) by apply length_drop.
  destruct (drop i bytes) as [|b0 [|b1 [|b2 [|b3 [|b4 [|b5 [|b6 [|b7 rest]]]]]]]] eqn:E; try (cbn [length] in D; lia).
  set (n := Z.to_nat (get_u16 [b6; b7])). assert (Ln : get_u16 [b6; b7] = Z.of_nat n).
  { subst n. rewrite Z2Nat.id; [reflexivity|apply u16_range]. }
  assert (R : length rest = (length bytes - i - 8)%nat) by (cbn [length] in D; lia).
  destruct (decide (b0 = kSync0 /\ b1 = kSync1 /\ Z.of_nat n <= kMaxPayload /\ (n + 2 <= length rest)%nat)) as
    [(-> & -> & B0 & B1)|N].
  - right. right. assert (Rn : length (take n rest) = n) by (rewrite length_take; lia).
    destruct (drop n rest) as [|lo [|hi post]] eqn:E2;
      try (apply (f_equal length) in E2; rewrite length_drop in E2; cbn in E2; lia).
    rewrite <- (take_drop n rest), E2 in E. pose proof (decode_frame fuel bytes i r b2 b3 b4 b5 b6 b7 (take n rest) lo hi post E) as F.
    rewrite Rn in F. specialize (F Ln B0). cbv zeta in F. eexists _, (8 + n + 2)%nat.
    split; [|split; [lia|split; [lia|exact F]]].
    exists b2, b3, [b6; b7], ([b2; b3; b4; b5; b6; b7] ++ take n rest), [lo; hi].
    cbn [line_of line_seq line_msg line_payload type_name crc_ok offset]. rewrite Rn, E.
    split_and!; try reflexivity; [|exact Ln|exact B0]. exists post. cbn [app]. now rewrite <- app_assoc.
  - cbn [decode]. change header with 8%nat. change (Z.to_nat kCrcSize) with 2%nat.
    rewrite (proj2 (Nat.leb_le (8 + i) (length bytes))) by lia.
    rewrite (byte_at_first bytes i), !(byte_at_drop bytes i), (u16_at_drop bytes i 6), E.
    cbn [lookup list_lookup drop defined mbind outcome_bind].
    destruct (negb (b0 =? kSync0) || negb (b1 =? kSync1)) eqn:Sy; [now left|]. cbv zeta.
    destruct ((get_u16 [b6; b7] >? kMaxPayload) || _) eqn:B; [now right; left|]. destruct N.
    apply orb_false_iff in Sy as [Y0 Y1]. apply negb_false_iff, Z.eqb_eq in Y0, Y1.
    apply orb_false_iff in B as [B0 B1]. rewrite Z.gtb_ltb in B0. apply Z.ltb_ge in B0. apply Nat.ltb_ge in B1.
    fold n in B1. split_and!; [exact Y0|exact Y1|lia|lia].
Qed.

Lemma faithful_line bytes r line : faithful bytes r -> describes bytes line ->
  faithful bytes (r <| lines := lines r ++ [line] |> <| malformed := malformed r || negb (crc_ok line) |>).
Proof.
  intros [F1 F2] D. split; simp_set; [apply Forall_app; split; [exact F1|now constructor]|].
  intros M. apply orb_false_iff in M as [M1 M2]. apply Forall_app. split; [now apply F2|].
  constructor; [now apply negb_false_iff|constructor].
Qed.

(** The loop ends inside the capture. *)
Lemma decode_faithful bytes fuel : forall i r, (i <= length bytes)%nat -> (length bytes - i < fuel)%nat -> faithful bytes r ->
  exists i' r', decode fuel bytes i r = Ret (i', r') /\ (i' <= length bytes)%nat /\ faithful bytes r'.
Proof.
  induction fuel as [|fuel IH]; intros i r Hi Hf F; [lia|].
  destruct (decide (8 + i <= length bytes)%nat) as [L|L].
  - destruct (decode_step fuel bytes i r L) as [E|[E|(line & n & D & N & Hn & E)]]; rewrite E; apply IH; try lia.
    + exact F.
    + split; [apply F|discriminate].
    + now apply faithful_line.
  - cbn [decode]. change header with 8%nat. rewrite (proj2 (Nat.leb_gt (8 + i) (length bytes))) by lia.
    now exists i, r.
Qed.

(** ** A capture of written frames *)

(** The lines of messages written back to back from [off] on. *)
Fixpoint lines_from (off : nat) (ms : list (FrameType * Z * Z * list Z)) : list Line :=
  match ms with
  | [] => []
  | (type, seq, msg, payload) :: ms =>
      line_of off (frame_type_byte type) seq msg payload true :: lines_from (off + (8 + length payload + 2))%nat ms
  end.

Lemma write_message_bytes type seq msg payload rest : message_wf (type, seq, msg, payload) ->
  exists l0 l1 lo hi, write_message (type, seq, msg, payload) ++ rest =
      [kSync0; kSync1; kVersion; frame_type_byte type; seq; msg; l0; l1] ++ payload ++ [lo; hi] ++ rest /\
    get_u16 [l0; l1] = Z.of_nat (length payload) /\
    get_u16 [lo; hi] = crc16_ccitt ([kVersion; frame_type_byte type; seq; msg; l0; l1] ++ payload) 0xFFFF.
Proof.
  intros (Q & I & L & B). unfold write_message. rewrite write_frame_wire by (unfold kMaxFrameSize; lia).
  unfold wire, wire_body. rewrite frame_of_payload by exact L. cbn [frame_of payload_len C1Link.type seq_ msg_id].
  assert (P : in_u16 (Z.of_nat (length payload))) by (unfold kMaxPayload, in_u16 in *; lia).
  eexists _, _, _, _. split; [cbn [put_u16 app]; rewrite <- app_assoc; reflexivity|]. split.
  - pose proof (get_put_u16 _ [] P) as G. now rewrite app_nil_r in G.
  - match goal with |- _ = ?c => pose proof (get_put_u16 c [] (crc16_range _ 0xFFFF ltac:(split; reflexivity || discriminate))) as G end.
    rewrite app_nil_r in G. exact G.
Qed.

Lemma decode_messages ms : Forall message_wf ms -> forall fuel pre ls,
  (length (concat (write_message <$> ms)) < fuel)%nat ->
  let bytes := pre ++ concat (write_message <$> ms) in
  decode fuel bytes (length pre) {| lines := ls; malformed := false |}
  = Ret (length bytes, {| lines := ls ++ lines_from (length pre) ms; malformed := false |}).
Proof.
  induction 1 as [|[[[type seq] msg] payload] ms W F IH]; intros fuel pre ls L bytes; subst bytes; cbn [fmap list_fmap concat] in *.
  - rewrite !app_nil_r. destruct fuel; [lia|]. cbn [decode]. change header with 8%nat.
    now rewrite (proj2 (Nat.leb_gt (8 + length pre) (length pre))) by lia.
  - destruct fuel as [|fuel]; [lia|].
    destruct (write_message_bytes type seq msg payload (concat (write_message <$> ms)) W)
      as (l0 & l1 & lo & hi & E & Ln & C).
    assert (Lw : length (write_message (type, seq, msg, payload)) = (8 + length payload + 2)%nat).
    { apply (f_equal length) in E. rewrite !length_app in E. cbn [length] in E. lia. }
    destruct W as (_ & _ & Lp & _).
    rewrite (decode_frame fuel _ (length pre) _ kVersion (frame_type_byte type) seq msg l0 l1 payload lo hi
      (concat (write_message <$> ms))); [|rewrite drop_app_length; exact E|exact Ln|exact Lp].
    rewrite C, Z.eqb_refl. rewrite length_app, Lw in L. rewrite app_assoc.
    specialize (IH fuel (pre ++ write_message (type, seq, msg, payload))
      (ls ++ [line_of (length pre) (frame_type_byte type) seq msg payload true]) ltac:(lia)).
    cbv zeta in IH. rewrite (length_app pre), Lw in IH. etrans; [exact IH|].
    cbn [lines_from]. now rewrite <- (app_assoc ls).
Qed.

Lemma written_bytes ms : Forall message_wf ms -> bytes_ok (concat (write_message <$> ms)).
Proof.
  induction 1 as [|[[[type seq] msg] payload] ms W F IH]; [constructor|]. cbn [fmap list_fmap concat].
  apply Forall_app. split; [|exact IH]. unfold write_message. destruct W as (Q & I & L & B).
  rewrite write_frame_wire by (unfold kMaxFrameSize; lia). unfold wire, wire_body. rewrite frame_of_payload by exact L.
  cbn [frame_of C1Link.type seq_ msg_id].
  assert (T : in_u8 (frame_type_byte type)) by (destruct type; split; reflexivity || discriminate).
  apply Forall_app. split; [repeat constructor; discriminate|]. apply Forall_app. split; [|apply put_u16_bytes].
  apply Forall_app. split; [|apply Forall_app; split; [apply put_u16_bytes|exact B]].
  repeat apply Forall_cons_2; try assumption; [split; reflexivity || discriminate|apply Forall_nil_2].
Qed.

End DumpTheory.

(** The captures of [data/captures]. *)
Definition startup : string :=
  "# C1-Link capture: startup handshake, motor command, one telemetry frame" +:+ String newline (
  "a5 5a 10 01 01 01 00 00 41 ff a5 5a 10 02 01 01" +:+ String newline (
  "00 00 93 11 a5 5a 10 01 02 10 03 00 88 13 02 73" +:+ String newline (
  "7c a5 5a 10 02 02 10 02 00 88 13 78 be a5 5a 10" +:+ String newline (
  "03 07 80 0d 00 39 30 00 00 8c 02 74 13 dc 05 00" +:+ String newline "00 07 23 a3")))).

Definition frames_and_status (o : outcome (list C1LinkDump.Line * Z)) : option (list string * Z) :=
  match o with Ret (ls, st) => Some (C1LinkDump.type_name <$> ls, st) | _ => None end.

Example startup_dump : frames_and_status (C1LinkDump.main (fun _ => Some startup) ["startup.hex"]) = Some (["REQ"; "RSP"; "REQ"; "RSP"; "TLM"], 0).
Proof. vm_compute. reflexivity. Qed.

Example truncated_dump : frames_and_status (C1LinkDump.main (fun _ => Some "a5 5a 10 01 01 01 fa 00") ["truncated.hex"]) = Some ([], 1).
Proof. vm_compute. reflexivity. Qed.

Example bad_crc_dump : frames_and_status (C1LinkDump.main (fun _ => Some "a5 5a 10 01 01 01 00 00 40 ff") ["bad.hex"]) = Some (["REQ"], 1).
Proof. vm_compute. reflexivity. Qed.

(** A punctuation mark between the letters is taken for a digit: the header
    comment admits pairs of hex digits only. *)
Example punctuation_is_read_as_digits : C1LinkDump.read_capture (Some "[_") = [0x48].
Proof. vm_compute. reflexivity. Qed.

(** ** Properties *)

Section DumpProperties.
Import C1LinkDump.

(** C37: the capture tool reads nothing outside the capture and always ends,
    whatever the text of the file is. Every line it prints describes bytes of the
    capture at the offset it names: sync bytes, header, payload and whether the
    CRC is right; and the status is 0 only if there is a line and every CRC is.
    Without exactly one argument it prints nothing and the status is 2. *)
Theorem dump_is_faithful fopen argv :
  exists ls status, main fopen argv = Ret (ls, status) /\
    match argv with
    | [path] => Forall (describes (read_capture (fopen path))) ls
    | _ => ls = [] /\ status = 2
    end /\
    (status = 0 -> ls <> [] /\ Forall (fun l => crc_ok l = true) ls).
Proof.
  destruct argv as [|path [|]]; [exists [], 2; easy| |exists [], 2; easy].
  unfold main. set (bytes := read_capture (fopen path)). destruct (Nat.eqb_spec (length bytes) 0).
  { exists [], 1. split_and!; [reflexivity|constructor|discriminate]. }
  destruct (decode_faithful bytes (S (length bytes)) 0 {| lines := []; malformed := false |}) as (i & r & -> & _ & F1 & F2);
    [lia|lia|split; constructor|].
  cbn [mbind outcome_bind]. eexists (lines r), _. split_and!; [reflexivity|exact F1|].
  destruct ((0 <? length (lines r))%nat && _) eqn:B; [|discriminate]. intros _.
  apply andb_true_iff in B as [B1 B2]. apply Nat.ltb_lt in B1. apply negb_true_iff, orb_false_iff in B2 as [B2 _].
  split; [intros E; rewrite E in B1; cbn in B1; lia|now apply F2].
Qed.

(** What a line of the tool tells of a message that was sent. *)
Definition lists (m : FrameType * Z * Z * list Z) (l : Line) : Prop :=
  let '(type, seq, msg, payload) := m in
  type_name l = match type with Request => "REQ" | Response => "RSP" | TelemetryFrame => "TLM" | Nack => "NAK" end /\
  line_seq l = seq /\ line_msg l = msg /\ line_payload l = payload /\ crc_ok l = true.

Lemma lines_from_lists ms : forall off, Forall2 lists ms (lines_from off ms).
Proof.
  induction ms as [|[[[type seq] msg] payload] ms IH]; intros off; [constructor|].
  constructor; [|apply IH]. now destruct type.
Qed.

(** A capture of what the link sent is read back: when messages are written
    back to back and the bytes are saved in the capture format, the tool lists
    exactly those messages, in order, each with its type, numbers and payload
    and a right CRC, and its status is 0. *)
Theorem dump_lists_written_messages fopen path ms : ms <> [] -> Forall message_wf ms ->
  fopen path = Some (hex_text (concat (write_message <$> ms))) ->
  exists ls, main fopen [path] = Ret (ls, 0) /\ Forall2 lists ms ls.
Proof.
  intros N W F. unfold main, read_capture. rewrite F, read_hex_text by now apply written_bytes.
  pose proof (decode_messages ms W (S (length (concat (write_message <$> ms)))) [] [] ltac:(lia)) as D.
  cbv zeta in D. cbn [app length] in D. destruct ms as [|m ms]; [congruence|].
  assert (L : (length (concat (write_message <$> m :: ms)) =? 0)%nat = false).
  { inversion W as [|? ? Wm ?]. destruct m as [[[type seq] msg] payload].
    destruct (write_message_bytes type seq msg payload (concat (write_message <$> ms)) Wm) as (l0 & l1 & lo & hi & E & _).
    cbn [fmap list_fmap concat]. now rewrite E. }
  rewrite L, D. cbn [mbind outcome_bind lines malformed]. rewrite Nat.ltb_irrefl.
  exists (lines_from 0 (m :: ms)). split; [|apply lines_from_lists]. destruct m as [[[type seq] msg] payload]. reflexivity.
Qed.

Lemma dump_lists_written_messages_witness :
  exists ls, main (fun _ => Some (hex_text (concat (write_message <$> sample_messages)))) ["capture.hex"] = Ret (ls, 0) /\
    Forall2 lists sample_messages ls.
Proof.
  apply (dump_lists_written_messages _ "capture.hex" sample_messages); [discriminate|apply sample_messages_wf|reflexivity].
Defined.

End DumpProperties.
