(* ===== verification/Sockets.v ===== *)
(** * The serial line over a Unix socket (src/src/sim/socket_transport.cpp)

    The calls of the operating system are a class over the type [W] of the world
    behind them, with the documented behaviour of descriptors as laws. A
    descriptor is the [int] a call returns; it is valid when it is not
    negative. *)

From stdpp Require Import gmap sets.
From S2P Require Import Prelude.

(** ** The system calls *)

(** What [lstat] says of a path: [errno] is [ENOENT] when it is missing. *)
Inductive PathStatus := Existing (is_socket owned : bool) | Missing | Unreadable.

(** Of a status of 0 or -1 the program asks only which it is. [rx_left] is no
    call: it bounds what [recv] can still return. *)
Class ISockets (W : Type) := {
  sys_socket : W -> Z * W;
  sys_lstat : string -> W -> PathStatus * W;
  sys_unlink : string -> W -> bool * W;
  sys_bind : Z -> string -> W -> bool * W;
  sys_listen : Z -> W -> bool * W;
  sys_connect : Z -> string -> W -> bool * W;
  sys_getfl : Z -> W -> Z * W;
  sys_setfl : Z -> Z -> W -> bool * W;
  sys_accept : Z -> W -> Z * W;
  sys_close : Z -> W -> W;
  sys_send : Z -> list Z -> W -> Z * W;
  sys_recv : Z -> nat -> W -> Z * list Z * W;
  rx_left : W -> nat
}.

(** Opening gives a descriptor that was not open, or a negative number; closing
    takes one away; nothing else opens or closes. A [recv] returns the number
    of bytes it received, at most as many as it was asked for and all of them
    among those that were left, 0 at the end and a negative number otherwise. A
    [send] accepts at most what it was given. The last laws say more than the
    manual of [recv]: no bytes arrive while a receive loop runs, which is what the
    code counts on when it reads until nothing is left. *)
Class SocketLaws (W : Type) `{ISockets W} := {
  open_fds : W -> gset Z;
  open_socket w : (0 <= (sys_socket w).1 /\ ((sys_socket w).1 ∉ open_fds w) /\
                   open_fds (sys_socket w).2 = ({[(sys_socket w).1]} ∪ open_fds w)) \/
                  ((sys_socket w).1 < 0 /\ open_fds (sys_socket w).2 = open_fds w);
  open_accept fd w : (0 <= (sys_accept fd w).1 /\ ((sys_accept fd w).1 ∉ open_fds w) /\
                      open_fds (sys_accept fd w).2 = ({[(sys_accept fd w).1]} ∪ open_fds w)) \/
                     ((sys_accept fd w).1 < 0 /\ open_fds (sys_accept fd w).2 = open_fds w);
  open_close fd w : open_fds (sys_close fd w) = open_fds w ∖ {[fd]};
  open_lstat p w : open_fds (sys_lstat p w).2 = open_fds w;
  open_unlink p w : open_fds (sys_unlink p w).2 = open_fds w;
  open_bind fd p w : open_fds (sys_bind fd p w).2 = open_fds w;
  open_listen fd w : open_fds (sys_listen fd w).2 = open_fds w;
  open_connect fd p w : open_fds (sys_connect fd p w).2 = open_fds w;
  open_getfl fd w : open_fds (sys_getfl fd w).2 = open_fds w;
  open_setfl fd fl w : open_fds (sys_setfl fd fl w).2 = open_fds w;
  open_send fd bs w : open_fds (sys_send fd bs w).2 = open_fds w;
  open_recv fd n w : open_fds (sys_recv fd n w).2 = open_fds w;
  send_count fd bs w : (sys_send fd bs w).1 <= Z.of_nat (length bs);
  recv_count fd n w : 0 < (sys_recv fd n w).1.1 ->
    (sys_recv fd n w).1.1 = Z.of_nat (length (sys_recv fd n w).1.2) /\ (length (sys_recv fd n w).1.2 <= n)%nat /\
    (rx_left (sys_recv fd n w).2 + length (sys_recv fd n w).1.2 <= rx_left w)%nat;
  recv_bytes fd n w : Forall in_u8 (sys_recv fd n w).1.2;
  left_recv fd n w : (rx_left (sys_recv fd n w).2 <= rx_left w)%nat;
  left_close fd w : rx_left (sys_close fd w) = rx_left w;
  left_accept fd w : rx_left (sys_accept fd w).2 = rx_left w;
  left_getfl fd w : rx_left (sys_getfl fd w).2 = rx_left w;
  left_setfl fd fl w : rx_left (sys_setfl fd fl w).2 = rx_left w;
  left_send fd bs w : rx_left (sys_send fd bs w).2 = rx_left w
}.

(** ** socket_transport.cpp *)
Module SocketTransport.

Record SocketTransport := { listen_fd_ : Z; conn_fd_ : Z }.
#[global] Instance eta_SocketTransport : Eta SocketTransport := fun t =>
  {| listen_fd_ := listen_fd_ t; conn_fd_ := conn_fd_ t |}.

(** [sizeof(sockaddr_un{}.sun_path)] on Linux. *)
Definition kSunPath : nat := 108.

(** A path that is not null and fits. *)
Definition usable (path : option string) : option string :=
  match path with
  | Some p => if (kSunPath <=? String.length p)%nat then None else Some p
  | None => None
  end.

Section Transport.
Context {W : Type} `{ISockets W}.

Definition O_NONBLOCK : Z := 0x800.

Definition set_nonblocking (fd : Z) (w : W) : bool * W :=
  let '(flags, w) := sys_getfl fd w in
  if flags >=? 0 then sys_setfl fd (Z.lor flags O_NONBLOCK) w else (false, w).

(** Whether the place for a new socket is free, after an old one was removed. *)
Definition clear_path (p : string) (w : W) : bool * W :=
  let '(status, w) := sys_lstat p w in
  match status with
  | Existing is_socket owned => if negb is_socket || negb owned then (false, w) else sys_unlink p w
  | Missing => (true, w)
  | Unreadable => (false, w)
  end.

Definition none : SocketTransport := {| listen_fd_ := -1; conn_fd_ := -1 |}.

Definition listen_on (path : option string) (w : W) : SocketTransport * W :=
  match usable path with
  | None => (none, w)
  | Some p =>
      let '(fd, w) := sys_socket w in
      if fd <? 0 then (none, w)
      else
        let '(free, w) := clear_path p w in
        if negb free then (none, sys_close fd w)
        else
          let '(bound, w) := sys_bind fd p w in
          if negb bound then (none, sys_close fd w)
          else
            let '(listening, w) := sys_listen fd w in
            if negb listening then (none, sys_close fd w)
            else
              let '(nonblocking, w) := set_nonblocking fd w in
              if negb nonblocking then (none, sys_close fd w)
              else ({| listen_fd_ := fd; conn_fd_ := -1 |}, w)
  end.

Definition connect_to (path : option string) (w : W) : SocketTransport * W :=
  match usable path with
  | None => (none, w)
  | Some p =>
      let '(fd, w) := sys_socket w in
      if fd <? 0 then (none, w)
      else
        let '(reached, w) := sys_connect fd p w in
        if negb reached then (none, sys_close fd w)
        else
          let '(nonblocking, w) := set_nonblocking fd w in
          if negb nonblocking then (none, sys_close fd w)
          else ({| listen_fd_ := -1; conn_fd_ := fd |}, w)
  end.

(** The move constructor: the new object and what is left of the other. *)
Definition move (other : SocketTransport) : SocketTransport * SocketTransport := (other, none).

(** The destructor. *)
Definition close_if (fd : Z) (w : W) : W := if fd >=? 0 then sys_close fd w else w.
Definition destroy (t : SocketTransport) (w : W) : W := close_if (listen_fd_ t) (close_if (conn_fd_ t) w).

Definition accept_pending (t : SocketTransport) (w : W) : SocketTransport * W :=
  if (listen_fd_ t <? 0) || (conn_fd_ t >=? 0) then (t, w)
  else
    let '(fd, w) := sys_accept (listen_fd_ t) w in
    if fd >=? 0 then
      let '(nonblocking, w) := set_nonblocking fd w in
      if negb nonblocking then (t, sys_close fd w) else (t <| conn_fd_ := fd |>, w)
    else (t, w).

Definition connected (t : SocketTransport) (w : W) : bool * SocketTransport * W :=
  let '(t, w) := accept_pending t w in (conn_fd_ t >=? 0, t, w).

Definition valid (t : SocketTransport) : bool := (listen_fd_ t >=? 0) || (conn_fd_ t >=? 0).

Definition write (data : list Z) (t : SocketTransport) (w : W) : nat * SocketTransport * W :=
  let '(t, w) := accept_pending t w in
  if conn_fd_ t <? 0 then (O, t, w)
  else
    let '(written, w) := sys_send (conn_fd_ t) data w in
    if written <? 0 then (O, t, w) else (Z.to_nat written, t, w).

Definition read (t : SocketTransport) (w : W) : option Z * SocketTransport * W :=
  let '(t, w) := accept_pending t w in
  if conn_fd_ t <? 0 then (None, t, w)
  else
    let '(got, bytes, w) := sys_recv (conn_fd_ t) 1 w in
    if got =? 1 then (head bytes, t, w)
    else if got =? 0 then (None, t <| conn_fd_ := -1 |>, sys_close (conn_fd_ t) w)
    else (None, t, w).
End Transport.
End SocketTransport.

(** * Theorems *)

(** ** Descriptors *)

Section Ownership.
Import SocketTransport.
Context {W : Type} `{SocketLaws W}.

(** The descriptors among [fds] that are valid. *)
Definition valid_fds (fds : list Z) : gset Z := list_to_set (filter (fun fd => 0 <= fd) fds).

(** The world has the descriptors [base] and, apart from them, exactly the
    valid ones of [fds] open. *)
Definition holds (base : gset Z) (fds : list Z) (w : W) : Prop :=
  open_fds w = base ∪ valid_fds fds /\ base ## valid_fds fds /\ NoDup (filter (fun fd => 0 <= fd) fds).

Lemma valid_fds_cons fd fds : valid_fds (fd :: fds) = (if decide (0 <= fd) then {[fd]} else ∅) ∪ valid_fds fds.
Proof. unfold valid_fds. rewrite filter_cons. destruct (decide (0 <= fd)); [reflexivity|set_solver]. Qed.

Lemma holds_skip base fd fds w : fd < 0 -> holds base (fd :: fds) w <-> holds base fds w.
Proof.
  intros N. unfold holds. rewrite valid_fds_cons, filter_cons. rewrite !decide_False by lia.
  now rewrite (left_id_L ∅ (∪)).
Qed.

(** Opening a descriptor. *)
Lemma holds_open base fds w fd w' : holds base fds w ->
  (0 <= fd /\ (fd ∉ open_fds w) /\ open_fds w' = {[fd]} ∪ open_fds w) \/ (fd < 0 /\ open_fds w' = open_fds w) ->
  holds base (fd :: fds) w'.
Proof.
  intros (O & D & N) [(P & F & O')|[P O']].
  - unfold holds. rewrite valid_fds_cons, filter_cons, !decide_True by exact P. rewrite O', O in *.
    split_and!; [set_solver|set_solver|]. constructor; [|exact N]. unfold valid_fds in F. set_solver.
  - apply holds_skip; [exact P|]. unfold holds. now rewrite O'.
Qed.

(** Closing the first one. *)
Lemma holds_close base fd fds w : 0 <= fd -> holds base (fd :: fds) w -> holds base fds (sys_close fd w).
Proof.
  intros P (O & D & N). unfold holds in *. rewrite valid_fds_cons, filter_cons, !decide_True in * by exact P.
  inversion N as [|? ? Nin N']; subst. rewrite open_close, O.
  assert (F : fd ∉ valid_fds fds) by (unfold valid_fds; set_solver). split_and!; [set_solver|set_solver|exact N'].
Qed.

Lemma holds_same base fds w w' : open_fds w' = open_fds w -> holds base fds w -> holds base fds w'.
Proof. unfold holds. now intros ->. Qed.

Lemma holds_swap base a b w : holds base [a; b] w -> holds base [b; a] w.
Proof.
  intros (O & D & N).
  assert (P : [a; b] ≡ₚ [b; a]) by apply Permutation_swap.
  split_and!; [rewrite O; f_equal; apply list_to_set_perm_L, filter_Permutation, P| |].
  - assert (E : valid_fds [b; a] = valid_fds [a; b]) by (apply list_to_set_perm_L, filter_Permutation; symmetry; exact P).
    now rewrite E.
  - revert N. now rewrite (filter_Permutation _ _ _ P).
Qed.

Lemma holds_nil base w : open_fds w = base -> holds base [] w.
Proof. intros <-. split_and!; [set_solver|set_solver|constructor]. Qed.

Lemma holds_none base w : holds base [] w -> open_fds w = base.
Proof. intros (O & _ & _). rewrite O. set_solver. Qed.

(** What a transport holds. *)
Definition owns (base : gset Z) (t : SocketTransport) (w : W) : Prop := holds base [conn_fd_ t; listen_fd_ t] w.

Lemma set_nonblocking_opens fd (w : W) : open_fds (set_nonblocking fd w).2 = open_fds w.
Proof.
  unfold set_nonblocking. pose proof (open_getfl fd w) as G. destruct (sys_getfl fd w) as [fl w1]. cbn [snd] in G.
  destruct (fl >=? 0); [|exact G]. now rewrite open_setfl.
Qed.

Lemma clear_path_opens p (w : W) : open_fds (clear_path p w).2 = open_fds w.
Proof.
  unfold clear_path. pose proof (open_lstat p w) as G. destruct (sys_lstat p w) as [st w1]. cbn [snd] in G.
  destruct st as [s o| |]; try exact G. destruct (_ || _); [exact G|]. now rewrite open_unlink.
Qed.

Lemma owns_none base (w : W) : open_fds w = base -> owns base none w.
Proof. intros E. unfold owns. cbn. rewrite !holds_skip by lia. now apply holds_nil. Qed.

Lemma closed_none base fd w : 0 <= fd -> holds base [fd] w -> owns base none (sys_close fd w).
Proof. intros P K. apply owns_none, holds_none. now apply holds_close. Qed.

Lemma listen_on_owns path (w : W) : owns (open_fds w) (listen_on path w).1 (listen_on path w).2.
Proof.
  unfold listen_on. destruct (usable path) as [p|]; [|now apply owns_none].
  pose proof (holds_open _ [] w _ _ (holds_nil _ w eq_refl) (open_socket w)) as K.
  destruct (sys_socket w) as [fd w1]. cbn [fst snd] in K.
  destruct (Z.ltb_spec fd 0) as [N|P]; [cbn [fst snd]; apply owns_none, holds_none; now apply holds_skip in K|].
  pose proof (clear_path_opens p w1) as G1. destruct (clear_path p w1) as [[] w2]; cbn [negb snd] in *;
    apply (holds_same _ _ _ _ G1) in K; [|now apply closed_none].
  pose proof (open_bind fd p w2) as G2. destruct (sys_bind fd p w2) as [[] w3]; cbn [negb snd] in *;
    apply (holds_same _ _ _ _ G2) in K; [|now apply closed_none].
  pose proof (open_listen fd w3) as G3. destruct (sys_listen fd w3) as [[] w4]; cbn [negb snd] in *;
    apply (holds_same _ _ _ _ G3) in K; [|now apply closed_none].
  pose proof (set_nonblocking_opens fd w4) as G4. destruct (set_nonblocking fd w4) as [[] w5]; cbn [negb snd] in *;
    apply (holds_same _ _ _ _ G4) in K; [|now apply closed_none].
  unfold owns. cbn. apply holds_skip; [lia|exact K].
Qed.

Lemma connect_to_owns path (w : W) : owns (open_fds w) (connect_to path w).1 (connect_to path w).2.
Proof.
  unfold connect_to. destruct (usable path) as [p|]; [|now apply owns_none].
  pose proof (holds_open _ [] w _ _ (holds_nil _ w eq_refl) (open_socket w)) as K.
  destruct (sys_socket w) as [fd w1]. cbn [fst snd] in K.
  destruct (Z.ltb_spec fd 0) as [N|P]; [cbn [fst snd]; apply owns_none, holds_none; now apply holds_skip in K|].
  pose proof (open_connect fd p w1) as G1. destruct (sys_connect fd p w1) as [[] w2]; cbn [negb snd] in *;
    apply (holds_same _ _ _ _ G1) in K; [|now apply closed_none].
  pose proof (set_nonblocking_opens fd w2) as G2. destruct (set_nonblocking fd w2) as [[] w3]; cbn [negb snd] in *;
    apply (holds_same _ _ _ _ G2) in K; [|now apply closed_none].
  unfold owns. cbn. apply holds_swap, holds_skip; [lia|exact K].
Qed.

(** Only a listening transport without a partner accepts one. *)
Lemma accept_owns base t (w : W) : owns base t w -> owns base (accept_pending t w).1 (accept_pending t w).2.
Proof.
  intros K. unfold accept_pending. destruct (Z.ltb_spec (listen_fd_ t) 0) as [|P]; [exact K|].
  destruct (Z.geb_spec (conn_fd_ t) 0) as [|N]; [exact K|]. cbn [orb]. unfold owns in *. apply holds_skip in K; [|lia].
  pose proof (holds_open _ _ _ _ _ K (open_accept (listen_fd_ t) w)) as K1.
  destruct (sys_accept (listen_fd_ t) w) as [fd w1]. cbn [fst snd] in K1.
  destruct (Z.geb_spec fd 0) as [P1|N1]; cbn [fst snd].
  - pose proof (set_nonblocking_opens fd w1) as G. destruct (set_nonblocking fd w1) as [[] w2]; cbn [negb snd fst] in *;
      apply (holds_same _ _ _ _ G) in K1; [exact K1|].
    apply holds_skip; [lia|]. apply holds_close; [lia|exact K1].
  - apply holds_skip; [lia|]. now apply holds_skip in K1.
Qed.

(** The uses of a transport. *)
Inductive transport_op := Connected | Write (data : list Z) | Read.

Definition use (op : transport_op) (t : SocketTransport) (w : W) : SocketTransport * W :=
  match op with
  | Connected => let '(_, t, w) := connected t w in (t, w)
  | Write data => let '(_, t, w) := write data t w in (t, w)
  | Read => let '(_, t, w) := read t w in (t, w)
  end.

Fixpoint use_all (ops : list transport_op) (t : SocketTransport) (w : W) : SocketTransport * W :=
  match ops with
  | [] => (t, w)
  | op :: ops => let '(t, w) := use op t w in use_all ops t w
  end.

Lemma use_owns base op t (w : W) : owns base t w -> owns base (use op t w).1 (use op t w).2.
Proof.
  intros K. apply accept_owns in K. destruct op as [|data|]; unfold use, connected, write, read;
    destruct (accept_pending t w) as [t1 w1]; cbn [fst snd] in K.
  - exact K.
  - destruct (conn_fd_ t1 <? 0); [exact K|]. pose proof (open_send (conn_fd_ t1) data w1) as G.
    destruct (sys_send _ _ _) as [n w2]. cbn [snd] in G. apply (holds_same _ _ _ _ G) in K. now destruct (n <? 0).
  - destruct (Z.ltb_spec (conn_fd_ t1) 0) as [|P]; [exact K|]. pose proof (open_recv (conn_fd_ t1) 1 w1) as G.
    destruct (sys_recv _ _ _) as [[n bs] w2]. cbn [snd] in G. apply (holds_same _ _ _ _ G) in K.
    destruct (n =? 1); [exact K|]. destruct (n =? 0); [|exact K]. cbn [fst snd]. unfold owns in *. simp_set.
    apply holds_skip; [lia|]. now apply holds_close.
Qed.

Lemma use_all_owns base ops : forall t (w : W), owns base t w -> owns base (use_all ops t w).1 (use_all ops t w).2.
Proof.
  induction ops as [|op ops IH]; intros t w K; [exact K|]. cbn [use_all]. apply (use_owns base op) in K.
  destruct (use op t w) as [t1 w1]. now apply IH.
Qed.

Lemma close_if_holds base fd fds (w : W) : holds base (fd :: fds) w -> holds base fds (close_if fd w).
Proof.
  intros K. unfold close_if. destruct (Z.geb_spec fd 0) as [P|N]; [apply holds_close; [lia|exact K]|].
  apply holds_skip in K; [exact K|lia].
Qed.

Lemma destroy_releases base t (w : W) : owns base t w -> open_fds (destroy t w) = base.
Proof. intros K. apply holds_none. unfold destroy. now apply close_if_holds, close_if_holds. Qed.

End Ownership.

(** ** Properties *)

Section SocketProperties.
Import SocketTransport.
Context {W : Type} `{SocketLaws W}.

(** A socket transport neither leaks nor loses a descriptor: whatever the
    system answers, on every error path of listening, connecting, accepting and
    receiving, a transport holds exactly the descriptors that were opened for it
    and are still open; moving one leaves nothing behind to be closed twice; and
    after its destructor exactly those descriptors are open that were open
    before it was made. *)
Theorem transports_release_their_sockets (server : bool) path ops (w : W) :
  let make := if server then listen_on path w else connect_to path w in
  let '(t, w') := let '(t, w) := make in use_all ops t w in
  owns (open_fds w) t w' /\ (move t).1 = t /\ destroy (move t).2 w' = w' /\ open_fds (destroy t w') = open_fds w.
Proof.
  intros make. assert (K : owns (open_fds w) make.1 make.2)
    by (subst make; destruct server; [apply listen_on_owns|apply connect_to_owns]).
  destruct make as [t1 w1]. apply (use_all_owns _ ops) in K. cbn [fst snd] in K.
  destruct (use_all ops t1 w1) as [t w']. split_and!; [exact K|reflexivity|reflexivity|]. now apply destroy_releases.
Qed.

End SocketProperties.
