(* ===== verification/SimControl.v ===== *)
(** * The control socket of the simulator (src/src/sim/sim_control_server.cpp)

    A partner sends lines that change the simulated board; every line is answered
    on the socket. *)

From Stdlib Require Import Ascii.
From stdpp Require Import gmap sets.
From S2P Require Import Prelude.
From S2P Require Import Float32.
From S2P Require Import Hal.
From S2P Require Import Sim.
From S2P Require Import CString.
From S2P Require Import Sockets.

(** ** Extraction from a stream

    What [operator>>] of an [istringstream] takes from the text that is left:
    nothing when it fails. *)
Module Stream.

Fixpoint span (p : ascii -> bool) (s : string) : string * string :=
  match s with
  | String c s' => if p c then let '(a, b) := span p s' in (String c a, b) else (EmptyString, s)
  | EmptyString => (EmptyString, EmptyString)
  end.

Definition next_word (s : string) : option (string * string) :=
  let '(word, rest) := span (fun c => negb (is_space c)) (skip_while is_space s) in
  if bool_decide (word = "") then None else Some (word, rest).

(** The characters of a number: digits with at most one point, and once there
    was a digit an exponent. *)
Fixpoint take_mantissa (digits dot : bool) (s : string) : string * bool * string :=
  match s with
  | String c s' =>
      if bool_decide (is_Some (digit_value c)) then
        let '(a, d, b) := take_mantissa true dot s' in (String c a, d, b)
      else if Ascii.eqb c "." && negb dot then
        let '(a, d, b) := take_mantissa digits true s' in (String c a, d, b)
      else (EmptyString, digits, s)
  | EmptyString => (EmptyString, digits, EmptyString)
  end.

Definition take_sign (s : string) : string * string :=
  match s with
  | String c s' => if Ascii.eqb c "+" || Ascii.eqb c "-" then (String c EmptyString, s') else (EmptyString, s)
  | EmptyString => (EmptyString, s)
  end.

Definition take_exponent (s : string) : string * string :=
  match s with
  | String c s' =>
      if Ascii.eqb c "e" || Ascii.eqb c "E" then
        let '(sign, s'') := take_sign s' in
        let '(digits, rest) := span (fun c => bool_decide (is_Some (digit_value c))) s'' in
        (String c (sign +:+ digits), rest)
      else (EmptyString, s)
  | EmptyString => (EmptyString, s)
  end.

Definition take_number (s : string) : string * string :=
  let '(sign, s) := take_sign s in
  let '(mantissa, digits, s) := take_mantissa false false s in
  let '(exponent, rest) := if digits then take_exponent s else (EmptyString, s) in
  (sign +:+ mantissa +:+ exponent, rest).

(** The field is converted as a whole; a number out of range fails. *)
Definition next_float (s : string) : option (f32 * string) :=
  let '(field, rest) := take_number (skip_while is_space s) in
  '(value, _, unread) ← strtof field;
  if bool_decide (unread = "") && isfinite value then Some (value, rest) else None.
End Stream.

(** ** sim_control_server.cpp *)
Module SimControlServer.

Record SimControlServer := { listen_fd_ : Z; conn_fd_ : Z; input_ : string }.
#[global] Instance eta_SimControlServer : Eta SimControlServer := fun s =>
  {| listen_fd_ := listen_fd_ s; conn_fd_ := conn_fd_ s; input_ := input_ s |}.

Definition viscosity_for (ingredient : string) : f32 :=
  if bool_decide (ingredient = "water") then of_Z 1
  else if bool_decide (ingredient = "oil") then lit 18 10
  else if bool_decide (ingredient = "flour") then lit 65 10
  else of_Z 2.

Definition ingredients : list string := ["water"; "oil"; "flour"; "other"].

Definition line_of (text : string) : string := text +:+ String newline EmptyString.

Section Server.
Context {N : Type} `{NoiseSource N} {W : Type} `{ISockets W}.

(** The arguments of [add]: a mass and an ingredient, and nothing behind them. *)
Definition parse_add (stream : string) : option (f32 * string) :=
  '(grams, stream) ← Stream.next_float stream;
  '(ingredient, stream) ← Stream.next_word stream;
  match Stream.next_word stream with Some _ => None | None => Some (grams, ingredient) end.

Definition parse_lid (stream : string) : option string :=
  '(action, stream) ← Stream.next_word stream;
  match Stream.next_word stream with Some _ => None | None => Some action end.

(** The response and the board. *)
Definition execute (line : string) (board : SimBoard.SimBoard N) : string * SimBoard.SimBoard N :=
  let '(command, stream) := default ("", "") (Stream.next_word line) in
  if bool_decide (command = "add") then
    let bad := (line_of "error invalid add command", board) in
    match parse_add stream with
    | None => bad
    | Some (grams, ingredient) =>
        if negb (isfinite grams) || flt grams (lit 1 10) ||
           fgt grams (fsub (of_Z 2200) (SimBoard.true_mass_g board)) || negb (bool_decide (ingredient ∈ ingredients))
        then bad
        else (line_of "ok", SimBoard.set_viscosity (viscosity_for ingredient) (SimBoard.add_mass grams board))
    end
  else if bool_decide (command = "lid") then
    let bad := (line_of "error invalid lid command", board) in
    match parse_lid stream with
    | None => bad
    | Some action =>
        if bool_decide (action = "open") then (line_of "ok", SimBoard.open_lid board)
        else if bool_decide (action = "close") then (line_of "ok", SimBoard.close_lid board)
        else bad
    end
  else (line_of "error unknown command", board).

(** The bytes of a string, and back. *)
Definition bytes_of (s : string) : list Z := (fun c => Z.of_nat (nat_of_ascii c)) <$> Strings.String.list_ascii_of_string s.
Definition string_of (bytes : list Z) : string := Strings.String.string_of_list_ascii ((fun b => ascii_of_nat (Z.to_nat b)) <$> bytes).

Definition send_response (fd : Z) (response : string) (w : W) : W := (sys_send fd (bytes_of response) w).2.

(** The lines [find] and [erase] take off the input one by one, and what is
    left of it: the parts of the input between the newlines. *)
Fixpoint serve_lines (fd : Z) (parts : list string) (board : SimBoard.SimBoard N) (w : W)
    : string * SimBoard.SimBoard N * W :=
  match parts with
  | [] => (EmptyString, board, w)
  | [rest] => (rest, board, w)
  | line :: parts =>
      let '(response, board) := execute line board in
      serve_lines fd parts board (send_response fd response w)
  end.

Definition kMaxLine : nat := 512.

Definition process_lines (s : SimControlServer) (board : SimBoard.SimBoard N) (w : W)
    : SimControlServer * SimBoard.SimBoard N * W :=
  let '(rest, board, w) := serve_lines (conn_fd_ s) (split_on newline (input_ s)) board w in
  if (kMaxLine <? String.length rest)%nat
  then (s <| input_ := "" |>, board, send_response (conn_fd_ s) (line_of "error command too long") w)
  else (s <| input_ := rest |>, board, w).

Definition accept_pending (s : SimControlServer) (w : W) : SimControlServer * W :=
  if (listen_fd_ s <? 0) || (conn_fd_ s >=? 0) then (s, w)
  else
    let '(fd, w) := sys_accept (listen_fd_ s) w in
    if fd >=? 0 then
      let '(nonblocking, w) := SocketTransport.set_nonblocking fd w in
      if negb nonblocking then (s, sys_close fd w) else (s <| conn_fd_ := fd |> <| input_ := "" |>, w)
    else (s, w).

(** The loop of [poll]; [fuel] bounds its turns. *)
Fixpoint recv_loop (fuel : nat) (s : SimControlServer) (board : SimBoard.SimBoard N) (w : W)
    : outcome (SimControlServer * SimBoard.SimBoard N * W) :=
  match fuel with
  | O => OutOfFuel
  | S fuel =>
      let '(count, bytes, w) := sys_recv (conn_fd_ s) 256 w in
      if count >? 0 then
        let '(s, board, w) := process_lines (s <| input_ := input_ s +:+ string_of bytes |>) board w in
        recv_loop fuel s board w
      else if count =? 0 then
        Ret (s <| conn_fd_ := -1 |> <| input_ := "" |>, board, sys_close (conn_fd_ s) w)
      else Ret (s, board, w)
  end.

Definition poll (s : SimControlServer) (board : SimBoard.SimBoard N) (w : W)
    : outcome (SimControlServer * SimBoard.SimBoard N * W) :=
  let '(s, w) := accept_pending s w in
  if conn_fd_ s <? 0 then Ret (s, board, w) else recv_loop (S (rx_left w)) s board w.

Definition none : SimControlServer := {| listen_fd_ := -1; conn_fd_ := -1; input_ := "" |}.

(** [has_board] tells whether [board] is not null. *)
Definition listen_on (path : option string) (has_board : bool) (w : W) : SimControlServer * W :=
  match path with
  | None => (none, w)
  | Some p =>
      if negb has_board || (SocketTransport.kSunPath <=? String.length p)%nat then (none, w)
      else
        let '(fd, w) := sys_socket w in
        if fd <? 0 then (none, w)
        else
          let '(free, w) := SocketTransport.clear_path p w in
          if negb free then (none, sys_close fd w)
          else
            let '(bound, w) := sys_bind fd p w in
            if negb bound then (none, sys_close fd w)
            else
              let '(listening, w) := sys_listen fd w in
              if negb listening then (none, sys_close fd w)
              else
                let '(nonblocking, w) := SocketTransport.set_nonblocking fd w in
                if negb nonblocking then (none, sys_close fd w)
                else ({| listen_fd_ := fd; conn_fd_ := -1; input_ := "" |}, w)
  end.

Definition move (other : SimControlServer) : SimControlServer * SimControlServer :=
  (other, other <| listen_fd_ := -1 |> <| conn_fd_ := -1 |> <| input_ := "" |>).

Definition destroy (s : SimControlServer) (w : W) : W :=
  SocketTransport.close_if (listen_fd_ s) (SocketTransport.close_if (conn_fd_ s) w).

Definition valid (s : SimControlServer) : bool := listen_fd_ s >=? 0.
End Server.
End SimControlServer.

(** * Theorems *)

Section ControlTheory.
Import SimControlServer.
Context {N : Type} `{NoiseSource N} {W : Type} `{SocketLaws W}.

Implicit Types board : SimBoard.SimBoard N.
Implicit Types w : W.

(** ** Commands *)

(** What a partner can do to the board. *)
Inductive user_action board : SimBoard.SimBoard N -> Prop :=
| adds_mass grams ingredient : fin grams = true -> flt grams (lit 1 10) = false ->
    fgt grams (fsub (of_Z 2200) (SimBoard.true_mass_g board)) = false -> ingredient ∈ ingredients ->
    user_action board (SimBoard.set_viscosity (viscosity_for ingredient) (SimBoard.add_mass grams board))
| opens : user_action board (SimBoard.open_lid board)
| closes : user_action board (SimBoard.close_lid board).

Lemma parse_add_fin stream grams ingredient : parse_add stream = Some (grams, ingredient) -> isfinite grams = true -> fin grams = true.
Proof.
  unfold parse_add, Stream.next_float. intros E F. apply bind_Some in E as ([g s1] & E1 & E).
  destruct (Stream.take_number _) as [field rest]. apply bind_Some in E1 as ([[v e] unread] & S & E1).
  apply bind_Some in E as ([i s2] & _ & E). destruct (_ && _); [|discriminate]. destruct (Stream.next_word s2); [discriminate|].
  simplify_eq. exact (strtof_fin _ _ _ _ S F).
Qed.

Lemma execute_spec line board :
  let '(response, board') := execute line board in
  (response = line_of "ok" /\ user_action board board') \/
  (response ∈ [line_of "error invalid add command"; line_of "error invalid lid command"; line_of "error unknown command"] /\
   board' = board).
Proof.
  unfold execute. destruct (default _ _) as [command stream]. destruct (bool_decide (command = "add")).
  - destruct (parse_add stream) as [[grams ingredient]|] eqn:P; [|right; split; [set_solver|reflexivity]].
    destruct (negb (isfinite grams) || _ || _ || _) eqn:B; [right; split; [set_solver|reflexivity]|]. left. split; [reflexivity|].
    apply orb_false_iff in B as [B B4]. apply orb_false_iff in B as [B B3]. apply orb_false_iff in B as [B1 B2].
    apply negb_false_iff in B1, B4. apply bool_decide_eq_true in B4. apply parse_add_fin in P; [|exact B1]. now constructor.
  - destruct (bool_decide (command = "lid")); [|right; split; [set_solver|reflexivity]].
    destruct (parse_lid stream) as [action|]; [|right; split; [set_solver|reflexivity]].
    destruct (bool_decide (action = "open")); [left; split; [reflexivity|constructor]|].
    destruct (bool_decide (action = "close")); [left; split; [reflexivity|constructor]|].
    right; split; [set_solver|reflexivity].
Qed.

(** The board after a list of lines. *)
Definition obey (lines : list string) board : SimBoard.SimBoard N := fold_left (fun b line => (execute line b).2) lines board.

Lemma obey_actions lines : forall board, rtc user_action board (obey lines board).
Proof.
  induction lines as [|line lines IH]; intros board; [constructor|]. cbn. pose proof (execute_spec line board) as S.
  destruct (execute line board) as [r b]. destruct S as [[_ A]|[_ ->]]; [|apply IH]. eapply rtc_l; [exact A|apply IH].
Qed.

Lemma actions_bowl board board' : rtc user_action board board' -> bowl_ok board -> bowl_ok board'.
Proof.
  induction 1 as [|b1 b2 b3 A _ IH]; [easy|]. intros K. apply IH. destruct A as [g i F L U I| |]; [|exact K..].
  now apply add_bowl_ok.
Qed.

(** ** Lines *)

Lemma split_on_cons c a s t : split_on c (String a s +:+ t) =
  if Ascii.eqb a c then "" :: split_on c (s +:+ t)
  else match split_on c (s +:+ t) with [] => [String a ""] | x :: xs => String a x :: xs end.
Proof. reflexivity. Qed.

Lemma split_on_nonempty c t : exists x ys, split_on c t = x :: ys.
Proof.
  destruct t as [|a t]; cbn [split_on]; [eauto|]. destruct (Ascii.eqb a c); [eauto|]. destruct (split_on c t); eauto.
Qed.

(** The parts of a text: the last one, [r], goes on in what follows. *)
Lemma split_on_parts c s : exists xs r, split_on c s = xs ++ [r] /\
  (forall t, split_on c (s +:+ t) = xs ++ split_on c (r +:+ t)) /\
  forall t, exists x ys, split_on c (r +:+ t) = (r +:+ x) :: ys.
Proof.
  induction s as [|a s (xs & r & E & A & B)].
  { exists [], "". split_and!; [reflexivity|reflexivity|]. intros t. apply split_on_nonempty. }
  cbn [split_on]. destruct (Ascii.eqb a c) eqn:C.
  - exists ("" :: xs), r. split_and!; [now rewrite E| |exact B]. intros t. now rewrite split_on_cons, C, A.
  - destruct xs as [|x xs].
    + exists [], (String a r). rewrite E. split_and!; [reflexivity| |]; intros t; cbn [app].
      * rewrite !split_on_cons, C, A. reflexivity.
      * destruct (B t) as (x & ys & F). rewrite split_on_cons, C, F. now exists x, ys.
    + exists (String a x :: xs), r. rewrite E. split_and!; [reflexivity| |exact B]. intros t. now rewrite split_on_cons, C, A.
Qed.

Lemma serve_lines_app fd xs rest : forall board w,
  serve_lines fd (xs ++ rest) board w =
  match rest with
  | [] => serve_lines fd xs board w
  | _ => let '(_, board, w) := serve_lines fd (xs ++ [""]) board w in serve_lines fd rest board w
  end.
Proof.
  destruct rest as [|r rest]; [intros; now rewrite app_nil_r|].
  induction xs as [|x xs IH]; intros board w; [reflexivity|].
  assert (C : forall ys, ys <> [] -> serve_lines fd (x :: ys) board w =
    let '(response, board) := execute x board in serve_lines fd ys board (send_response fd response w)).
  { intros [|y ys] N0; [congruence|reflexivity]. }
  cbn [app]. rewrite !C by (now destruct xs). destruct (execute x board) as [resp b]. apply IH.
Qed.

Lemma serve_lines_result fd xs r : forall board w, exists w',
  serve_lines fd (xs ++ [r]) board w = (r, obey xs board, w') /\ open_fds w' = open_fds w /\ rx_left w' = rx_left w.
Proof.
  induction xs as [|x xs IH]; intros board w; [now exists w|]. cbn [app serve_lines].
  destruct (xs ++ [r]) as [|y ys] eqn:E; [now destruct xs|]. unfold obey. cbn [fold_left].
  destruct (execute x board) as [resp b]. cbn [snd]. destruct (IH b (send_response fd resp w)) as (w' & S & O & L).
  exists w'. split; [exact S|]. unfold send_response in *. now rewrite O, L, open_send, left_send.
Qed.

(** A chunk of input arrives. *)
Definition feed (chunk : string) (st : SimControlServer * SimBoard.SimBoard N * W)
    : SimControlServer * SimBoard.SimBoard N * W :=
  let '(s, board, w) := st in process_lines (s <| input_ := input_ s +:+ chunk |>) board w.

Definition feed_all (chunks : list string) (st : SimControlServer * SimBoard.SimBoard N * W) :=
  fold_left (fun st chunk => feed chunk st) chunks st.

(** No line of the text is too long. *)
Definition short (s : string) : Prop := Forall (fun line => (String.length line <= kMaxLine)%nat) (split_on newline s).

Lemma length_append (a b : string) : String.length (a +:+ b) = (String.length a + String.length b)%nat.
Proof. induction a as [|x a IH]; [reflexivity|]. exact (f_equal S IH). Qed.

(** What is left behind the last newline. *)
Definition pending_of (s : string) : string := List.last (split_on newline s) "".

Lemma feed_feed a b s board w : short (input_ s +:+ a +:+ b) ->
  feed b (feed a (s, board, w)) = feed (a +:+ b) (s, board, w) /\
  input_ (feed a (s, board, w)).1.1 = pending_of (input_ s +:+ a) /\
  short (pending_of (input_ s +:+ a) +:+ b).
Proof.
  intros Sh. rewrite <- append_assoc in Sh. unfold feed, process_lines, pending_of, short in *. simp_set.
  rewrite <- append_assoc. destruct (split_on_parts newline (input_ s +:+ a)) as (xs & r & E & A & B). rewrite A, E in *.
  destruct (B b) as (x & ys & F). apply Forall_app in Sh as [_ Sh].
  assert (Lr : (String.length r <= kMaxLine)%nat).
  { rewrite F in Sh. inversion Sh as [|? ? L _]. rewrite length_append in L. lia. }
  rewrite List.last_last. rewrite (serve_lines_app _ xs [r]), (serve_lines_app _ xs (split_on newline (r +:+ b))).
  destruct (serve_lines (conn_fd_ s) (xs ++ [""]) board w) as [[e b1] w1]. cbn [serve_lines].
  rewrite (proj2 (Nat.ltb_ge _ _) Lr). simp_set. cbn [fst]. split_and!; [|reflexivity|exact Sh].
  rewrite F. reflexivity.
Qed.

Lemma concat_cons c cs : String.concat "" (c :: cs) = c +:+ String.concat "" cs.
Proof. destruct cs as [|d cs]; [symmetry; apply append_nil|reflexivity]. Qed.

Lemma feed_all_short chunks : forall chunk s board w, short (input_ s +:+ chunk +:+ String.concat "" chunks) ->
  feed_all (chunk :: chunks) (s, board, w) = feed (chunk +:+ String.concat "" chunks) (s, board, w).
Proof.
  induction chunks as [|c2 chunks IH]; intros chunk s board w Sh.
  - change (String.concat "" []) with "". now rewrite append_nil.
  - rewrite concat_cons in *. destruct (feed_feed chunk (c2 +:+ String.concat "" chunks) s board w Sh) as (F & I & Sh2).
    rewrite <- F. change (feed_all (chunk :: c2 :: chunks) (s, board, w)) with (feed_all (c2 :: chunks) (feed chunk (s, board, w))).
    destruct (feed chunk (s, board, w)) as [[s1 b1] w1]. cbn [fst] in I. apply IH. now rewrite I.
Qed.

(** ** Polling *)

Definition server_owns (base : gset Z) (s : SimControlServer) (w : W) : Prop :=
  holds base [conn_fd_ s; listen_fd_ s] w.

Definition bounded (s : SimControlServer) : Prop := (String.length (input_ s) <= kMaxLine)%nat.

Lemma process_ok s board w : exists s' board' w', process_lines s board w = (s', board', w') /\
  conn_fd_ s' = conn_fd_ s /\ listen_fd_ s' = listen_fd_ s /\ bounded s' /\ rtc user_action board board' /\
  open_fds w' = open_fds w /\ rx_left w' = rx_left w.
Proof.
  unfold process_lines. destruct (split_on_parts newline (input_ s)) as (xs & r & E & _). rewrite E.
  destruct (serve_lines_result (conn_fd_ s) xs r board w) as (w1 & -> & O & L).
  destruct (Nat.ltb_spec kMaxLine (String.length r)) as [G|G]; eexists _, _, _; (split; [reflexivity|]);
    unfold bounded; simp_set; split_and!; auto using obey_actions.
  - cbn. lia.
  - unfold send_response. now rewrite open_send.
  - unfold send_response. now rewrite left_send.
Qed.

(** What [poll] does to a server, its board and the descriptors. *)
Definition polled (s : SimControlServer) (board : SimBoard.SimBoard N) (w : W)
    (r : SimControlServer * SimBoard.SimBoard N * W) : Prop :=
  let '(s', board', w') := r in
  (bounded s -> bounded s') /\ rtc user_action board board' /\
  forall base, server_owns base s w -> server_owns base s' w'.

Lemma recv_loop_ok fuel : forall s board w, 0 <= conn_fd_ s -> (rx_left w < fuel)%nat ->
  exists r, recv_loop fuel s board w = Ret r /\ polled s board w r.
Proof.
  induction fuel as [|fuel IH]; intros s board w P L; [lia|]. cbn [recv_loop].
  pose proof (recv_count (conn_fd_ s) 256 w) as R. pose proof (open_recv (conn_fd_ s) 256 w) as O.
  destruct (sys_recv (conn_fd_ s) 256 w) as [[count bytes] w1]. cbn [fst snd] in *.
  destruct (Z.gtb_spec count 0) as [G|G].
  - destruct (R G) as (Rc & _ & Rl). clear R.
    destruct (process_ok (s <| input_ := input_ s +:+ string_of bytes |>) board w1)
      as (s2 & b2 & w2 & -> & C2 & L2 & B2 & A2 & O2 & X2).
    destruct (IH s2 b2 w2) as ([[s3 b3] w3] & E & B3 & A3 & K3); [rewrite C2; exact P|lia|].
    eexists. split; [exact E|]. split_and!; [intros _; now apply B3|now transitivity b2|].
    intros base K. apply K3. unfold server_owns. rewrite C2, L2. apply (holds_same _ _ w); [congruence|exact K].
  - destruct (Z.eqb_spec count 0).
    + eexists. split; [reflexivity|]. split_and!; [intros _; unfold bounded; simp_set; cbn; lia|constructor|].
      intros base K. unfold server_owns in *. simp_set. apply holds_skip; [lia|]. apply holds_close; [exact P|].
      now apply (holds_same _ _ w).
    + eexists. split; [reflexivity|]. split_and!; [easy|constructor|]. intros base K. now apply (holds_same _ _ w).
Qed.

Lemma accept_server_ok s w :
  let '(s', w') := accept_pending s w in
  (bounded s -> bounded s') /\ forall base, server_owns base s w -> server_owns base s' w'.
Proof.
  unfold accept_pending. destruct (Z.ltb_spec (listen_fd_ s) 0) as [|P]; [now split|].
  destruct (Z.geb_spec (conn_fd_ s) 0) as [|Nc]; [now split|]. cbn [orb]. unfold server_owns in *.
  assert (S : forall base w, holds base [conn_fd_ s; listen_fd_ s] w <-> holds base [listen_fd_ s] w)
    by (intros; apply holds_skip; lia).
  pose proof (fun base fds K => holds_open base fds w _ _ K (open_accept (listen_fd_ s) w)) as K1.
  destruct (sys_accept (listen_fd_ s) w) as [fd w1]. cbn [fst snd] in K1. destruct (Z.geb_spec fd 0) as [P1|N1].
  - pose proof (set_nonblocking_opens fd w1) as G.
    destruct (SocketTransport.set_nonblocking fd w1) as [[] w2]; cbn [negb snd] in *; simp_set.
    + split; [intros _; unfold bounded; simp_set; cbn; lia|]. intros base K.
      exact (holds_same _ _ _ _ G (K1 _ _ (proj1 (S _ _) K))).
    + split; [easy|]. intros base K. apply S, holds_close; [lia|].
      exact (holds_same _ _ _ _ G (K1 _ _ (proj1 (S _ _) K))).
  - split; [easy|]. intros base K. apply S. specialize (K1 _ _ (proj1 (S _ _) K)). now apply holds_skip in K1.
Qed.

Lemma listen_server_ok path has_board w :
  server_owns (open_fds w) (listen_on path has_board w).1 (listen_on path has_board w).2 /\
  bounded (listen_on path has_board w).1.
Proof.
  assert (N0 : forall w', open_fds w' = open_fds w -> server_owns (open_fds w) none w' /\ bounded none).
  { intros w' E. split; [|unfold bounded; cbn; lia]. unfold server_owns. cbn. rewrite !holds_skip by lia. now apply holds_nil. }
  assert (C : forall fd w', 0 <= fd -> holds (open_fds w) [fd] w' ->
    server_owns (open_fds w) none (sys_close fd w') /\ bounded none).
  { intros fd w' P K. apply N0, holds_none. now apply holds_close. }
  unfold listen_on. destruct path as [p|]; [|now apply N0]. destruct (_ || _); [now apply N0|].
  pose proof (holds_open _ [] w _ _ (holds_nil _ w eq_refl) (open_socket w)) as K.
  destruct (sys_socket w) as [fd w1]. cbn [fst snd] in K.
  destruct (Z.ltb_spec fd 0) as [Nf|P]; [apply N0, holds_none; now apply holds_skip in K|].
  pose proof (clear_path_opens p w1) as G1. destruct (SocketTransport.clear_path p w1) as [[] w2]; cbn [negb snd] in *;
    apply (holds_same _ _ _ _ G1) in K; [|now apply C].
  pose proof (open_bind fd p w2) as G2. destruct (sys_bind fd p w2) as [[] w3]; cbn [negb snd] in *;
    apply (holds_same _ _ _ _ G2) in K; [|now apply C].
  pose proof (open_listen fd w3) as G3. destruct (sys_listen fd w3) as [[] w4]; cbn [negb snd] in *;
    apply (holds_same _ _ _ _ G3) in K; [|now apply C].
  pose proof (set_nonblocking_opens fd w4) as G4. destruct (SocketTransport.set_nonblocking fd w4) as [[] w5]; cbn [negb snd] in *;
    apply (holds_same _ _ _ _ G4) in K; [|now apply C].
  split; [unfold server_owns; cbn; apply holds_skip; [lia|exact K]|unfold bounded; cbn; lia].
Qed.

Lemma server_poll_ok s board w : exists r, poll s board w = Ret r /\ polled s board w r.
Proof.
  unfold poll. pose proof (accept_server_ok s w) as A. destruct (accept_pending s w) as [s1 w1]. destruct A as [B1 K1].
  destruct (Z.ltb_spec (conn_fd_ s1) 0).
  - eexists. split; [reflexivity|]. split_and!; [exact B1|constructor|exact K1].
  - destruct (recv_loop_ok (S (rx_left w1)) s1 board w1) as ([[s2 b2] w2] & E & B2 & A2 & K2); [lia|lia|].
    eexists. split; [exact E|]. split_and!; auto.
Qed.

(** A server through its life: the board is changed by others between polls. *)
Fixpoint polls (changes : list (SimBoard.SimBoard N -> SimBoard.SimBoard N)) (s : SimControlServer)
    (board : SimBoard.SimBoard N) (w : W) : outcome (SimControlServer * SimBoard.SimBoard N * W) :=
  match changes with
  | [] => Ret (s, board, w)
  | change :: changes => '(s, board, w) ← poll s (change board) w; polls changes s board w
  end.

Lemma server_polls_ok base changes : forall s board w, server_owns base s w -> bounded s ->
  exists s' board' w', polls changes s board w = Ret (s', board', w') /\ server_owns base s' w' /\ bounded s'.
Proof.
  induction changes as [|change changes IH]; intros s board w K B; [now exists s, board, w|]. cbn [polls].
  destruct (server_poll_ok s (change board) w) as ([[s1 b1] w1] & -> & B1 & _ & K1). cbn [mbind outcome_bind].
  apply IH; auto.
Qed.

Lemma destroy_server base s w : server_owns base s w -> open_fds (destroy s w) = base.
Proof. intros K. apply holds_none. unfold destroy. now apply close_if_holds, close_if_holds. Qed.

End ControlTheory.

(** ** Properties *)

Section ControlProperties.
Import SimControlServer.
Context {N : Type} `{NoiseSource N} {W : Type} `{SocketLaws W}.

(** C27: how the bytes of a partner are cut into chunks does not matter: when no
    line is longer than 512 characters, receiving the chunks one by one leaves
    the server, the board and the answers on the socket exactly as receiving
    them in one piece. *)
Theorem chunks_do_not_matter chunk chunks s (board : SimBoard.SimBoard N) (w : W) :
  short (input_ s +:+ chunk +:+ String.concat "" chunks) ->
  feed_all (chunk :: chunks) (s, board, w) = feed (chunk +:+ String.concat "" chunks) (s, board, w).
Proof. apply feed_all_short. Qed.

(** C28: a control server is safe to run: from [listen_on] on, every poll returns,
    whatever its partners have sent and whatever the system answers (what they send
    during a poll arrives after it: [left_recv]); it keeps at most
    512 characters of input, a poll changes the board by user actions only (a
    mass that is finite, at least 0.1 g and fits, or the lid), so that the bowl
    never holds more than 2200 g, and in the end
    exactly those descriptors are open that were open before. *)
Theorem control_server_is_safe path has_board changes (board : SimBoard.SimBoard N) (w : W) :
  let '(s, w1) := listen_on path has_board w in
  exists s' board' w', polls changes s board w1 = Ret (s', board', w') /\ bounded s' /\
    open_fds (destroy s' w') = open_fds w /\
    exists s2 board2 w2, poll s' board' w' = Ret (s2, board2, w2) /\ rtc user_action board' board2 /\
      (bowl_ok board' -> bowl_ok board2).
Proof.
  pose proof (listen_server_ok path has_board w) as [K B]. destruct (listen_on path has_board w) as [s w1]. cbn [fst snd] in *.
  destruct (server_polls_ok _ changes s board w1 K B) as (s' & b' & w' & E & K' & B').
  destruct (server_poll_ok s' b' w') as ([[s2 b2] w2] & E2 & _ & A2 & _).
  exists s', b', w'. split_and!; [exact E|exact B'|now apply destroy_server|]. exists s2, b2, w2.
  split_and!; [exact E2|exact A2|now apply actions_bowl].
Qed.

End ControlProperties.
