(* ===== verification/SocketUart.v ===== *)
(** * The socket transport as a UART

    What the two-process build runs on: a [SocketTransport] keeps the contract of
    [hal::IUart], so that the theorems about the link and the client hold of it. *)

From stdpp Require Import gmap sets.
From S2P Require Import Prelude.
From S2P Require Import Hal.
From S2P Require Import Sockets.

(** A transport, the system behind it, and the ghost log of what it accepted. *)
Record SocketLine {W : Type} := { transport : SocketTransport.SocketTransport; kernel : W; sent : list Z }.
Arguments SocketLine : clear implicits.

Section SocketUart.
Context {W : Type} `{SocketLaws W}.

#[export] Instance socket_uart : IUart (SocketLine W) := {|
  uart_write bs l :=
    let '(n, t, w) := SocketTransport.write bs (transport l) (kernel l) in
    (n, {| transport := t; kernel := w; sent := sent l ++ take n bs |});
  uart_read l :=
    let '(b, t, w) := SocketTransport.read (transport l) (kernel l) in
    (b, {| transport := t; kernel := w; sent := sent l |});
  rx_pending l := rx_left (kernel l)
|}.

Lemma set_nonblocking_left fd w : rx_left (SocketTransport.set_nonblocking fd w).2 = rx_left w.
Proof.
  unfold SocketTransport.set_nonblocking. pose proof (left_getfl fd w) as L. destruct (sys_getfl fd w) as [fl w1].
  cbn [snd] in L. destruct (fl >=? 0); [|exact L]. now rewrite left_setfl.
Qed.

Lemma accept_left t w : rx_left (SocketTransport.accept_pending t w).2 = rx_left w.
Proof.
  unfold SocketTransport.accept_pending. destruct (_ || _); [reflexivity|].
  pose proof (left_accept (SocketTransport.listen_fd_ t) w) as L. destruct (sys_accept _ w) as [fd w1]. cbn [snd] in L.
  destruct (fd >=? 0); [|exact L]. pose proof (set_nonblocking_left fd w1) as L1.
  destruct (SocketTransport.set_nonblocking fd w1) as [[] w2]; cbn [negb snd] in *; [congruence|]. rewrite left_close. congruence.
Qed.

#[export] Instance socket_uart_laws : UartLaws (SocketLine W).
Proof.
  refine {| tx_log := sent |}.
  - intros bs l. cbn. now destruct (SocketTransport.write bs _ _) as [[n t] w].
  - intros bs l. cbn. unfold SocketTransport.write. pose proof (accept_left (transport l) (kernel l)) as L.
    destruct (SocketTransport.accept_pending _ _) as [t w]. cbn [snd] in L. destruct (_ <? 0); [exact L|].
    pose proof (left_send (SocketTransport.conn_fd_ t) bs w) as S. destruct (sys_send _ bs w) as [n w1]. cbn [snd] in S.
    destruct (n <? 0); cbn; congruence.
  - intros l. cbn. now destruct (SocketTransport.read _ _) as [[b t] w].
  - intros l b. cbn. unfold SocketTransport.read. pose proof (accept_left (transport l) (kernel l)) as L.
    destruct (SocketTransport.accept_pending _ _) as [t w]. cbn [snd] in L. destruct (_ <? 0); [discriminate|].
    pose proof (recv_count (SocketTransport.conn_fd_ t) 1 w) as C. pose proof (recv_bytes (SocketTransport.conn_fd_ t) 1 w) as B.
    destruct (sys_recv _ 1 w) as [[got bytes] w1]. cbn [fst snd] in *.
    destruct (Z.eqb_spec got 1) as [G|]; [|destruct (got =? 0); discriminate]. cbn.
    destruct C as (C1 & _ & C2); [lia|]. destruct bytes as [|b0 bytes]; [cbn in C1; lia|]. cbn. intros [= <-].
    split; [now inversion B|]. cbn in C1, C2. lia.
  - intros l. cbn. unfold SocketTransport.read. pose proof (accept_left (transport l) (kernel l)) as L.
    destruct (SocketTransport.accept_pending _ _) as [t w]. cbn [snd] in L. destruct (_ <? 0); [cbn; lia|].
    pose proof (left_recv (SocketTransport.conn_fd_ t) 1 w) as B. destruct (sys_recv _ 1 w) as [[got bytes] w1]. cbn [fst snd] in *.
    destruct (got =? 1); [cbn; lia|]. destruct (got =? 0); cbn; rewrite ?left_close; lia.
Defined.

(** [connected], on a line. *)
Definition line_connected (l : SocketLine W) : bool * SocketLine W :=
  let '(up, t, w) := SocketTransport.connected (transport l) (kernel l) in
  (up, {| transport := t; kernel := w; sent := sent l |}).

Lemma line_connected_log l : tx_log (line_connected l).2 = tx_log l.
Proof. unfold line_connected. now destruct (SocketTransport.connected _ _) as [[up t] w]. Qed.
End SocketUart.
