(* ===== verification/SocketBench.v ===== *)
(** * Sockets on a small kernel

    A kernel with a table of descriptors and one partner, which shows that the
    laws of the system calls can hold, and concrete runs of the transport and the
    control server on it. *)

From stdpp Require Import gmap sets.
From S2P Require Import Prelude.
From S2P Require Import Float32.
From S2P Require Import Hal.
From S2P Require Import Sim.
From S2P Require Import Bench.
From S2P Require Import CString.
From S2P Require Import Sockets.
From S2P Require Import SimControl.

(** ** The kernel *)

(** The open descriptors, what the partner has sent, and what it was sent. *)
Record Kernel := { fds : gset nat; incoming : list Z; outgoing : list Z }.
#[global] Instance eta_Kernel : Eta Kernel := fun k => {| fds := fds k; incoming := incoming k; outgoing := outgoing k |}.

Definition open_new (k : Kernel) : Z * Kernel :=
  let fd := fresh (fds k) in (Z.of_nat fd, k <| fds := {[fd]} ∪ fds k |>).

#[export] Instance kernel_sockets : ISockets Kernel := {|
  sys_socket := open_new;
  sys_lstat _ k := (Missing, k);
  sys_unlink _ k := (true, k);
  sys_bind _ _ k := (true, k);
  sys_listen _ k := (true, k);
  sys_connect _ _ k := (true, k);
  sys_getfl _ k := (0, k);
  sys_setfl _ _ k := (true, k);
  sys_accept _ k := open_new k;
  sys_close fd k := k <| fds := filter (fun n => Z.of_nat n <> fd) (fds k) |>;
  sys_send _ bs k := (Z.of_nat (length bs), k <| outgoing := outgoing k ++ bs |>);
  sys_recv _ n k :=
    let bs := u8 <$> take n (incoming k) in
    (if (length bs =? 0)%nat then -1 else Z.of_nat (length bs), bs, k <| incoming := drop n (incoming k) |>);
  rx_left k := length (incoming k)
|}.

Lemma open_new_law k :
  0 <= (open_new k).1 /\ ((open_new k).1 ∉ (set_map Z.of_nat (fds k) : gset Z)) /\
  (set_map Z.of_nat (fds (open_new k).2) : gset Z) = {[(open_new k).1]} ∪ set_map Z.of_nat (fds k).
Proof.
  unfold open_new. cbn [fst snd]. simp_set. split_and!.
  - lia.
  - intros I. apply elem_of_map in I as (n & E & I). apply Nat2Z.inj in E. subst n. exact (is_fresh (fds k) I).
  - now rewrite set_map_union_L, set_map_singleton_L.
Qed.

#[export] Instance kernel_laws : SocketLaws Kernel.
Proof.
  refine {| open_fds := fun k => set_map Z.of_nat (fds k) |}; intros; try reflexivity.
  - left. apply open_new_law.
  - left. apply open_new_law.
  - cbn. simp_set. apply set_eq. intros x. rewrite elem_of_difference, !elem_of_map, elem_of_singleton.
    setoid_rewrite elem_of_filter. split.
    + intros (n & -> & N & I). split; [now exists n|congruence].
    + intros [(n & -> & I) N]. exists n. now split_and!.
  - cbn [sys_recv kernel_sockets fst snd rx_left] in *. rewrite length_fmap in *.
    destruct (Nat.eqb_spec (length (take n (incoming w))) 0); [lia|].
    simp_set. rewrite length_take, length_drop. split_and!; lia.
  - cbn. apply Forall_fmap, Forall_true. intros x. apply u8_range.
  - cbn. simp_set. rewrite length_drop. lia.
Defined.

(** ** Runs *)

Definition at_rest : Kernel := {| fds := {[0; 1; 2]}%nat; incoming := []; outgoing := [] |}.

Lemma transports_release_their_sockets_witness :
  let '(t, k) := let '(t, k) := SocketTransport.listen_on (Some "/tmp/c1link.sock") at_rest in
                 use_all [Connected; Write [1; 2]; Read] t k in
  open_fds (SocketTransport.destroy t k) = open_fds at_rest.
Proof.
  pose proof (transports_release_their_sockets true (Some "/tmp/c1link.sock") [Connected; Write [1; 2]; Read] at_rest) as T.
  cbv zeta in T. cbn [negb] in T. destruct (let '(t, k) := SocketTransport.listen_on _ at_rest in _) as [t k]. apply T.
Defined.

Definition bowl : SimBoard.SimBoard unit := SimBoard.new_board 42.

Definition listening : SimControlServer.SimControlServer :=
  {| SimControlServer.listen_fd_ := 3; SimControlServer.conn_fd_ := 4; SimControlServer.input_ := "" |}.

Lemma chunks_do_not_matter_witness :
  let lid_open := "lid open" +:+ String newline EmptyString in
  feed_all ["add 500 wa"; "ter" +:+ String newline EmptyString; lid_open] (listening, bowl, at_rest) =
  feed ("add 500 wa" +:+ String.concat "" ["ter" +:+ String newline EmptyString; lid_open]) (listening, bowl, at_rest).
Proof.
  apply (chunks_do_not_matter "add 500 wa" ["ter" +:+ String newline EmptyString; "lid open" +:+ String newline EmptyString]
    listening bowl at_rest).
  repeat constructor.
Defined.

Lemma control_server_is_safe_witness :
  let '(s, k) := SimControlServer.listen_on (Some "/tmp/control.sock") true at_rest in
  exists s' board' k', polls [fun b => b; fun b => b] s bowl k = Ret (s', board', k') /\
    open_fds (SimControlServer.destroy s' k') = open_fds at_rest.
Proof.
  pose proof (control_server_is_safe (Some "/tmp/control.sock") true [fun b => b; fun b => b] bowl at_rest) as C.
  destruct (SimControlServer.listen_on (Some "/tmp/control.sock") true at_rest) as [s k].
  destruct C as (s' & b' & k' & E & _ & O & _). exists s', b', k'. now split.
Defined.

(** A line may leave out the space between the number and the ingredient. *)
Example add_without_space :
  (SimControlServer.execute "add 500water" bowl).1 = SimControlServer.line_of "ok".
Proof. vm_compute. reflexivity. Qed.

Example add_needs_the_mass_first :
  (SimControlServer.execute "add water 500" bowl).1 = SimControlServer.line_of "error invalid add command".
Proof. vm_compute. reflexivity. Qed.

Example add_too_much :
  (SimControlServer.execute "add 2200.5 water" bowl).1 = SimControlServer.line_of "error invalid add command".
Proof. vm_compute. reflexivity. Qed.

Example lid_open_line : SimBoard.lid_model_ (SimControlServer.execute " lid  open " bowl).2 =
  {| LidModel.closed_ := false; LidModel.locked_ := false |}.
Proof. vm_compute. reflexivity. Qed.
