(* ===== verification/Recipe.v ===== *)
(** * Recipes (src/src/app/recipe/recipe.h)

    A text field is the C string its buffer holds. *)

From S2P Require Import Prelude.

Inductive StepKind := Note | Mix | Heat | Weigh.
#[global] Instance StepKind_eq_dec : EqDecision StepKind.
Proof. solve_decision. Defined.

Record RecipeStep := {
  kind : StepKind;
  text : string;
  target_temp : Z;
  dial_speed : Z;
  duration_s : Z;
  target_weight : Z
}.
#[global] Instance eta_RecipeStep : Eta RecipeStep := fun s =>
  {| kind := kind s; text := text s; target_temp := target_temp s; dial_speed := dial_speed s;
     duration_s := duration_s s; target_weight := target_weight s |}.

Definition default_step : RecipeStep :=
  {| kind := Note; text := ""; target_temp := 0; dial_speed := 0; duration_s := 0; target_weight := 0 |}.

(** The array [steps] has [kMaxSteps] elements. *)
Definition kMaxSteps : nat := 16.

Record Recipe := { name : string; steps : list RecipeStep; step_count : nat }.
#[global] Instance eta_Recipe : Eta Recipe := fun r =>
  {| name := name r; steps := steps r; step_count := step_count r |}.

Definition default_recipe : Recipe := {| name := ""; steps := replicate kMaxSteps default_step; step_count := 0 |}.

(** [steps[index]]. *)
Definition step_at (r : Recipe) (index : nat) : RecipeStep := nth index (steps r) default_step.
