(* ===== verification/RecipeParser.v ===== *)
(** * The recipe format (src/src/app/recipe/recipe_parser.cpp, recipe_library.{h,cpp})

    A recipe file is read line by line into a [Recipe]; the library holds the
    recipes of a directory. The file system is a parameter: what [fopen] finds at
    a path, and what [readdir] lists. *)

From Stdlib Require Import Ascii.
From S2P Require Import Prelude.
From S2P Require Import Float32.
From S2P Require Import Common.
From S2P Require Import CString.
From S2P Require Import Recipe.

(** A file: its bytes, and whether reading beyond them fails. *)
Record File := { contents : string; fails : bool }.

Module RecipeParser.

Definition is_blank (c : ascii) : bool := Ascii.eqb c " " || Ascii.eqb c "009".
Definition is_end (c : ascii) : bool := is_blank c || Ascii.eqb c newline || Ascii.eqb c "013".

Definition skip_spaces : string -> string := skip_while is_blank.

Fixpoint trim_end (s : string) : string :=
  match s with
  | EmptyString => EmptyString
  | String c s =>
      let t := trim_end s in
      if bool_decide (t = "") && is_end c then EmptyString else String c t
  end.

Definition parse_kind (token : string) : option StepKind :=
  if bool_decide (token = "note") then Some Note
  else if bool_decide (token = "mix") then Some Mix
  else if bool_decide (token = "heat") then Some Heat
  else if bool_decide (token = "weigh") then Some Weigh
  else None.

(** [Fields]: which of the numbers of a step were given. *)
Record Fields := { temp : bool; speed : bool; time : bool; weight : bool }.
#[global] Instance eta_Fields : Eta Fields := fun f =>
  {| temp := temp f; speed := speed f; time := time f; weight := weight f |}.

Definition no_fields : Fields := {| temp := false; speed := false; time := false; weight := false |}.

Definition parse_long (text : string) (min max : Z) : option Z :=
  '(value, erange, rest) ← strtol text;
  if erange || negb (bool_decide (skip_spaces rest = "")) || (value <? min) || (value >? max)
  then None else Some value.

Definition parse_temperature (text : string) : outcome (option Z) :=
  match strtof text with
  | None => Ret None
  | Some (value, erange, rest) =>
      if erange || negb (bool_decide (skip_spaces rest = "")) || negb (isfinite value) ||
         flt value (of_Z 37) || fgt value (of_Z 160)
      then Ret None
      else d ← defined (from_celsius value); Ret (Some d)
  end.

(** The answer and the step and fields as the call leaves them. *)
Definition apply_field (step : RecipeStep) (fields : Fields) (key value : string)
    : outcome (bool * RecipeStep * Fields) :=
  if bool_decide (key = "text") then Ret (true, step <| text := prefix_of 95 value |>, fields)
  else if bool_decide (key = "temp") then
    t ← parse_temperature value;
    match t with
    | Some d => Ret (true, step <| target_temp := d |>, fields <| temp := true |>)
    | None => Ret (false, step, fields <| temp := false |>)
    end
  else if bool_decide (key = "speed") then
    let r := parse_long value 0 10 in
    Ret (bool_decide (is_Some r), step <| dial_speed := u8 (default 0 r) |>,
         fields <| speed := bool_decide (is_Some r) |>)
  else if bool_decide (key = "time") then
    let r := parse_long value 1 86400 in
    Ret (bool_decide (is_Some r), step <| duration_s := u32 (default 0 r) |>,
         fields <| time := bool_decide (is_Some r) |>)
  else if bool_decide (key = "weight") then
    let r := parse_long value 1 2200 in
    Ret (bool_decide (is_Some r), step <| target_weight := i32 (default 0 r) |>,
         fields <| weight := bool_decide (is_Some r) |>)
  else Ret (true, step, fields).

(** The loop of [parse_step] behind the first token. *)
Fixpoint parse_fields (tokens : list string) (step : RecipeStep) (fields : Fields)
    : outcome (bool * RecipeStep * Fields) :=
  match tokens with
  | [] => Ret (true, step, fields)
  | token :: tokens =>
      match cut "=" (trim_end (skip_spaces token)) with
      | (_, None) => parse_fields tokens step fields
      | (key, Some value) =>
          '(ok, step, fields) ← apply_field step fields (trim_end key) (skip_spaces value);
          if (ok : bool) then parse_fields tokens step fields else Ret (false, step, fields)
      end
  end.

(** The last check of [parse_step]. *)
Definition complete (step : RecipeStep) (fields : Fields) : bool :=
  match kind step with
  | Note => true
  | Mix => speed fields && (dial_speed step >? 0) && time fields
  | Heat => temp fields && time fields
  | Weigh => weight fields
  end.

Definition parse_step (body : string) (step : RecipeStep) : outcome (Status * RecipeStep) :=
  match split_on "|" body with
  | [] => Ret (InvalidArgument, step)
  | first :: rest =>
      match parse_kind (trim_end (skip_spaces first)) with
      | None => Ret (InvalidArgument, step)
      | Some k =>
          '(ok, step, fields) ← parse_fields rest (step <| kind := k |>) no_fields;
          Ret (if (ok : bool) && complete step fields then Ok else InvalidArgument, step)
      end
  end.

(** What one line does: the status that ends the loop, or the recipe so far. *)
Definition parse_line (line : string) (out : Recipe) : outcome (Status * Recipe) :=
  let p := skip_spaces (trim_end line) in
  if bool_decide (p = "") || bool_decide (is_Some (strip "#" p)) then Ret (Ok, out)
  else
    match strip "name:" p, strip "step:" p with
    | Some value, _ => Ret (Ok, out <| name := prefix_of 31 (skip_spaces value) |>)
    | None, Some value =>
        if (kMaxSteps <=? step_count out)%nat then Ret (Overflow, out)
        else
          '(status, step) ← parse_step (prefix_of 255 (skip_spaces value)) (step_at out (step_count out));
          let out := out <| steps := <[step_count out := step]> (steps out) |> in
          Ret (status, if bool_decide (status = Ok) then out <| step_count := S (step_count out) |> else out)
    | None, None => Ret (Ok, out)
    end.

(** The loop over the lines. *)
Fixpoint parse_lines (fuel : nat) (file : File) (out : Recipe) : outcome (Status * Recipe) :=
  match fuel with
  | O => OutOfFuel
  | S fuel =>
      let '(line, rest, at_end) := fgets 255 (contents file) in
      if (at_end && fails file) || bool_decide (line = "") then
        Ret (if fails file then HardwareFault else Ok, out)
      else
        let line := c_str line in
        if negb (bool_decide (is_Some (cut newline line).2)) && negb at_end then Ret (Overflow, out)
        else
          '(status, out) ← parse_line line out;
          if bool_decide (status = Ok) then parse_lines fuel {| contents := rest; fails := fails file |} out
          else Ret (status, out)
  end.

(** [fopen] is a parameter; a null path is [None], and [out] points to a recipe.
    The recipe returned is the one the call leaves there. *)
Definition parse_recipe_file (fopen : string -> option File) (path : option string) (out : Recipe)
    : outcome (Status * Recipe) :=
  match path ≫= fopen with
  | None => Ret (InvalidArgument, out)
  | Some file =>
      '(status, out) ← parse_lines (S (String.length (contents file))) file default_recipe;
      Ret (if bool_decide (status = Ok) && (bool_decide (name out = "") || (step_count out =? 0)%nat)
           then InvalidArgument else status, out)
  end.
End RecipeParser.

(** recipe_library.{h,cpp} *)
Module RecipeLibrary.
Definition kMaxRecipes : nat := 64.

Record RecipeLibrary := { recipes_ : list Recipe; count_ : nat }.
#[global] Instance eta_RecipeLibrary : Eta RecipeLibrary := fun l => {| recipes_ := recipes_ l; count_ := count_ l |}.

Definition new_library : RecipeLibrary := {| recipes_ := replicate kMaxRecipes default_recipe; count_ := 0 |}.

Definition count (l : RecipeLibrary) : nat := count_ l.
Definition at_ (index : nat) (l : RecipeLibrary) : option Recipe :=
  if (index <? count_ l)%nat then recipes_ l !! index else None.

(** At least one character in front of the extension. *)
Definition has_rcp_extension (name : string) : bool :=
  let len := String.length name in
  (4 <? len)%nat && bool_decide (String.substring (len - 4) 4 name = ".rcp").

Section Files.
Context (fopen : string -> option File).

(** The loop over the directory's entries. *)
Fixpoint load_entries (dir_path : string) (entries : list string) (l : RecipeLibrary) : outcome RecipeLibrary :=
  match entries with
  | [] => Ret l
  | entry :: entries =>
      if negb (has_rcp_extension entry) then load_entries dir_path entries l
      else if (kMaxRecipes <=? count_ l)%nat then load_entries dir_path entries l
      else
        let path := prefix_of 511 (dir_path +:+ "/" +:+ entry) in
        '(status, r) ← RecipeParser.parse_recipe_file fopen (Some path) (nth (count_ l) (recipes_ l) default_recipe);
        let l := l <| recipes_ := <[count_ l := r]> (recipes_ l) |> in
        load_entries dir_path entries (if bool_decide (status = Ok) then l <| count_ := S (count_ l) |> else l)
  end.

(** [opendir] gives the names [readdir] lists, or fails. *)
Definition load_directory (opendir : string -> option (list string)) (dir_path : string) (l : RecipeLibrary)
    : outcome (Status * RecipeLibrary) :=
  match opendir dir_path with
  | None => Ret (InvalidArgument, l)
  | Some entries =>
      l ← load_entries dir_path entries (l <| count_ := O |>);
      Ret (Ok, l)
  end.
End Files.

Definition find (name : string) (l : RecipeLibrary) : option Recipe :=
  List.find (fun r => bool_decide (Recipe.name r = name)) (take (count_ l) (recipes_ l)).
End RecipeLibrary.

Definition bread : string :=
  "name: Bread Dough
# flour first
step: mix | speed=3 | time=300 | text=Knead to a smooth dough
step: weigh | weight=500 | text=Add flour until 500 g

step: heat | temp=37.0 | time=1200 | speed=1 | text=Proof
step: note | text=Rest outside the bowl".

Example parse_bread :
  exists r, RecipeParser.parse_recipe_file (fun _ => Some {| contents := bread; fails := false |}) (Some "bread.rcp") default_recipe = Ret (Ok, r) /\
    name r = "Bread Dough" /\ step_count r = 4%nat /\ text (step_at r 3) = "Rest outside the bowl" /\
    target_temp (step_at r 2) = 370.
Proof. eexists. vm_compute. repeat split. Qed.

(** * Theorems *)

(** ** What the parser accepts *)

(** The numbers of a step, given or not. *)
Record step_ok (s : RecipeStep) : Prop := {
  ok_temp : target_temp s = 0 \/ 370 <= target_temp s <= 1600;
  ok_dial : 0 <= dial_speed s <= 10;
  ok_duration : 0 <= duration_s s <= 86400;
  ok_weight : 0 <= target_weight s <= 2200;
  ok_text : (String.length (text s) <= 95)%nat
}.

(** A step has what its kind needs. *)
Definition step_valid (s : RecipeStep) : Prop :=
  step_ok s /\
  match kind s with
  | Note => True
  | Mix => dial_speed s <> 0 /\ duration_s s <> 0
  | Heat => target_temp s <> 0 /\ duration_s s <> 0
  | Weigh => target_weight s <> 0
  end.

(** The recipe while it is read. *)
Record recipe_ok (r : Recipe) : Prop := {
  ok_name : (String.length (name r) <= 31)%nat;
  ok_steps : length (steps r) = kMaxSteps /\ Forall step_ok (steps r);
  ok_count : (step_count r <= kMaxSteps)%nat;
  ok_valid : Forall step_valid (take (step_count r) (steps r))
}.

Definition recipe_valid (r : Recipe) : Prop := recipe_ok r /\ name r <> "" /\ step_count r <> O.

Section ParserTheory.
Import RecipeParser.

Lemma length_prefix_of n s : (String.length (prefix_of n s) <= n)%nat.
Proof. revert s. induction n as [|n IH]; intros [|c s]; cbn; try lia. specialize (IH s). lia. Qed.

Lemma parse_long_range text min max v : parse_long text min max = Some v -> min <= v <= max.
Proof.
  unfold parse_long. destruct (strtol text) as [[[value e] rest]|]; [|discriminate]. cbn.
  destruct e; [discriminate|]. destruct (bool_decide _); [|discriminate]. cbn.
  intros E. case_tests; try discriminate. simplify_eq. lia.
Qed.

(** The number stored: 0 when there is none. *)
Lemma parse_long_default text lo hi : 0 <= lo <= hi ->
  0 <= default 0 (parse_long text lo hi) <= hi /\
  (bool_decide (is_Some (parse_long text lo hi)) = true -> lo <= default 0 (parse_long text lo hi)).
Proof.
  intros L. destruct (parse_long text lo hi) as [v|] eqn:E; cbn [default from_option id].
  - apply parse_long_range in E. lia.
  - split; [lia|]. rewrite bool_decide_eq_true. intros [? ?]. discriminate.
Qed.

Lemma parse_temperature_ok text : exists r, parse_temperature text = Ret r /\
  forall d, r = Some d -> 370 <= d <= 1600.
Proof.
  unfold parse_temperature. destruct (strtof text) as [[[x e] rest]|] eqn:S; [|now exists None].
  destruct e; [now exists None|]. destruct (bool_decide _); [|now exists None]. cbn [orb negb].
  destruct (isfinite x) eqn:Fi; [|now exists None]. apply (strtof_fin _ _ _ _ S) in Fi. cbn [orb negb].
  destruct (of_Z_spec 37 ltac:(lia)) as [F37 _]. destruct (of_Z_spec 160 ltac:(lia)) as [F160 _].
  destruct (flt x (of_Z 37)) eqn:L; [now exists None|]. destruct (fgt x (of_Z 160)) eqn:G; [now exists None|].
  destruct (from_celsius_range x 37 160 Fi ltac:(lia) ltac:(lia) (not_flt_fge _ _ Fi F37 L) (not_fgt_fle _ _ Fi F160 G))
    as (d & -> & D).
  exists (Some d). split; [reflexivity|]. intros d' [= <-]. lia.
Qed.

(** The flags of the fields that were given. *)
Definition given (s : RecipeStep) (f : Fields) : Prop :=
  (temp f = true -> target_temp s <> 0) /\ (time f = true -> duration_s s <> 0) /\
  (weight f = true -> target_weight s <> 0).

Lemma apply_field_ok s f key value : step_ok s -> given s f ->
  exists ok s' f', apply_field s f key value = Ret (ok, s', f') /\ kind s' = kind s /\ step_ok s' /\ given s' f'.
Proof.
  intros [T D Du We Tx] (G1 & G2 & G3). unfold apply_field.
  destruct (bool_decide (key = "text")).
  { eexists _, _, _. split; [reflexivity|]. split_and!; simp_set; auto.
    - split; simp_set; auto. apply length_prefix_of.
    - split_and!; simp_set; auto. }
  destruct (bool_decide (key = "temp")).
  { destruct (parse_temperature_ok value) as (r & -> & R). cbn.
    destruct r as [d|]; eexists _, _, _; (split; [reflexivity|]);
      (split_and!; [reflexivity|split; simp_set; auto|split_and!; simp_set; auto; try discriminate]).
    intros _. specialize (R d eq_refl). lia. }
  destruct (bool_decide (key = "speed")).
  { destruct (parse_long_default value 0 10 ltac:(lia)) as [R _]. eexists _, _, _. split; [reflexivity|].
    split_and!; [reflexivity|split; simp_set; auto|split_and!; simp_set; auto]. rewrite u8_id; unfold in_u8; lia. }
  destruct (bool_decide (key = "time")).
  { destruct (parse_long_default value 1 86400 ltac:(lia)) as [R P]. eexists _, _, _. split; [reflexivity|].
    split_and!; [reflexivity|split; simp_set; auto|split_and!; simp_set; auto]; rewrite u32_id by (unfold in_u32; lia);
      [lia|intros G; specialize (P G); lia]. }
  destruct (bool_decide (key = "weight")).
  { destruct (parse_long_default value 1 2200 ltac:(lia)) as [R P]. eexists _, _, _. split; [reflexivity|].
    split_and!; [reflexivity|split; simp_set; auto|split_and!; simp_set; auto]; rewrite i32_id by (unfold in_i32; lia);
      [lia|intros G; specialize (P G); lia]. }
  eexists _, _, _. split; [reflexivity|]. split_and!; auto. split; auto. split_and!; auto.
Qed.

Lemma parse_fields_ok tokens : forall s f, step_ok s -> given s f ->
  exists ok s' f', parse_fields tokens s f = Ret (ok, s', f') /\ kind s' = kind s /\ step_ok s' /\ given s' f'.
Proof.
  induction tokens as [|token tokens IH]; intros s f K G; cbn [parse_fields]; [now exists true, s, f|].
  destruct (cut "=" _) as [key [value|]]; [|now apply IH].
  destruct (apply_field_ok s f (trim_end key) (skip_spaces value) K G) as (ok & s1 & f1 & -> & K1 & S1 & G1). cbn.
  destruct ok; [|now exists false, s1, f1]. destruct (IH s1 f1 S1 G1) as (ok & s2 & f2 & -> & K2 & S2 & G2).
  exists ok, s2, f2. split_and!; [reflexivity|congruence|assumption..].
Qed.

Lemma parse_step_ok body s : step_ok s ->
  exists st s', parse_step body s = Ret (st, s') /\ step_ok s' /\ (st = Ok -> step_valid s').
Proof.
  intros K. unfold parse_step. destruct (split_on "|" body) as [|first rest]; [now exists InvalidArgument, s|].
  destruct (parse_kind _) as [k|]; [|now exists InvalidArgument, s].
  destruct (parse_fields_ok rest (s <| kind := k |>) no_fields) as (ok & s1 & f1 & -> & _ & S1 & G1).
  { destruct K. now split. }
  { now split_and!. }
  cbn. eexists _, s1. split; [reflexivity|]. split; [exact S1|].
  destruct ok; [|discriminate]. cbn [andb]. destruct (complete s1 f1) eqn:C; [|discriminate].
  intros _. split; [exact S1|]. unfold complete in C. destruct G1 as (G1 & G2 & G3).
  destruct (kind s1); rewrite ?andb_true_iff in C; [exact I|..]; intuition lia.
Qed.

Lemma parse_line_ok line r : recipe_ok r ->
  exists st r', parse_line line r = Ret (st, r') /\ recipe_ok r'.
Proof.
  intros K. unfold parse_line. set (p := skip_spaces (trim_end line)). destruct (_ || _); [now exists Ok, r|].
  destruct (strip "name:" p) as [v|].
  { exists Ok. eexists. split; [reflexivity|]. destruct K. split; simp_set; auto. apply length_prefix_of. }
  destruct (strip "step:" p) as [v|]; [|now exists Ok, r].
  destruct (Nat.leb_spec kMaxSteps (step_count r)) as [L|L]; [now exists Overflow, r|].
  destruct K as [K1 [K2 K3] K4 K5].
  assert (S : step_ok (step_at r (step_count r))).
  { unfold step_at. apply Forall_nth; [exact K3|]. lia. }
  destruct (parse_step_ok (prefix_of 255 (skip_spaces v)) _ S) as (st & s' & -> & S' & V). cbn.
  eexists _, _. split; [reflexivity|].
  destruct (decide (st = Ok)) as [->|N].
  - rewrite bool_decide_eq_true_2 by reflexivity. split; simp_set; auto.
    + rewrite length_insert. split; [exact K2|]. now apply Forall_insert.
    + rewrite take_S_insert by lia. apply Forall_app. split; [exact K5|]. constructor; auto.
  - rewrite bool_decide_eq_false_2 by exact N. split; simp_set; auto.
    + rewrite length_insert. split; [exact K2|]. now apply Forall_insert.
    + now rewrite take_insert_ge by lia.
Qed.

(** A line is not empty, and shortens the file. *)
Lemma fgets_length n s line rest at_end : fgets n s = (line, rest, at_end) ->
  (String.length line + String.length rest = String.length s)%nat.
Proof.
  revert s line rest. induction n as [|n IH]; intros [|c s] line rest; cbn; try (intros; simplify_eq; cbn; lia).
  destruct (Ascii.eqb c newline); [intros; simplify_eq; cbn; lia|].
  destruct (fgets n s) as [[l r] e] eqn:E. intros. simplify_eq. cbn. specialize (IH s l rest E). lia.
Qed.

Lemma parse_lines_ok fuel : forall file r, recipe_ok r -> (String.length (contents file) < fuel)%nat ->
  exists st r', parse_lines fuel file r = Ret (st, r') /\ recipe_ok r'.
Proof.
  induction fuel as [|fuel IH]; intros file r K L; [lia|]. cbn [parse_lines].
  destruct (fgets 255 (contents file)) as [[line rest] at_end] eqn:E. apply fgets_length in E.
  destruct (_ || _) eqn:B; [now eexists _, r|]. apply orb_false_iff in B as [_ B].
  apply bool_decide_eq_false in B.
  destruct (_ && _); [now exists Overflow, r|].
  destruct (parse_line_ok (c_str line) r K) as (st & r1 & -> & K1). cbn.
  destruct (bool_decide _); [|now exists st, r1]. apply IH; [exact K1|].
  destruct line; [congruence|]. cbn in *. lia.
Qed.

Lemma default_recipe_ok : recipe_ok default_recipe.
Proof.
  split; [cbn; lia| |cbn; lia|constructor]. split; [reflexivity|].
  apply Forall_replicate. split; cbn; lia || now left.
Qed.

Lemma parse_recipe_file_ok fopen path out :
  exists st r, parse_recipe_file fopen path out = Ret (st, r) /\ (st = Ok -> recipe_valid r).
Proof.
  unfold parse_recipe_file. destruct (path ≫= fopen) as [file|]; [|now exists InvalidArgument, out].
  destruct (parse_lines_ok (S (String.length (contents file))) file default_recipe default_recipe_ok ltac:(lia))
    as (st & r & -> & K). cbn. eexists _, r. split; [reflexivity|].
  destruct (decide (st = Ok)) as [->|N]; [|now rewrite (bool_decide_eq_false_2 (st = Ok))].
  rewrite bool_decide_eq_true_2 by reflexivity. cbn [andb].
  destruct (bool_decide_reflect (name r = "")) as [|N]; [discriminate|].
  destruct (Nat.eqb_spec (step_count r) 0) as [|C]; [discriminate|]. intros _. split; [exact K|now split].
Qed.

End ParserTheory.

(** ** The library *)

Record library_ok (l : RecipeLibrary.RecipeLibrary) : Prop := {
  lib_recipes : length (RecipeLibrary.recipes_ l) = RecipeLibrary.kMaxRecipes;
  lib_count : (RecipeLibrary.count_ l <= RecipeLibrary.kMaxRecipes)%nat;
  lib_valid : Forall recipe_valid (take (RecipeLibrary.count_ l) (RecipeLibrary.recipes_ l))
}.

Section LibraryTheory.
Import RecipeLibrary.
Context (fopen : string -> option File).

Lemma new_library_ok : library_ok new_library.
Proof. split; [reflexivity|cbn; lia|constructor]. Qed.

Lemma load_entries_ok dir entries : forall l, library_ok l ->
  exists l', load_entries fopen dir entries l = Ret l' /\ library_ok l'.
Proof.
  induction entries as [|entry entries IH]; intros l K; [now exists l|]. cbn [load_entries].
  destruct (negb _); [now apply IH|]. destruct (Nat.leb_spec kMaxRecipes (count_ l)) as [L|L]; [now apply IH|].
  destruct (parse_recipe_file_ok fopen (Some (prefix_of 511 (dir +:+ "/" +:+ entry)))
    (nth (count_ l) (recipes_ l) default_recipe)) as (st & r & -> & V). cbn [mbind outcome_bind].
  apply IH. destruct K as [K1 K2 K3]. destruct (bool_decide_reflect (st = Ok)) as [E|N]; split; simp_set;
    try (rewrite length_insert; exact K1); try lia; try exact K2.
  - rewrite take_S_insert by lia. apply Forall_app. split; [exact K3|]. constructor; auto.
  - now rewrite take_insert_ge by lia.
Qed.

Lemma load_directory_ok opendir dir l : library_ok l ->
  exists st l', load_directory fopen opendir dir l = Ret (st, l') /\ library_ok l' /\
    (st <> Ok -> opendir dir = None /\ l' = l).
Proof.
  intros K. unfold load_directory. destruct (opendir dir) as [entries|]; [|now exists InvalidArgument, l].
  destruct (load_entries_ok dir entries (l <| count_ := O |>)) as (l' & -> & K').
  { destruct K. split; simp_set; [assumption|lia|constructor]. }
  exists Ok, l'. now split_and!.
Qed.

Lemma find_valid name l r : library_ok l -> find name l = Some r -> recipe_valid r /\ Recipe.name r = name.
Proof.
  intros K F. apply List.find_some in F as [F N]. apply bool_decide_eq_true in N. split; [|exact N].
  apply list_elem_of_In in F. exact (proj1 (Forall_forall _ _) (lib_valid l K) r F).
Qed.

Lemma at_valid i l r : library_ok l -> at_ i l = Some r -> recipe_valid r.
Proof.
  intros K E. unfold at_ in E. destruct (Nat.ltb_spec i (count_ l)); [|discriminate].
  apply (proj1 (Forall_forall _ _) (lib_valid l K)). apply (list_elem_of_lookup_2 _ i). now rewrite lookup_take_lt.
Qed.

End LibraryTheory.

(** ** Properties *)

(** C30: reading a recipe file always returns, whatever its bytes are, and
    no conversion is undefined. When the answer is [Ok]
    the recipe has a name of at most 31 characters and 1 to 16 steps, every
    temperature that was given lies in 37.0 to 160.0 C, every speed in 0 to 10,
    every time in 1 s to a day, every weight in 1 to 2200 g, and every step has
    the values its kind needs. *)
Theorem parsed_recipes_are_valid fopen path out :
  exists st r, RecipeParser.parse_recipe_file fopen path out = Ret (st, r) /\ (st = Ok -> recipe_valid r).
Proof. apply parse_recipe_file_ok. Qed.

(** Loading a directory always returns; it fails only when the directory
    cannot be opened, and then leaves the library as it was. Afterwards the
    library holds at most 64 recipes, each of them valid, and what [find] returns
    is one of them and has the name that was asked for. *)
Theorem library_holds_valid_recipes fopen opendir dir_path l : library_ok l ->
  exists st l', RecipeLibrary.load_directory fopen opendir dir_path l = Ret (st, l') /\ library_ok l' /\
    (st <> Ok -> opendir dir_path = None /\ l' = l) /\
    forall name r, RecipeLibrary.find name l' = Some r -> recipe_valid r /\ Recipe.name r = name.
Proof.
  intros K. destruct (load_directory_ok fopen opendir dir_path l K) as (st & l' & E & K' & F).
  exists st, l'. split_and!; [exact E|exact K'|exact F|]. intros name r. now apply find_valid.
Qed.

(** A directory with one recipe. *)
Definition shelf_file (path : string) : option File := Some {| contents := bread; fails := false |}.
Definition shelf (path : string) : option (list string) := Some ["."; "bread.rcp"; ".rcp"].

Lemma library_holds_valid_recipes_witness :
  exists l r, RecipeLibrary.load_directory shelf_file shelf "recipes" RecipeLibrary.new_library = Ret (Ok, l) /\
    RecipeLibrary.find "Bread Dough" l = Some r /\ recipe_valid r.
Proof.
  destruct (library_holds_valid_recipes shelf_file shelf "recipes" RecipeLibrary.new_library new_library_ok)
    as (st & l & E & _ & S & F).
  assert (Fd : match RecipeLibrary.load_directory shelf_file shelf "recipes" RecipeLibrary.new_library with
               | Ret (st, l) => bool_decide (st = Ok) && bool_decide (is_Some (RecipeLibrary.find "Bread Dough" l))
               | _ => false
               end = true) by (vm_compute; reflexivity).
  rewrite E in Fd. apply andb_true_iff in Fd as [Fs Fd]. apply bool_decide_eq_true in Fs, Fd.
  destruct Fd as [r R]. exists l, r. split; [rewrite E, Fs; reflexivity|]. split; [exact R|]. exact (proj1 (F _ _ R)).
Defined.
