(* ===== verification/RecipePrinter.v ===== *)
(** * Printing recipes

    The recipe format, as recipe_parser.h documents it, from the other side: a
    printer for recipes, and the proof that the parser of
    src/src/app/recipe/recipe_parser.cpp reads back what it prints. *)

From Stdlib Require Import Ascii.
From S2P Require Import Prelude.
From S2P Require Import Float32.
From S2P Require Import Common.
From S2P Require Import CString.
From S2P Require Import Recipe.
From S2P Require Import RecipeParser.

#[local] Arguments String.append : simpl nomatch.

(** ** The printer *)

Definition digit (d : Z) : ascii := ascii_of_nat (Z.to_nat (48 + d)).

Fixpoint digits_of (fuel : nat) (z : Z) : string :=
  match fuel with
  | O => ""
  | S fuel => (if z <? 10 then "" else digits_of fuel (z / 10)) +:+ String (digit (z mod 10)) ""
  end.

(** Enough for the numbers of a recipe. *)
Definition print_int (z : Z) : string := digits_of 6 z.
Definition print_tenths (d : Z) : string := print_int (d / 10) +:+ String "." (print_int (d mod 10)).

Definition kind_name (k : StepKind) : string :=
  match k with Note => "note" | Mix => "mix" | Heat => "heat" | Weigh => "weigh" end.

(** A field is printed when it has a value. *)
Definition field (given : bool) (key value : string) : list string :=
  if given then [key +:+ String "=" value] else [].

Definition step_fields (s : RecipeStep) : list string :=
  field (negb (target_temp s =? 0)) "temp" (print_tenths (target_temp s)) ++
  field (negb (dial_speed s =? 0)) "speed" (print_int (dial_speed s)) ++
  field (negb (duration_s s =? 0)) "time" (print_int (duration_s s)) ++
  field (negb (target_weight s =? 0)) "weight" (print_int (target_weight s)) ++
  field (negb (bool_decide (text s = ""))) "text" (text s).

(** The tokens of a step, between bars. *)
Fixpoint join (t : string) (ts : list string) : string :=
  match ts with
  | [] => t
  | t' :: ts => t +:+ " | " +:+ join t' ts
  end.

Definition print_step (s : RecipeStep) : string := join (kind_name (kind s)) (step_fields s).

Fixpoint print_lines (l : list string) : string :=
  match l with
  | [] => ""
  | line :: l => line +:+ String newline (print_lines l)
  end.

Definition print_recipe (r : Recipe) : string :=
  print_lines (("name: " +:+ name r) ::
               ((fun s => "step: " +:+ print_step s) <$> take (step_count r) (steps r))).

(** ** Strings without certain characters *)

Fixpoint all_chars (p : ascii -> bool) (s : string) : bool :=
  match s with
  | EmptyString => true
  | String c s => p c && all_chars p s
  end.

Lemma str_length_app s t : String.length (s +:+ t) = (String.length s + String.length t)%nat.
Proof. induction s as [|c s IH]; [reflexivity|]. cbn. now rewrite IH. Qed.

Lemma all_chars_app p s t : all_chars p (s +:+ t) = all_chars p s && all_chars p t.
Proof. induction s as [|c s IH]; [reflexivity|]. cbn. now rewrite IH, andb_assoc. Qed.

Lemma all_chars_weaken p q s : (forall c, p c = true -> q c = true) -> all_chars p s = true -> all_chars q s = true.
Proof.
  intros W. induction s as [|c s IH]; [reflexivity|]. cbn. rewrite !andb_true_iff. intros [P A]. auto.
Qed.

Definition but (c a : ascii) : bool := negb (Ascii.eqb a c).

Lemma cut_app c s t : all_chars (but c) s = true -> cut c (s +:+ String c t) = (s, Some t).
Proof.
  induction s as [|a s IH]; cbn; [now rewrite Ascii.eqb_refl|]. unfold but at 1.
  destruct (Ascii.eqb a c); [discriminate|]. cbn. intros A. now rewrite (IH A).
Qed.

Lemma cut_none c s : all_chars (but c) s = true -> cut c s = (s, None).
Proof.
  induction s as [|a s IH]; cbn; [reflexivity|]. unfold but at 1.
  destruct (Ascii.eqb a c); [discriminate|]. cbn. intros A. now rewrite (IH A).
Qed.

Lemma split_on_none c s : all_chars (but c) s = true -> split_on c s = [s].
Proof.
  induction s as [|a s IH]; cbn; [reflexivity|]. unfold but at 1.
  destruct (Ascii.eqb a c); [discriminate|]. cbn. intros A. now rewrite (IH A).
Qed.

Lemma split_on_app c s t : all_chars (but c) s = true -> split_on c (s +:+ String c t) = s :: split_on c t.
Proof.
  induction s as [|a s IH]; cbn; [now rewrite Ascii.eqb_refl|]. unfold but at 1.
  destruct (Ascii.eqb a c); [discriminate|]. cbn. intros A. now rewrite (IH A).
Qed.

Lemma fgets_line n s t : all_chars (but newline) s = true -> (String.length s < n)%nat ->
  fgets n (s +:+ String newline t) = (s +:+ String newline "", t, false).
Proof.
  revert n. induction s as [|a s IH]; intros [|n] A L; cbn in L; try lia.
  - cbn. reflexivity.
  - cbn in *. unfold but at 1 in A. destruct (Ascii.eqb a newline); [discriminate|]. cbn in A.
    rewrite IH by (assumption || lia). reflexivity.
Qed.

Lemma prefix_of_all n s : (String.length s <= n)%nat -> prefix_of n s = s.
Proof. revert n. induction s as [|a s IH]; intros [|n] L; cbn in *; try lia; [reflexivity..|]. now rewrite IH by lia. Qed.

(** ** Trimming *)

Section Trimming.
Import RecipeParser.

(** Nothing to trim at either end. *)
Definition clean (s : string) : Prop := skip_spaces s = s /\ trim_end s = s.

Lemma trim_end_app s t : trim_end (s +:+ t) = if bool_decide (trim_end t = "") then trim_end s else s +:+ trim_end t.
Proof.
  induction s as [|a s IH]; [cbn; now destruct (bool_decide_reflect (trim_end t = ""))|].
  cbn [String.append trim_end]. rewrite IH. destruct (bool_decide_reflect (trim_end t = "")) as [E|N]; [reflexivity|].
  rewrite bool_decide_eq_false_2; [reflexivity|]. destruct s; [exact N|discriminate].
Qed.

Lemma trim_end_tail s t : s <> "" -> trim_end t = t -> trim_end s = s -> trim_end (s +:+ t) = s +:+ t.
Proof.
  intros N T S. rewrite trim_end_app, T. destruct (bool_decide_reflect (t = "")) as [->|]; [|reflexivity].
  now rewrite S, append_nil.
Qed.

Lemma trim_end_back s t : trim_end t = t -> t <> "" -> trim_end (s +:+ t) = s +:+ t.
Proof. intros T N. rewrite trim_end_app, T. now rewrite bool_decide_eq_false_2. Qed.

(** What only begins cleanly stays so with anything behind it. *)
Lemma skip_spaces_app s t : s <> "" -> skip_spaces s = s -> skip_spaces (s +:+ t) = s +:+ t.
Proof.
  destruct s as [|a s]; [congruence|]. intros _. unfold skip_spaces. cbn.
  destruct (is_blank a) eqn:B; [|reflexivity]. intros E. exfalso.
  assert (L : forall u, (String.length (skip_while is_blank u) <= String.length u)%nat).
  { induction u as [|b u IH]; cbn; [lia|]. destruct (is_blank b); cbn; lia. }
  specialize (L s). rewrite E in L. cbn in L. lia.
Qed.

(** A token between its spaces. *)
Definition padded (p t : string) : Prop := trim_end (skip_spaces p) = t.

Lemma padded_front t : clean t -> padded (String " " t) t.
Proof. intros [S T]. unfold padded. cbn. now rewrite S. Qed.

Lemma padded_back t : clean t -> t <> "" -> padded (t +:+ " ") t.
Proof. intros [S T] N. unfold padded. rewrite skip_spaces_app by assumption. now rewrite trim_end_app. Qed.

Lemma padded_both t : clean t -> t <> "" -> padded (String " " (t +:+ " ")) t.
Proof. intros [S T] N. unfold padded. cbn. change (skip_while is_blank) with skip_spaces.
  rewrite skip_spaces_app by assumption. now rewrite trim_end_app. Qed.

(** The characters a token may have, and tokens that survive between bars. *)
Definition line_char (c : ascii) : bool := but newline c && but nul c.
Definition plain (c : ascii) : bool := line_char c && but "|" c.
Definition token_ok (t : string) : Prop := clean t /\ t <> "" /\ all_chars plain t = true.

Lemma plain_bars t : all_chars plain t = true -> all_chars (but "|") t = true.
Proof. apply all_chars_weaken. intros c P. now apply andb_true_iff in P as [_ P]. Qed.

Lemma plain_line t : all_chars plain t = true -> all_chars line_char t = true.
Proof. apply all_chars_weaken. intros c P. now apply andb_true_iff in P as [P _]. Qed.

Lemma split_join_tail ts : forall t, token_ok t -> Forall token_ok ts ->
  Forall2 padded (split_on "|" (String " " (join t ts))) (t :: ts).
Proof.
  induction ts as [|t' ts IH]; intros t (C & N & B) F; apply plain_bars in B; cbn [join].
  - rewrite split_on_none by (cbn; exact B). constructor; [now apply padded_front|constructor].
  - apply Forall_cons in F as [K F].
    change (String " " (t +:+ " | " +:+ join t' ts)) with (String " " t +:+ " | " +:+ join t' ts).
    replace (String " " t +:+ " | " +:+ join t' ts) with (String " " (t +:+ " ") +:+ String "|" (String " " (join t' ts)))
      by (cbn [String.append]; f_equal; now rewrite append_assoc).
    rewrite split_on_app by (cbn; rewrite all_chars_app, B; reflexivity).
    constructor; [now apply padded_both|]. now apply IH.
Qed.

Lemma split_join t ts : token_ok t -> Forall token_ok ts -> Forall2 padded (split_on "|" (join t ts)) (t :: ts).
Proof.
  intros (C & N & B) F. apply plain_bars in B. destruct ts as [|t' ts]; cbn [join].
  - rewrite split_on_none by exact B. constructor; [|constructor]. destruct C as [S T]. unfold padded. now rewrite S.
  - apply Forall_cons in F as [K F].
    replace (t +:+ " | " +:+ join t' ts) with ((t +:+ " ") +:+ String "|" (String " " (join t' ts)))
      by now rewrite append_assoc.
    rewrite split_on_app by (rewrite all_chars_app, B; reflexivity).
    constructor; [now apply padded_back|]. now apply split_join_tail.
Qed.

(** Strings without blanks are clean. *)
Lemma clean_chars s : all_chars (fun c => negb (is_end c)) s = true -> clean s.
Proof.
  intros A. split.
  - destruct s as [|c s]; [reflexivity|]. cbn in A. apply andb_true_iff in A as [A _].
    unfold skip_spaces. cbn. unfold is_end in A. destruct (is_blank c); [discriminate|reflexivity].
  - induction s as [|c s IH]; [reflexivity|]. cbn in *. apply andb_true_iff in A as [A1 A2].
    rewrite (IH A2). apply negb_true_iff in A1. rewrite A1, andb_false_r. reflexivity.
Qed.

(** A field is a token when its value is clean. *)
Lemma field_token key value : clean key -> key <> "" -> all_chars plain key = true ->
  clean value -> all_chars plain value = true -> token_ok (key +:+ String "=" value).
Proof.
  intros [K1 K2] N P [V1 V2] PV. split_and!.
  - split; [now apply skip_spaces_app|]. apply trim_end_tail; try assumption. cbn. rewrite V2.
    change (is_end "=") with false. now rewrite andb_false_r.
  - destruct key; [congruence|discriminate].
  - rewrite all_chars_app, P. exact PV.
Qed.

Lemma join_clean ts : forall t, token_ok t -> Forall token_ok ts -> clean (join t ts) /\ join t ts <> "".
Proof.
  induction ts as [|t' ts IH]; intros t (C & N & B) F; cbn [join]; [now split|].
  apply Forall_cons in F as [K F]. destruct (IH t' K F) as [[S T] N']. destruct C as [C1 C2]. split; [split|].
  - now apply skip_spaces_app.
  - rewrite <- append_assoc. now apply trim_end_back.
  - destruct t; [congruence|discriminate].
Qed.

Lemma join_chars ts : forall t, token_ok t -> Forall token_ok ts -> all_chars line_char (join t ts) = true.
Proof.
  induction ts as [|t' ts IH]; intros t (C & N & B) F; cbn [join]; [now apply plain_line|].
  apply Forall_cons in F as [K F]. rewrite all_chars_app, (plain_line _ B). now rewrite all_chars_app, IH.
Qed.

Fixpoint width (ts : list string) : nat :=
  match ts with [] => O | t :: ts => (3 + String.length t + width ts)%nat end.

Lemma join_length ts : forall t, String.length (join t ts) = (String.length t + width ts)%nat.
Proof.
  induction ts as [|t' ts IH]; intros t; cbn [join width]; [lia|].
  rewrite !str_length_app, IH. cbn. lia.
Qed.

Lemma width_app l1 l2 : width (l1 ++ l2) = (width l1 + width l2)%nat.
Proof. induction l1 as [|t l1 IH]; [reflexivity|]. cbn. rewrite IH. lia. Qed.

End Trimming.

(** ** Numbers *)

Lemma small_digit d : 0 <= d <= 9 -> In d [0; 1; 2; 3; 4; 5; 6; 7; 8; 9].
Proof. cbn. lia. Qed.

Lemma digit_char (p : ascii -> bool) d : 0 <= d <= 9 -> forallb (fun d => p (digit d)) [0; 1; 2; 3; 4; 5; 6; 7; 8; 9] = true ->
  p (digit d) = true.
Proof. intros D F. rewrite forallb_forall in F. apply F, small_digit, D. Qed.

Lemma digit_value_digit d : 0 <= d <= 9 -> digit_value (digit d) = Some d.
Proof. intros D. apply small_digit in D. cbn [In] in D. intuition (subst; reflexivity). Qed.

Lemma digits_of_head fuel z : 0 <= z -> exists d s, digits_of (S fuel) z = String (digit d) s /\ 0 <= d <= 9.
Proof.
  revert z. induction fuel as [|fuel IH]; intros z Hz.
  - exists (z mod 10), "". split; [|wrap_lia]. cbn. now destruct (z <? 10).
  - cbn [digits_of]. destruct (z <? 10); [exists (z mod 10), ""; split; [reflexivity|wrap_lia]|].
    destruct (IH (z / 10) ltac:(wrap_lia)) as (d & s & E & D). cbn [digits_of] in E. rewrite E.
    exists d. eexists. split; [reflexivity|exact D].
Qed.

Lemma digits_of_chars p fuel z : forallb (fun d => p (digit d)) [0; 1; 2; 3; 4; 5; 6; 7; 8; 9] = true ->
  all_chars p (digits_of fuel z) = true.
Proof.
  intros F. revert z. induction fuel as [|fuel IH]; intros z; [reflexivity|]. cbn [digits_of].
  rewrite all_chars_app. cbn [all_chars]. rewrite (digit_char p (z mod 10)) by (wrap_lia || exact F).
  destruct (z <? 10); [reflexivity|]. now rewrite IH.
Qed.

Lemma digits_of_length fuel z : (String.length (digits_of fuel z) <= fuel)%nat.
Proof.
  revert z. induction fuel as [|fuel IH]; intros z; [cbn; lia|]. cbn [digits_of]. rewrite str_length_app.
  specialize (IH (z / 10)). destruct (z <? 10); cbn [String.length]; lia.
Qed.

Lemma scan_print fuel : forall z acc n rest, 0 <= z < 10 ^ Z.of_nat fuel -> fuel <> O ->
  exists k, (0 < k)%nat /\ scan_digits digit_value 10 acc n (digits_of fuel z +:+ rest) =
    scan_digits digit_value 10 (acc * 10 ^ Z.of_nat k + z) (n + k) rest.
Proof.
  induction fuel as [|fuel IH]; intros z acc n rest Hz N; [congruence|]. cbn [digits_of].
  destruct (Z.ltb_spec z 10) as [L|L].
  - exists 1%nat. split; [lia|]. cbn [String.append scan_digits]. rewrite Z.mod_small by lia.
    rewrite digit_value_digit by lia. f_equal; lia.
  - destruct (IH (z / 10) acc n (String (digit (z mod 10)) "" +:+ rest)) as (k & K & E).
    + rewrite Nat2Z.inj_succ, Z.pow_succ_r in Hz by lia. wrap_lia.
    + intros ->. cbn in Hz. lia.
    + exists (S k). split; [lia|]. rewrite append_assoc, E. cbn [String.append scan_digits].
      rewrite digit_value_digit by wrap_lia. f_equal; [|lia].
      rewrite Nat2Z.inj_succ, Z.pow_succ_r by lia. pose proof (Z.div_mod z 10). lia.
Qed.

Lemma parse_print_int z lo hi : 0 <= lo <= z -> z <= hi -> hi < 1000000 ->
  RecipeParser.parse_long (print_int z) lo hi = Some z.
Proof.
  intros L U B. unfold RecipeParser.parse_long, strtol.
  assert (H : sign (skip_while is_space (print_int z)) = (false, print_int z)).
  { destruct (digits_of_head 5 z ltac:(lia)) as (d & s & E & D). unfold print_int. rewrite E. cbn [skip_while].
    assert (S : negb (is_space (digit d)) = true) by (apply (digit_char (fun c => negb (is_space c)) d D); reflexivity).
    apply negb_true_iff in S. rewrite S. cbn [sign].
    assert (M : negb (Ascii.eqb (digit d) "-") && negb (Ascii.eqb (digit d) "+") = true)
      by (apply (digit_char (fun c => negb (Ascii.eqb c "-") && negb (Ascii.eqb c "+")) d D); reflexivity).
    apply andb_true_iff in M as [M1 M2]. apply negb_true_iff in M1, M2. now rewrite M1, M2. }
  rewrite H. destruct (scan_print 6 z 0 0 "") as (k & K & E); [cbn; lia|discriminate|].
  rewrite append_nil in E. unfold print_int. rewrite E. cbn [scan_digits].
  destruct (Nat.eqb_spec (0 + k) 0); [lia|]. rewrite Z.mul_0_l, Z.add_0_l.
  destruct (z >? 9223372036854775807) eqn:G1; [lia|]. destruct (z <? -9223372036854775808) eqn:G2; [lia|].
  cbn. destruct (z <? lo) eqn:G3; [lia|]. destruct (z >? hi) eqn:G4; [lia|]. reflexivity.
Qed.

(** Every temperature of the range, by computation. *)
Lemma parse_print_tenths d : 370 <= d <= 1600 -> RecipeParser.parse_temperature (print_tenths d) = Ret (Some d).
Proof.
  assert (A : all_from (fun d => match RecipeParser.parse_temperature (print_tenths d) with
                                 | Ret (Some d') => d =? d'
                                 | _ => false
                                 end) (Z.to_nat 1231) 370 = true) by (vm_compute; reflexivity).
  intros D. pose proof (all_from_spec _ _ _ A d ltac:(change (Z.of_nat (Z.to_nat 1231)) with 1231; lia)) as E.
  cbv beta in E. clear A.
  destruct (RecipeParser.parse_temperature (print_tenths d)) as [[d'|]| |]; try discriminate.
  apply Z.eqb_eq in E. now subst.
Qed.

(** ** Steps *)

Section StepRoundTrip.
Import RecipeParser.

Definition number_char (c : ascii) : bool := plain c && negb (is_end c).

Lemma number_value v : all_chars number_char v = true -> clean v /\ all_chars plain v = true.
Proof.
  intros A. split.
  - apply clean_chars. apply (all_chars_weaken number_char); [|exact A]. intros c P. now apply andb_true_iff in P as [_ P].
  - apply (all_chars_weaken number_char); [|exact A]. intros c P. now apply andb_true_iff in P as [P _].
Qed.

Lemma print_int_value z : clean (print_int z) /\ all_chars plain (print_int z) = true.
Proof. apply number_value, digits_of_chars. reflexivity. Qed.

Lemma print_tenths_value d : clean (print_tenths d) /\ all_chars plain (print_tenths d) = true.
Proof.
  apply number_value. unfold print_tenths. rewrite all_chars_app. cbn [all_chars].
  unfold print_int. now rewrite !digits_of_chars by reflexivity.
Qed.

(** A text the format can carry. *)
Definition text_ok (s : string) : Prop := clean s /\ all_chars plain s = true.

(** The steps the printer is for. *)
Definition printable (s : RecipeStep) : Prop := step_valid s /\ text_ok (text s).

Lemma kind_token k : token_ok (kind_name k).
Proof. destruct k; (split; [split; reflexivity|split; [discriminate|reflexivity]]). Qed.

Lemma field_tokens given key value : clean key -> key <> "" -> all_chars plain key = true ->
  clean value /\ all_chars plain value = true -> Forall token_ok (field given key value).
Proof.
  intros K N P [V PV]. unfold field. destruct given; [|constructor].
  constructor; [|constructor]. now apply field_token.
Qed.

Lemma step_tokens s : text_ok (text s) -> Forall token_ok (step_fields s).
Proof.
  intros T. unfold step_fields. rewrite !Forall_app.
  split_and!; (apply field_tokens; [split; reflexivity|discriminate|reflexivity|]);
    auto using print_int_value, print_tenths_value.
Qed.

(** What the parser does with a field that may be there. *)
Lemma read_field (given : bool) key value ts rest s f s' f' :
  Forall2 padded ts (field given key value ++ rest) -> all_chars (but "=") key = true -> clean key -> clean value ->
  (given = true -> apply_field s f key value = Ret (true, s', f')) -> (given = false -> s' = s /\ f' = f) ->
  exists ts', Forall2 padded ts' rest /\ parse_fields ts s f = parse_fields ts' s' f'.
Proof.
  intros P K [_ C] [V _] T F. unfold field in P. destruct given; cbn [app] in P.
  - apply Forall2_cons_inv_r in P as (t & ts' & P & Q & ->). exists ts'. split; [exact Q|].
    cbn [parse_fields]. unfold padded in P. rewrite P, cut_app by exact K. rewrite C, V, (T eq_refl). reflexivity.
  - destruct (F eq_refl) as [-> ->]. now exists ts.
Qed.

Lemma parse_kind_name k : parse_kind (kind_name k) = Some k.
Proof. now destruct k. Qed.

(** The fields, one by one. *)
Lemma apply_temp s f d : 370 <= d <= 1600 ->
  apply_field s f "temp" (print_tenths d) = Ret (true, s <| target_temp := d |>, f <| temp := true |>).
Proof. intros D. unfold apply_field. now rewrite parse_print_tenths. Qed.

Lemma apply_speed s f z : 0 <= z <= 10 ->
  apply_field s f "speed" (print_int z) = Ret (true, s <| dial_speed := z |>, f <| speed := true |>).
Proof.
  intros R. unfold apply_field. rewrite parse_print_int by lia. cbn -[u8]. now rewrite u8_id by (unfold in_u8; lia).
Qed.

Lemma apply_time s f z : 1 <= z <= 86400 ->
  apply_field s f "time" (print_int z) = Ret (true, s <| duration_s := z |>, f <| time := true |>).
Proof.
  intros R. unfold apply_field. rewrite (parse_print_int z 1 86400) by lia. cbn -[u32]. now rewrite u32_id by (unfold in_u32; lia).
Qed.

Lemma apply_weight s f z : 1 <= z <= 2200 ->
  apply_field s f "weight" (print_int z) = Ret (true, s <| target_weight := z |>, f <| weight := true |>).
Proof.
  intros R. unfold apply_field. rewrite (parse_print_int z 1 2200) by lia. cbn -[i32]. now rewrite i32_id by (unfold in_i32; lia).
Qed.

Lemma apply_text s f t : (String.length t <= 95)%nat ->
  apply_field s f "text" t = Ret (true, s <| text := t |>, f).
Proof. intros L. unfold apply_field. cbn -[prefix_of]. now rewrite prefix_of_all. Qed.

Lemma parse_step_fields s ts : printable s ->
  let s0 := default_step <| kind := kind s |> in
  Forall2 padded ts (step_fields s) ->
  exists f, parse_fields ts s0 no_fields = Ret (true, s, f) /\ complete s f = true.
Proof.
  intros [[[T D Du We Tx] V] Txt] s0 P. unfold step_fields in P.
  set (f1 := no_fields <| temp := negb (target_temp s =? 0) |>).
  set (f2 := f1 <| speed := negb (dial_speed s =? 0) |>).
  set (f3 := f2 <| time := negb (duration_s s =? 0) |>).
  set (f4 := f3 <| weight := negb (target_weight s =? 0) |>).
  set (s1 := s0 <| target_temp := target_temp s |>). set (s2 := s1 <| dial_speed := dial_speed s |>).
  set (s3 := s2 <| duration_s := duration_s s |>). set (s4 := s3 <| target_weight := target_weight s |>).
  destruct (read_field _ _ _ ts _ s0 no_fields s1 f1 P) as (ts1 & P1 & E1);
    [reflexivity|split; reflexivity|apply print_tenths_value| | |].
  { intros G. unfold f1. rewrite G. apply apply_temp. apply negb_true_iff, Z.eqb_neq in G. lia. }
  { intros G. unfold f1, s1. rewrite G. apply negb_false_iff, Z.eqb_eq in G. now rewrite G. }
  destruct (read_field _ _ _ ts1 _ s1 f1 s2 f2 P1) as (ts2 & P2 & E2);
    [reflexivity|split; reflexivity|apply print_int_value| | |].
  { intros G. unfold f2. rewrite G. apply apply_speed. apply negb_true_iff, Z.eqb_neq in G. lia. }
  { intros G. unfold f2, s2. rewrite G. apply negb_false_iff, Z.eqb_eq in G. now rewrite G. }
  destruct (read_field _ _ _ ts2 _ s2 f2 s3 f3 P2) as (ts3 & P3 & E3);
    [reflexivity|split; reflexivity|apply print_int_value| | |].
  { intros G. unfold f3. rewrite G. apply apply_time. apply negb_true_iff, Z.eqb_neq in G. lia. }
  { intros G. unfold f3, s3. rewrite G. apply negb_false_iff, Z.eqb_eq in G. now rewrite G. }
  destruct (read_field _ _ _ ts3 _ s3 f3 s4 f4 P3) as (ts4 & P4 & E4);
    [reflexivity|split; reflexivity|apply print_int_value| | |].
  { intros G. unfold f4. rewrite G. apply apply_weight. apply negb_true_iff, Z.eqb_neq in G. lia. }
  { intros G. unfold f4, s4. rewrite G. apply negb_false_iff, Z.eqb_eq in G. now rewrite G. }
  rewrite <- (app_nil_r (field _ "text" _)) in P4.
  destruct (read_field _ _ _ ts4 _ s4 f4 s f4 P4) as (ts5 & P5 & E5);
    [reflexivity|split; reflexivity|apply Txt| | |].
  { intros _. rewrite apply_text by exact Tx. now destruct s. }
  { intros G. apply negb_false_iff, bool_decide_eq_true in G. split; [|reflexivity]. destruct s. cbn in G. now subst. }
  apply Forall2_nil_inv_r in P5 as ->. exists f4. split; [now rewrite E1, E2, E3, E4, E5|].
  unfold complete, f4, f3, f2, f1. simp_set. destruct (kind s); [reflexivity|..];
    rewrite ?andb_true_iff, ?negb_true_iff, ?Z.eqb_neq; lia.
Qed.

(** The parser reads a printed step back. *)
Lemma parse_print_step s : printable s -> parse_step (print_step s) default_step = Ret (Ok, s).
Proof.
  intros Ps. unfold parse_step. destruct (Ps) as [_ Txt].
  pose proof (split_join (kind_name (kind s)) (step_fields s) (kind_token _) (step_tokens s Txt)) as P.
  fold (print_step s) in P. destruct (split_on "|" (print_step s)) as [|first ts]; [inversion P|].
  apply Forall2_cons in P as [P0 P]. unfold padded in P0. rewrite P0, parse_kind_name.
  destruct (parse_step_fields s ts Ps P) as (f & -> & C). cbn. now rewrite C.
Qed.

End StepRoundTrip.

(** ** Lines and files *)

Section FileRoundTrip.
Import RecipeParser.

(** The recipes the printer is for: valid, with texts the format can carry, and
    nothing in the slots it does not use. *)
Record recipe_printable (r : Recipe) : Prop := {
  pr_valid : recipe_valid r;
  pr_name : clean (name r) /\ all_chars line_char (name r) = true;
  pr_texts : Forall (fun s => text_ok (text s)) (take (step_count r) (steps r));
  pr_rest : drop (step_count r) (steps r) = replicate (kMaxSteps - step_count r) default_step
}.

(** A line as the parser is given it. *)
Definition line_ok (line : string) : Prop := all_chars line_char line = true /\ (String.length line < 255)%nat.

Lemma line_no c line : all_chars line_char line = true -> (forall a, line_char a = true -> but c a = true) ->
  all_chars (but c) line = true.
Proof. intros A W. exact (all_chars_weaken _ _ _ W A). Qed.

Lemma line_char_but a : line_char a = true -> but newline a = true /\ but nul a = true.
Proof. apply andb_true_iff. Qed.

(** One line of a file. *)
Lemma parse_print_line line rest r r' fuel : line_ok line ->
  parse_line (line +:+ String newline "") r = Ret (Ok, r') ->
  parse_lines (S fuel) {| contents := line +:+ String newline rest; fails := false |} r =
  parse_lines fuel {| contents := rest; fails := false |} r'.
Proof.
  intros [A L] E. cbn [parse_lines contents fails].
  rewrite fgets_line by (first [exact L | apply (line_no newline _ A); intros a; apply line_char_but]).
  rewrite bool_decide_eq_false_2 by (destruct line; discriminate). cbn [andb orb].
  assert (Cs : c_str (line +:+ String newline "") = line +:+ String newline "").
  { unfold c_str. rewrite cut_none; [reflexivity|]. rewrite all_chars_app, (line_no nul _ A); [reflexivity|].
    intros a. apply line_char_but. }
  rewrite Cs. rewrite cut_app by (apply (line_no newline _ A); intros a; apply line_char_but).
  cbn [snd]. rewrite (bool_decide_eq_true_2 (is_Some (Some ""))) by (now eexists). cbn [negb andb].
  rewrite E. cbn. reflexivity.
Qed.

Lemma print_step_length s : printable s -> (String.length (print_step s) <= 200)%nat.
Proof.
  intros [[[_ _ _ _ Tx] _] _]. unfold print_step. rewrite join_length. unfold step_fields. rewrite !width_app.
  assert (W : forall b key value, (width (field b key value) <= 4 + String.length key + String.length value)%nat).
  { intros b key value. destruct b; cbn [field width]; [|lia]. rewrite str_length_app. cbn. lia. }
  assert (P : forall z, (String.length (print_int z) <= 6)%nat) by (intros z; apply digits_of_length).
  assert (T : (String.length (print_tenths (target_temp s)) <= 13)%nat).
  { unfold print_tenths. rewrite str_length_app. cbn [String.length].
    pose proof (P (target_temp s / 10)). pose proof (P (target_temp s mod 10)). lia. }
  pose proof (W (negb (target_temp s =? 0)) "temp" (print_tenths (target_temp s))).
  pose proof (W (negb (dial_speed s =? 0)) "speed" (print_int (dial_speed s))).
  pose proof (W (negb (duration_s s =? 0)) "time" (print_int (duration_s s))).
  pose proof (W (negb (target_weight s =? 0)) "weight" (print_int (target_weight s))).
  pose proof (W (negb (bool_decide (text s = ""))) "text" (text s)).
  pose proof (P (dial_speed s)). pose proof (P (duration_s s)). pose proof (P (target_weight s)).
  assert (String.length (kind_name (kind s)) <= 5)%nat by (destruct (kind s); cbn; lia).
  cbn [String.length] in *. lia.
Qed.

(** The text of a line behind its keyword. *)
Lemma trimmed_line (keyword body : string) : clean body -> body <> "" -> skip_spaces keyword = keyword -> keyword <> "" ->
  skip_spaces (trim_end ((keyword +:+ body) +:+ String newline "")) = keyword +:+ body.
Proof.
  intros [_ T] N K Kn. rewrite trim_end_app. cbn [trim_end]. rewrite bool_decide_eq_true_2 by reflexivity.
  rewrite trim_end_back by assumption. now apply skip_spaces_app.
Qed.

Lemma parse_print_name n r : clean n -> n <> "" -> (String.length n <= 31)%nat ->
  parse_line (("name: " +:+ n) +:+ String newline "") r = Ret (Ok, r <| name := n |>).
Proof.
  intros C N L. unfold parse_line. rewrite trimmed_line by (assumption || reflexivity || discriminate).
  cbn -[prefix_of]. change (skip_while is_blank) with skip_spaces. change (skip_spaces (String " " n)) with (skip_spaces n).
  destruct C as [S _]. now rewrite S, prefix_of_all.
Qed.

Lemma parse_print_step_line s r : printable s -> (step_count r < kMaxSteps)%nat -> step_at r (step_count r) = default_step ->
  parse_line (("step: " +:+ print_step s) +:+ String newline "") r =
  Ret (Ok, r <| steps := <[step_count r := s]> (steps r) |> <| step_count := S (step_count r) |>).
Proof.
  intros P L D. unfold parse_line.
  destruct (join_clean (step_fields s) (kind_name (kind s)) (kind_token _) (step_tokens s (proj2 P))) as [C N].
  fold (print_step s) in C, N. rewrite trimmed_line by (assumption || reflexivity || discriminate).
  assert (E : strip "step:" ("step: " +:+ print_step s) = Some (String " " (print_step s))) by reflexivity.
  rewrite E. rewrite bool_decide_eq_false_2 by discriminate.
  change (strip "#" ("step: " +:+ print_step s)) with (@None string).
  change (strip "name:" ("step: " +:+ print_step s)) with (@None string).
  rewrite bool_decide_eq_false_2 by (intros [? ?]; discriminate). cbn [orb].
  destruct (Nat.leb_spec kMaxSteps (step_count r)); [lia|].
  change (skip_spaces (String " " (print_step s))) with (skip_spaces (print_step s)).
  destruct C as [S _]. rewrite S, prefix_of_all by (pose proof (print_step_length s P); lia).
  rewrite D, parse_print_step by exact P. reflexivity.
Qed.

Definition step_line (s : RecipeStep) : string := "step: " +:+ print_step s.

Lemma step_line_ok s : printable s -> line_ok (step_line s).
Proof.
  intros P. split.
  - unfold step_line. rewrite all_chars_app. unfold print_step.
    now rewrite join_chars by (apply kind_token || apply step_tokens, P).
  - unfold step_line. rewrite str_length_app. pose proof (print_step_length s P). cbn. lia.
Qed.

Lemma print_lines_length l : (length l <= String.length (print_lines l))%nat.
Proof. induction l as [|line l IH]; [cbn; lia|]. cbn [print_lines length]. rewrite str_length_app. cbn. lia. Qed.

(** The steps of a file, behind the [k] that were read. *)
Lemma parse_print_steps l : forall r fuel, Forall printable l ->
  (step_count r + length l <= kMaxSteps)%nat -> length (steps r) = kMaxSteps ->
  drop (step_count r) (steps r) = replicate (kMaxSteps - step_count r) default_step -> (length l < fuel)%nat ->
  parse_lines fuel {| contents := print_lines (step_line <$> l); fails := false |} r =
  Ret (Ok, r <| steps := take (step_count r) (steps r) ++ l ++ replicate (kMaxSteps - step_count r - length l) default_step |>
             <| step_count := (step_count r + length l)%nat |>).
Proof.
  induction l as [|s l IH]; intros r [|fuel] F B L D Fu; cbn [length] in *; try lia.
  - cbn. do 2 f_equal. rewrite Nat.sub_0_r. change (S (S (S (S (S (S (S (S (S (S (S (S (S (S (S (S O)))))))))))))))) with kMaxSteps.
    rewrite <- D, take_drop, Nat.add_0_r. now destruct r.
  - apply Forall_cons in F as [P F]. cbn [fmap list_fmap print_lines].
    assert (D0 : step_at r (step_count r) = default_step).
    { unfold step_at. assert (E : (drop (step_count r) (steps r)) !! 0%nat = Some default_step).
      { rewrite D. apply lookup_replicate_2. lia. }
      rewrite lookup_drop, Nat.add_0_r in E. now apply nth_lookup_Some. }
    assert (LO : line_ok (step_line s)) by now apply step_line_ok.
    erewrite parse_print_line by (exact LO || (apply parse_print_step_line; [exact P|lia|exact D0])).
    rewrite IH; simp_set; try assumption; try lia; [|now rewrite length_insert|].
    + f_equal. f_equal. rewrite take_S_insert by lia. rewrite <- app_assoc. cbn [app].
      replace (kMaxSteps - S (step_count r) - length l)%nat with (kMaxSteps - step_count r - S (length l))%nat by lia.
      replace (S (step_count r) + length l)%nat with (step_count r + S (length l))%nat by lia. reflexivity.
    + rewrite drop_insert_lt by lia. replace (S (step_count r)) with (step_count r + 1)%nat by lia.
      rewrite <- drop_drop, D, drop_replicate. f_equal. lia.
Qed.

End FileRoundTrip.

(** ** Properties *)

(** C26: the recipe format round-trips: the file the documented format gives a
    recipe (the name, then a line per step with the values it has, in any of the
    values and texts the format can carry) is read back as exactly that recipe,
    in whatever state the recipe it is read into was. *)
Theorem printed_recipes_are_read_back path out r : recipe_printable r ->
  RecipeParser.parse_recipe_file (fun _ => Some {| contents := print_recipe r; fails := false |}) (Some path) out
  = Ret (Ok, r).
Proof.
  intros [[[Nl [Sl _] Cn V] [Nn Nc]] [NC NA] Tx Rest]. cbn [mbind option_bind RecipeParser.parse_recipe_file].
  unfold RecipeParser.parse_recipe_file. cbn [mbind option_bind contents].
  pose proof (print_lines_length (("name: " +:+ name r) :: (step_line <$> take (step_count r) (steps r)))) as Fu.
  change (print_lines _) with (print_recipe r) in Fu at 1. cbn [length] in Fu. rewrite length_fmap in Fu.
  assert (NL : line_ok ("name: " +:+ name r)) by (split; [rewrite all_chars_app; now rewrite NA|rewrite str_length_app; cbn; lia]).
  unfold print_recipe at 2. cbn [print_lines].
  erewrite parse_print_line by (exact NL || (apply parse_print_name; assumption)).
  destruct (String.length (print_recipe r)) as [|fuel] eqn:Lf; [lia|].
  change (fun s => "step: " +:+ print_step s) with step_line.
  assert (Ln : length (take (step_count r) (steps r)) = step_count r) by (rewrite length_take; lia).
  rewrite parse_print_steps; rewrite ?Ln;
    [|now apply Forall_and|exact Cn|reflexivity|reflexivity|lia].
  assert (E : default_recipe <| name := name r |>
      <| steps := take 0 (steps default_recipe) ++ take (step_count r) (steps r) ++ replicate (kMaxSteps - 0 - step_count r) default_step |>
      <| step_count := (0 + step_count r)%nat |> = r).
  { rewrite Nat.sub_0_r, <- Rest. cbn [take app]. rewrite take_drop. now destruct r. }
  cbn [mbind outcome_bind]. change (step_count (default_recipe <| name := name r |>)) with O.
  change (steps (default_recipe <| name := name r |>)) with (steps default_recipe). rewrite E.
  rewrite (bool_decide_eq_false_2 (name r = "")) by exact Nn. destruct (Nat.eqb_spec (step_count r) 0); [lia|reflexivity].
Qed.

(** A dish with one step of each kind. *)
Definition dish : Recipe :=
  {| name := "Stew";
     steps := [ {| kind := Weigh; text := "Add 500 g of stock"; target_temp := 0; dial_speed := 0; duration_s := 0; target_weight := 500 |};
                {| kind := Heat; text := ""; target_temp := 985; dial_speed := 1; duration_s := 1200; target_weight := 0 |};
                {| kind := Mix; text := "a = b"; target_temp := 0; dial_speed := 10; duration_s := 86400; target_weight := 0 |};
                default_step ] ++ replicate 12 default_step;
     step_count := 4 |}.

Lemma dish_steps_ok : Forall step_ok (steps dish).
Proof. apply Forall_app. split; [|apply Forall_replicate]; repeat (apply Forall_cons; split); try apply Forall_nil; split; cbn; lia. Qed.

Lemma dish_printable : recipe_printable dish.
Proof.
  pose proof dish_steps_ok as S. split.
  - split; [|split; discriminate]. split; [cbn; lia|split; [reflexivity|exact S]|now apply Nat.leb_le|].
    apply (Forall_take step_ok (step_count dish)) in S. cbn in S |- *.
    repeat (apply Forall_cons in S as [? S]; apply Forall_cons; split; [split; [assumption|cbn; repeat split; discriminate]|]). constructor.
  - split; [split; reflexivity|reflexivity].
  - cbn. repeat constructor.
  - reflexivity.
Qed.

Lemma printed_recipes_are_read_back_witness :
  RecipeParser.parse_recipe_file (fun _ => Some {| contents := print_recipe dish; fails := false |})
    (Some "stew.rcp") default_recipe = Ret (Ok, dish).
Proof. apply printed_recipes_are_read_back, dish_printable. Defined.
