(* ===== verification/Programs.v ===== *)
(** * Cooking programs (src/src/app/cooking)

    A program drives the device through the client, one 10 ms tick at a time. A
    tick is a function of the elapsed time, the telemetry store and the client
    [M], which it sees through [IMcuClient] only. A request can be refused; the
    program asks again on a later tick. *)

From S2P Require Import Prelude.
From S2P Require Import Float32.
From S2P Require Import Common.
From S2P Require Import C1Link.
From S2P Require Import Hal.
From S2P Require Import Mcu.
From S2P Require Import TelemetryStore.
From S2P Require Import McuClient.
From S2P Require Import Recipe.

(** program.h *)
Definition dial_to_rpm (dial : Z) : Z := u16 ((if dial >? 10 then 10 else dial) * 1070).

Definition is_ok (st : Status) : bool := bool_decide (st = Ok).

(** manual_mode.{h,cpp} *)
Module ManualMode.
Record ManualMode := { temp_deci_ : Z; dial_ : Z; duration_ms_ : Z; heater_set_ : bool; motor_set_ : bool }.
#[global] Instance eta_ManualMode : Eta ManualMode := fun p =>
  {| temp_deci_ := temp_deci_ p; dial_ := dial_ p; duration_ms_ := duration_ms_ p;
     heater_set_ := heater_set_ p; motor_set_ := motor_set_ p |}.

Definition new (temp dial duration_s : Z) : ManualMode :=
  {| temp_deci_ := temp; dial_ := dial; duration_ms_ := u32 (duration_s * 1000); heater_set_ := false; motor_set_ := false |}.

Definition on_tick {M} `{IMcuClient M} (p : ManualMode) (m : M) : ManualMode * M :=
  if negb (heater_set_ p) then
    if temp_deci_ p <=? 0 then (p <| heater_set_ := true |>, m)
    else let '(st, m) := set_heater (temp_deci_ p) m in (p <| heater_set_ := is_ok st |>, m)
  else if negb (motor_set_ p) then
    let '(st, m) := set_motor (dial_to_rpm (dial_ p)) kRampNormal m in (p <| motor_set_ := is_ok st |>, m)
  else (p, m).

Definition finished (elapsed_ms : Z) (p : ManualMode) : bool := elapsed_ms >=? duration_ms_ p.
End ManualMode.

(** dough_mode.{h,cpp} *)
Module DoughMode.
Definition kKneadMs : Z := 4000.
Definition kRestMs : Z := 2000.

Record DoughMode := { duration_ms_ : Z; kneading_ : bool; command_pending_ : bool }.
#[global] Instance eta_DoughMode : Eta DoughMode := fun p =>
  {| duration_ms_ := duration_ms_ p; kneading_ := kneading_ p; command_pending_ := command_pending_ p |}.

Definition new (duration_s : Z) : DoughMode :=
  {| duration_ms_ := u32 (duration_s * 1000); kneading_ := false; command_pending_ := true |}.

Definition on_tick {M} `{IMcuClient M} (elapsed_ms : Z) (p : DoughMode) (m : M) : DoughMode * M :=
  let cycle := elapsed_ms mod (kKneadMs + kRestMs) in
  let want_knead := cycle <? kKneadMs in
  if negb (eqb want_knead (kneading_ p)) || command_pending_ p then
    let target := if want_knead then dial_to_rpm 3 else 0 in
    let '(st, m) := set_motor target kRampFast m in
    (if is_ok st then p <| kneading_ := want_knead |> <| command_pending_ := false |>
     else p <| command_pending_ := true |>, m)
  else (p, m).

Definition finished (elapsed_ms : Z) (p : DoughMode) : bool := elapsed_ms >=? duration_ms_ p.
Definition status (p : DoughMode) : string := if kneading_ p then "kneading" else "resting".
End DoughMode.

(** sous_vide_mode.{h,cpp} *)
Module SousVideMode.
Record SousVideMode := {
  target_deci_ : Z; duration_ms_ : Z; heater_set_ : bool; motor_set_ : bool; at_temperature_ : bool
}.
#[global] Instance eta_SousVideMode : Eta SousVideMode := fun p =>
  {| target_deci_ := target_deci_ p; duration_ms_ := duration_ms_ p; heater_set_ := heater_set_ p;
     motor_set_ := motor_set_ p; at_temperature_ := at_temperature_ p |}.

Definition new (target duration_s : Z) : SousVideMode :=
  let target := if target <? 370 then 370 else target in
  let target := if target >? 900 then 900 else target in
  {| target_deci_ := target; duration_ms_ := u32 (duration_s * 1000); heater_set_ := false; motor_set_ := false;
     at_temperature_ := false |}.

Definition on_tick {M} `{IMcuClient M} (telemetry : TelemetryStore.TelemetryStore) (p : SousVideMode) (m : M)
    : SousVideMode * M :=
  if negb (heater_set_ p) then
    let '(st, m) := set_heater (target_deci_ p) m in (p <| heater_set_ := is_ok st |>, m)
  else if negb (motor_set_ p) then
    let '(st, m) := set_motor (dial_to_rpm 2) kRampGentle m in (p <| motor_set_ := is_ok st |>, m)
  else
    let bath := TelemetryStore.average_temp_c 2000 telemetry in
    (if fle (fabs (fsub bath (to_celsius (target_deci_ p)))) (lit 1 2)
     then p <| at_temperature_ := true |> else p, m).

Definition finished (elapsed_ms : Z) (p : SousVideMode) : bool := elapsed_ms >=? duration_ms_ p.
Definition status (p : SousVideMode) : string := if at_temperature_ p then "at temperature" else "heating".
End SousVideMode.

(** steam_mode.{h,cpp} *)
Module SteamMode.
Record SteamMode := { duration_ms_ : Z; heater_set_ : bool; motor_set_ : bool; lid_open_ : bool }.
#[global] Instance eta_SteamMode : Eta SteamMode := fun p =>
  {| duration_ms_ := duration_ms_ p; heater_set_ := heater_set_ p; motor_set_ := motor_set_ p; lid_open_ := lid_open_ p |}.

Definition new (duration_s : Z) : SteamMode :=
  {| duration_ms_ := u32 (duration_s * 1000); heater_set_ := false; motor_set_ := false; lid_open_ := false |}.

Definition on_tick {M} `{IMcuClient M} (telemetry : TelemetryStore.TelemetryStore) (p : SteamMode) (m : M)
    : SteamMode * M :=
  if negb (heater_set_ p) then
    let '(st, m) := set_heater 1000 m in (p <| heater_set_ := is_ok st |>, m)
  else if negb (motor_set_ p) then
    let '(st, m) := set_motor (dial_to_rpm 1) kRampGentle m in (p <| motor_set_ := is_ok st |>, m)
  else
    (p <| lid_open_ := Z.land (TelemetryStore.flags (TelemetryStore.latest telemetry)) kFlagLidClosed =? 0 |>, m).

Definition finished (elapsed_ms : Z) (p : SteamMode) : bool := elapsed_ms >=? duration_ms_ p.
Definition status (p : SteamMode) : string := if lid_open_ p then "paused (lid open)" else "steaming".
End SteamMode.

(** turbo_pulse.{h,cpp} *)
Module TurboPulse.
Inductive Phase := Locking | Spinning | Stopping | Unlocking | Finished.
#[global] Instance Phase_eq_dec : EqDecision Phase.
Proof. solve_decision. Defined.

Record TurboPulse := { pulse_ms_ : Z; phase_ : Phase; spin_started_ms_ : Z }.
#[global] Instance eta_TurboPulse : Eta TurboPulse := fun p =>
  {| pulse_ms_ := pulse_ms_ p; phase_ := phase_ p; spin_started_ms_ := spin_started_ms_ p |}.

Definition new (pulse_ms : Z) : TurboPulse :=
  {| pulse_ms_ := if pulse_ms >? 2000 then 2000 else pulse_ms; phase_ := Locking; spin_started_ms_ := 0 |}.

Definition on_tick {M} `{IMcuClient M} (elapsed_ms : Z) (telemetry : TelemetryStore.TelemetryStore)
    (p : TurboPulse) (m : M) : TurboPulse * M :=
  match phase_ p with
  | Locking =>
      let '(st, m) := lock_lid true m in
      (if is_ok st then p <| phase_ := Spinning |> else p, m)
  | Spinning =>
      if spin_started_ms_ p =? 0 then
        let '(st, m) := set_motor 10700 kRampBurst m in
        (if is_ok st then p <| spin_started_ms_ := elapsed_ms |> else p, m)
      else if u32_sub elapsed_ms (spin_started_ms_ p) >=? pulse_ms_ p then (p <| phase_ := Stopping |>, m)
      else (p, m)
  | Stopping =>
      let '(st, m) := motor_stop m in
      (if is_ok st then p <| phase_ := Unlocking |> else p, m)
  | Unlocking =>
      if negb (TelemetryStore.has_data telemetry) || (TelemetryStore.rpm (TelemetryStore.latest telemetry) >=? 100)
      then (p, m)
      else
        let '(st, m) := lock_lid false m in
        (if is_ok st then p <| phase_ := Finished |> else p, m)
  | Finished => (p, m)
  end.

Definition finished (p : TurboPulse) : bool := bool_decide (phase_ p = Finished).
Definition status (p : TurboPulse) : string :=
  match phase_ p with
  | Locking => "locking lid"
  | Spinning => "pulse"
  | Stopping | Unlocking => "winding down"
  | Finished => "done"
  end.
End TurboPulse.

(** guided_recipe.{h,cpp} *)
Module GuidedRecipe.
Inductive Phase := Setup | Run | Teardown.
#[global] Instance Phase_eq_dec : EqDecision Phase.
Proof. solve_decision. Defined.

Record GuidedRecipe := {
  recipe_ : Recipe;
  step_index_ : nat;
  phase_ : Phase;
  command_index_ : Z;
  step_started_ms_ : Z;
  advance_requested_ : bool;
  scale_tared_ : bool
}.
#[global] Instance eta_GuidedRecipe : Eta GuidedRecipe := fun p =>
  {| recipe_ := recipe_ p; step_index_ := step_index_ p; phase_ := phase_ p; command_index_ := command_index_ p;
     step_started_ms_ := step_started_ms_ p; advance_requested_ := advance_requested_ p;
     scale_tared_ := scale_tared_ p |}.

Definition new (recipe : Recipe) : GuidedRecipe :=
  {| recipe_ := recipe; step_index_ := O; phase_ := Setup; command_index_ := 0; step_started_ms_ := 0;
     advance_requested_ := false; scale_tared_ := false |}.

Section Ticks.
Context {M : Type} `{IMcuClient M}.

Definition run_setup (step : RecipeStep) (p : GuidedRecipe) (m : M) : bool * GuidedRecipe * M :=
  match kind step with
  | Note => (true, p, m)
  | Mix => let '(st, m) := set_motor (dial_to_rpm (dial_speed step)) kRampNormal m in (is_ok st, p, m)
  | Heat =>
      if command_index_ p =? 0 then
        let '(st, m) := set_heater (target_temp step) m in
        (false, if is_ok st then p <| command_index_ := 1 |> else p, m)
      else let '(st, m) := set_motor (dial_to_rpm (dial_speed step)) kRampGentle m in (is_ok st, p, m)
  | Weigh =>
      if scale_tared_ p then (true, p, m)
      else let '(st, m) := tare m in (is_ok st, p <| scale_tared_ := is_ok st |>, m)
  end.

Definition step_done (step : RecipeStep) (elapsed_ms : Z) (telemetry : TelemetryStore.TelemetryStore)
    (p : GuidedRecipe) : bool :=
  match kind step with
  | Note => advance_requested_ p
  | Mix | Heat => u32_sub elapsed_ms (step_started_ms_ p) >=? u32 (duration_s step * 1000)
  | Weigh => TelemetryStore.grams (TelemetryStore.latest telemetry) >=? target_weight step
  end.

Definition run_teardown (step : RecipeStep) (p : GuidedRecipe) (m : M) : bool * GuidedRecipe * M :=
  match kind step with
  | Note | Weigh => (true, p, m)
  | Mix => let '(st, m) := motor_stop m in (is_ok st, p, m)
  | Heat =>
      if command_index_ p =? 0 then
        let '(st, m) := heater_off m in
        (false, if is_ok st then p <| command_index_ := 1 |> else p, m)
      else let '(st, m) := motor_stop m in (is_ok st, p, m)
  end.

Definition advance (p : GuidedRecipe) : GuidedRecipe :=
  p <| step_index_ := S (step_index_ p) |> <| phase_ := Setup |> <| command_index_ := 0 |>
    <| advance_requested_ := false |>.

Definition on_tick (elapsed_ms : Z) (telemetry : TelemetryStore.TelemetryStore) (p : GuidedRecipe) (m : M)
    : GuidedRecipe * M :=
  if (step_count (recipe_ p) <=? step_index_ p)%nat then (p, m)
  else
    let step := step_at (recipe_ p) (step_index_ p) in
    match phase_ p with
    | Setup =>
        let '(done, p, m) := run_setup step p m in
        (if (done : bool) then p <| step_started_ms_ := elapsed_ms |> <| command_index_ := 0 |> <| phase_ := Run |>
         else p, m)
    | Run =>
        (if step_done step elapsed_ms telemetry p then p <| command_index_ := 0 |> <| phase_ := Teardown |> else p, m)
    | Teardown =>
        let '(done, p, m) := run_teardown step p m in
        (if (done : bool) then advance p else p, m)
    end.
End Ticks.

Definition finished (p : GuidedRecipe) : bool := (step_count (recipe_ p) <=? step_index_ p)%nat.

Definition status (p : GuidedRecipe) : string :=
  if (step_count (recipe_ p) <=? step_index_ p)%nat then "done"
  else
    let step := step_at (recipe_ p) (step_index_ p) in
    if bool_decide (text step = "") then "working" else text step.

Definition awaiting_user (p : GuidedRecipe) : bool :=
  bool_decide (phase_ p = Run) && (step_index_ p <? step_count (recipe_ p))%nat &&
  bool_decide (kind (step_at (recipe_ p) (step_index_ p)) = Note).
Definition user_next (p : GuidedRecipe) : GuidedRecipe := p <| advance_requested_ := true |>.
Definition progress_current (p : GuidedRecipe) : nat :=
  if (step_index_ p <? step_count (recipe_ p))%nat then S (step_index_ p) else step_count (recipe_ p).
Definition progress_total (p : GuidedRecipe) : nat := step_count (recipe_ p).
End GuidedRecipe.

(** The virtual calls of [Program]. *)
Module Program.
Inductive Program :=
| Manual (p : ManualMode.ManualMode)
| Dough (p : DoughMode.DoughMode)
| SousVide (p : SousVideMode.SousVideMode)
| Steam (p : SteamMode.SteamMode)
| Turbo (p : TurboPulse.TurboPulse)
| Guided (p : GuidedRecipe.GuidedRecipe).

Definition name (p : Program) : string :=
  match p with
  | Manual _ => "manual"
  | Dough _ => "dough"
  | SousVide _ => "sous-vide"
  | Steam _ => "steam"
  | Turbo _ => "turbo"
  | Guided p => Recipe.name (GuidedRecipe.recipe_ p)
  end.

Definition on_tick {M} `{IMcuClient M} (elapsed_ms : Z) (telemetry : TelemetryStore.TelemetryStore)
    (p : Program) (m : M) : Program * M :=
  match p with
  | Manual p => let '(p, m) := ManualMode.on_tick p m in (Manual p, m)
  | Dough p => let '(p, m) := DoughMode.on_tick elapsed_ms p m in (Dough p, m)
  | SousVide p => let '(p, m) := SousVideMode.on_tick telemetry p m in (SousVide p, m)
  | Steam p => let '(p, m) := SteamMode.on_tick telemetry p m in (Steam p, m)
  | Turbo p => let '(p, m) := TurboPulse.on_tick elapsed_ms telemetry p m in (Turbo p, m)
  | Guided p => let '(p, m) := GuidedRecipe.on_tick elapsed_ms telemetry p m in (Guided p, m)
  end.

Definition finished (elapsed_ms : Z) (p : Program) : bool :=
  match p with
  | Manual p => ManualMode.finished elapsed_ms p
  | Dough p => DoughMode.finished elapsed_ms p
  | SousVide p => SousVideMode.finished elapsed_ms p
  | Steam p => SteamMode.finished elapsed_ms p
  | Turbo p => TurboPulse.finished p
  | Guided p => GuidedRecipe.finished p
  end.

(** No program does anything in [on_stop]. *)
Definition on_stop (p : Program) : Program := p.

Definition status (p : Program) : string :=
  match p with
  | Manual _ => "running"
  | Dough p => DoughMode.status p
  | SousVide p => SousVideMode.status p
  | Steam p => SteamMode.status p
  | Turbo p => TurboPulse.status p
  | Guided p => GuidedRecipe.status p
  end.

Definition awaiting_user (p : Program) : bool :=
  match p with Guided p => GuidedRecipe.awaiting_user p | _ => false end.
Definition user_next (p : Program) : Program :=
  match p with Guided p => Guided (GuidedRecipe.user_next p) | _ => p end.
Definition progress_current (p : Program) : nat :=
  match p with Guided p => GuidedRecipe.progress_current p | _ => O end.
Definition progress_total (p : Program) : nat :=
  match p with Guided p => GuidedRecipe.progress_total p | _ => O end.
End Program.

(** * Theorems *)

(** What every request keeps, a tick of a program keeps. *)
Section Preservation.
Context {M : Type} `{IMcuClient M} (P : M -> Prop).
Context (keeps : forall cmd m, command_bytes cmd -> P m -> P (issue cmd m).2).

Ltac by_command f m :=
  lazymatch f with
  | set_motor ?rpm ?ramp => apply (keeps (SetMotor rpm ramp) m); [split; reflexivity || discriminate|assumption]
  | motor_stop => apply (keeps MotorStop m); [exact I|assumption]
  | set_heater ?target => apply (keeps (SetHeater target) m); [exact I|assumption]
  | heater_off => apply (keeps HeaterOff m); [exact I|assumption]
  | tare => apply (keeps Tare m); [exact I|assumption]
  | lock_lid ?l => apply (keeps (LockLid l) m); [exact I|assumption]
  end.

Ltac follow_requests :=
  repeat match goal with
  | |- context [let '(_, _) := ?f ?m in _] =>
      let K := fresh "K" in
      assert (K : P (f m).2) by (by_command f m); destruct (f m); cbn [snd] in K
  | |- context [if ?b then _ else _] => destruct b
  end.

Lemma on_tick_preserves e store p (m : M) : P m -> P (Program.on_tick e store p m).2.
Proof.
  intros Pm. unfold Program.on_tick. destruct p as [p|p|p|p|p|p].
  - unfold ManualMode.on_tick. follow_requests; assumption.
  - unfold DoughMode.on_tick. cbv zeta. follow_requests; assumption.
  - unfold SousVideMode.on_tick. cbv zeta. follow_requests; assumption.
  - unfold SteamMode.on_tick. follow_requests; assumption.
  - unfold TurboPulse.on_tick. destruct (TurboPulse.phase_ p); follow_requests; assumption.
  - unfold GuidedRecipe.on_tick, GuidedRecipe.run_setup, GuidedRecipe.run_teardown.
    destruct (_ <=? _)%nat; [exact Pm|]. cbv zeta.
    destruct (GuidedRecipe.phase_ p), (kind (step_at (GuidedRecipe.recipe_ p) (GuidedRecipe.step_index_ p)));
      follow_requests; assumption.
Qed.
End Preservation.

(** ** A recording client

    A client that keeps the commands it accepts, around any client. *)

Abbreviation entry := (Z * list Z)%type.

Section Recorder.
Context {M : Type} `{IMcuClient M}.

#[export] Instance recorder : IMcuClient (M * list entry) := fun id payload len '(m, log) =>
  let '(st, m) := request id payload len m in
  (st, (m, if is_ok st then log ++ [(id, take (Z.to_nat len) (default [] payload))] else log)).

(** The request as the recorder sees it. *)
Lemma recorded cmd (m : M) log :
  exists st m', issue cmd (m, log) = (st, (m', if is_ok st then log ++ [message cmd] else log)).
Proof.
  destruct cmd as [rpm ramp| |target| | |[]];
    unfold issue, set_motor, motor_stop, set_heater, heater_off, tare, lock_lid, request at 1, recorder;
    (destruct (request _ _ _ m) as [st m'] eqn:E; exists st, m'; reflexivity).
Qed.
End Recorder.

(** ** Scripts *)

Section Scripts.
Context {M : Type} `{IMcuClient M}.

(** The commands a step of a recipe gives. The scale is tared once. *)
Definition step_commands (tared : bool) (s : RecipeStep) : list command :=
  match kind s with
  | Note => []
  | Mix => [SetMotor (dial_to_rpm (dial_speed s)) kRampNormal; MotorStop]
  | Heat => [SetHeater (target_temp s); SetMotor (dial_to_rpm (dial_speed s)) kRampGentle; HeaterOff; MotorStop]
  | Weigh => if tared then [] else [Tare]
  end.

Fixpoint recipe_commands (tared : bool) (l : list RecipeStep) : list command :=
  match l with
  | [] => []
  | s :: l => step_commands tared s ++ recipe_commands (tared || bool_decide (kind s = Weigh)) l
  end.

Definition steps_from (r : Recipe) (i : nat) : list RecipeStep := step_at r <$> seq i (step_count r - i).

(** How many commands of its step a guided program has given. *)
Definition given (phase : GuidedRecipe.Phase) (k : StepKind) (command_index : Z) : nat :=
  match phase, k with
  | GuidedRecipe.Setup, Heat => if command_index =? 0 then 0 else 1
  | GuidedRecipe.Setup, _ => 0
  | GuidedRecipe.Run, Heat => 2
  | GuidedRecipe.Teardown, Heat => if command_index =? 0 then 2 else 3
  | _, _ => 1
  end.

(** What a program still has to ask for. *)
Definition guided_todo (p : GuidedRecipe.GuidedRecipe) : list command :=
  match steps_from (GuidedRecipe.recipe_ p) (GuidedRecipe.step_index_ p) with
  | [] => []
  | s :: l =>
      let tared := GuidedRecipe.scale_tared_ p in
      drop (given (GuidedRecipe.phase_ p) (kind s) (GuidedRecipe.command_index_ p)) (step_commands tared s) ++
      recipe_commands (tared || bool_decide (kind s = Weigh)) l
  end.

Definition turbo_commands : list command := [LockLid true; SetMotor 10700 kRampBurst; MotorStop; LockLid false].

Definition turbo_todo (p : TurboPulse.TurboPulse) : list command :=
  drop (match TurboPulse.phase_ p with
        | TurboPulse.Locking => 0
        | TurboPulse.Spinning => if (TurboPulse.spin_started_ms_ p =? 0)%Z then 1 else 2
        | TurboPulse.Stopping => 2
        | TurboPulse.Unlocking => 3
        | TurboPulse.Finished => 4
        end%nat) turbo_commands.

Definition set_once (heater_set motor_set : bool) (heater : list command) (motor : command) : list command :=
  (if heater_set then [] else heater) ++ (if motor_set then [] else [motor]).

Definition todo (p : Program.Program) : list command :=
  match p with
  | Program.Manual p =>
      set_once (ManualMode.heater_set_ p) (ManualMode.motor_set_ p)
        (if ManualMode.temp_deci_ p <=? 0 then [] else [SetHeater (ManualMode.temp_deci_ p)])
        (SetMotor (dial_to_rpm (ManualMode.dial_ p)) kRampNormal)
  | Program.Dough _ => []
  | Program.SousVide p =>
      set_once (SousVideMode.heater_set_ p) (SousVideMode.motor_set_ p)
        [SetHeater (SousVideMode.target_deci_ p)] (SetMotor (dial_to_rpm 2) kRampGentle)
  | Program.Steam p =>
      set_once (SteamMode.heater_set_ p) (SteamMode.motor_set_ p) [SetHeater 1000] (SetMotor (dial_to_rpm 1) kRampGentle)
  | Program.Turbo p => turbo_todo p
  | Program.Guided p => guided_todo p
  end.

(** Every program but the dough program gives a fixed list of commands. A
    guided weigh step has been tared once it is past its setup; the motor of a
    program that sets the heater first is set after it. *)
Definition scripted (p : Program.Program) : Prop :=
  match p with
  | Program.Manual p => ManualMode.motor_set_ p = true -> ManualMode.heater_set_ p = true
  | Program.Dough _ => False
  | Program.SousVide p => SousVideMode.motor_set_ p = true -> SousVideMode.heater_set_ p = true
  | Program.Steam p => SteamMode.motor_set_ p = true -> SteamMode.heater_set_ p = true
  | Program.Turbo p => TurboPulse.phase_ p = TurboPulse.Locking -> TurboPulse.spin_started_ms_ p = 0
  | Program.Guided p =>
      GuidedRecipe.phase_ p <> GuidedRecipe.Setup ->
      kind (step_at (GuidedRecipe.recipe_ p) (GuidedRecipe.step_index_ p)) = Weigh ->
      GuidedRecipe.scale_tared_ p = true
  end.

(** One tick gives the next commands of the script, as far as the client
    accepts them. *)
Definition follows (p : Program.Program) (p' : Program.Program) (log : list entry) : Prop :=
  scripted p' /\ message <$> todo p = log ++ (message <$> todo p').

Ltac ask cmd :=
  let E := fresh "E" in let st := fresh "st" in let m := fresh "m" in
  match goal with |- context [(?m0, @nil entry)] =>
    destruct (recorded cmd m0 []) as (st & m & E); cbn [issue] in E; rewrite E; clear E;
    destruct (is_ok st) eqn:?
  end.

(** Conclude a tick: what remains to be asked for is computed. *)
Ltac ticked :=
  eexists _, _, _; split; [reflexivity|]; split; [cbn; intros; simp_set; cbn in *; congruence|]; cbn;
  unfold turbo_todo, set_once; simp_set; try reflexivity.

Lemma turbo_follows e store p (m : M) : e <> 0 -> scripted (Program.Turbo p) ->
  exists p' m' log, Program.on_tick e store (Program.Turbo p) (m, []) = (p', (m', log)) /\
    follows (Program.Turbo p) p' log.
Proof.
  intros He. unfold Program.on_tick, TurboPulse.on_tick, follows.
  destruct p as [pulse ph started]; cbn [scripted TurboPulse.phase_ TurboPulse.spin_started_ms_ TurboPulse.pulse_ms_].
  destruct ph; intros Hs.
  - rewrite (Hs eq_refl). ask (LockLid true); ticked.
  - destruct (Z.eqb_spec started 0) as [->|N].
    + ask (SetMotor 10700 kRampBurst); ticked. apply Z.eqb_neq in He. now rewrite He.
    + apply Z.eqb_neq in N. destruct (_ >=? _); ticked; now rewrite N.
  - ask MotorStop; ticked.
  - destruct (_ || _); [ticked|]. ask (LockLid false); ticked.
  - ticked.
Qed.

Lemma set_once_follows e store p (m : M) : scripted p ->
  match p with Program.Manual _ | Program.SousVide _ | Program.Steam _ => True | _ => False end ->
  exists p' m' log, Program.on_tick e store p (m, []) = (p', (m', log)) /\ follows p p' log.
Proof.
  intros Hs. unfold Program.on_tick, follows. destruct p as [p|p|p|p|p|p]; try contradiction; intros _.
  - destruct p as [temp dial dur h mo]. unfold ManualMode.on_tick.
    cbn [scripted ManualMode.temp_deci_ ManualMode.dial_ ManualMode.duration_ms_ ManualMode.heater_set_ ManualMode.motor_set_] in *. destruct h, mo; cbn [negb]; try (discriminate (Hs eq_refl)).
    + ticked.
    + ask (SetMotor (dial_to_rpm dial) kRampNormal); ticked.
    + destruct (temp <=? 0) eqn:T; [ticked; now rewrite T|]. ask (SetHeater temp); ticked; now rewrite T.
  - destruct p as [target dur h mo at_t]. unfold SousVideMode.on_tick.
    cbn [scripted SousVideMode.target_deci_ SousVideMode.duration_ms_ SousVideMode.heater_set_ SousVideMode.motor_set_ SousVideMode.at_temperature_] in *. destruct h, mo; cbn [negb]; try (discriminate (Hs eq_refl)).
    + destruct (fle _ _); ticked.
    + ask (SetMotor (dial_to_rpm 2) kRampGentle); ticked.
    + ask (SetHeater target); ticked.
  - destruct p as [dur h mo lid]. unfold SteamMode.on_tick.
    cbn [scripted SteamMode.duration_ms_ SteamMode.heater_set_ SteamMode.motor_set_ SteamMode.lid_open_] in *. destruct h, mo; cbn [negb]; try (discriminate (Hs eq_refl)).
    + ticked.
    + ask (SetMotor (dial_to_rpm 1) kRampGentle); ticked.
    + ask (SetHeater 1000); ticked.
Qed.

Lemma steps_from_done r i : (step_count r <= i)%nat -> steps_from r i = [].
Proof. intros L. unfold steps_from. now replace (step_count r - i)%nat with 0%nat by lia. Qed.

Lemma steps_from_cons r i : (i < step_count r)%nat -> steps_from r i = step_at r i :: steps_from r (S i).
Proof. intros L. unfold steps_from. now replace (step_count r - i)%nat with (S (step_count r - S i)) by lia. Qed.

(** At the start of a step the rest of the recipe is left. *)
Lemma guided_todo_setup p : GuidedRecipe.phase_ p = GuidedRecipe.Setup -> GuidedRecipe.command_index_ p = 0 ->
  guided_todo p
  = recipe_commands (GuidedRecipe.scale_tared_ p) (steps_from (GuidedRecipe.recipe_ p) (GuidedRecipe.step_index_ p)).
Proof.
  intros P C. unfold guided_todo. destruct (steps_from _ _) as [|s l]; [reflexivity|].
  rewrite P, C. cbn [Z.eqb recipe_commands]. now destruct (kind s).
Qed.

Lemma guided_todo_at p s l :
  steps_from (GuidedRecipe.recipe_ p) (GuidedRecipe.step_index_ p) = s :: l ->
  guided_todo p =
    drop (given (GuidedRecipe.phase_ p) (kind s) (GuidedRecipe.command_index_ p))
      (step_commands (GuidedRecipe.scale_tared_ p) s) ++
    recipe_commands (GuidedRecipe.scale_tared_ p || bool_decide (kind s = Weigh)) l.
Proof. intros E. unfold guided_todo. now rewrite E. Qed.

(** The two ends of a tick of a recipe: the step goes on, or the next one is up. *)
Ltac goes_on Hs s Kd SC :=
  eexists _, _, _; (split; [reflexivity|]); (split; [cbn [scripted]; simp_set; subst s; first [congruence | intros _ ?; apply Hs; [discriminate|assumption]]|]);
  cbn [todo]; erewrite guided_todo_at by (simp_set; exact SC);
  simp_set; rewrite ?Kd; unfold step_commands, given; rewrite ?Kd; simp_set.
Ltac advances Hs s Kd ST :=
  eexists _, _, _; (split; [reflexivity|]); (split; [unfold GuidedRecipe.advance; cbn [scripted]; simp_set; congruence|]);
  cbn [todo]; rewrite ST; unfold step_commands, given; rewrite ?Kd.

Lemma guided_follows e store p (m : M) : scripted (Program.Guided p) ->
  exists p' m' log, Program.on_tick e store (Program.Guided p) (m, []) = (p', (m', log)) /\
    follows (Program.Guided p) p' log.
Proof.
  intros Hs. unfold Program.on_tick, GuidedRecipe.on_tick, follows.
  destruct (Nat.leb_spec (step_count (GuidedRecipe.recipe_ p)) (GuidedRecipe.step_index_ p)) as [D|D].
  { eexists _, _, _. split; [reflexivity|]. now split. }
  pose proof (steps_from_cons _ _ D) as SC. pose proof (guided_todo_setup (GuidedRecipe.advance p) eq_refl eq_refl) as ST.
  change (GuidedRecipe.scale_tared_ (GuidedRecipe.advance p)) with (GuidedRecipe.scale_tared_ p) in ST.
  change (steps_from (GuidedRecipe.recipe_ (GuidedRecipe.advance p)) (GuidedRecipe.step_index_ (GuidedRecipe.advance p)))
    with (steps_from (GuidedRecipe.recipe_ p) (S (GuidedRecipe.step_index_ p))) in ST.
  cbn [todo scripted] in *. set (s := step_at _ _) in *. rewrite (guided_todo_at p _ _ SC).
  destruct (GuidedRecipe.phase_ p) eqn:Ph.
  - unfold GuidedRecipe.run_setup. destruct (kind s) eqn:Kd.
    + goes_on Hs s Kd SC. reflexivity.
    + ask (SetMotor (dial_to_rpm (dial_speed s)) kRampNormal); goes_on Hs s Kd SC; rewrite ?Ph; reflexivity.
    + destruct (GuidedRecipe.command_index_ p =? 0) eqn:Ci.
      * ask (SetHeater (target_temp s)); goes_on Hs s Kd SC; rewrite ?Ph, ?Ci; reflexivity.
      * ask (SetMotor (dial_to_rpm (dial_speed s)) kRampGentle); goes_on Hs s Kd SC; rewrite ?Ph, ?Ci; reflexivity.
    + destruct (GuidedRecipe.scale_tared_ p) eqn:Ta; [goes_on Hs s Kd SC; rewrite ?Ta; reflexivity|].
      ask Tare; goes_on Hs s Kd SC; rewrite ?Ph; reflexivity.
  - destruct (GuidedRecipe.step_done s e store p).
    + goes_on Hs s Kd SC. destruct (kind s); reflexivity.
    + goes_on Hs s Kd SC. rewrite Ph. reflexivity.
  - unfold GuidedRecipe.run_teardown. destruct (kind s) eqn:Kd.
    + advances Hs s Kd ST. rewrite bool_decide_eq_false_2, orb_false_r by discriminate. reflexivity.
    + ask MotorStop; [advances Hs s Kd ST; rewrite bool_decide_eq_false_2, orb_false_r by discriminate; reflexivity|].
      goes_on Hs s Kd SC; rewrite ?Ph; reflexivity.
    + destruct (GuidedRecipe.command_index_ p =? 0) eqn:Ci.
      * ask HeaterOff; goes_on Hs s Kd SC; rewrite ?Ph, ?Ci; reflexivity.
      * ask MotorStop; [advances Hs s Kd ST; rewrite Ci, bool_decide_eq_false_2, orb_false_r by discriminate; reflexivity|].
        goes_on Hs s Kd SC; rewrite ?Ph, ?Ci; reflexivity.
    + advances Hs s Kd ST. rewrite Hs by (congruence || reflexivity). reflexivity.
Qed.

Lemma tick_follows e store p (m : M) : e <> 0 -> scripted p ->
  exists p' m' log, Program.on_tick e store p (m, []) = (p', (m', log)) /\ follows p p' log.
Proof.
  intros He Hs. destruct p as [p|p|p|p|p|p].
  - now apply set_once_follows.
  - contradiction.
  - now apply set_once_follows.
  - now apply set_once_follows.
  - now apply turbo_follows.
  - now apply guided_follows.
Qed.

(** A run: each tick at its own time, with its own telemetry and its own client,
    which others use too. The commands accepted in each tick are kept. *)
Fixpoint run_program (p : Program.Program) (inputs : list (Z * TelemetryStore.TelemetryStore * M))
    : Program.Program * list entry :=
  match inputs with
  | [] => (p, [])
  | (e, store, m) :: inputs =>
      let '(p, (_, log)) := Program.on_tick e store p (m, []) in
      let '(p, log') := run_program p inputs in
      (p, log ++ log')
  end.

Lemma run_follows p inputs : scripted p -> Forall (fun i => i.1.1 <> 0) inputs ->
  follows p (run_program p inputs).1 (run_program p inputs).2.
Proof.
  intros Hs F. revert p Hs. induction F as [|[[e store] m] inputs He F IH]; intros p Hs; [now split|].
  cbn [run_program]. destruct (tick_follows e store p m He Hs) as (p1 & m1 & log & -> & Hs1 & E).
  specialize (IH p1 Hs1). destruct (run_program p1 inputs) as [p2 log2]. cbn [fst snd] in *.
  destruct IH as [IH1 IH2]. split; [exact IH1|]. now rewrite E, IH2, app_assoc.
Qed.

(** The programs as the controller and the command line start them. *)
Inductive fresh : Program.Program -> Prop :=
| fresh_manual temp dial s : fresh (Program.Manual (ManualMode.new temp dial s))
| fresh_sous_vide target s : fresh (Program.SousVide (SousVideMode.new target s))
| fresh_steam s : fresh (Program.Steam (SteamMode.new s))
| fresh_turbo ms : fresh (Program.Turbo (TurboPulse.new ms))
| fresh_guided r : fresh (Program.Guided (GuidedRecipe.new r)).

Lemma fresh_scripted p : fresh p -> scripted p.
Proof. intros []; cbn; congruence. Qed.

(** The programs that end by themselves. *)
Definition completes (p : Program.Program) : bool :=
  match p with Program.Turbo _ | Program.Guided _ => true | _ => false end.

Lemma finished_todo e p : scripted p ->
  completes p = true -> Program.finished e p = true -> todo p = [].
Proof.
  destruct p as [p|p|p|p|p|p]; try discriminate; intros _ _ F; cbn in *.
  - unfold TurboPulse.finished in F. apply bool_decide_eq_true in F. unfold turbo_todo. now rewrite F.
  - unfold GuidedRecipe.finished in F. apply Nat.leb_le in F. unfold guided_todo.
    now rewrite steps_from_done.
Qed.

(** What a list of commands leaves on: heater, motor and lid lock. *)
Definition outputs_after (cmds : list command) (on : bool * bool * bool) : bool * bool * bool :=
  fold_left (fun '(heater, motor, lock) cmd =>
    match cmd with
    | SetHeater _ => (true, motor, lock)
    | HeaterOff => (false, motor, lock)
    | SetMotor _ _ => (heater, true, lock)
    | MotorStop => (heater, false, lock)
    | LockLid l => (heater, motor, l)
    | Tare => (heater, motor, lock)
    end) cmds on.

Lemma recipe_leaves_off tared l : outputs_after (recipe_commands tared l) (false, false, false) = (false, false, false).
Proof.
  revert tared. induction l as [|s l IH]; intros tared; [reflexivity|]. cbn [recipe_commands].
  unfold outputs_after. rewrite fold_left_app. unfold step_commands.
  destruct (kind s); [| | |destruct tared]; apply IH.
Qed.

(** The limits of the safety processor. *)
Definition within_limits (cmd : command) : Prop :=
  match cmd with
  | SetMotor rpm ramp => 0 <= rpm <= limits.kMaxRpm /\ kRampGentle <= ramp <= kRampBurst
  | SetHeater target => limits.kHeaterMinTargetDeci <= target <= limits.kHeaterMaxTargetDeci
  | _ => True
  end.

Lemma dial_to_rpm_range dial : 0 <= dial -> 0 <= dial_to_rpm dial <= limits.kMaxRpm.
Proof.
  intros D. unfold dial_to_rpm, limits.kMaxRpm.
  destruct (Z.gtb_spec dial 10); rewrite u16_id by (unfold in_u16; lia); lia.
Qed.

Definition step_within (s : RecipeStep) : Prop :=
  0 <= dial_speed s /\
  (kind s = Heat -> limits.kHeaterMinTargetDeci <= target_temp s <= limits.kHeaterMaxTargetDeci).

Lemma recipe_within tared l : Forall step_within l -> Forall within_limits (recipe_commands tared l).
Proof.
  intros F. revert tared. induction F as [|s l [D T] F IH]; intros tared; cbn [recipe_commands]; [constructor|].
  apply Forall_app. split; [|apply IH]. unfold step_commands.
  pose proof (dial_to_rpm_range _ D) as R.
  assert (M1 : forall ramp, 0 <= ramp <= 3 -> within_limits (SetMotor (dial_to_rpm (dial_speed s)) ramp))
    by (split; assumption).
  destruct (kind s); [| | |destruct tared];
    repeat (apply Forall_cons; split); try apply Forall_nil; try exact I; try (apply M1; split; discriminate).
  now apply T.
Qed.

Lemma fresh_within p : fresh p ->
  match p with
  | Program.Manual p => 0 <= ManualMode.dial_ p /\
      (0 < ManualMode.temp_deci_ p ->
       limits.kHeaterMinTargetDeci <= ManualMode.temp_deci_ p <= limits.kHeaterMaxTargetDeci)
  | Program.Guided p => Forall step_within (steps_from (GuidedRecipe.recipe_ p) 0)
  | _ => True
  end -> Forall within_limits (todo p).
Proof.
  intros Fp. assert (D : forall d, 0 <= d -> forall ramp, 0 <= ramp <= 3 -> within_limits (SetMotor (dial_to_rpm d) ramp)).
  { intros d Hd ramp Hr. split; [now apply dial_to_rpm_range|exact Hr]. }
  destruct Fp; cbn [todo]; unfold set_once; cbn.
  - intros [Hd Ht]. destruct (Z.leb_spec temp 0) as [L|L]; 
    repeat (apply Forall_cons; split); try apply Forall_nil; try exact I; try (apply D; [lia|split; discriminate]); try exact (Ht L).
  - intros _. apply Forall_cons. split; [|apply Forall_cons; split; [apply D; [discriminate|split; discriminate]|constructor]].
    cbn. unfold limits.kHeaterMinTargetDeci, limits.kHeaterMaxTargetDeci.
    case_tests; lia.
  - intros _. repeat constructor; discriminate.
  - intros _. repeat constructor; discriminate.
  - intros F. rewrite guided_todo_setup by reflexivity. now apply recipe_within.
Qed.

Lemma run_completes p inputs : completes (run_program p inputs).1 = completes p.
Proof.
  revert p. induction inputs as [|[[e store] m] inputs IH]; intros p; [reflexivity|]. cbn [run_program].
  destruct (Program.on_tick e store p (m, [])) as [p1 [m1 log]] eqn:E.
  assert (C : completes p1 = completes p).
  { unfold Program.on_tick in E. destruct p as [p|p|p|p|p|p];
      (match type of E with (let '(_, _) := ?x in _) = _ => destruct x end); now simplify_eq. }
  specialize (IH p1). destruct (run_program p1 inputs). cbn [fst] in *. congruence.
Qed.

End Scripts.

(** ** Properties *)

Section ProgramProperties.
Context {M : Type} `{IMcuClient M}.

(** C21: a program's run is its script: whatever the client accepts or refuses,
    and whenever, the commands accepted in a run of manual, sous-vide, steam,
    turbo or guided mode are exactly a prefix of the program's command list, in
    order and each once; what is left is what the program still asks for. *)
Theorem programs_follow_their_script p (inputs : list (Z * TelemetryStore.TelemetryStore * M)) :
  fresh p -> Forall (fun i => i.1.1 <> 0) inputs ->
  message <$> todo p = (run_program p inputs).2 ++ (message <$> todo (run_program p inputs).1).
Proof. intros Fp F. apply (run_follows p inputs (fresh_scripted p Fp) F). Qed.

(** C22: a turbo pulse or a recipe that has finished has carried out its whole
    script, and that script leaves the heater and the motor off and the lid
    unlocked. *)
Theorem finished_programs_leave_outputs_off p (inputs : list (Z * TelemetryStore.TelemetryStore * M)) e :
  fresh p -> completes p = true -> Forall (fun i => i.1.1 <> 0) inputs -> Program.finished e (run_program p inputs).1 = true ->
  (run_program p inputs).2 = message <$> todo p /\
  outputs_after (todo p) (false, false, false) = (false, false, false).
Proof.
  intros Fp C F Fin. destruct (run_follows p inputs (fresh_scripted p Fp) F) as [Hs E]. split.
  - rewrite (finished_todo e _ Hs) in E by (rewrite ?run_completes; assumption). now rewrite app_nil_r in E.
  - destruct Fp; try discriminate; [reflexivity|]. cbn [todo]. rewrite guided_todo_setup by reflexivity.
    apply recipe_leaves_off.
Qed.

(** No program asks for more than the safety processor grants in principle:
    every speed in a script is at most the motor's 10,700 rpm, and every heater
    target, of manual mode started at 37 to 160 C, of a recipe with such steps,
    and of every sous-vide or steam run, lies in the range it accepts. *)
Theorem scripts_within_limits p : fresh p ->
  match p with
  | Program.Manual p => 0 <= ManualMode.dial_ p /\
      (0 < ManualMode.temp_deci_ p ->
       limits.kHeaterMinTargetDeci <= ManualMode.temp_deci_ p <= limits.kHeaterMaxTargetDeci)
  | Program.Guided p => Forall step_within (steps_from (GuidedRecipe.recipe_ p) 0)
  | _ => True
  end -> Forall within_limits (todo p).
Proof. apply fresh_within. Qed.

(** The dough program keeps in step with its cycle of 4 s kneading and 2 s
    rest: after every tick either the client refused the command of this tick,
    and the program will ask again, or the last accepted speed is that of the
    phase the clock is in; it asks only when the phase changed or a command is
    outstanding. *)
Theorem dough_in_step e store p (m : M) : 
  let knead := e mod 6000 <? 4000 in
  let target := if knead then 3210 else 0 in
  exists p' m' log, Program.on_tick e store (Program.Dough p) (m, []) = (Program.Dough p', (m', log)) /\
    if DoughMode.command_pending_ p'
    then log = [] /\ DoughMode.kneading_ p' = DoughMode.kneading_ p /\
         (DoughMode.command_pending_ p = true \/ DoughMode.kneading_ p <> knead)
    else DoughMode.kneading_ p' = knead /\
         (log = [message (SetMotor target kRampFast)] \/
          log = [] /\ DoughMode.command_pending_ p = false /\ DoughMode.kneading_ p = knead /\ m' = m).
Proof.
  cbv zeta. unfold Program.on_tick, DoughMode.on_tick. set (knead := e mod 6000 <? 4000).
  change (e mod (DoughMode.kKneadMs + DoughMode.kRestMs) <? DoughMode.kKneadMs) with knead.
  change (if knead then dial_to_rpm 3 else 0) with (if knead then 3210 else 0). clearbody knead.
  destruct (negb (eqb knead (DoughMode.kneading_ p)) || DoughMode.command_pending_ p) eqn:N.
  - destruct (recorded (SetMotor (if knead then 3210 else 0) kRampFast) m []) as (st & m' & E).
    cbn [issue] in E. rewrite E. destruct (is_ok st); eexists _, _, _; (split; [reflexivity|]); simp_set.
    + split; [reflexivity|now left].
    + split_and!; [reflexivity..|]. apply orb_true_iff in N as [N|N]; [right|now left].
      apply negb_true_iff, eqb_false_iff in N. congruence.
  - apply orb_false_iff in N as [N1 N2]. apply negb_false_iff, eqb_prop in N1.
    eexists _, _, _. split; [reflexivity|]. rewrite N2. split; [easy|]. right. now split_and!.
Qed.

End ProgramProperties.

Section WeighStep.
Import McuClient.
Context {W : Type} `{AppBoardLaws W}.

(** A weigh step does not wait for the tare it asked for: if the weight in
    the last telemetry from before the tare already reaches the target, the
    step is over two ticks after it began, while the tare is still unanswered
    and no new weight has arrived. *)
Theorem weigh_step_uses_stale_weight e1 e2 store r i started adv c (w : W) :
  client_ok c -> (i < step_count r)%nat -> kind (step_at r i) = Weigh ->
  target_weight (step_at r i) <= TelemetryStore.grams (TelemetryStore.latest store) ->
  (issue Tare (c, w)).1 = Ok ->
  let p := {| GuidedRecipe.recipe_ := r; GuidedRecipe.step_index_ := i; GuidedRecipe.phase_ := GuidedRecipe.Setup;
              GuidedRecipe.command_index_ := 0; GuidedRecipe.step_started_ms_ := started;
              GuidedRecipe.advance_requested_ := adv; GuidedRecipe.scale_tared_ := false |} in
  let '(p1, m1) := GuidedRecipe.on_tick e1 store p (c, w) in
  let '(p2, (c2, _)) := GuidedRecipe.on_tick e2 store p1 m1 in
  GuidedRecipe.phase_ p2 = GuidedRecipe.Teardown /\ awaiting_response c2 = true /\ pending_msg_id_ c2 = MsgId.ScaleTare.
Proof.
  intros K Hi Kd G A. cbv zeta. unfold GuidedRecipe.on_tick, GuidedRecipe.run_setup.
  cbn [GuidedRecipe.recipe_ GuidedRecipe.step_index_ GuidedRecipe.phase_ GuidedRecipe.scale_tared_].
  destruct (Nat.leb_spec (step_count r) i); [lia|]. rewrite Kd. cbn [GuidedRecipe.scale_tared_].
  change (tare (c, w)) with (issue Tare (c, w)). rewrite issue_request in *.
  destruct (message_ok Tare I) as (Hid & B & L).
  pose proof (request_ok _ _ c w K Hid B L) as R. destruct (request _ _ _ (c, w)) as [st [c' w']].
  cbn [fst] in A. subst st. destruct R as (_ & _ & _ & _ & R). destruct (busy c); [destruct R; discriminate|].
  destruct R as [(_ & _ & R)|(? & _)]; [|discriminate]. change (is_ok Ok) with true. cbv iota. simp_set.
  cbn [GuidedRecipe.recipe_ GuidedRecipe.step_index_].
  destruct (Nat.leb_spec (step_count r) i); [lia|]. unfold GuidedRecipe.step_done. rewrite Kd, Z.geb_leb.
  apply Z.leb_le in G. rewrite G. simp_set. split_and!; [reflexivity|apply R..].
Qed.

End WeighStep.
