(* ===== verification/Cooking.v ===== *)
(** * The cooking session (src/src/app/cooking/cooking_controller.{h,cpp},
      src/src/app/application_runtime.{h,cpp})

    The controller owns the session: it ticks the active program every 10 ms and
    runs the shutdown sequence (heater off, then motor stop, each confirmed)
    after a stop, the end of a program or a fault. It works on the client, the
    store and the updater of the application runtime, which are passed along. *)

From stdpp Require Import relations.
From S2P Require Import Prelude.
From S2P Require Import Float32.
From S2P Require Import Common.
From S2P Require Import C1Link.
From S2P Require Import Hal.
From S2P Require Import Link.
From S2P Require Import Mcu.
From S2P Require Import TelemetryStore.
From S2P Require Import McuClient.
From S2P Require Import OtaUpdater.
From S2P Require Import Recipe.
From S2P Require Import RecipeParser.
From S2P Require Import Programs.

Inductive SessionState := Idle | Running | Stopping | Done | Faulted.
#[global] Instance SessionState_eq_dec : EqDecision SessionState.
Proof. solve_decision. Defined.

Definition session_state_name (state : SessionState) : string :=
  match state with
  | Idle => "idle"
  | Running => "running"
  | Stopping => "stopping"
  | Done => "done"
  | Faulted => "FAULT"
  end.

Module CookingController.

(** [has_ota_]: an updater is attached. *)
Record CookingController := {
  has_ota_ : bool;
  state_ : SessionState;
  program_ : option Program.Program;
  started_ms_ : Z;
  display_avg_temp_c_ : f32;
  hot_bowl_ : bool;
  shutdown_heater_sent_ : bool;
  shutdown_heater_done_ : bool;
  shutdown_motor_sent_ : bool;
  shutdown_motor_done_ : bool;
  fault_shutdown_ : bool;
  start_after_shutdown_ : bool;
  pending_program_ : option Program.Program
}.
#[global] Instance eta_CookingController : Eta CookingController := fun k =>
  {| has_ota_ := has_ota_ k; state_ := state_ k; program_ := program_ k; started_ms_ := started_ms_ k;
     display_avg_temp_c_ := display_avg_temp_c_ k; hot_bowl_ := hot_bowl_ k;
     shutdown_heater_sent_ := shutdown_heater_sent_ k; shutdown_heater_done_ := shutdown_heater_done_ k;
     shutdown_motor_sent_ := shutdown_motor_sent_ k; shutdown_motor_done_ := shutdown_motor_done_ k;
     fault_shutdown_ := fault_shutdown_ k; start_after_shutdown_ := start_after_shutdown_ k;
     pending_program_ := pending_program_ k |}.

Definition new_controller : CookingController :=
  {| has_ota_ := false; state_ := Idle; program_ := None; started_ms_ := 0; display_avg_temp_c_ := fzero;
     hot_bowl_ := false; shutdown_heater_sent_ := false; shutdown_heater_done_ := false;
     shutdown_motor_sent_ := false; shutdown_motor_done_ := false; fault_shutdown_ := false;
     start_after_shutdown_ := false; pending_program_ := None |}.

Definition attach_ota (k : CookingController) : CookingController := k <| has_ota_ := true |>.
Definition state (k : CookingController) : SessionState := state_ k.
Definition program_name (k : CookingController) : string :=
  match program_ k with Some p => Program.name p | None => "none" end.
Definition program_status (k : CookingController) : string :=
  match program_ k with Some p => Program.status p | None => "-" end.
Definition awaiting_user (k : CookingController) : bool :=
  match program_ k with Some p => Program.awaiting_user p | None => false end.
Definition progress_current (k : CookingController) : nat :=
  match program_ k with Some p => Program.progress_current p | None => O end.
Definition progress_total (k : CookingController) : nat :=
  match program_ k with Some p => Program.progress_total p | None => O end.
Definition user_next (k : CookingController) : CookingController :=
  match program_ k with Some p => k <| program_ := Some (Program.user_next p) |> | None => k end.

(** [begin_shutdown] and [begin] clear a status of the client. *)
Definition begin_shutdown (faulted : bool) (k : CookingController) (c : McuClient.McuClient)
    : CookingController * McuClient.McuClient :=
  (k <| shutdown_heater_sent_ := false |> <| shutdown_heater_done_ := false |>
     <| shutdown_motor_sent_ := false |> <| shutdown_motor_done_ := false |>
     <| fault_shutdown_ := faulted |> <| start_after_shutdown_ := false |> <| pending_program_ := None |>
     <| state_ := if faulted then Faulted else Stopping |>,
   McuClient.clear_command_status c).

(** A null program is [None]. *)
Definition start_program (program : option Program.Program) (k : CookingController) (c : McuClient.McuClient)
    : Status * CookingController * McuClient.McuClient :=
  match program with
  | None => (InvalidArgument, k, c)
  | Some program =>
      if bool_decide (state_ k = Running) || bool_decide (state_ k = Stopping) ||
         (bool_decide (state_ k = Faulted) && negb (shutdown_motor_done_ k))
      then (NotReady, k, c)
      else
        let '(k, c) := begin_shutdown false k c in
        (Ok, k <| pending_program_ := Some program |> <| start_after_shutdown_ := true |>, c)
  end.

Definition start_manual (temp dial duration_s : Z) :=
  start_program (Some (Program.Manual (ManualMode.new temp dial duration_s))).

(** A null recipe is [None]. *)
Definition start_recipe (recipe : option Recipe) (k : CookingController) (c : McuClient.McuClient) :=
  match recipe with
  | None => (InvalidArgument, k, c)
  | Some r =>
      if (step_count r =? 0)%nat then (InvalidArgument, k, c)
      else start_program (Some (Program.Guided (GuidedRecipe.new r))) k c
  end.

Definition stop (k : CookingController) (c : McuClient.McuClient) : CookingController * McuClient.McuClient :=
  if bool_decide (state_ k = Stopping) && start_after_shutdown_ k
  then (k <| start_after_shutdown_ := false |> <| pending_program_ := None |>, c)
  else if negb (bool_decide (state_ k = Stopping)) && negb (bool_decide (state_ k = Faulted))
  then begin_shutdown false k c
  else (k, c).

Section Ticks.
Context {W : Type} `{IClock W, IUart W, IWatchdog W}.

Definition begin (program : Program.Program) (k : CookingController) (c : McuClient.McuClient) (w : W)
    : CookingController * McuClient.McuClient :=
  (k <| program_ := Some program |> <| started_ms_ := now_ms w |>
     <| shutdown_heater_sent_ := false |> <| shutdown_heater_done_ := false |>
     <| shutdown_motor_sent_ := false |> <| shutdown_motor_done_ := false |>
     <| fault_shutdown_ := false |> <| start_after_shutdown_ := false |> <| pending_program_ := None |>
     <| state_ := Running |>,
   McuClient.clear_command_status (McuClient.clear_fault c)).

(** The response that confirms a step of the sequence. *)
Definition confirm (response : option Frame) (k : CookingController) : CookingController :=
  match response with
  | Some f =>
      if bool_decide (type f = Response) then
        if shutdown_heater_sent_ k && negb (shutdown_heater_done_ k) && (msg_id f =? MsgId.HeaterOff)
        then k <| shutdown_heater_done_ := true |>
        else if shutdown_motor_sent_ k && negb (shutdown_motor_done_ k) && (msg_id f =? MsgId.MotorStop)
        then k <| shutdown_motor_done_ := true |>
        else k
      else k
  | None => k
  end.

(** A command that failed is sent again. *)
Definition rearm (k : CookingController) (c : McuClient.McuClient) : CookingController * McuClient.McuClient :=
  if negb (bool_decide (McuClient.last_command_status c = Ok)) then
    (if negb (shutdown_heater_done_ k) then k <| shutdown_heater_sent_ := false |>
     else if negb (shutdown_motor_done_ k) then k <| shutdown_motor_sent_ := false |>
     else k, McuClient.clear_command_status c)
  else (k, c).

Definition run_stopping_sequence (response : option Frame) (k : CookingController) (c : McuClient.McuClient) (w : W)
    : CookingController * McuClient.McuClient * W :=
  let k := confirm response k in
  let '(k, c) := rearm k c in
  if negb (shutdown_heater_done_ k) then
    if negb (shutdown_heater_sent_ k) && negb (McuClient.awaiting_response c) then
      let '(st, (c, w)) := heater_off (c, w) in
      (k <| shutdown_heater_sent_ := is_ok st |>, c, w)
    else (k, c, w)
  else if negb (shutdown_motor_done_ k) then
    if negb (shutdown_motor_sent_ k) && negb (McuClient.awaiting_response c) then
      let '(st, (c, w)) := motor_stop (c, w) in
      (k <| shutdown_motor_sent_ := is_ok st |>, c, w)
    else (k, c, w)
  else
    match start_after_shutdown_ k, pending_program_ k, fault_shutdown_ k with
    | true, Some next, false => let '(k, c) := begin next k c w in (k, c, w)
    | _, _, _ => (k <| state_ := if fault_shutdown_ k then Faulted else Done |>, c, w)
    end.

(** The part of the tick that runs the session. *)
Definition run_session (response : option Frame) (telemetry : TelemetryStore.TelemetryStore)
    (k : CookingController) (c : McuClient.McuClient) (w : W) : CookingController * McuClient.McuClient * W :=
  match state_ k, program_ k with
  | Running, Some program =>
      let elapsed_ms := u32_sub (now_ms w) (started_ms_ k) in
      let '(program, (c, w)) := Program.on_tick elapsed_ms telemetry program (c, w) in
      let k := k <| program_ := Some program |> in
      if Program.finished elapsed_ms program then
        let k := k <| program_ := Some (Program.on_stop program) |> in
        let '(k, c) := begin_shutdown false k c in (k, c, w)
      else (k, c, w)
  | Stopping, _ | Faulted, _ => run_stopping_sequence response k c w
  | _, _ => (k, c, w)
  end.

Definition tick_10ms (telemetry : TelemetryStore.TelemetryStore) (k : CookingController)
    (ota : OtaUpdater.OtaUpdater) (c : McuClient.McuClient) (w : W)
    : CookingController * OtaUpdater.OtaUpdater * McuClient.McuClient * W :=
  let w := watchdog_feed w in
  let '(response, c) := McuClient.take_response true c in
  let k := k <| display_avg_temp_c_ := TelemetryStore.average_temp_c 2000 telemetry |>
             <| hot_bowl_ := fgt (TelemetryStore.max_temp_c 2000 telemetry) (of_Z 60) |> in
  let '(k, c) :=
    if negb (bool_decide (state_ k = Faulted)) &&
       (negb (McuClient.last_fault c =? FaultCode.None) || negb (bool_decide (McuClient.last_command_status c = Ok)))
    then begin_shutdown true k c else (k, c) in
  let ota := if has_ota_ k && OtaUpdater.busy ota then OtaUpdater.step ota else ota in
  let '(k, c, w) := run_session response telemetry k c w in
  (k, ota, c, w).
End Ticks.
End CookingController.

(** application_runtime.{h,cpp} *)
Module ApplicationRuntime.
Record ApplicationRuntime := {
  telemetry_ : TelemetryStore.TelemetryStore;
  client_ : McuClient.McuClient;
  controller_ : CookingController.CookingController;
  recipes_ : RecipeLibrary.RecipeLibrary;
  ota_ : OtaUpdater.OtaUpdater;
  app_divider_ : Z
}.
#[global] Instance eta_ApplicationRuntime : Eta ApplicationRuntime := fun a =>
  {| telemetry_ := telemetry_ a; client_ := client_ a; controller_ := controller_ a;
     recipes_ := recipes_ a; ota_ := ota_ a; app_divider_ := app_divider_ a |}.

Definition new_runtime : ApplicationRuntime :=
  {| telemetry_ := TelemetryStore.new_store; client_ := McuClient.new_client;
     controller_ := CookingController.attach_ota CookingController.new_controller;
     recipes_ := RecipeLibrary.new_library; ota_ := OtaUpdater.new_updater; app_divider_ := 0 |}.

Section Ticks.
Context {W : Type} `{IClock W, IUart W, IWatchdog W}.

Definition tick_1ms (a : ApplicationRuntime) (w : W) : outcome (ApplicationRuntime * W) :=
  '(c, telemetry, w) ← McuClient.poll (client_ a) (telemetry_ a) w;
  let a := a <| client_ := c |> <| telemetry_ := telemetry |> <| app_divider_ := u8 (app_divider_ a + 1) |> in
  if app_divider_ a >=? 10 then
    let a := a <| app_divider_ := 0 |> in
    let '(k, ota, c, w) :=
      CookingController.tick_10ms (telemetry_ a) (controller_ a) (ota_ a) (client_ a) w in
    Ret (a <| controller_ := k |> <| ota_ := ota |> <| client_ := c |>, w)
  else Ret (a, w).
End Ticks.
End ApplicationRuntime.

(** * Theorems *)

(** ** What a tick leaves alone *)

Section Preserved.
Context {W : Type} `{IClock W, IUart W, IWatchdog W}.
Context {A : Type} (f : W -> A) (f_write : forall bs w, f (uart_write bs w).2 = f w).

(** A request keeps the fault the client knows of, and of the world what the
    UART keeps. *)
Definition kept (fault : Z) (a : A) (m : McuClient.McuClient * W) : Prop :=
  McuClient.last_fault m.1 = fault /\ f m.2 = a.

Lemma request_kept fault a id payload len (m : McuClient.McuClient * W) :
  kept fault a m -> kept fault a (request id payload len m).2.
Proof.
  destruct m as [c w]. intros [K1 K2]. unfold request, McuClient.client_request.
  destruct (_ || _); [now split|]. destruct (_ || _); [now split|]. simp_set.
  pose proof (Link.send_preserves f Request (McuClient.next_seq_ c) id payload len (McuClient.link_ c) w f_write) as S.
  destruct (Link.send _ _ _ _ _ _ w) as [[st l] w']. cbn [snd] in S.
  destruct (negb _); (split; [unfold McuClient.last_fault in *; cbn [fst] in *|cbn [snd] in *; congruence]);
    [|destruct (_ >? _)]; simp_set; exact K1.
Qed.

Lemma issue_kept fault a cmd (m : McuClient.McuClient * W) : kept fault a m -> kept fault a (issue cmd m).2.
Proof.
  destruct (issue_is_request (M := McuClient.McuClient * W) cmd) as (id & payload & len & E). rewrite E.
  apply request_kept.
Qed.

Import CookingController.

Definition same_session (k k' : CookingController) : Prop :=
  state_ k' = state_ k /\ program_ k' = program_ k /\ started_ms_ k' = started_ms_ k /\
  fault_shutdown_ k' = fault_shutdown_ k /\ start_after_shutdown_ k' = start_after_shutdown_ k /\
  pending_program_ k' = pending_program_ k.

Lemma confirm_session response k : same_session k (confirm response k).
Proof.
  unfold confirm. destruct response as [fr|]; [|now split_and!]. destruct (bool_decide _); [|now split_and!].
  destruct (_ && _ && _); [now split_and!|]. destruct (_ && _ && _); now split_and!.
Qed.

Lemma rearm_session k c : same_session k (rearm k c).1 /\
  McuClient.last_fault (rearm k c).2 = McuClient.last_fault c.
Proof.
  unfold rearm. destruct (negb _); [|now split_and!]. cbn [fst snd].
  destruct (negb _); [now split_and!|]. destruct (negb _); now split_and!.
Qed.

(** The steps of the shutdown sequence: a command is sent, or one is awaited,
    or the next program begins, or the session is over. *)
Lemma stopping_cases (P : CookingController * McuClient.McuClient * W -> Prop) response k c (w : W) :
  (forall k1 c1, rearm (confirm response k) c = (k1, c1) ->
     (shutdown_heater_done_ k1 = false ->
        P (k1, c1, w) /\
        forall st c2 w2, heater_off (c1, w) = (st, (c2, w2)) -> P (k1 <| shutdown_heater_sent_ := is_ok st |>, c2, w2)) /\
     (shutdown_heater_done_ k1 = true -> shutdown_motor_done_ k1 = false ->
        P (k1, c1, w) /\
        forall st c2 w2, motor_stop (c1, w) = (st, (c2, w2)) -> P (k1 <| shutdown_motor_sent_ := is_ok st |>, c2, w2)) /\
     (shutdown_heater_done_ k1 = true -> shutdown_motor_done_ k1 = true ->
        (~ (start_after_shutdown_ k1 = true /\ pending_program_ k1 <> None /\ fault_shutdown_ k1 = false) ->
           P (k1 <| state_ := if fault_shutdown_ k1 then Faulted else Done |>, c1, w)) /\
        forall next, start_after_shutdown_ k1 = true -> pending_program_ k1 = Some next -> fault_shutdown_ k1 = false ->
          let '(k2, c2) := begin next k1 c1 w in P (k2, c2, w))) ->
  P (run_stopping_sequence response k c w).
Proof.
  intros HP. unfold run_stopping_sequence. destruct (rearm (confirm response k) c) as [k1 c1].
  destruct (HP k1 c1 eq_refl) as (P1 & P2 & P3). clear HP.
  destruct (shutdown_heater_done_ k1); cbn [negb].
  - destruct (shutdown_motor_done_ k1); cbn [negb].
    + destruct (P3 eq_refl eq_refl) as [Q1 Q2].
      destruct (start_after_shutdown_ k1); [|apply Q1; intros (? & _ & _); discriminate].
      destruct (pending_program_ k1) as [next|]; [|apply Q1; intros (_ & N & _); now apply N].
      destruct (fault_shutdown_ k1); [apply Q1; intros (_ & _ & ?); discriminate|].
      exact (Q2 next eq_refl eq_refl eq_refl).
    + destruct (P2 eq_refl eq_refl) as [Q1 Q2]. destruct (negb _ && _); [|exact Q1].
      destruct (motor_stop (c1, w)) as [st [c2 w2]]. exact (Q2 st c2 w2 eq_refl).
  - destruct (P1 eq_refl) as [Q1 Q2]. destruct (negb _ && _); [|exact Q1].
    destruct (heater_off (c1, w)) as [st [c2 w2]]. exact (Q2 st c2 w2 eq_refl).
Qed.

End Preserved.

(** ** The invariant of a session *)

Section SessionTheory.
Import CookingController.
Context {W : Type} `{AppBoardLaws W}.

Record session_inv (k : CookingController) : Prop := {
  inv_running : state_ k = Running -> program_ k <> None;
  inv_start : start_after_shutdown_ k = true -> state_ k = Stopping /\ fault_shutdown_ k = false;
  inv_pending : pending_program_ k <> None <-> start_after_shutdown_ k = true;
  inv_fault : fault_shutdown_ k = true <-> state_ k = Faulted;
  inv_order : shutdown_motor_sent_ k = true \/ shutdown_motor_done_ k = true -> shutdown_heater_done_ k = true;
  inv_done : state_ k = Done -> shutdown_motor_done_ k = true
}.

Ltac session := split; unfold attach_ota; simp_set; intuition (try congruence).

Lemma new_controller_inv : session_inv (attach_ota new_controller).
Proof. split; vm_compute; intuition (try congruence). Qed.

Lemma begin_shutdown_inv faulted k c : session_inv (begin_shutdown faulted k c).1.
Proof. unfold begin_shutdown. destruct faulted; cbn [fst]; session. Qed.

Lemma start_program_inv program k c : session_inv k -> session_inv (start_program program k c).1.2.
Proof.
  intros I. unfold start_program. destruct program as [p|]; [|exact I]. destruct (_ || _); [exact I|].
  cbn [begin_shutdown fst snd]. session.
Qed.

Lemma stop_inv k c : session_inv k -> session_inv (stop k c).1.
Proof.
  intros I. unfold stop. destruct (_ && _); [destruct I; cbn [fst]; session|].
  destruct (_ && _); [apply begin_shutdown_inv|exact I].
Qed.

Lemma user_next_inv k : session_inv k -> session_inv (user_next k).
Proof. intros I. unfold user_next. destruct (program_ k) eqn:E; [|exact I]. destruct I. session. Qed.

Lemma confirm_inv response k : session_inv k -> session_inv (confirm response k).
Proof.
  intros I. unfold confirm. destruct response as [f|]; [|exact I]. destruct (bool_decide _); [|exact I].
  destruct (shutdown_heater_sent_ k && _ && _) eqn:E1; [destruct I; session|].
  destruct (shutdown_motor_sent_ k && _ && _) eqn:E2; [|exact I].
  apply andb_true_iff in E2 as [E2 _]. apply andb_true_iff in E2 as [E2 _]. destruct I. session.
Qed.

Lemma rearm_inv k c : session_inv k -> session_inv (rearm k c).1.
Proof.
  intros I. unfold rearm. destruct (negb _); [|exact I]. cbn [fst].
  destruct (shutdown_heater_done_ k) eqn:E1; cbn [negb]; [|destruct I; session].
  destruct (shutdown_motor_done_ k) eqn:E2; cbn [negb]; [exact I|destruct I; session].
Qed.

Lemma begin_inv program k c (w : W) : session_inv (begin program k c w).1.
Proof. unfold begin. cbn [fst]. session. Qed.

Lemma stopping_inv response k c (w : W) : session_inv k -> state_ k = Stopping \/ state_ k = Faulted ->
  session_inv (run_stopping_sequence response k c w).1.1.
Proof.
  intros I S. apply (stopping_cases (fun r => session_inv r.1.1)). intros k1 c1 E.
  pose proof (rearm_inv _ c (confirm_inv response k I)) as I1.
  destruct (rearm_session (confirm response k) c) as [(S1 & _ & _ & S2 & _) _].
  destruct (confirm_session response k) as (T1 & _ & _ & T2 & _).
  rewrite E in I1, S1, S2. cbn [fst] in I1, S1, S2. rewrite T1 in S1. rewrite T2 in S2.
  split_and!; intros; (split; [|intros; cbn [fst]]); try exact I1; cbn [fst].
  - destruct I1. session.
  - destruct I1. session.
  - destruct I1. destruct (fault_shutdown_ k1) eqn:F; session.
  - destruct (begin next k1 c1 w) as [k2 c2] eqn:B. cbn [fst]. pose proof (begin_inv next k1 c1 w) as X. now rewrite B in X.
Qed.

Lemma run_session_inv response store k c (w : W) : session_inv k ->
  session_inv (run_session response store k c w).1.1.
Proof.
  intros I. unfold run_session. destruct (state_ k) eqn:S; try exact I.
  - destruct (program_ k) as [p|] eqn:P; [|exact I].
    destruct (Program.on_tick _ store p (c, w)) as [p' [c' w']]. destruct (Program.finished _ p').
    + match goal with |- context [begin_shutdown false ?a ?b] => pose proof (begin_shutdown_inv false a b) as B;
        destruct (begin_shutdown false a b) end. exact B.
    + destruct I. cbn [fst]. session.
  - apply stopping_inv; auto.
  - apply stopping_inv; auto.
Qed.

(** ** A tick in two parts *)

Definition refreshed (store : TelemetryStore.TelemetryStore) (k : CookingController) : CookingController :=
  k <| display_avg_temp_c_ := TelemetryStore.average_temp_c 2000 store |>
    <| hot_bowl_ := fgt (TelemetryStore.max_temp_c 2000 store) (of_Z 60) |>.

Definition trouble (c : McuClient.McuClient) : bool :=
  negb (McuClient.last_fault c =? FaultCode.None) || negb (bool_decide (McuClient.last_command_status c = Ok)).

Definition guard (k : CookingController) (c : McuClient.McuClient) : CookingController * McuClient.McuClient :=
  if negb (bool_decide (state_ k = Faulted)) && trouble c then begin_shutdown true k c else (k, c).

Lemma tick_split store k ota c (w : W) :
  exists ota', tick_10ms store k ota c w =
    let '(response, c) := McuClient.take_response true c in
    let '(k, c) := guard (refreshed store k) c in
    let '(k, c, w) := run_session response store k c (watchdog_feed w) in (k, ota', c, w).
Proof.
  unfold tick_10ms, guard, trouble, refreshed. destruct (McuClient.take_response true c) as [r c1]. cbv zeta.
  match goal with |- context [let '(_, _) := ?x in _] => destruct x as [k2 c2] end. eexists. reflexivity.
Qed.

Lemma refreshed_inv store k : session_inv k -> session_inv (refreshed store k).
Proof. intros []. unfold refreshed. session. Qed.

Lemma guard_inv k c : session_inv k -> session_inv (guard k c).1.
Proof. intros I. unfold guard. destruct (_ && _); [apply begin_shutdown_inv|exact I]. Qed.

Lemma tick_inv store k ota c (w : W) : session_inv k -> session_inv (tick_10ms store k ota c w).1.1.1.
Proof.
  intros I. destruct (tick_split store k ota c w) as [ota' ->].
  destruct (McuClient.take_response true c) as [r c1].
  pose proof (guard_inv (refreshed store k) c1 (refreshed_inv store k I)) as G.
  destruct (guard (refreshed store k) c1) as [k2 c2].
  pose proof (run_session_inv r store k2 c2 (watchdog_feed w) G) as R.
  destruct (run_session r store k2 c2 (watchdog_feed w)) as [[k3 c3] w3]. exact R.
Qed.

Lemma take_response_fault c : McuClient.last_fault (McuClient.take_response true c).2 = McuClient.last_fault c.
Proof. unfold McuClient.take_response. now destruct (_ || _). Qed.

(** ** What the session does to the world *)

Lemma begin_client program k c (w : W) :
  McuClient.last_fault (begin program k c w).2 = FaultCode.None /\ state_ (begin program k c w).1 = Running.
Proof. now split. Qed.

Lemma run_session_world {A} (f : W -> A) response store k c (w : W) :
  (forall bs w, f (uart_write bs w).2 = f w) -> f (run_session response store k c w).2 = f w.
Proof.
  intros Wr. unfold run_session.
  assert (Seq : forall k c w, f (run_stopping_sequence response k c w).2 = f w).
  { intros k0 c0 w0. apply (stopping_cases (fun r => f r.2 = f w0)). intros k1 c1 E.
    assert (Rq : forall id m2, (request id None 0 (c1, w0)).2 = m2 -> f m2.2 = f w0).
    { intros id m2 <-. apply (request_kept f Wr (McuClient.last_fault c1) (f w0) id None 0 (c1, w0)). now split. }
    split_and!; intros; (split; [intros; reflexivity|]); cbn [snd].
    - intros st c2 w2 E2. unfold heater_off in E2. apply (Rq MsgId.HeaterOff (c2, w2)). now rewrite E2.
    - intros st c2 w2 E2. unfold motor_stop in E2. apply (Rq MsgId.MotorStop (c2, w2)). now rewrite E2.
    - intros next _ _ _. reflexivity. }
  destruct (state_ k); try reflexivity; try apply Seq. destruct (program_ k) as [p|]; [|reflexivity].
  pose proof (on_tick_preserves (kept f (McuClient.last_fault c) (f w)) (fun cmd m _ => issue_kept f Wr _ _ cmd m)
    (u32_sub (now_ms w) (started_ms_ k)) store p (c, w) ltac:(now split)) as [_ T].
  destruct (Program.on_tick _ store p (c, w)) as [p' [c' w']]. cbn [snd] in T.
  destruct (Program.finished _ p'); cbn [begin_shutdown]; exact T.
Qed.

(** A faulted session stays faulted, and remembers why. *)
Lemma stopping_faulted response k c (w : W) : session_inv k -> state_ k = Faulted ->
  let r := run_stopping_sequence response k c w in
  state_ r.1.1 = Faulted /\ McuClient.last_fault r.1.2 = McuClient.last_fault c.
Proof.
  intros I S.
  apply (stopping_cases (fun r => state_ r.1.1 = Faulted /\ McuClient.last_fault r.1.2 = McuClient.last_fault c)).
  intros k1 c1 E. destruct (rearm_session (confirm response k) c) as [(S1 & _ & _ & F1 & _) C1].
  destruct (confirm_session response k) as (T1 & _ & _ & F2 & _). rewrite E in S1, C1, F1. cbn [fst snd] in *.
  assert (F : fault_shutdown_ k1 = true) by (rewrite F1, F2; now apply (inv_fault k I)).
  assert (Rq : forall id m2, (request id None 0 (c1, w)).2 = m2 -> McuClient.last_fault m2.1 = McuClient.last_fault c).
  { intros id m2 <-. rewrite <- C1.
    apply (request_kept (fun _ => tt) (fun _ _ => eq_refl) (McuClient.last_fault c1) tt id None 0 (c1, w)). now split. }
  split_and!; intros.
  - split; [split; congruence|]. intros st c2 w2 E2. cbn [fst]. simp_set. split; [congruence|].
    unfold heater_off in E2. apply (Rq MsgId.HeaterOff (c2, w2)). now rewrite E2.
  - split; [split; congruence|]. intros st c2 w2 E2. cbn [fst]. simp_set. split; [congruence|].
    unfold motor_stop in E2. apply (Rq MsgId.MotorStop (c2, w2)). now rewrite E2.
  - split; [|intros; congruence]. intros _. cbn [fst]. simp_set. rewrite F. now split.
Qed.

Lemma tick_faulted store k ota c (w : W) : session_inv k -> McuClient.last_fault c <> FaultCode.None ->
  let '(k', _, c', _) := tick_10ms store k ota c w in
  state_ k' = Faulted /\ pending_program_ k' = None /\ McuClient.last_fault c' = McuClient.last_fault c.
Proof.
  intros I Fc. pose proof (tick_inv store k ota c w I) as TI. destruct (tick_split store k ota c w) as [ota' E].
  pose proof (take_response_fault c) as TF. destruct (McuClient.take_response true c) as [r c1]. cbn [snd] in TF.
  assert (G : let '(k2, c2) := guard (refreshed store k) c1 in
            session_inv k2 /\ state_ k2 = Faulted /\ McuClient.last_fault c2 = McuClient.last_fault c).
  { pose proof (guard_inv (refreshed store k) c1 (refreshed_inv store k I)) as GI. unfold guard, trouble in *.
    rewrite TF in *. destruct (Z.eqb_spec (McuClient.last_fault c) FaultCode.None); [contradiction|].
    cbn [negb orb] in *. rewrite andb_true_r in *.
    destruct (bool_decide (state_ (refreshed store k) = Faulted)) eqn:D; cbn [negb begin_shutdown fst] in *.
    - apply bool_decide_eq_true in D. now split_and!.
    - split_and!; [exact GI|reflexivity|exact TF]. }
  destruct (guard (refreshed store k) c1) as [k2 c2]. destruct G as (G1 & G2 & G3).
  pose proof (stopping_faulted r k2 c2 (watchdog_feed w) G1 G2) as S. cbv zeta in S.
  unfold run_session in E. rewrite G2 in E. rewrite E in *.
  destruct (run_stopping_sequence r k2 c2 (watchdog_feed w)) as [[k3 c3] w3]. cbn [fst snd] in *.
  destruct S as [S1 S2]. split_and!; [exact S1| |congruence].
  destruct (pending_program_ k3) eqn:P; [|reflexivity].
  destruct (inv_start k3 TI) as [X _]; [apply (inv_pending k3 TI); congruence|congruence].
Qed.

(** ** The session as a state machine

    A session advances by its own operations; between them the client is
    polled, which learns of a fault at most what the safety processor reports. *)
Inductive session_step : CookingController * McuClient.McuClient -> CookingController * McuClient.McuClient -> Prop :=
| step_tick store ota ota' k c (w : W) k' c' w' :
    tick_10ms store k ota c w = (k', ota', c', w') -> session_step (k, c) (k', c')
| step_start program st k c k' c' : start_program program k c = (st, k', c') -> session_step (k, c) (k', c')
| step_stop k c k' c' : stop k c = (k', c') -> session_step (k, c) (k', c')
| step_next k c : session_step (k, c) (user_next k, c)
| step_poll k c c' : McuClient.last_fault c' = McuClient.last_fault c -> session_step (k, c) (k, c').

Lemma session_step_inv s s' : session_step s s' -> session_inv s.1 -> session_inv s'.1.
Proof.
  intros T I. destruct T as [store ota ota' k c w k' c' w' E|program st k c k' c' E|k c k' c' E|k c|k c c' _]; cbn [fst] in *.
  - pose proof (tick_inv store k ota c w I) as X. now rewrite E in X.
  - pose proof (start_program_inv program k c I) as X. now rewrite E in X.
  - pose proof (stop_inv k c I) as X. now rewrite E in X.
  - now apply user_next_inv.
  - exact I.
Qed.

(** The states a session can be in while the client knows of a fault and the
    session has been told. *)
Definition blocked (fault : Z) (s : CookingController * McuClient.McuClient) : Prop :=
  session_inv s.1 /\ (state_ s.1 = Faulted \/ state_ s.1 = Stopping) /\ McuClient.last_fault s.2 = fault.

Lemma blocked_step fault s s' : fault <> FaultCode.None -> blocked fault s -> session_step s s' -> blocked fault s'.
Proof.
  intros Fn (I & S & F) T. pose proof (session_step_inv s s' T I) as I'.
  destruct T as [store ota ota' k c w k' c' w' E|program st k c k' c' E|k c k' c' E|k c|k c c' E]; cbn [fst snd] in *.
  - pose proof (tick_faulted store k ota c w I ltac:(congruence)) as X. rewrite E in X. destruct X as (X1 & _ & X2).
    split_and!; [exact I'|now left|cbn; congruence].
  - unfold start_program in E. destruct program as [p|]; [|simplify_eq; now split_and!].
    destruct (_ || _); [simplify_eq; now split_and!|]. unfold begin_shutdown in E. simplify_eq. cbn [fst snd].
    split_and!; [exact I'|right; reflexivity|reflexivity].
  - unfold stop in E. destruct (_ && _); [simplify_eq; now split_and!|].
    destruct (_ && _); [|simplify_eq; now split_and!]. unfold begin_shutdown in E. simplify_eq. cbn [fst snd].
    split_and!; [exact I'|right; reflexivity|reflexivity].
  - split_and!; [exact I'| |exact F]. cbn [fst]. unfold user_next. destruct (program_ k); exact S.
  - split_and!; [exact I'|exact S|cbn [snd]; congruence].
Qed.

Lemma blocked_steps fault s s' : fault <> FaultCode.None -> rtc session_step s s' -> blocked fault s -> blocked fault s'.
Proof. intros Fn R. induction R as [|s1 s2 s3 T R IH]; [easy|]. intros B. apply IH. eauto using blocked_step. Qed.

End SessionTheory.

(** ** Programs a user may start *)

(** A program a user may start: every request of its script is one
    the safety processor accepts (the dough program has no script: see
    [dough_in_step]). *)
Definition launchable (p : Program.Program) : Prop :=
  (fresh p \/ exists duration_s, p = Program.Dough (DoughMode.new duration_s)) /\ Forall within_limits (todo p).

Lemma valid_steps_within r : recipe_valid r -> Forall step_within (steps_from r 0).
Proof.
  intros ([_ [L _] C V] & _ & _). unfold steps_from. apply Forall_fmap, Forall_forall. intros i I.
  apply elem_of_seq in I. cbn. unfold step_at. set (s := nth i (steps r) default_step).
  assert (Vs : step_valid s).
  { apply (proj1 (Forall_forall _ _) V). subst s. replace (nth i (steps r) default_step)
      with (nth i (take (step_count r) (steps r)) default_step).
    - apply list_elem_of_In, nth_In. rewrite length_take. lia.
    - rewrite <- (take_drop (step_count r) (steps r)) at 2. rewrite app_nth1; [reflexivity|]. rewrite length_take. lia. }
  destruct Vs as [[T D _ _ _] K]. split; [lia|]. intros Kd. rewrite Kd in K.
  unfold limits.kHeaterMinTargetDeci, limits.kHeaterMaxTargetDeci. lia.
Qed.

Lemma launch_fresh p : fresh p -> Forall within_limits (todo p) -> launchable p.
Proof. split; auto. Qed.

Lemma manual_launchable d dial seconds : 0 <= dial -> (0 < d -> 370 <= d <= 1600) ->
  launchable (Program.Manual (ManualMode.new d dial seconds)).
Proof. intros D T. apply launch_fresh; [constructor|]. apply fresh_within; [constructor|]. now split. Qed.

Lemma guided_launchable r : recipe_valid r -> launchable (Program.Guided (GuidedRecipe.new r)).
Proof. intros V. apply launch_fresh; [constructor|]. apply fresh_within; [constructor|]. now apply valid_steps_within. Qed.

(** ** The client stays well formed *)

Section ClientThroughout.
Import CookingController.
Context {W : Type} `{AppBoardLaws W}.

Lemma stopping_client response k c (w : W) : client_ok c -> client_ok (run_stopping_sequence response k c w).1.2.
Proof.
  intros K. apply (stopping_cases (fun r => client_ok r.1.2)). intros k1 c1 E.
  assert (K1 : client_ok c1).
  { apply (f_equal snd) in E. cbn [snd] in E. rewrite <- E. unfold rearm.
    destruct (negb _); [now apply clear_status_ok|exact K]. }
  split_and!; intros; (split; [intros; exact K1|]); cbn [fst snd].
  - intros st c2 w2 E2. pose proof (issue_ok HeaterOff (c1, w) I K1) as X. cbn [issue] in X. now rewrite E2 in X.
  - intros st c2 w2 E2. pose proof (issue_ok MotorStop (c1, w) I K1) as X. cbn [issue] in X. now rewrite E2 in X.
  - intros next _ _ _. cbn [begin fst snd]. now apply clear_status_ok, clear_fault_ok.
Qed.

Lemma tick_client store k ota c (w : W) : client_ok c -> client_ok (tick_10ms store k ota c w).1.2.
Proof.
  intros K. destruct (tick_split store k ota c w) as [ota' ->].
  pose proof (take_response_ok c K) as K1. destruct (McuClient.take_response true c) as [r c1]. cbn [snd] in K1.
  assert (K2 : client_ok (guard (refreshed store k) c1).2).
  { unfold guard. destruct (_ && _); [now apply clear_status_ok|exact K1]. }
  destruct (guard (refreshed store k) c1) as [k2 c2]. cbn [snd] in K2.
  assert (K3 : client_ok (run_session r store k2 c2 (watchdog_feed w)).1.2).
  { unfold run_session. destruct (state_ k2); try exact K2; try (now apply stopping_client).
    destruct (program_ k2) as [p|]; [|exact K2].
    pose proof (on_tick_preserves (fun m : McuClient.McuClient * W => client_ok m.1) issue_ok
      (u32_sub (now_ms (watchdog_feed w)) (started_ms_ k2)) store p (c2, watchdog_feed w) K2) as T.
    destruct (Program.on_tick _ store p (c2, watchdog_feed w)) as [p' [c' w']]. cbn [snd fst] in T.
    destruct (Program.finished _ p'); [now apply clear_status_ok|exact T]. }
  destruct (run_session r store k2 c2 (watchdog_feed w)) as [[k3 c3] w3]. exact K3.
Qed.

(** The application: everything it owns is well formed. *)
Record runtime_ok (a : ApplicationRuntime.ApplicationRuntime) : Prop := {
  rt_client : client_ok (ApplicationRuntime.client_ a);
  rt_store : store_ok (ApplicationRuntime.telemetry_ a);
  rt_session : session_inv (ApplicationRuntime.controller_ a);
  rt_divider : 0 <= ApplicationRuntime.app_divider_ a < 10
}.

Lemma new_runtime_ok : runtime_ok ApplicationRuntime.new_runtime.
Proof. split; [apply new_client_ok|apply new_store_ok|apply new_controller_inv|split; reflexivity || discriminate]. Qed.

Lemma runtime_tick_steps a (w : W) : runtime_ok a ->
  exists a' w', ApplicationRuntime.tick_1ms a w = Ret (a', w') /\ runtime_ok a' /\
    ApplicationRuntime.app_divider_ a' = (ApplicationRuntime.app_divider_ a + 1) mod 10.
Proof.
  intros [K St I D]. unfold ApplicationRuntime.tick_1ms.
  destruct (client_poll_ok _ _ w K St) as (c & st & w1 & -> & K1 & S1 & _). cbn. simp_set.
  assert (D8 : u8 (ApplicationRuntime.app_divider_ a + 1) = ApplicationRuntime.app_divider_ a + 1)
    by (apply u8_id; unfold in_u8; lia).
  rewrite D8, Z.geb_leb. destruct (Z.leb_spec 10 (ApplicationRuntime.app_divider_ a + 1)) as [L|L].
  - pose proof (tick_client st (ApplicationRuntime.controller_ a) (ApplicationRuntime.ota_ a) c w1 K1) as K2.
    pose proof (tick_inv st (ApplicationRuntime.controller_ a) (ApplicationRuntime.ota_ a) c w1 I) as I2.
    destruct (tick_10ms st (ApplicationRuntime.controller_ a) (ApplicationRuntime.ota_ a) c w1) as [[[k o] c2] w2].
    eexists _, _. split; [reflexivity|]. split; [split; simp_set; try assumption; try lia; assumption|].
    simp_set. replace (ApplicationRuntime.app_divider_ a + 1) with 10 by lia. reflexivity.
  - eexists _, _. split; [reflexivity|]. split; [split; simp_set; try assumption; lia|].
    simp_set. now rewrite Z.mod_small by lia.
Qed.

Lemma runtime_tick_ok a (w : W) : runtime_ok a ->
  exists a' w', ApplicationRuntime.tick_1ms a w = Ret (a', w') /\ runtime_ok a'.
Proof. intros K. destruct (runtime_tick_steps a w K) as (a' & w' & E & K' & _). eauto. Qed.

(** The runtime ticked on a sequence of worlds. *)
Fixpoint run_runtime (a : ApplicationRuntime.ApplicationRuntime) (ws : list W)
    : outcome ApplicationRuntime.ApplicationRuntime :=
  match ws with
  | [] => Ret a
  | w :: ws => '(a, _) ← ApplicationRuntime.tick_1ms a w; run_runtime a ws
  end.

Lemma run_runtime_ok ws : forall a n, runtime_ok a -> ApplicationRuntime.app_divider_ a = n mod 10 ->
  exists a', run_runtime a ws = Ret a' /\ runtime_ok a' /\
    ApplicationRuntime.app_divider_ a' = (n + Z.of_nat (length ws)) mod 10.
Proof.
  induction ws as [|w ws IH]; intros a n K D; [exists a; split_and!; [reflexivity|assumption|]; cbn; now rewrite Z.add_0_r|].
  cbn [run_runtime]. destruct (runtime_tick_steps a w K) as (a1 & w1 & -> & K1 & D1). cbn [mbind outcome_bind].
  destruct (IH a1 (n + 1) K1) as (a2 & E & K2 & D2).
  - rewrite D1, D. now rewrite Zplus_mod_idemp_l.
  - exists a2. split_and!; [exact E|exact K2|]. rewrite D2. cbn [length]. f_equal. lia.
Qed.

Lemma runtime_recipes a (w : W) a' w' : ApplicationRuntime.tick_1ms a w = Ret (a', w') ->
  ApplicationRuntime.recipes_ a' = ApplicationRuntime.recipes_ a.
Proof.
  unfold ApplicationRuntime.tick_1ms. intros E. apply bind_ret in E as ([[c st] w1] & _ & E).
  destruct (_ >=? 10); [|now simplify_eq].
  match type of E with (let '(_, _) := ?x in _) = _ => destruct x as [[[k o] c'] w2] end. now simplify_eq.
Qed.

End ClientThroughout.

(** ** Confirmation of a shutdown *)

Section Confirmation.
Import CookingController.
Context {W : Type} `{AppBoardLaws W}.

(** The input of a tick: what the telemetry, the updater, the client and the
    world have become since the tick before. *)
Record tick_input := { in_store : TelemetryStore.TelemetryStore; in_ota : OtaUpdater.OtaUpdater;
                       in_client : McuClient.McuClient; in_world : W }.

Fixpoint run_ticks (k : CookingController) (inputs : list tick_input) : CookingController :=
  match inputs with
  | [] => k
  | i :: inputs => run_ticks (tick_10ms (in_store i) k (in_ota i) (in_client i) (in_world i)).1.1.1 inputs
  end.

Definition response_of (i : tick_input) : option Frame := (McuClient.take_response true (in_client i)).1.










(** The display is refreshed once a tick. *)
Lemma run_session_display response store k c (w : W) :
  hot_bowl_ (run_session response store k c w).1.1 = hot_bowl_ k.
Proof.
  assert (S : hot_bowl_ (run_stopping_sequence response k c w).1.1 = hot_bowl_ k).
  { apply (stopping_cases (fun x => hot_bowl_ x.1.1 = hot_bowl_ k)). intros k1 c1 E.
    assert (E1 : hot_bowl_ k1 = hot_bowl_ k).
    { assert (E2 : hot_bowl_ (confirm response k) = hot_bowl_ k).
      { unfold confirm. destruct response; [|reflexivity]. destruct (bool_decide _); [|reflexivity].
        destruct (_ && _ && _); [reflexivity|]. now destruct (_ && _ && _). }
      apply (f_equal (fun x => hot_bowl_ x.1)) in E. cbn [fst] in E. rewrite <- E, <- E2.
      unfold rearm. destruct (negb _); [|reflexivity]. cbn [fst]. destruct (negb _); [reflexivity|]. now destruct (negb _). }
    split_and!; intros; (split; [intros; exact E1|intros; cbn [fst begin]; simp_set; exact E1]). }
  unfold run_session. destruct (state_ k); try reflexivity; try exact S.
  destruct (program_ k); [|reflexivity]. destruct (Program.on_tick _ _ _ _) as [p' [c' w']].
  now destruct (Program.finished _ p').
Qed.

(** ** A restart, tick by tick *)

Definition restarting (program : Program.Program) (heater_sent heater_done motor_sent : bool) (k : CookingController) : Prop :=
  state_ k = Stopping /\ fault_shutdown_ k = false /\ start_after_shutdown_ k = true /\
  pending_program_ k = Some program /\ shutdown_heater_sent_ k = heater_sent /\
  shutdown_heater_done_ k = heater_done /\ shutdown_motor_sent_ k = motor_sent /\ shutdown_motor_done_ k = false.

(** The client takes the request [id] in this tick. *)
Definition sends (i : tick_input) (id : Z) : Prop :=
  let c := (McuClient.take_response true (in_client i)).2 in
  trouble c = false /\ busy c = false /\ (request id None 0 (c, watchdog_feed (in_world i))).1 = Ok.

Definition next_tick (k : CookingController) (i : tick_input) : CookingController :=
  (tick_10ms (in_store i) k (in_ota i) (in_client i) (in_world i)).1.1.1.

(** A tick without trouble is a step of the sequence. *)
Lemma calm_tick k i r c : McuClient.take_response true (in_client i) = (r, c) -> trouble c = false ->
  state_ k = Stopping ->
  next_tick k i = (run_stopping_sequence r (refreshed (in_store i) k) c (watchdog_feed (in_world i))).1.1.
Proof.
  intros E T S. unfold next_tick. destruct (tick_split (in_store i) k (in_ota i) (in_client i) (in_world i)) as [o ->].
  rewrite E. unfold guard. rewrite T, andb_false_r. unfold run_session.
  change (state_ (refreshed (in_store i) k)) with (state_ k). rewrite S.
  now destruct (run_stopping_sequence r (refreshed (in_store i) k) c _) as [[k3 c3] w3].
Qed.

Lemma calm_rearm k c : trouble c = false -> rearm k c = (k, c).
Proof.
  unfold trouble, rearm. intros T. apply orb_false_iff in T as [_ T]. now rewrite T.
Qed.

Lemma busy_waiting c : busy c = false -> McuClient.awaiting_response c = false.
Proof. unfold busy, McuClient.awaiting_response. intros B. now apply orb_false_iff in B as [B _]. Qed.

Lemma restart_heater program k i : restarting program false false false k -> sends i MsgId.HeaterOff ->
  response_of i = None -> restarting program true false false (next_tick k i).
Proof.
  intros (R1 & R2 & R3 & R4 & R5 & R6 & R7 & R8) (T & B & Rq) Rn. unfold response_of in Rn.
  destruct (McuClient.take_response true (in_client i)) as [r c] eqn:E. cbn [fst snd] in *. subst r.
  rewrite (calm_tick k i None c E T R1). unfold run_stopping_sequence, confirm. rewrite calm_rearm by exact T.
  unfold refreshed. simp_set. rewrite R6, R5, (busy_waiting c B). cbn [negb andb]. unfold heater_off.
  destruct (request _ _ _ _) as [st [c2 w2]]. cbn [fst] in *. subst st. unfold restarting. simp_set. now split_and!.
Qed.

Lemma restart_motor program k i f : restarting program true false false k -> sends i MsgId.MotorStop ->
  response_of i = Some f -> type f = Response -> msg_id f = MsgId.HeaterOff ->
  restarting program true true true (next_tick k i).
Proof.
  intros (R1 & R2 & R3 & R4 & R5 & R6 & R7 & R8) (T & B & Rq) Rn Ty Id. unfold response_of in Rn.
  destruct (McuClient.take_response true (in_client i)) as [r c] eqn:E. cbn [fst snd] in *. subst r.
  rewrite (calm_tick k i (Some f) c E T R1). unfold run_stopping_sequence, confirm.
  rewrite Ty, bool_decide_eq_true_2, Id by reflexivity. unfold refreshed. simp_set. rewrite R5, R6.
  cbn [negb andb Z.eqb MsgId.HeaterOff Pos.eqb]. rewrite calm_rearm by exact T. simp_set.
  rewrite R7, R8, (busy_waiting c B). cbn [negb andb]. unfold motor_stop.
  destruct (request _ _ _ _) as [st [c2 w2]]. cbn [fst] in *. subst st. unfold restarting. simp_set. now split_and!.
Qed.

Lemma restart_begins program k i f : restarting program true true true k ->
  trouble (McuClient.take_response true (in_client i)).2 = false ->
  response_of i = Some f -> type f = Response -> msg_id f = MsgId.MotorStop ->
  state_ (next_tick k i) = Running /\ program_ (next_tick k i) = Some program /\
  started_ms_ (next_tick k i) = now_ms (watchdog_feed (in_world i)).
Proof.
  intros (R1 & R2 & R3 & R4 & R5 & R6 & R7 & R8) T Rn Ty Id. unfold response_of in Rn.
  destruct (McuClient.take_response true (in_client i)) as [r c] eqn:E. cbn [fst snd] in *. subst r.
  rewrite (calm_tick k i (Some f) c E T R1). unfold run_stopping_sequence, confirm.
  rewrite Ty, bool_decide_eq_true_2, Id by reflexivity. unfold refreshed. simp_set. rewrite R5, R6, R7, R8.
  cbn [negb andb Z.eqb MsgId.HeaterOff MsgId.MotorStop Pos.eqb]. rewrite calm_rearm by exact T. simp_set.
  rewrite R6, R3, R4, R2. cbn [negb begin fst]. now split_and!.
Qed.

End Confirmation.

(** ** Properties *)

Section CookingProperties.
Import CookingController.
Context {W : Type} `{AppBoardLaws W}.

(** (SR-006): every tick of the application feeds the watchdog first and
    whatever else it does, it drives nothing but the link: what sending on the
    UART leaves alone is as the feeding left it. The session's invariant (an
    active session has a program, a pending one only waits in [Stopping], the
    motor is confirmed only after the heater, [Done] means both are) holds
    after the tick. *)
Theorem tick_feeds_watchdog {A} (f : W -> A) store k ota c w :
  (forall bs w, f (uart_write bs w).2 = f w) -> session_inv k ->
  let '(k', _, _, w') := tick_10ms store k ota c w in f w' = f (watchdog_feed w) /\ session_inv k'.
Proof.
  intros Wr I. pose proof (tick_inv store k ota c w I) as X. destruct (tick_split store k ota c w) as [ota' E].
  rewrite E in *. clear E. destruct (McuClient.take_response true c) as [r c1].
  destruct (guard (refreshed store k) c1) as [k2 c2].
  pose proof (run_session_world f r store k2 c2 (watchdog_feed w) Wr) as F.
  destruct (run_session r store k2 c2 (watchdog_feed w)) as [[k3 c3] w3]. now split.
Qed.

(** A fault reported by the safety processor blocks the session for good:
    [start_program] accepts the restart that the finished shutdown permits, but
    nothing in the session forgets the fault (only [begin] would clear it), so
    the next tick is faulted again and has dropped the program, and no sequence
    of ticks, starts, stops and polls ever reaches [Running]. *)
Theorem mcu_fault_blocks_restart program k c : session_inv k -> state_ k = Faulted ->
  shutdown_motor_done_ k = true -> McuClient.last_fault c <> FaultCode.None ->
  (let '(st, k1, c1) := start_program (Some program) k c in
   st = Ok /\ state_ k1 = Stopping /\ pending_program_ k1 = Some program /\
   forall store ota (w : W), let '(k2, _, _, _) := tick_10ms store k1 ota c1 w in
     state_ k2 = Faulted /\ pending_program_ k2 = None) /\
  forall s, rtc (session_step (W := W)) (k, c) s -> state_ s.1 <> Running.
Proof.
  intros I S M F. split.
  - unfold start_program. rewrite S, M. cbn [negb]. rewrite !bool_decide_eq_false_2 by discriminate.
    rewrite andb_false_r. cbn [orb begin_shutdown]. split_and!; try reflexivity. intros store ota w.
    match goal with |- context [tick_10ms store ?k1 ota ?c1 w] =>
      assert (I1 : session_inv k1); [|pose proof (tick_faulted store k1 ota c1 w I1 F) as X;
        destruct (tick_10ms store k1 ota c1 w) as [[[k2 ?] c2] ?]] end.
    + pose proof (start_program_inv (Some program) k c I) as Y. unfold start_program in Y. rewrite S, M in Y.
      cbn [negb] in Y. rewrite !bool_decide_eq_false_2, andb_false_r in Y by discriminate. exact Y.
    + now destruct X as (X1 & X2 & _).
  - intros s R. destruct (blocked_steps (McuClient.last_fault c) _ _ F R) as (_ & [X|X] & _); try congruence.
    split_and!; [exact I|now left|reflexivity].
Qed.


(** The display's hot-bowl warning is on exactly when some reading of the
    last two seconds is above 60 C. *)
Theorem hot_bowl_warning store k ota c (w : W) : store_ok store -> session_inv k ->
  (exists s, In s (window 2000 store) /\ -10000 < TelemetryStore.deci_celsius s) ->
  hot_bowl_ (tick_10ms store k ota c w).1.1.1 = existsb (fun s => 600 <? TelemetryStore.deci_celsius s) (window 2000 store).
Proof.
  intros Hs I E. destruct (tick_split store k ota c w) as [ota' ->].
  destruct (McuClient.take_response true c) as [r c1].
  assert (G : hot_bowl_ (guard (refreshed store k) c1).1 = hot_bowl_ (refreshed store k)).
  { unfold guard. now destruct (_ && _). }
  destruct (guard (refreshed store k) c1) as [k2 c2]. cbn [fst] in G.
  pose proof (run_session_display r store k2 c2 (watchdog_feed w)) as D.
  destruct (run_session r store k2 c2 (watchdog_feed w)) as [[k3 c3] w3]. cbn [fst] in *.
  rewrite D, G. unfold refreshed. simp_set. exact (max_temp_gt 2000 store 60 Hs ltac:(lia) E).
Qed.

(** A restart succeeds when the device cooperates: after a start, three
    ticks (heater off is sent; its response arrives and motor stop is sent; its
    response arrives) bring the session to [Running] with that very program,
    started at the clock of the third tick. *)
Theorem restart_succeeds program k c0 (i1 i2 i3 : tick_input (W := W)) f2 f3 :
  state_ k = Idle \/ state_ k = Done ->
  sends i1 MsgId.HeaterOff -> response_of i1 = None ->
  sends i2 MsgId.MotorStop -> response_of i2 = Some f2 -> type f2 = Response -> msg_id f2 = MsgId.HeaterOff ->
  trouble (McuClient.take_response true (in_client i3)).2 = false ->
  response_of i3 = Some f3 -> type f3 = Response -> msg_id f3 = MsgId.MotorStop ->
  let '(st, k1, _) := start_program (Some program) k c0 in
  st = Ok /\
  let k4 := run_ticks k1 [i1; i2; i3] in
  state_ k4 = Running /\ program_ k4 = Some program /\ started_ms_ k4 = now_ms (watchdog_feed (in_world i3)).
Proof.
  intros S S1 N1 S2 N2 T2 M2 S3 N3 T3 M3. unfold start_program.
  replace (bool_decide (state_ k = Running) || bool_decide (state_ k = Stopping) ||
    bool_decide (state_ k = Faulted) && negb (shutdown_motor_done_ k)) with false by (destruct S as [-> | ->]; reflexivity).
  cbn [begin_shutdown]. split; [reflexivity|].
  match goal with |- context [run_ticks ?k1 _] => set (k1' := k1) end.
  assert (R0 : restarting program false false false k1') by (subst k1'; unfold restarting; simp_set; now split_and!).
  clearbody k1'. cbn [run_ticks]. fold (next_tick k1' i1). fold (next_tick (next_tick k1' i1) i2).
  fold (next_tick (next_tick (next_tick k1' i1) i2) i3).
  apply (restart_begins program _ i3 f3); try assumption.
  apply (restart_motor program _ i2 f2); try assumption. now apply restart_heater.
Qed.

(** The application never hangs and never breaks its data: from power-on,
    whatever the worlds between the ticks bring, every tick returns, the client,
    the store and the session keep their invariants, and the controller has run
    in every tenth tick. *)
Theorem runtime_always_ticks (ws : list W) :
  exists a, run_runtime ApplicationRuntime.new_runtime ws = Ret a /\
    runtime_ok a /\ ApplicationRuntime.app_divider_ a = Z.of_nat (length ws) mod 10.
Proof. exact (run_runtime_ok ws _ 0 new_runtime_ok eq_refl). Qed.

End CookingProperties.
