(* ===== verification/System.v ===== *)
(** * The whole device (src/src/system/system_sim.{h,cpp})

    The simulated board, the safety processor and the application in lockstep, a
    millisecond at a time: the board first, then the control tick, then the
    application. The application reaches the board through its end of the
    transport and the watchdog only. *)

From S2P Require Import Prelude.
From S2P Require Import Float32.
From S2P Require Import Common.
From S2P Require Import C1Link.
From S2P Require Import Hal.
From S2P Require Import Link.
From S2P Require Import Mcu.
From S2P Require Import SafetyMcu.
From S2P Require Import Supervision.
From S2P Require Import Sim.
From S2P Require Import TelemetryStore.
From S2P Require Import McuClient.
From S2P Require Import Cooking.

(** ** The board as the world of the application *)
Module AppWorld.
(** [sent_] is the ghost log of the bytes its UART accepted. *)
Record AppWorld {N : Type} := {
  board : SimBoard.SimBoard N;
  transport : InMemoryTransport.InMemoryTransport;
  sent_ : list Z
}.
Arguments AppWorld : clear implicits.
#[global] Instance eta_AppWorld {N} : Eta (AppWorld N) := fun w =>
  {| board := board w; transport := transport w; sent_ := sent_ w |}.
End AppWorld.

Section AppInstances.
Import AppWorld.
Context {N : Type} `{NoiseSource N}.

#[export] Instance app_clock : IClock (AppWorld N) := fun w => SimClock.now_us_ (SimBoard.clock_ (board w)).

#[export] Instance app_uart : IUart (AppWorld N) := {|
  uart_write bs w :=
    let '(n, q) := InMemoryTransport.write bs (InMemoryTransport.app_to_mcu_ (transport w)) in
    (n, w <| transport := (transport w) <| InMemoryTransport.app_to_mcu_ := q |> |> <| sent_ := sent_ w ++ take n bs |>);
  uart_read w :=
    let '(r, q) := InMemoryTransport.read (InMemoryTransport.mcu_to_app_ (transport w)) in
    (r, w <| transport := (transport w) <| InMemoryTransport.mcu_to_app_ := q |> |>);
  rx_pending w := RingBuffer.count_ (InMemoryTransport.mcu_to_app_ (transport w))
|}.

#[export] Instance app_watchdog : IWatchdog (AppWorld N) := {|
  watchdog_feed w :=
    w <| board := (board w) <| SimBoard.watchdog_ :=
           Watchdog.feed (SimClock.now_ms (SimBoard.clock_ (board w))) (SimBoard.watchdog_ (board w)) |> |>;
  timeout_ms := Watchdog.kTimeoutMs
|}.

#[export] Instance app_uart_laws : UartLaws (AppWorld N).
Proof.
  refine {| tx_log := sent_ |}.
  - intros bs w. cbn. now destruct (InMemoryTransport.write bs _).
  - intros bs w. cbn. now destruct (InMemoryTransport.write bs _).
  - intros w. cbn. now destruct (InMemoryTransport.read _).
  - intros w b. cbn. destruct (pop_count (InMemoryTransport.mcu_to_app_ (transport w))) as [_ P].
    destruct (InMemoryTransport.read _) as [r q]. exact (P b).
  - intros w. cbn. destruct (pop_count (InMemoryTransport.mcu_to_app_ (transport w))) as [P _].
    destruct (InMemoryTransport.read _) as [r q]. intros _. exact P.
Defined.

#[export] Instance app_board_laws : AppBoardLaws (AppWorld N).
Proof.
  split; intros; try reflexivity.
  - cbn. unfold now_us, app_clock. now destruct (InMemoryTransport.write bs _).
  - cbn. unfold now_us, app_clock. now destruct (InMemoryTransport.read _).
Defined.
End AppInstances.

(** ** system_sim.cpp *)
Module SystemSim.
(** [mcu_] holds the board and the transport as its world; [app_sent_] is the
    ghost log of the application's UART. *)
Record SystemSim {N : Type} := {
  mcu_ : SafetyMcu.SafetyMcu (McuWorld.McuWorld N McuEnd.McuEnd);
  app_ : ApplicationRuntime.ApplicationRuntime;
  app_sent_ : list Z
}.
Arguments SystemSim : clear implicits.

Section System.
Context {N : Type} `{NoiseSource N}.

Definition new_system (seed : Z) : SystemSim N :=
  {| mcu_ := SafetyMcu.new_mcu {| McuWorld.board := SimBoard.new_board seed; McuWorld.line := McuEnd.new_end |};
     app_ := ApplicationRuntime.new_runtime;
     app_sent_ := [] |}.

Definition board_ (s : SystemSim N) : SimBoard.SimBoard N := McuWorld.board (SafetyMcu.world (mcu_ s)).
Definition now_ms (s : SystemSim N) : Z := SimClock.now_ms (SimBoard.clock_ (board_ s)).

(** The shared hardware, as the application sees it. *)
Definition app_world (s : SystemSim N) : AppWorld.AppWorld N :=
  {| AppWorld.board := board_ s; AppWorld.transport := McuEnd.transport (McuWorld.line (SafetyMcu.world (mcu_ s)));
     AppWorld.sent_ := app_sent_ s |}.

Definition with_app_world (w : AppWorld.AppWorld N) (s : SystemSim N) : SystemSim N :=
  {| mcu_ := SafetyMcu.with_world
               ((SafetyMcu.world (mcu_ s)) <| McuWorld.board := AppWorld.board w |>
                                           <| McuWorld.line := (McuWorld.line (SafetyMcu.world (mcu_ s))) <| McuEnd.transport := AppWorld.transport w |> |>) (mcu_ s);
     app_ := app_ s; app_sent_ := AppWorld.sent_ w |}.

(** One iteration of [step_ms]. *)
Definition step_1ms (s : SystemSim N) : outcome (SystemSim N) :=
  b ← SimBoard.step_ms 1 (board_ s);
  m ← SafetyMcu.tick_1ms (SafetyMcu.with_world ((SafetyMcu.world (mcu_ s)) <| McuWorld.board := b |>) (mcu_ s));
  let s := {| mcu_ := m; app_ := app_ s; app_sent_ := app_sent_ s |} in
  '(a, w) ← ApplicationRuntime.tick_1ms (app_ s) (app_world s);
  let s := with_app_world w s in
  Ret {| mcu_ := mcu_ s; app_ := a; app_sent_ := app_sent_ s |}.

Fixpoint step_ms (ms : nat) (s : SystemSim N) : outcome (SystemSim N) :=
  match ms with
  | O => Ret s
  | S ms => s ← step_1ms s; step_ms ms s
  end.
End System.
End SystemSim.

(** * Theorems *)

(** ** What the application leaves alone *)

Section AppPreserves.
Context {W : Type} `{AppBoardLaws W}.
Context {A : Type} (f : W -> A) (g : A -> A).
Context (f_write : forall bs w, f (uart_write bs w).2 = f w) (f_read : forall w, f (uart_read w).2 = f w).
Context (f_feed : forall w, f (watchdog_feed w) = g (f w)).

Lemma receive_loop_seen fuel : forall c store (w : W) c' store' w',
  McuClient.receive_loop fuel c store w = Ret (c', store', w') -> f w' = f w.
Proof.
  induction fuel as [|fuel IH]; intros c store w c' store' w' E; [discriminate|]. cbn [McuClient.receive_loop] in E.
  destruct (Link.poll (McuClient.link_ c) w) as [[[r l] w1]| |] eqn:P; try discriminate. cbn in E.
  apply (poll_preserves f _ _ _ _ _ f_write f_read) in P. destruct r as [fr|]; [|now simplify_eq].
  destruct (McuClient.dispatch _ fr _ store) as [c1 st1]. apply IH in E. congruence.
Qed.

Lemma poll_seen c store (w : W) c' store' w' : McuClient.poll c store w = Ret (c', store', w') -> f w' = f w.
Proof.
  unfold McuClient.poll. intros E.
  assert (T : f (McuClient.check_timeouts c w).2 = f w).
  { unfold McuClient.check_timeouts. destruct (_ && _); [reflexivity|]. destruct (_ && _); [|reflexivity].
    destruct (negb _); [|reflexivity]. unfold McuClient.retry.
    match goal with |- context [Link.send ?a ?b ?c ?d ?e ?l w] =>
      pose proof (send_preserves f a b c d e l w f_write) as S; destruct (Link.send a b c d e l w) as [[st l'] w1] end.
    exact S. }
  destruct (McuClient.check_timeouts c w) as [c1 w1]. cbn [snd] in T.
  destruct (McuClient.receive_loop _ c1 store w1) as [[[c2 st2] w2]| |] eqn:R; try discriminate.
  apply receive_loop_seen in R. cbn in E.
  assert (B : f (McuClient.heartbeat c2 w2).2 = f w2).
  { unfold McuClient.heartbeat. destruct (_ && _); [|reflexivity]. cbv zeta.
    match goal with |- context [Link.send ?a ?b ?c ?d ?e ?l w2] =>
      pose proof (send_preserves f a b c d e l w2 f_write) as S; destruct (Link.send a b c d e l w2) as [[st l'] w3] end.
    exact S. }
  destruct (McuClient.heartbeat c2 w2) as [c3 w3]. simplify_eq. cbn [snd] in B. congruence.
Qed.

(** The divider of the runtime. *)
Definition next_divider (d : Z) : Z := if u8 (d + 1) >=? 10 then 0 else u8 (d + 1).

Lemma runtime_seen a (w : W) a' w' : ApplicationRuntime.tick_1ms a w = Ret (a', w') ->
  ApplicationRuntime.app_divider_ a' = next_divider (ApplicationRuntime.app_divider_ a) /\
  f w' = (if u8 (ApplicationRuntime.app_divider_ a + 1) >=? 10 then g (f w) else f w).
Proof.
  unfold ApplicationRuntime.tick_1ms, next_divider. intros E.
  destruct (McuClient.poll _ _ w) as [[[c st] w1]| |] eqn:P; try discriminate. apply poll_seen in P.
  cbn in E. simp_set. destruct (_ >=? 10).
  - match type of E with context [CookingController.tick_10ms ?s ?k ?o ?c ?w] =>
      destruct (tick_split s k o c w) as [o' Q]; rewrite Q in E; clear Q end.
    destruct (McuClient.take_response true _) as [r c1]. destruct (guard _ c1) as [k2 c2].
    pose proof (run_session_world f r st k2 c2 (watchdog_feed w1) f_write) as R. simp_set.
    destruct (CookingController.run_session r st k2 c2 (watchdog_feed w1)) as [[k3 c3] w3]. simplify_eq.
    cbn [snd] in R. simp_set. split; [reflexivity|]. congruence.
  - simplify_eq. simp_set. now split.
Qed.
End AppPreserves.

(** ** The device, a millisecond at a time *)

Section SystemTheory.
Import SystemSim.
Context {N : Type} `{NoiseSource N}.

(** The board's clock and watchdog: no business of the safety processor. *)
Definition timing (b : SimBoard.SimBoard N) : SimClock.SimClock * Watchdog.Watchdog :=
  (SimBoard.clock_ b, SimBoard.watchdog_ b).

Definition fed (t : SimClock.SimClock * Watchdog.Watchdog) : SimClock.SimClock * Watchdog.Watchdog :=
  (t.1, Watchdog.feed (SimClock.now_ms t.1) t.2).

Lemma mcu_untouched : Untouched (fun w : McuWorld.McuWorld N McuEnd.McuEnd => timing (McuWorld.board w)).
Proof.
  split; [split|]; intros; try reflexivity.
  - unfold read_raw, sim_scale. now destruct (ScaleModel.read_raw_counts _).
  - now rewrite (proj1 (uart_frame w)).
  - now rewrite (proj2 (uart_frame w)).
  - unfold read_deci_celsius, sim_temp, SimBoard.read_deci_celsius.
    destruct (SimBoard.temp_failed_ _); [reflexivity|]. now destruct (draw _).
Qed.

Lemma board_step_timing (b b' : SimBoard.SimBoard N) : SimBoard.step_ms 1 b = Ret b' ->
  let clock := SimClock.advance_us 1000 (SimBoard.clock_ b) in
  timing b' = (clock, Watchdog.check (SimClock.now_ms clock) (SimBoard.watchdog_ b)).
Proof.
  cbn [SimBoard.step_ms]. unfold SimBoard.step_1ms. intros E.
  destruct (MotorModel.step _ _ _) as [mo| |]; try discriminate. cbn in E.
  destruct (MotorModel.rpm _) as [r|]; try discriminate. cbn in E. simplify_eq. reflexivity.
Qed.

Lemma app_timing_write bs (w : AppWorld.AppWorld N) : timing (AppWorld.board (uart_write bs w).2) = timing (AppWorld.board w).
Proof. cbn. now destruct (InMemoryTransport.write bs _). Qed.

Lemma app_timing_read (w : AppWorld.AppWorld N) : timing (AppWorld.board (uart_read w).2) = timing (AppWorld.board w).
Proof. cbn. now destruct (InMemoryTransport.read _). Qed.

Lemma app_timing_feed (w : AppWorld.AppWorld N) : timing (AppWorld.board (watchdog_feed w)) = fed (timing (AppWorld.board w)).
Proof. reflexivity. Qed.

(** A step of the device, for the clock, the watchdog and the divider. *)
Lemma step_timing (s s' : SystemSim N) : step_1ms s = Ret s' ->
  let clock := SimClock.advance_us 1000 (SimBoard.clock_ (board_ s)) in
  let t := (clock, Watchdog.check (SimClock.now_ms clock) (SimBoard.watchdog_ (board_ s))) in
  let d := ApplicationRuntime.app_divider_ (app_ s) in
  ApplicationRuntime.app_divider_ (app_ s') = next_divider d /\
  timing (board_ s') = if u8 (d + 1) >=? 10 then fed t else t.
Proof.
  unfold step_1ms. intros E. apply bind_ret in E as (b & B & E). apply board_step_timing in B.
  apply bind_ret in E as (m & T & E). pose proof mcu_untouched as U.
  apply (tick_seen (fun w => timing (McuWorld.board w))) in T.
  apply bind_ret in E as ([a w] & R & E).
  apply (runtime_seen (fun w => timing (AppWorld.board w)) fed app_timing_write app_timing_read app_timing_feed) in R.
  cbn [with_app_world app_ mcu_ app_sent_] in E. injection E as <-. destruct R as [R1 R2].
  split; [exact R1|].
  assert (T' : timing (McuWorld.board (SafetyMcu.world m)) = timing b) by exact T.
  assert (G : timing (AppWorld.board w) = timing (board_ {| mcu_ := SafetyMcu.with_world
     ((SafetyMcu.world m) <| McuWorld.board := AppWorld.board w |> <| McuWorld.line := (McuWorld.line (SafetyMcu.world m)) <| McuEnd.transport := AppWorld.transport w |> |>) m;
     app_ := a; app_sent_ := AppWorld.sent_ w |})) by reflexivity.
  rewrite <- B, <- T'. rewrite <- G. exact R2.
Qed.

(** After [t] milliseconds: the watchdog was fed at the last tick of the
    application, fewer than ten of them ago, if there was one. *)
Definition on_time (t : Z) (s : SystemSim N) : Prop :=
  SimClock.now_us_ (SimBoard.clock_ (board_ s)) = 1000 * t /\
  let d := ApplicationRuntime.app_divider_ (app_ s) in
  0 <= d < 10 /\ Watchdog.tripped_ (SimBoard.watchdog_ (board_ s)) = false /\
  (Watchdog.armed_ (SimBoard.watchdog_ (board_ s)) = true ->
   Watchdog.last_feed_ms_ (SimBoard.watchdog_ (board_ s)) = u32 (t - d)) /\
  (Watchdog.armed_ (SimBoard.watchdog_ (board_ s)) = true \/ t = d).

(** The length of a run before the microsecond clock wraps. *)
Definition kRunMs : Z := 18446744073709551.

Lemma step_on_time t (s s' : SystemSim N) : 0 <= t < kRunMs -> on_time t s -> step_1ms s = Ret s' -> on_time (t + 1) s'.
Proof.
  intros Ht (C & D & Tr & F & Ar) E. apply step_timing in E. cbv zeta in E. destruct E as [E1 E2]. unfold on_time.
  rewrite E1. set (d := ApplicationRuntime.app_divider_ (app_ s)) in *. unfold next_divider in *.
  assert (D8 : u8 (d + 1) = d + 1) by (apply u8_id; unfold in_u8; lia). rewrite D8 in *.
  assert (Cl : SimClock.now_us_ (SimClock.advance_us 1000 (SimBoard.clock_ (board_ s))) = 1000 * (t + 1)).
  { unfold SimClock.advance_us. cbn. rewrite C. unfold u64, kRunMs in *. rewrite Z.mod_small; lia. }
  assert (Nw : SimClock.now_ms (SimClock.advance_us 1000 (SimBoard.clock_ (board_ s))) = u32 (t + 1)).
  { unfold SimClock.now_ms, to_millis. rewrite Cl. f_equal. rewrite Z.mul_comm. apply Z.div_mul. lia. }
  assert (Ck : Watchdog.check (u32 (t + 1)) (SimBoard.watchdog_ (board_ s)) = SimBoard.watchdog_ (board_ s)).
  { unfold Watchdog.check. destruct (Watchdog.armed_ _); [|reflexivity]. rewrite F by reflexivity. cbn [andb].
    assert (X : u32_sub (u32 (t + 1)) (u32 (t - d)) = d + 1) by (unfold kRunMs in *; wrap_lia).
    rewrite X. unfold Watchdog.kTimeoutMs. now destruct (Z.gtb_spec (d + 1) 500); [lia|]. }
  rewrite Nw, Ck in E2. rewrite Z.geb_leb in *. destruct (Z.leb_spec 10 (d + 1)) as [L|L].
  - unfold fed in E2. cbn [fst snd] in E2. rewrite Nw in E2. injection E2 as E2 E3. rewrite E2, E3, Cl.
    unfold Watchdog.feed. simp_set. split_and!; [reflexivity|lia|lia|exact Tr| |now left]. intros _. f_equal. lia.
  - injection E2 as E2 E3. rewrite E2, E3, Cl. split_and!; [reflexivity|lia|lia|exact Tr| |].
    + intros A. rewrite (F A). f_equal. lia.
    + destruct Ar as [Ar| ->]; [now left|now right].
Qed.

Lemma new_system_on_time seed : on_time 0 (new_system seed).
Proof.
  split; [reflexivity|]. split; [split; reflexivity || discriminate|]. split; [reflexivity|].
  split; [intros A; discriminate A|now right].
Qed.

End SystemTheory.

(** ** The safety processor inside the device *)

Section SystemRefinement.
Import SystemSim.
Context {N : Type} `{NoiseSource N}.

(** A device is well formed when its processors are. *)
Record system_ok (s : SystemSim N) : Prop := {
  sys_mcu : mcu_ok (mcu_ s);
  sys_app : runtime_ok (app_ s)
}.

Lemma new_system_ok seed : system_ok (new_system seed).
Proof. split; [apply new_mcu_ok|apply new_runtime_ok]. Qed.

(** The outputs of the safety processor: no business of the application. *)
Definition outputs (b : SimBoard.SimBoard N) : MotorModel.MotorModel * f32 * LidModel.LidModel :=
  (SimBoard.motor_model_ b, SimBoard.heater_watts_ b, SimBoard.lid_model_ b).

Definition levels (o : MotorModel.MotorModel * f32 * LidModel.LidModel) : f32 * f32 * bool :=
  (MotorModel.duty_ o.1.1, o.1.2, LidModel.locked_ o.2).

Lemma actuators_outputs (w : McuWorld.McuWorld N McuEnd.McuEnd) : actuators w = levels (outputs (McuWorld.board w)).
Proof. reflexivity. Qed.

Lemma app_outputs_write bs (w : AppWorld.AppWorld N) : outputs (AppWorld.board (uart_write bs w).2) = outputs (AppWorld.board w).
Proof. cbn. now destruct (InMemoryTransport.write bs _). Qed.

Lemma app_outputs_read (w : AppWorld.AppWorld N) : outputs (AppWorld.board (uart_read w).2) = outputs (AppWorld.board w).
Proof. cbn. now destruct (InMemoryTransport.read _). Qed.

Lemma app_outputs_feed (w : AppWorld.AppWorld N) : outputs (AppWorld.board (watchdog_feed w)) = outputs (AppWorld.board w).
Proof. reflexivity. Qed.

(** What a control tick samples and does not drive: whether the lid is closed,
    and the bowl temperature with its sensor. *)
Definition surroundings (b : SimBoard.SimBoard N) : bool * bool * ThermalModel.ThermalModel * N :=
  (LidModel.closed_ (SimBoard.lid_model_ b), SimBoard.temp_failed_ b, SimBoard.thermal_model_ b, SimBoard.temp_noise_ b).

Lemma surroundings_undriven : Undriven (fun w : McuWorld.McuWorld N McuEnd.McuEnd => surroundings (McuWorld.board w)).
Proof.
  split; intros; try reflexivity.
  - unfold surroundings, set_lock, sim_lid, LidModel.set_lock. cbn.
    now destruct (SimBoard.lid_model_ (McuWorld.board w)) as [[] lk].
  - unfold read_raw, sim_scale. now destruct (ScaleModel.read_raw_counts _).
  - now rewrite (proj1 (uart_frame w)).
  - now rewrite (proj2 (uart_frame w)).
Qed.

(** What the sensor reads off a board with the noise it draws, in tenths. *)
Definition reading (noise : N) (b : SimBoard.SimBoard N) : Z :=
  any_of (from_celsius (fadd (ThermalModel.temperature_c_ (SimBoard.thermal_model_ b)) (draw noise).1)).

(** The inputs of the controller are what the board shows. *)
Definition shows (b : SimBoard.SimBoard N) (i : Interlocks.Inputs) : Prop :=
  SimBoard.temp_failed_ b = false /\ LidModel.closed_ (SimBoard.lid_model_ b) = Interlocks.lid_closed i /\
  exists noise, SimBoard.temp_noise_ b = (draw noise).2 /\ Interlocks.temp_c i = to_celsius (reading noise b).

Lemma shows_same b b' i : surroundings b' = surroundings b -> shows b i -> shows b' i.
Proof.
  intros E (F & L & noise & D & T). injection E as E1 E2 E3 E4. unfold shows, reading in *. rewrite E1, E2, E3, E4.
  split_and!; try assumption. now exists noise.
Qed.

Lemma sampled_shows (m : SafetyMcu.SafetyMcu (McuWorld.McuWorld N McuEnd.McuEnd)) :
  SafetyMcu.temp_sensor_ok_ (sampled m) = true -> shows (McuWorld.board (SafetyMcu.world (sampled m))) (SafetyMcu.inputs_ (sampled m)).
Proof.
  intros Ok. pose proof (sampled_inputs m Ok) as S. set (m1 := sampled m) in *. clearbody m1. unfold read_deci_celsius, sim_temp, SimBoard.read_deci_celsius in S.
  set (b := McuWorld.board (SafetyMcu.world m)) in *. destruct (SimBoard.temp_failed_ b) eqn:F; [destruct S as [S _]; discriminate S|].
  destruct (draw (SimBoard.temp_noise_ b)) as [x noise'] eqn:D. set (r := from_celsius (fadd _ x)) in S.
  destruct S as (_ & -> & ->). split; [exact F|]. split; [reflexivity|]. exists (SimBoard.temp_noise_ b).
  unfold reading. cbn. rewrite D. split; [reflexivity|].
  change (to_celsius (Result.value (default (Result.ok 0) (Result.ok <$> r))) = to_celsius (any_of r)). now destruct r.
Qed.

(** What holds of the control tick holds of the device: the application leaves
    the outputs of the safety processor as they are. *)
Lemma step_control s s' : system_ok s -> step_1ms s = Ret s' -> system_ok s' /\ tick_safe (mcu_ s').
Proof.
  intros [Hm Ha] E. unfold step_1ms in E. apply bind_ret in E as (b & _ & E).
  apply bind_ret in E as (m & T & E). apply bind_ret in E as ([a w] & R & E).
  pose proof (tick_ok _ (with_world_ok ((SafetyMcu.world (mcu_ s)) <| McuWorld.board := b |>) _ Hm)) as K.
  rewrite T in K. destruct K as [Km Ks].
  destruct (runtime_tick_ok (app_ s) (app_world {| mcu_ := m; app_ := app_ s; app_sent_ := app_sent_ s |}) Ha)
    as (a' & w' & R' & Ka). cbn [app_] in R. rewrite R in R'. injection R' as <- <-.
  apply (runtime_seen (fun w => outputs (AppWorld.board w)) (fun x => x) app_outputs_write app_outputs_read
    app_outputs_feed) in R as [_ R].
  assert (R2 : outputs (AppWorld.board w) = outputs (McuWorld.board (SafetyMcu.world m))) by (destruct (_ >=? 10); exact R).
  injection E as <-. split; [split; [now apply with_world_ok|exact Ka]|].
  destruct Ks as [Ks1 Ks2]. split; [|exact Ks2].
  apply (outputs_safe_transfer (power_w (SafetyMcu.world m)) m); try reflexivity; [exact Ks1|].
  etrans; [apply actuators_outputs|]. symmetry. etrans; [apply actuators_outputs|]. symmetry. exact (f_equal levels R2).
Qed.

(** What the safety requirements ask of the board: heat only without a fault,
    under a closed lid, with a working sensor that reads less than 165 degrees and
    with a target in range, at most 1200 W of it; a motor that is driven at its
    commanded speed, at most 10700 rpm and at most 500 rpm while the lid is open;
    and neither while a fault is latched. *)
Definition device_safe (s : SystemSim N) : Prop :=
  let m := mcu_ s in
  let b := board_ s in
  let speed := MotorController.commanded_rpm_ (SafetyMcu.motor_ctrl_ m) in
  (SimBoard.heater_watts_ b <> fzero ->
     SafetyMcu.fault_ m = FaultCode.None /\ LidModel.closed_ (SimBoard.lid_model_ b) = true /\
     SimBoard.temp_failed_ b = false /\
     (exists noise, SimBoard.temp_noise_ b = (draw noise).2 /\ fge (to_celsius (reading noise b)) (of_Z 165) = false) /\
     370 <= HeaterPid.target_deci_ (SafetyMcu.pid_ m) <= 1600) /\
  (fle fzero (SimBoard.heater_watts_ b) = true /\ fle (SimBoard.heater_watts_ b) (of_Z 1200) = true) /\
  (MotorModel.duty_ (SimBoard.motor_model_ b) = fdiv speed (of_Z 10700) /\ fle speed (of_Z 10700) = true) /\
  (LidModel.closed_ (SimBoard.lid_model_ b) = false -> fle speed (of_Z 500) = true) /\
  (SafetyMcu.fault_ m <> FaultCode.None ->
     SimBoard.heater_watts_ b = fzero /\ MotorModel.duty_ (SimBoard.motor_model_ b) = fzero).

(** The controller has sampled the board it leaves behind. *)
Lemma step_shows s s' : system_ok s -> step_1ms s = Ret s' -> SafetyMcu.temp_sensor_ok_ (mcu_ s') = true ->
  shows (board_ s') (SafetyMcu.inputs_ (mcu_ s')).
Proof.
  intros [Hm _] E Ok. unfold step_1ms in E. apply bind_ret in E as (b & _ & E).
  apply bind_ret in E as (m & T & E). apply bind_ret in E as ([a w] & R & E).
  set (m0 := SafetyMcu.with_world _ (mcu_ s)) in T.
  assert (K0 : mcu_ok m0) by now apply with_world_ok.
  destruct (sampled_ok m0 K0) as (Ks & _ & _). rewrite tick_halves in T.
  destruct (rest_fault _ m Ks T) as (_ & _ & Ei & Es & _). pose proof surroundings_undriven as U.
  apply (rest_seen (fun w => surroundings (McuWorld.board w))) in T.
  apply (runtime_seen (fun w => surroundings (AppWorld.board w)) (fun x => x)) in R as [_ R];
    [|intros bs w0; cbn; now destruct (InMemoryTransport.write bs _)
     |intros w0; cbn; now destruct (InMemoryTransport.read _)|reflexivity].
  injection E as <-. change (SafetyMcu.temp_sensor_ok_ m = true) in Ok. rewrite Es in Ok. apply sampled_shows in Ok.
  change (shows (AppWorld.board w) (SafetyMcu.inputs_ m)). rewrite Ei. revert Ok. apply shows_same.
  etrans; [|exact T]. destruct (_ >=? 10); exact R.
Qed.

Lemma step_safe s s' : system_ok s -> step_1ms s = Ret s' -> device_safe s'.
Proof.
  intros K E. destruct (step_control s s' K E) as [[Hm _] T]. pose proof (step_shows s s' K E) as Sh.
  destruct (heater_safe _ Hm T) as (P0 & P1 & P). pose proof T as [[O1 O2 _ _ _ _ _] _].
  pose proof Hm as [(_ & M & _) _ _ _]. pose proof M as (FM & BM & _).
  assert (Cap : forall rpm, 0 <= rpm <= 10700 -> Interlocks.continuous_cap (SafetyMcu.inputs_ (mcu_ s')) <= rpm ->
    fle (MotorController.commanded_rpm_ (SafetyMcu.motor_ctrl_ (mcu_ s'))) (of_Z rpm) = true).
  { intros rpm R L. destruct (small_of_Z rpm R) as [F V]. rewrite fle_spec, V by assumption.
    apply Z.leb_le. etrans; [exact O2|]. now apply scale_mono. }
  unfold device_safe. split_and!.
  - intros Q. destruct (P Q) as (S1 & S2 & S3 & S4 & _ & _ & S5 & S6). destruct (Sh S2) as (F & L & noise & D & Te).
    split_and!; try assumption; [congruence|]. exists noise. split; [exact D|]. now rewrite <- Te.
  - exact P0.
  - exact P1.
  - exact O1.
  - apply Cap; [lia|apply continuous_cap_range].
  - intros L. destruct (Z.eq_dec (SafetyMcu.fault_ (mcu_ s')) FaultCode.None) as [F|F].
    + destruct (Sh (none_sensor_ok _ Hm F)) as (_ & L' & _). apply Cap; [lia|]. rewrite continuous_cap_spec.
      unfold speed_limit. rewrite <- L', L. cbn [negb]. lia.
    + destruct (fault_off _ Hm T F) as (_ & _ & _ & -> & _). reflexivity.
  - intros F. destruct (fault_off _ Hm T F) as (S1 & S2 & _). now split.
Qed.

(** Nobody but the user changes the mass in the bowl. *)
Definition mass (b : SimBoard.SimBoard N) : f32 := SimBoard.true_mass_g b.

Lemma mass_untouched {U} `{IUart U} : Untouched (fun w : McuWorld.McuWorld N U => mass (McuWorld.board w)).
Proof.
  split; [split|]; intros; try reflexivity.
  - unfold read_raw, sim_scale, mass, SimBoard.true_mass_g, ScaleModel.read_raw_counts.
    destruct (draw _) as [n1 noise]. now destruct (draw noise).
  - now rewrite (proj1 (uart_frame w)).
  - now rewrite (proj2 (uart_frame w)).
  - unfold read_deci_celsius, sim_temp, SimBoard.read_deci_celsius.
    destruct (SimBoard.temp_failed_ _); [reflexivity|]. now destruct (draw _).
Qed.

Lemma step_mass s s' : step_1ms s = Ret s' -> mass (board_ s') = mass (board_ s).
Proof.
  unfold step_1ms. intros E. apply bind_ret in E as (b & B & E). apply step_bowl in B.
  apply bind_ret in E as (m & T & E). pose proof (mass_untouched (U := McuEnd.McuEnd)) as U.
  apply (tick_seen (fun w => mass (McuWorld.board w))) in T.
  apply bind_ret in E as ([a w] & R & E).
  apply (runtime_seen (fun w => mass (AppWorld.board w)) (fun x => x)) in R as [_ R]; try reflexivity.
  - injection E as <-. assert (R2 : mass (AppWorld.board w) = mass (McuWorld.board (SafetyMcu.world m)))
      by (destruct (_ >=? 10); exact R). exact (eq_trans R2 (eq_trans T B)).
  - intros bs w0. cbn. now destruct (InMemoryTransport.write bs _).
  - intros w0. cbn. now destruct (InMemoryTransport.read _).
Qed.

Lemma steps_mass n : forall s s', step_ms n s = Ret s' -> mass (board_ s') = mass (board_ s).
Proof.
  induction n as [|n IH]; intros s s' E; cbn [step_ms] in E; [now simplify_eq|].
  apply bind_ret in E as (s1 & E1 & E). rewrite (IH _ _ E). now apply step_mass.
Qed.

(** A step ends: it can only be undefined, in a cast of the physical models or
    at the load cell. *)
Lemma step_ends s : system_ok s -> step_1ms s <> OutOfFuel.
Proof.
  intros [Hm Ha]. unfold step_1ms.
  pose proof (board_step_ends (board_ s)) as B.
  destruct (SimBoard.step_ms 1 (board_ s)) as [b| |]; [|discriminate|congruence]. cbn [mbind outcome_bind].
  pose proof (tick_ok _ (with_world_ok ((SafetyMcu.world (mcu_ s)) <| McuWorld.board := b |>) _ Hm)) as K.
  destruct (SafetyMcu.tick_1ms _) as [m| |]; [|discriminate|contradiction]. cbn [mbind outcome_bind app_].
  destruct (runtime_tick_ok (app_ s) (app_world {| mcu_ := m; app_ := app_ s; app_sent_ := app_sent_ s |}) Ha)
    as (a' & w' & -> & _). discriminate.
Qed.

Lemma steps_ok n : forall s s', system_ok s -> step_ms n s = Ret s' ->
  system_ok s' /\ (n <> O -> tick_safe (mcu_ s') /\ device_safe s').
Proof.
  induction n as [|n IH]; intros s s' K E; cbn [step_ms] in E; [now simplify_eq|].
  apply bind_ret in E as (s1 & E1 & E). destruct (step_control s s1 K E1) as [K1 T1].
  destruct (IH s1 s' K1 E) as [K2 T2]. split; [exact K2|]. intros _.
  destruct n; [|now apply T2]. cbn in E. simplify_eq. split; [exact T1|]. now apply (step_safe s).
Qed.

Lemma steps_end n : forall s, system_ok s -> step_ms n s <> OutOfFuel.
Proof.
  induction n as [|n IH]; intros s K; [discriminate|]. cbn [step_ms]. pose proof (step_ends s K) as E.
  destruct (step_1ms s) as [s1| |] eqn:S1; [|discriminate|congruence]. cbn [mbind outcome_bind].
  apply IH. now apply (step_control s).
Qed.

End SystemRefinement.

(** ** Properties *)

Section SystemProperties.
Import SystemSim.
Context {N : Type} `{NoiseSource N}.

(** A simulation of the device always comes to an end: no loop of the board,
    of the safety processor or of the application runs for ever, whatever they
    send each other. *)
Theorem device_never_hangs n seed : step_ms n (new_system (N := N) seed) <> OutOfFuel.
Proof. apply steps_end, new_system_ok. Qed.

(** (SR-001 to SR-004): the application cannot make the device unsafe: after
    every millisecond of the whole device the board is safe, whatever the
    application did. *)
Theorem device_stays_safe n seed (s : SystemSim N) : n <> O -> step_ms n (new_system seed) = Ret s -> device_safe s.
Proof. intros Nn E. now apply (steps_ok n _ s (new_system_ok seed) E). Qed.

End SystemProperties.
