(* ===== verification/Cli.v ===== *)
(** * The command line (src/src/cli)

    One grammar for the interactive prompt and for scenario files: a line is
    tokenised and carried out on the simulated device. What is printed is not
    modelled; what [execute_command] answer_ok and does to the device is. *)

From Stdlib Require Import Ascii.
From stdpp Require Import relations.
From S2P Require Import Prelude.
From S2P Require Import Float32.
From S2P Require Import Common.
From S2P Require Import C1Link.
From S2P Require Import Hal.
From S2P Require Import Mcu.
From S2P Require Import SafetyMcu.
From S2P Require Import Sim.
From S2P Require Import TelemetryStore.
From S2P Require Import McuClient.
From S2P Require Import OtaUpdater.
From S2P Require Import CString.
From S2P Require Import Recipe.
From S2P Require Import RecipeParser.
From S2P Require Import Programs.
From S2P Require Import Cooking.
From S2P Require Import System.

(** ** commands.cpp *)
Module Commands.

(** [istringstream >> token] until it fails. *)
Definition tokenize (line : string) : list string := String.words line.

(** [stof] throws when there is no number or [errno] is [ERANGE]. *)
Definition parse_float (text : string) (min max : f32) : option f32 :=
  '(value, erange, rest) ← strtof text;
  if erange || negb (bool_decide (rest = "")) || negb (isfinite value) || flt value min || fgt value max
  then None else Some value.

(** [stoull] likewise. *)
Definition parse_unsigned (text : string) (max : Z) : option Z :=
  if bool_decide (text = "") || bool_decide (is_Some (strip "-" text)) then None
  else
    '(value, erange, rest) ← strtoul text;
    if erange || negb (bool_decide (rest = "")) || (value >? max) then None else Some value.

(** The digits a text begins with, and the rest. *)
Fixpoint digits_first (s : string) : string * string :=
  match s with
  | EmptyString => (EmptyString, EmptyString)
  | String c s' =>
      match digit_value c with
      | Some _ => let '(d, r) := digits_first s' in (String c d, r)
      | None => (EmptyString, s)
      end
  end.

Definition parse_duration_ms (text : string) : option Z :=
  let '(number, unit) := digits_first text in
  let multiplier :=
    if bool_decide (unit = "s") then Some 1000
    else if bool_decide (unit = "m") then Some 60000
    else if negb (bool_decide (unit = "")) && negb (bool_decide (unit = "ms")) then None
    else Some 1 in
  multiplier ← multiplier;
  value ← parse_unsigned number (4294967295 / multiplier);
  Some (u32 (value * multiplier)).

(** The device and what a run of commands counts; the number of failed
    expectations is below the range of its [int]. *)
Record CommandEnv {N : Type} := {
  sys : SystemSim.SystemSim N;
  expect_failures : Z;
  quit_requested : bool;
  echo : bool
}.
Arguments CommandEnv : clear implicits.
#[global] Instance eta_CommandEnv {N} : Eta (CommandEnv N) := fun e =>
  {| sys := sys e; expect_failures := expect_failures e; quit_requested := quit_requested e; echo := echo e |}.

Section Commands.
Context {N : Type} `{NoiseSource N}.

(** The accessors of the device: the application, its parts, and the board. *)
Definition app_of (s : SystemSim.SystemSim N) : ApplicationRuntime.ApplicationRuntime := SystemSim.app_ s.
Definition store (s : SystemSim.SystemSim N) : TelemetryStore.TelemetryStore := ApplicationRuntime.telemetry_ (app_of s).
Definition controller (s : SystemSim.SystemSim N) : CookingController.CookingController :=
  ApplicationRuntime.controller_ (app_of s).

Definition with_app (a : ApplicationRuntime.ApplicationRuntime) (s : SystemSim.SystemSim N) : SystemSim.SystemSim N :=
  {| SystemSim.mcu_ := SystemSim.mcu_ s; SystemSim.app_ := a; SystemSim.app_sent_ := SystemSim.app_sent_ s |}.

(** A call of the client, which may write to the UART. *)
Definition on_client {A} (call : McuClient.McuClient * AppWorld.AppWorld N -> A * (McuClient.McuClient * AppWorld.AppWorld N))
    (s : SystemSim.SystemSim N) : A * SystemSim.SystemSim N :=
  let '(r, (c, w)) := call (ApplicationRuntime.client_ (app_of s), SystemSim.app_world s) in
  (r, with_app ((app_of s) <| ApplicationRuntime.client_ := c |>) (SystemSim.with_app_world w s)).

(** A call of the controller, which may use the client. *)
Definition on_controller {A}
    (call : CookingController.CookingController -> McuClient.McuClient -> A * CookingController.CookingController * McuClient.McuClient)
    (s : SystemSim.SystemSim N) : A * SystemSim.SystemSim N :=
  let '(r, k, c) := call (controller s) (ApplicationRuntime.client_ (app_of s)) in
  (r, with_app ((app_of s) <| ApplicationRuntime.controller_ := k |> <| ApplicationRuntime.client_ := c |>) s).

Definition on_board (f : SimBoard.SimBoard N -> SimBoard.SimBoard N) (s : SystemSim.SystemSim N) : SystemSim.SystemSim N :=
  {| SystemSim.mcu_ := SafetyMcu.with_world
       ((SafetyMcu.world (SystemSim.mcu_ s)) <| McuWorld.board := f (SystemSim.board_ s) |>) (SystemSim.mcu_ s);
     SystemSim.app_ := SystemSim.app_ s; SystemSim.app_sent_ := SystemSim.app_sent_ s |}.

Definition telemetry_temp_c (s : SystemSim.SystemSim N) : f32 :=
  to_celsius (TelemetryStore.deci_celsius (TelemetryStore.latest (store s))).

(** The answer of a command and the environment it leaves. *)
Definition handle_add (env : CommandEnv N) (args : list string) : bool * CommandEnv N :=
  match args with
  | [_; what; amount] =>
      let remaining := fsub (of_Z 2200) (SimBoard.true_mass_g (SystemSim.board_ (sys env))) in
      match parse_float amount (lit 1 10) remaining with
      | None => (false, env)
      | Some grams =>
          let viscosity :=
            if bool_decide (what = "water") then of_Z 1
            else if bool_decide (what = "oil") then lit 18 10
            else if bool_decide (what = "flour") || bool_decide (what = "dough") then lit 65 10
            else of_Z 2 in
          (true, env <| sys := on_board (fun b => SimBoard.set_viscosity viscosity (SimBoard.add_mass grams b)) (sys env) |>)
      end
  | _ => (false, env)
  end.

(** What an expectation compares. *)
Definition metric (name : string) (s : SystemSim.SystemSim N) : option (f32 + string) :=
  let sample := TelemetryStore.latest (store s) in
  if bool_decide (name = "temp") then Some (inl (telemetry_temp_c s))
  else if bool_decide (name = "avg-temp") then Some (inl (TelemetryStore.average_temp_c 2000 (store s)))
  else if bool_decide (name = "rpm") then Some (inl (of_Z (TelemetryStore.rpm sample)))
  else if bool_decide (name = "weight") then Some (inl (of_Z (TelemetryStore.grams sample)))
  else if bool_decide (name = "state") then Some (inr (session_state_name (CookingController.state (controller s))))
  else if bool_decide (name = "program") then Some (inr (CookingController.program_name (controller s)))
  else if bool_decide (name = "lid") then
    let flags := TelemetryStore.flags sample in
    Some (inr (if negb (Z.land flags kFlagLidLocked =? 0) then "locked"
               else if negb (Z.land flags kFlagLidClosed =? 0) then "closed" else "open"))
  else None.

Definition compare_numbers (op : string) (actual want : f32) : option bool :=
  if bool_decide (op = ">=") then Some (fge actual want)
  else if bool_decide (op = "<=") then Some (fle actual want)
  else if bool_decide (op = ">") then Some (fgt actual want)
  else if bool_decide (op = "<") then Some (flt actual want)
  else if bool_decide (op = "==") then Some (feq actual want)
  else if bool_decide (op = "!=") then Some (negb (feq actual want))
  else None.

Definition compare_texts (op actual expected : string) : option bool :=
  if bool_decide (op = "==") then Some (bool_decide (actual = expected))
  else if bool_decide (op = "!=") then Some (negb (bool_decide (actual = expected)))
  else None.

Definition handle_expect (env : CommandEnv N) (args : list string) : bool * CommandEnv N :=
  match args with
  | [_; name; op; expected] =>
      let pass :=
        match metric name (sys env) with
        | None => None
        | Some (inl actual) =>
            want ← parse_float expected (of_Z (-1000000)) (of_Z 1000000);
            compare_numbers op actual want
        | Some (inr actual) => compare_texts op actual expected
        end in
      match pass with
      | None => (false, env)
      | Some true => (true, env)
      | Some false => (true, env <| expect_failures := expect_failures env + 1 |>)
      end
  | _ => (false, env)
  end.

(** The image [ota-verify] stages: the static vector is filled anew only while
    no verification is running. *)
Definition ota_image (kib : Z) (corrupt : bool) : list Z :=
  let image := (fun i => u8 (Z.of_nat i * 13 + 5)) <$> seq 0 (Z.to_nat (kib * 1024)) in
  let middle := (length image / 2)%nat in
  if corrupt then <[middle := Z.lxor (nth middle image 0) 0xFF]> image else image.

Definition handle_ota (env : CommandEnv N) (args : list string) : bool * CommandEnv N :=
  let s := sys env in
  let state := CookingController.state (controller s) in
  let ota := ApplicationRuntime.ota_ (app_of s) in
  if (negb (bool_decide (state = Idle)) && negb (bool_decide (state = Done))) || OtaUpdater.busy ota ||
     (3 <? length args)%nat
  then (false, env)
  else
    match (match args with _ :: n :: _ => parse_unsigned n 65536 | _ => Some 512 end) with
    | None => (false, env)
    | Some kib =>
        let corrupt := (length args =? 3)%nat in
        if (kib =? 0) || (corrupt && negb (bool_decide (nth 2 args "" = "corrupt"))) then (false, env)
        else
          let crc := crc16_ccitt (ota_image kib false) 0xFFFF in
          let image := ota_image kib corrupt in
          let '(_, ota) := OtaUpdater.begin (Some image) (length image) crc ota in
          (true, env <| sys := with_app ((app_of s) <| ApplicationRuntime.ota_ := ota |>) s |>)
    end.

(** The branches of [execute_command] that need more than a line. *)
Definition start (program : Program.Program) (env : CommandEnv N) : bool * CommandEnv N :=
  let '(_, s) := on_controller (CookingController.start_program (Some program)) (sys env) in
  (true, env <| sys := s |>).

Definition issue_command (cmd : command) (env : CommandEnv N) : bool * CommandEnv N :=
  let '(_, s) := on_client (issue cmd) (sys env) in (true, env <| sys := s |>).

(** Off, or in the range of the heater. *)
Definition parse_celsius (text : string) : option f32 :=
  celsius ← parse_float text fzero (of_Z 160);
  if fgt celsius fzero && flt celsius (of_Z 37) then None else Some celsius.

Definition parse_minutes (text : string) : option Z :=
  minutes ← parse_unsigned text 1440;
  if minutes =? 0 then None else Some minutes.

Definition load (names : list string) (env : CommandEnv N) : bool * CommandEnv N :=
  match names with
  | [] => (true, env)
  | name :: rest =>
      let name := foldl (fun name word => name +:+ " " +:+ word) name rest in
      match RecipeLibrary.find (c_str name) (ApplicationRuntime.recipes_ (app_of (sys env))) with
      | None => (true, env)
      | Some recipe =>
          let '(_, s) := on_controller (CookingController.start_recipe (Some recipe)) (sys env) in
          (true, env <| sys := s |>)
      end
  end.

Definition handle_lid (action : string) (env : CommandEnv N) : bool * CommandEnv N :=
  if bool_decide (action = "open") then (true, env <| sys := on_board SimBoard.open_lid (sys env) |>)
  else if bool_decide (action = "close") then (true, env <| sys := on_board SimBoard.close_lid (sys env) |>)
  else if bool_decide (action = "lock") then issue_command (LockLid true) env
  else if bool_decide (action = "unlock") then issue_command (LockLid false) env
  else (false, env).

Definition execute_command (env : CommandEnv N) (line : string) : outcome (bool * CommandEnv N) :=
  let args := tokenize line in
  let cmd := nth 0 args "" in
  let arg i := nth i args "" in
  let named name := bool_decide (cmd = name) in
  let size n := (length args =? n)%nat in
  let bad := Ret (false, env) in
  if (length args =? 0)%nat || bool_decide (is_Some (strip "#" cmd)) then Ret (true, env)
  else if named "help" then Ret (true, env)
  else if named "status" then Ret (true, env)
  else if named "add" then Ret (handle_add env args)
  else if named "set-temp" && size 2%nat then
    match parse_celsius (arg 1%nat) with
    | None => bad
    | Some celsius =>
        if fle celsius fzero then Ret (issue_command HeaterOff env)
        else d ← defined (from_celsius celsius); Ret (issue_command (SetHeater d) env)
    end
  else if named "set-speed" && size 2%nat then
    match parse_unsigned (arg 1%nat) 10 with
    | None => bad
    | Some dial => Ret (issue_command (SetMotor (dial_to_rpm (u8 dial)) kRampNormal) env)
    end
  else if named "manual" && size 4%nat then
    match parse_celsius (arg 1%nat), parse_unsigned (arg 2%nat) 10, parse_minutes (arg 3%nat) with
    | Some celsius, Some dial, Some minutes =>
        d ← defined (from_celsius celsius);
        Ret (start (Program.Manual (ManualMode.new d (u8 dial) (u32 (minutes * 60)))) env)
    | _, _, _ => bad
    end
  else if named "dough" && size 2%nat then
    match parse_minutes (arg 1%nat) with
    | Some minutes => Ret (start (Program.Dough (DoughMode.new (u32 (minutes * 60)))) env)
    | None => bad
    end
  else if named "steam" && size 2%nat then
    match parse_minutes (arg 1%nat) with
    | Some minutes => Ret (start (Program.Steam (SteamMode.new (u32 (minutes * 60)))) env)
    | None => bad
    end
  else if named "sous-vide" && size 3%nat then
    match parse_float (arg 1%nat) (of_Z 37) (of_Z 90), parse_minutes (arg 2%nat) with
    | Some celsius, Some minutes =>
        d ← defined (from_celsius celsius);
        Ret (start (Program.SousVide (SousVideMode.new d (u32 (minutes * 60)))) env)
    | _, _ => bad
    end
  else if named "turbo" && size 2%nat then
    match parse_unsigned (arg 1%nat) 2000 with
    | Some pulse_ms =>
        if pulse_ms =? 0 then bad else Ret (start (Program.Turbo (TurboPulse.new (u32 pulse_ms))) env)
    | None => bad
    end
  else if named "load" && (2 <=? length args)%nat then Ret (load (drop 1 args) env)
  else if named "next" then
    let '(_, s) := on_controller (fun k c => (tt, CookingController.user_next k, c)) (sys env) in
    Ret (true, env <| sys := s |>)
  else if named "stop" then
    let '(_, s) := on_controller (fun k c => let '(k, c) := CookingController.stop k c in (tt, k, c)) (sys env) in
    Ret (true, env <| sys := s |>)
  else if named "tare" then Ret (issue_command Tare env)
  else if named "weigh" then Ret (true, env)
  else if named "lid" && size 2%nat then Ret (handle_lid (arg 1%nat) env)
  else if named "ota-verify" then Ret (handle_ota env args)
  else if named "wait" && size 2%nat then
    match parse_duration_ms (arg 1%nat) with
    | None => bad
    | Some ms => s ← SystemSim.step_ms (Z.to_nat ms) (sys env); Ret (true, env <| sys := s |>)
    end
  else if named "expect" then Ret (handle_expect env args)
  else if named "quit" || named "exit" then Ret (true, env <| quit_requested := true |>)
  else bad.
End Commands.
End Commands.

(** ** script_runner.cpp and repl.cpp *)
Module Scripts.
Import Commands.

(** The lines [getline] gives: the last one may end without a newline. *)
Fixpoint lines_of (parts : list string) : list string :=
  match parts with
  | [] => []
  | [last] => if bool_decide (last = "") then [] else [last]
  | line :: parts => line :: lines_of parts
  end.

Section Scripts.
Context {N : Type} `{NoiseSource N}.

Definition new_env (s : SystemSim.SystemSim N) (echo : bool) : CommandEnv N :=
  {| sys := s; expect_failures := 0; quit_requested := false; echo := echo |}.

(** The loop over the lines; [parse_error] as it is so far. *)
Fixpoint run_lines (lines : list string) (parse_error : bool) (env : CommandEnv N) : outcome (bool * CommandEnv N) :=
  match lines with
  | [] => Ret (parse_error, env)
  | line :: lines =>
      '(ok, env) ← execute_command env line;
      let parse_error := parse_error || negb ok in
      if quit_requested env then Ret (parse_error, env) else run_lines lines parse_error env
  end.

(** [file] is the scenario, if it can be opened. *)
Definition run_script (s : SystemSim.SystemSim N) (file : option string) (echo : bool)
    : outcome (Status * SystemSim.SystemSim N) :=
  match file with
  | None => Ret (InvalidArgument, s)
  | Some text =>
      '(parse_error, env) ← run_lines (lines_of (split_on newline text)) false (new_env s echo);
      Ret (if (parse_error : bool) then InvalidArgument
           else if expect_failures env =? 0 then Ok else ProtocolError, sys env)
  end.

(** The interactive loop on what is typed. *)
Fixpoint repl_loop (fuel : nat) (input : string) (env : CommandEnv N) : outcome (CommandEnv N) :=
  match fuel with
  | O => OutOfFuel
  | S fuel =>
      if quit_requested env then Ret env
      else
        let '(buffer, input, _) := fgets 255 input in
        if bool_decide (buffer = "") then Ret env
        else '(_, env) ← execute_command env (c_str buffer); repl_loop fuel input env
  end.

Definition run_repl (s : SystemSim.SystemSim N) (input : string) : outcome (CommandEnv N) :=
  s ← SystemSim.step_ms 50 s;
  repl_loop (S (S (String.length input))) input (new_env s true).
End Scripts.
End Scripts.

(** ** culina_sim_main.cpp *)
Module SimMain.
Record Options := { script : option string; recipe_dir : string; seed : Z }.
#[global] Instance eta_Options : Eta Options := fun o =>
  {| script := script o; recipe_dir := recipe_dir o; seed := seed o |}.

Definition default_options : Options := {| script := None; recipe_dir := "data/recipes"; seed := 42 |}.

(** The arguments after the name of the program; [None] for the usage message. *)
Fixpoint parse_arguments (argv : list string) (o : Options) : option Options :=
  match argv with
  | [] => Some o
  | arg :: argv =>
      if bool_decide (arg = "--script") then
        match argv with v :: argv => parse_arguments argv (o <| script := Some v |>) | [] => None end
      else if bool_decide (arg = "--recipes") then
        match argv with v :: argv => parse_arguments argv (o <| recipe_dir := v |>) | [] => None end
      else if bool_decide (arg = "--seed") then
        match argv with
        | v :: argv =>
            parse_arguments argv (o <| seed := u32 (match strtoul v with Some (n, _, _) => n | None => 0 end) |>)
        | [] => None
        end
      else None
  end.

Section Main.
Context {N : Type} `{NoiseSource N}.

(** The file system, and the texts of the scenarios it can open. *)
Context (fopen : string -> option File) (opendir : string -> option (list string)) (open_script : string -> option string).

Definition with_recipes (l : RecipeLibrary.RecipeLibrary) (s : SystemSim.SystemSim N) : SystemSim.SystemSim N :=
  Commands.with_app ((Commands.app_of s) <| ApplicationRuntime.recipes_ := l |>) s.

(** The device of a run, before the first command. *)
Definition boot (o : Options) : outcome (SystemSim.SystemSim N) :=
  let sim := SystemSim.new_system (seed o) in
  '(_, l) ← RecipeLibrary.load_directory fopen opendir (recipe_dir o) (ApplicationRuntime.recipes_ (Commands.app_of sim));
  Ret (with_recipes l sim).

(** The exit status, and the device that was run, if any. *)
Definition main (argv : list string) (stdin : string) : outcome (Z * option (SystemSim.SystemSim N)) :=
  match parse_arguments argv default_options with
  | None => Ret (2, None)
  | Some o =>
      sim ← boot o;
      match script o with
      | Some path =>
          '(status, sim) ← Scripts.run_script sim (open_script path) true;
          Ret (if is_ok status then 0 else 1, Some sim)
      | None => env ← Scripts.run_repl sim stdin; Ret (0, Some (Commands.sys env))
      end
  end.
End Main.
End SimMain.

(** * Theorems *)

(** ** Arguments *)

Section Arguments.
Import Commands.

Lemma parse_unsigned_range t max v : parse_unsigned t max = Some v -> 0 <= v <= max.
Proof.
  unfold parse_unsigned. destruct (_ || _); [discriminate|]. intros E.
  destruct (strtoul t) as [[[y e] rest]|] eqn:S; [|discriminate]. apply strtoul_range in S. cbn in E.
  destruct e; [discriminate|]. destruct (bool_decide _); [|discriminate]. cbn in E.
  destruct (Z.gtb_spec y max); [discriminate|]. simplify_eq. lia.
Qed.

Lemma parse_minutes_range t v : parse_minutes t = Some v -> 1 <= v <= 1440.
Proof.
  unfold parse_minutes. intros E. apply bind_Some in E as (m & P & E). apply parse_unsigned_range in P.
  destruct (Z.eqb_spec m 0); [discriminate|]. simplify_eq. lia.
Qed.

Lemma float_of_Z z : Z.abs z <= 2 ^ 24 -> fin (of_Z z) = true.
Proof. intros B. now destruct (of_Z_spec z B). Qed.

(** The temperature a command gives: off, or a target of the heater. *)
Lemma parse_celsius_deci t x : parse_celsius t = Some x ->
  exists d, from_celsius x = Some d /\ if fle x fzero then d = 0 else 370 <= d <= 1600.
Proof.
  unfold parse_celsius. intros E. apply bind_Some in E as (y & P & E).
  apply parse_float_range in P as (F & L & U); [|reflexivity|apply float_of_Z; lia].
  destruct (fgt y fzero && flt y (of_Z 37)) eqn:B; [discriminate|]. simplify_eq.
  assert (F37 : fin (of_Z 37) = true) by (apply float_of_Z; lia).
  destruct (fle x fzero) eqn:Z0.
  - destruct (from_celsius_range x 0 0 F ltac:(lia) ltac:(lia) L Z0) as (d & E & D). exists d. split; [exact E|lia].
  - assert (G : fgt x fzero = true).
    { rewrite fgt_spec by (exact F || reflexivity). rewrite fle_spec in Z0 by (exact F || reflexivity).
      apply Z.leb_gt in Z0. now apply Z.ltb_lt. }
    rewrite G in B. cbn in B. apply (not_flt_fge x (of_Z 37) F F37) in B.
    destruct (from_celsius_range x 37 160 F ltac:(lia) ltac:(lia) B U) as (d & E & D). exists d. split; [exact E|lia].
Qed.

Lemma parse_duration_range t ms : parse_duration_ms t = Some ms -> in_u32 ms.
Proof.
  unfold parse_duration_ms. destruct (digits_first t) as [n u]. intros E. apply bind_Some in E as (k & _ & E).
  apply bind_Some in E as (v & _ & E). simplify_eq. apply u32_range.
Qed.

End Arguments.

(** ** What a command can do to the device *)

Section Effects.
Import Commands.
Context {N : Type} `{NoiseSource N}.

Implicit Types s : SystemSim.SystemSim N.
Implicit Types env : CommandEnv N.

Definition room (b : SimBoard.SimBoard N) : f32 := fsub (of_Z 2200) (SimBoard.true_mass_g b).

Definition load_of (grams viscosity : f32) (b : SimBoard.SimBoard N) : SimBoard.SimBoard N :=
  SimBoard.set_viscosity viscosity (SimBoard.add_mass grams b).

(** The specification of the command language: one rule per thing a user can
    do to the device at an instant, or let it do in a time. *)
Inductive action (s : SystemSim.SystemSim N) : SystemSim.SystemSim N -> Prop :=
| does_nothing : action s s
| adds grams viscosity : fin grams = true -> flt grams (lit 1 10) = false ->
    fgt grams (room (SystemSim.board_ s)) = false -> action s (on_board (load_of grams viscosity) s)
| opens_lid : action s (on_board SimBoard.open_lid s)
| closes_lid : action s (on_board SimBoard.close_lid s)
| requests cmd : within_limits cmd -> action s (on_client (issue cmd) s).2
| starts p : launchable p -> action s (on_controller (CookingController.start_program (Some p)) s).2
| continues : action s (on_controller (fun k c => (tt, CookingController.user_next k, c)) s).2
| stops : action s (on_controller (fun k c => let '(k, c) := CookingController.stop k c in (tt, k, c)) s).2
| verifies kib corrupt : 1 <= kib <= 65536 ->
    CookingController.state (controller s) = Idle \/ CookingController.state (controller s) = Done ->
    action s (with_app ((app_of s) <| ApplicationRuntime.ota_ :=
      (OtaUpdater.begin (Some (ota_image kib corrupt)) (length (ota_image kib corrupt))
         (crc16_ccitt (ota_image kib false) 0xFFFF) (ApplicationRuntime.ota_ (app_of s))).2 |>) s).

Inductive effect (s : SystemSim.SystemSim N) : SystemSim.SystemSim N -> Prop :=
| acts s' : action s s' -> effect s s'
| passes ms s' : in_u32 ms -> SystemSim.step_ms (Z.to_nat ms) s = Ret s' -> effect s s'.

(** A carried out command has one of these effects and counts at most one
    failed expectation; a refused one does nothing at all. *)
Definition answer_ok (env : CommandEnv N) (r : bool * CommandEnv N) : Prop :=
  effect (sys env) (sys r.2) /\ (r.1 = false -> r.2 = env) /\
  expect_failures env <= expect_failures r.2 <= expect_failures env + 1 /\ echo r.2 = echo env /\
  (quit_requested env = true -> quit_requested r.2 = true).

Lemma answers_same env ok : answer_ok env (ok, env).
Proof. split_and!; cbn [fst snd]; try lia; auto using acts, does_nothing. Qed.

Lemma answers_sys env s : effect (sys env) s -> answer_ok env (true, env <| sys := s |>).
Proof. intros E. unfold answer_ok. split_and!; cbn [fst snd]; simp_set; try lia; auto; discriminate. Qed.

Lemma issue_answers env cmd : within_limits cmd -> answer_ok env (issue_command cmd env).
Proof.
  intros C. unfold issue_command. pose proof (acts _ _ (requests (sys env) cmd C)) as E.
  destruct (on_client (issue cmd) (sys env)) as [st s]. now apply answers_sys.
Qed.

Lemma start_answers env p : launchable p -> answer_ok env (start p env).
Proof.
  intros L. unfold start. pose proof (acts _ _ (starts (sys env) p L)) as E.
  destruct (on_controller _ (sys env)) as [st s]. now apply answers_sys.
Qed.

Lemma load_answers env names : library_ok (ApplicationRuntime.recipes_ (app_of (sys env))) -> answer_ok env (load names env).
Proof.
  intros K. unfold load. destruct names as [|name rest]; [apply answers_same|]. cbv zeta.
  destruct (RecipeLibrary.find _ _) as [r|] eqn:F; [|apply answers_same].
  apply find_valid in F as [V _]; [|exact K]. pose proof V as (_ & _ & C). unfold CookingController.start_recipe.
  destruct (Nat.eqb_spec (step_count r) 0) as [|_]; [contradiction|]. apply (start_answers env).
  now apply guided_launchable.
Qed.

Lemma lid_answers env action : answer_ok env (handle_lid action env).
Proof.
  unfold handle_lid. repeat case_match; try apply answers_same; try (now apply issue_answers);
    apply answers_sys, acts; constructor.
Qed.

Lemma add_answers env args : answer_ok env (handle_add env args).
Proof.
  unfold handle_add. destruct args as [|? [|what [|amount [|]]]]; try apply answers_same.
  destruct (parse_float amount _ _) as [g|] eqn:P; [|apply answers_same]. cbv zeta. apply answers_sys.
  unfold parse_float in P. apply bind_Some in P as ([[y e] rest] & F0 & P).
  destruct (isfinite y) eqn:F; [|rewrite !orb_true_r in P; discriminate]. apply (strtof_fin _ _ _ _ F0) in F.
  destruct (flt y (lit 1 10)) eqn:L; [rewrite !orb_true_r in P; discriminate|].
  destruct (fgt y _) eqn:G; [rewrite !orb_true_r in P; discriminate|].
  destruct (_ || _); [discriminate|]. simplify_eq. apply acts, adds; assumption.
Qed.

Lemma expect_answers env args : answer_ok env (handle_expect env args).
Proof.
  unfold handle_expect. destruct args as [|? [|name [|op [|want [|]]]]]; try apply answers_same. cbv zeta.
  match goal with |- answer_ok _ (match ?x with Some _ => _ | None => _ end) => destruct x as [[]|] end; try apply answers_same.
  split_and!; cbn [fst snd]; simp_set; try lia; auto; try discriminate; apply acts, does_nothing.
Qed.

Lemma ota_answers env args : answer_ok env (handle_ota env args).
Proof.
  unfold handle_ota. destruct (_ || _ || _) eqn:B; [apply answers_same|].
  apply orb_false_iff in B as [B _]. apply orb_false_iff in B as [B _].
  match goal with |- answer_ok _ (match ?x with Some _ => _ | None => _ end) => destruct x as [kib|] eqn:K end; [|apply answers_same].
  assert (R : 0 <= kib <= 65536).
  { destruct args as [|? [|n ?]]; try (simplify_eq; lia). now apply parse_unsigned_range in K. }
  cbv zeta. destruct (Z.eqb_spec kib 0) as [|Kn]; [apply answers_same|]. cbn [orb].
  set (corrupt := (length args =? 3)%nat). destruct (corrupt && _); [apply answers_same|].
  assert (S : CookingController.state (controller (sys env)) = Idle \/ CookingController.state (controller (sys env)) = Done).
  { apply andb_false_iff in B as [B|B]; apply negb_false_iff, bool_decide_eq_true in B; auto. }
  pose proof (acts _ _ (verifies (sys env) kib corrupt ltac:(lia) S)) as E.
  destruct (OtaUpdater.begin _ _ _ _) as [st o]. now apply answers_sys.
Qed.

(** Only the simulated time of a [wait] can be undefined. *)
Definition outcome_ok (env : CommandEnv N) (o : outcome (bool * CommandEnv N)) : Prop :=
  match o with
  | Ret r => answer_ok env r
  | Undefined => exists ms, SystemSim.step_ms (Z.to_nat ms) (sys env) = Undefined
  | OutOfFuel => exists ms, SystemSim.step_ms (Z.to_nat ms) (sys env) = OutOfFuel
  end.

Lemma answered_if env (b : bool) o o' : outcome_ok env o -> outcome_ok env o' -> outcome_ok env (if b then o else o').
Proof. now destruct b. Qed.

Lemma wait_answered env text : outcome_ok env
  match parse_duration_ms text with
  | None => Ret (false, env)
  | Some ms => s ← SystemSim.step_ms (Z.to_nat ms) (sys env); Ret (true, env <| sys := s |>)
  end.
Proof.
  destruct (parse_duration_ms text) as [ms|] eqn:P; [|apply answers_same]. apply parse_duration_range in P.
  destruct (SystemSim.step_ms (Z.to_nat ms) (sys env)) as [s| |] eqn:E; cbn [mbind outcome_bind outcome_ok];
    [|now exists ms..]. apply answers_sys. now apply passes with ms.
Qed.

Lemma set_temp_answered env text : outcome_ok env
  match parse_celsius text with
  | None => Ret (false, env)
  | Some celsius =>
      if fle celsius fzero then Ret (issue_command HeaterOff env)
      else d ← defined (from_celsius celsius); Ret (issue_command (SetHeater d) env)
  end.
Proof.
  destruct (parse_celsius text) as [x|] eqn:P; [|apply answers_same].
  apply parse_celsius_deci in P as (d & E & D). rewrite E. destruct (fle x fzero); now apply issue_answers.
Qed.

Lemma manual_answered env celsius dial minutes : outcome_ok env
  match parse_celsius celsius, parse_unsigned dial 10, parse_minutes minutes with
  | Some celsius, Some dial, Some minutes =>
      d ← defined (from_celsius celsius);
      Ret (start (Program.Manual (ManualMode.new d (u8 dial) (u32 (minutes * 60)))) env)
  | _, _, _ => Ret (false, env)
  end.
Proof.
  destruct (parse_celsius celsius) as [x|] eqn:P; [|apply answers_same].
  destruct (parse_unsigned dial 10) as [n|]; [|apply answers_same].
  destruct (parse_minutes minutes) as [m|]; [|apply answers_same].
  apply parse_celsius_deci in P as (d & -> & D). apply start_answers. cbn [mbind].
  apply manual_launchable; [apply u8_range|]. destruct (fle x fzero); lia.
Qed.

Lemma sous_vide_answered env celsius minutes : outcome_ok env
  match parse_float celsius (of_Z 37) (of_Z 90), parse_minutes minutes with
  | Some celsius, Some minutes =>
      d ← defined (from_celsius celsius);
      Ret (start (Program.SousVide (SousVideMode.new d (u32 (minutes * 60)))) env)
  | _, _ => Ret (false, env)
  end.
Proof.
  destruct (parse_float celsius _ _) as [x|] eqn:P; [|apply answers_same].
  destruct (parse_minutes minutes) as [m|]; [|apply answers_same].
  apply parse_float_range in P as (F & L & U); [|apply float_of_Z; lia..].
  destruct (from_celsius_range x 37 90 F ltac:(lia) ltac:(lia) L U) as (d & -> & _).
  apply start_answers, launch_fresh; [constructor|]. apply fresh_within; constructor.
Qed.

Lemma execute_answered env line : library_ok (ApplicationRuntime.recipes_ (app_of (sys env))) ->
  outcome_ok env (execute_command env line).
Proof.
  intros K. unfold execute_command. cbv zeta. set (args := tokenize line).
  assert (L : forall p, fresh p -> match p with Program.Steam _ | Program.Turbo _ => True | _ => False end ->
    answer_ok env (start p env)).
  { intros p F Q. apply start_answers, launch_fresh; [exact F|]. apply fresh_within; [exact F|]. now destruct p. }
  repeat (apply answered_if); try apply answers_same;
    [apply add_answers|apply set_temp_answered| |apply manual_answered| | |apply sous_vide_answered| |
     now apply load_answers| | |now apply issue_answers|apply lid_answers|apply ota_answers|apply wait_answered|
     apply expect_answers|].
  - destruct (parse_unsigned _ 10) as [n|]; [|apply answers_same]. apply issue_answers. split; [|split; discriminate].
    apply dial_to_rpm_range, u8_range.
  - destruct (parse_minutes _) as [m|]; [|apply answers_same]. apply start_answers. split; [right; eauto|constructor].
  - destruct (parse_minutes _) as [m|]; [|apply answers_same]. apply L; [constructor|exact I].
  - destruct (parse_unsigned _ 2000) as [n|]; [|apply answers_same]. destruct (n =? 0); [apply answers_same|].
    apply L; [constructor|exact I].
  - pose proof (acts _ _ (continues (sys env))) as E. destruct (on_controller _ (sys env)) as [st s]. now apply answers_sys.
  - pose proof (acts _ _ (stops (sys env))) as E. destruct (on_controller _ (sys env)) as [st s]. now apply answers_sys.
  - split_and!; cbn [fst snd]; simp_set; try lia; auto; try discriminate; apply acts, does_nothing.
Qed.

End Effects.

(** ** The device stays well formed and safe *)

Section Safety.
Import Commands.
Context {N : Type} `{NoiseSource N}.

Implicit Types s : SystemSim.SystemSim N.
Implicit Types env : CommandEnv N.

(** Before the first millisecond nothing is driven; afterwards the outputs are
    those a control tick leaves. *)
Definition safe_outputs (m : SafetyMcu.SafetyMcu (McuWorld.McuWorld N McuEnd.McuEnd)) : Prop :=
  power_w (SafetyMcu.world m) = fzero /\ duty (SafetyMcu.world m) = fzero \/ tick_safe m.

Record device_ok (s : SystemSim.SystemSim N) : Prop := {
  dev_system : system_ok s;
  dev_library : library_ok (ApplicationRuntime.recipes_ (app_of s));
  dev_outputs : safe_outputs (SystemSim.mcu_ s);
  dev_bowl : bowl_ok (SystemSim.board_ s)
}.

Lemma new_device_ok seed : device_ok (SystemSim.new_system (N := N) seed).
Proof. split; [apply new_system_ok|apply new_library_ok|now left|apply new_bowl_ok]. Qed.

(** Whatever leaves the levels of the outputs alone keeps them safe. *)
Lemma safe_outputs_world w (m : SafetyMcu.SafetyMcu (McuWorld.McuWorld N McuEnd.McuEnd)) :
  levels (outputs (McuWorld.board w)) = levels (outputs (McuWorld.board (SafetyMcu.world m))) ->
  safe_outputs m -> safe_outputs (SafetyMcu.with_world w m).
Proof.
  rewrite <- !actuators_outputs. intros E [[P D]|[S1 S2]].
  - left. unfold actuators in E. injection E as E1 E2 _. split; [exact (eq_trans E2 P)|exact (eq_trans E1 D)].
  - right. split; [|exact S2].
    now apply (outputs_safe_transfer (power_w (SafetyMcu.world m)) m (SafetyMcu.with_world w m)).
Qed.

Lemma with_app_ok a s : runtime_ok a -> ApplicationRuntime.recipes_ a = ApplicationRuntime.recipes_ (app_of s) ->
  device_ok s -> device_ok (with_app a s).
Proof. intros K E [[Km _] L O B]. split; [now split| |exact O|exact B]. cbn. now rewrite E. Qed.

Lemma on_board_ok f s : (forall b, levels (outputs (f b)) = levels (outputs b)) -> bowl_ok (f (SystemSim.board_ s)) ->
  device_ok s -> device_ok (on_board f s).
Proof.
  intros F B' [[Km Ka] L O B]. split; [split; [now apply with_world_ok|exact Ka]|exact L| |exact B'].
  apply safe_outputs_world; [apply F|exact O].
Qed.

Lemma on_controller_ok {A} (call : _ -> _ -> A * _ * _) s :
  (forall k c, session_inv k -> client_ok c -> session_inv (call k c).1.2 /\ client_ok (call k c).2) ->
  device_ok s -> device_ok (on_controller call s).2.
Proof.
  intros C K. pose proof K as [[_ [K1 K2 K3 K4]] _ _ _]. unfold on_controller, controller, app_of in *.
  destruct (C _ _ K3 K1) as [I1 I2]. destruct (call _ _) as [[r k] c]. cbn [fst snd] in *.
  apply with_app_ok; [now split|reflexivity|exact K].
Qed.

Lemma within_bytes cmd : within_limits cmd -> command_bytes cmd.
Proof. destruct cmd; cbn; unfold in_u8, kRampBurst; try tauto. unfold kRampGentle. lia. Qed.

Lemma issue_board cmd (m : McuClient.McuClient * AppWorld.AppWorld N) :
  outputs (AppWorld.board (issue cmd m).2.2) = outputs (AppWorld.board m.2).
Proof.
  exact (proj2 (issue_kept (fun w => outputs (AppWorld.board w)) app_outputs_write _ _ cmd m (conj eq_refl eq_refl))).
Qed.

Lemma issue_mass cmd (m : McuClient.McuClient * AppWorld.AppWorld N) :
  mass (AppWorld.board (issue cmd m).2.2) = mass (AppWorld.board m.2).
Proof.
  refine (proj2 (issue_kept (fun w => mass (AppWorld.board w)) _ _ _ cmd m (conj eq_refl eq_refl))).
  intros bs w. cbn. now destruct (InMemoryTransport.write bs _).
Qed.

Lemma on_client_ok cmd s : within_limits cmd -> device_ok s -> device_ok (on_client (issue cmd) s).2.
Proof.
  intros C K. pose proof K as [[Km [K1 K2 K3 K4]] L O Bw]. unfold on_client, app_of in *.
  pose proof (issue_ok cmd (ApplicationRuntime.client_ (SystemSim.app_ s), SystemSim.app_world s) (within_bytes _ C) K1) as I.
  pose proof (issue_board cmd (ApplicationRuntime.client_ (SystemSim.app_ s), SystemSim.app_world s)) as B.
  pose proof (issue_mass cmd (ApplicationRuntime.client_ (SystemSim.app_ s), SystemSim.app_world s)) as Ms.
  destruct (issue cmd _) as [r [c w]]. cbn [fst snd] in *.
  split; [split|exact L| |unfold bowl_ok in *; exact (eq_ind_r bowl_mass_ok Bw Ms)].
  - now apply with_world_ok.
  - now split.
  - apply safe_outputs_world; [|exact O]. exact (f_equal levels B).
Qed.

Lemma steps_recipes n : forall s s', SystemSim.step_ms n s = Ret s' ->
  ApplicationRuntime.recipes_ (app_of s') = ApplicationRuntime.recipes_ (app_of s).
Proof.
  induction n as [|n IH]; intros s s' E; cbn [SystemSim.step_ms] in E; [now simplify_eq|].
  apply bind_ret in E as (s1 & E1 & E). rewrite (IH _ _ E). unfold SystemSim.step_1ms in E1.
  apply bind_ret in E1 as (b & _ & E1). apply bind_ret in E1 as (m & _ & E1). apply bind_ret in E1 as ([a w] & R & E1).
  apply runtime_recipes in R. simplify_eq. exact R.
Qed.

Lemma passes_ok n s s' : SystemSim.step_ms n s = Ret s' -> device_ok s -> device_ok s'.
Proof.
  intros E [K L O B]. pose proof (steps_ok n s s' K E) as [K' T].
  split; [exact K'|now rewrite (steps_recipes n s s' E)| |exact (eq_ind_r bowl_mass_ok B (steps_mass n s s' E))].
  destruct n; [cbn in E; simplify_eq; exact O|]. right. now apply T.
Qed.

(** Every effect keeps the device well formed and safe. *)
Lemma action_ok s s' : action s s' -> device_ok s -> device_ok s'.
Proof.
  intros E K. destruct E.
  - exact K.
  - apply on_board_ok; [reflexivity| |exact K]. apply add_bowl_ok; try assumption. apply (dev_bowl _ K).
  - apply on_board_ok; [|exact (dev_bowl _ K)|exact K]. intros b. unfold SimBoard.open_lid, LidModel.user_open, levels. cbn.
    now destruct (negb (LidModel.locked_ (SimBoard.lid_model_ b))).
  - apply on_board_ok; [reflexivity|exact (dev_bowl _ K)|exact K].
  - now apply on_client_ok.
  - apply on_controller_ok; [|exact K]. intros k c I C. split; [now apply start_program_inv|].
    unfold CookingController.start_program. destruct (_ || _); [exact C|]. now apply clear_status_ok.
  - apply on_controller_ok; [|exact K]. intros k c I C. split; [now apply user_next_inv|exact C].
  - apply on_controller_ok; [|exact K]. intros k c I C. pose proof (stop_inv k c I) as X.
    assert (Y : client_ok (CookingController.stop k c).2).
    { unfold CookingController.stop. destruct (_ && _); [exact C|]. destruct (_ && _); [now apply clear_status_ok|exact C]. }
    destruct (CookingController.stop k c). now split.
  - apply with_app_ok; [|reflexivity|exact K]. destruct K as [[_ []] _ _ _]. now split.
Qed.

Lemma effect_ok s s' : effect s s' -> device_ok s -> device_ok s'.
Proof.
  intros [s1 A|ms s1 _ E] K; [now apply (action_ok s)|now apply (passes_ok (Z.to_nat ms) s)].
Qed.

End Safety.

(** ** Scripts *)

Section ScriptTheory.
Import Commands Scripts SimMain.
Context {N : Type} `{NoiseSource N}.

Implicit Types env : CommandEnv N.

(** A run of commands returns in a good state that effects lead to, or is
    undefined; it does not run for ever. *)
Definition good_run {A} (device : A -> SystemSim.SystemSim N) (s : SystemSim.SystemSim N) (o : outcome A) : Prop :=
  match o with
  | Ret r => rtc effect s (device r) /\ device_ok (device r)
  | Undefined => True
  | OutOfFuel => False
  end.

Lemma good_bind {A B} (d : A -> SystemSim.SystemSim N) (d' : B -> SystemSim.SystemSim N) s o (f : A -> outcome B) :
  good_run d s o -> (forall a, device_ok (d a) -> good_run d' (d a) (f a)) -> good_run d' s (o ≫= f).
Proof.
  destruct o as [a| |]; cbn; auto. intros [R K] F. specialize (F a K). destruct (f a); auto.
  destruct F as [R' K']. split; [now transitivity (d a)|exact K'].
Qed.

Lemma execute_good env line : device_ok (sys env) ->
  good_run (fun r : bool * CommandEnv N => sys r.2) (sys env) (execute_command env line).
Proof.
  intros K. pose proof (execute_answered env line (dev_library _ K)) as A.
  destruct (execute_command env line) as [r| |]; cbn in *; [|exact I|].
  - destruct A as [E _]. split; [now apply rtc_once|]. now apply (effect_ok (sys env)).
  - destruct A as [ms E]. exact (steps_end _ _ (dev_system _ K) E).
Qed.

Lemma run_lines_good lines : forall parse_error env, device_ok (sys env) ->
  good_run (fun r : bool * CommandEnv N => sys r.2) (sys env) (run_lines lines parse_error env).
Proof.
  induction lines as [|line lines IH]; intros e env K; [now split|]. cbn [run_lines].
  apply (good_bind _ _ _ _ _ (execute_good env line K)). intros [ok env'] K'.
  destruct (quit_requested env'); [now split|now apply IH].
Qed.

Lemma run_script_good s file e : device_ok s -> good_run snd s (run_script s file e).
Proof.
  intros K. unfold run_script. destruct file as [text|]; [|now split].
  apply (good_bind _ _ _ _ _ (run_lines_good (lines_of (split_on newline text)) false (new_env s e) K)).
  intros [b env] K'. now split.
Qed.

Lemma repl_loop_good fuel : forall input env, (String.length input < fuel)%nat -> device_ok (sys env) ->
  good_run sys (sys env) (repl_loop fuel input env).
Proof.
  induction fuel as [|fuel IH]; intros input env L K; [lia|]. cbn [repl_loop].
  destruct (quit_requested env); [now split|].
  destruct (fgets 255 input) as [[buffer rest] at_end] eqn:F. apply fgets_length in F.
  destruct (bool_decide_reflect (buffer = "")) as [|Bn]; [now split|].
  apply (good_bind _ _ _ _ _ (execute_good env (c_str buffer) K)). intros [ok env'] K'.
  apply IH; [|exact K']. destruct buffer; [congruence|]. cbn in F. lia.
Qed.

Lemma run_repl_good s input : device_ok s -> good_run sys s (run_repl s input).
Proof.
  intros K. unfold run_repl.
  assert (P : good_run id s (SystemSim.step_ms 50 s)).
  { destruct (SystemSim.step_ms 50 s) as [s1| |] eqn:E; [|exact I|exact (steps_end _ _ (dev_system _ K) E)].
    split; [|exact (passes_ok 50 s s1 E K)]. apply rtc_once. apply (passes s 50); [split; reflexivity || discriminate|exact E]. }
  apply (good_bind _ _ _ _ _ P). intros s1 K1.
  apply (repl_loop_good _ input (new_env s1 true)); [lia|exact K1].
Qed.

Lemma with_recipes_ok l s : library_ok l -> device_ok s -> device_ok (with_recipes l s).
Proof. intros L [[Km [K1 K2 K3 K4]] _ O B]. split; [split; [exact Km|now split]|exact L|exact O|exact B]. Qed.

(** What drives the appliance. *)
Definition drives (s : SystemSim.SystemSim N) : f32 * f32 * Z :=
  (SimBoard.heater_watts_ (SystemSim.board_ s), MotorModel.duty_ (SimBoard.motor_model_ (SystemSim.board_ s)),
   SafetyMcu.fault_ (SystemSim.mcu_ s)).

(** A run in which every millisecond ends with a safe device, and the user, in
    between, changes nothing of what is driven. *)
Inductive safe_run : SystemSim.SystemSim N -> SystemSim.SystemSim N -> Prop :=
| safe_end s : safe_run s s
| safe_action s1 s2 s3 : action s1 s2 -> drives s2 = drives s1 -> safe_run s2 s3 -> safe_run s1 s3
| safe_millisecond s1 s2 s3 : SystemSim.step_1ms s1 = Ret s2 -> device_safe s2 -> safe_run s2 s3 -> safe_run s1 s3.

Lemma action_drives s s' : action s s' -> drives s' = drives s.
Proof.
  intros A. destruct A as [|g v F L R| | |cmd Cm|p Lp| | |kib corrupt Kb Rs]; try reflexivity.
  - unfold on_client, app_of. pose proof (issue_board cmd (ApplicationRuntime.client_ (SystemSim.app_ s), SystemSim.app_world s)) as B.
    destruct (issue cmd _) as [r [c w]]. cbn [fst snd] in B. unfold drives. f_equal.
    exact (f_equal (fun o => (o.1.2, MotorModel.duty_ o.1.1)) B).
  - unfold on_controller. now destruct (CookingController.start_program _ _ _) as [[r k] c].
  - unfold on_controller. now destruct (CookingController.stop _ _) as [k c].
Qed.

Lemma safe_run_trans s1 s2 s3 : safe_run s1 s2 -> safe_run s2 s3 -> safe_run s1 s3.
Proof. induction 1; intros R; [exact R|eapply safe_action|eapply safe_millisecond]; eauto. Qed.

Lemma steps_safe_run n : forall s s', system_ok s -> SystemSim.step_ms n s = Ret s' -> safe_run s s'.
Proof.
  induction n as [|n IH]; intros s s' K E; cbn [SystemSim.step_ms] in E; [injection E as <-; constructor|].
  apply bind_ret in E as (s1 & E1 & E). pose proof (proj1 (step_control s s1 K E1)) as K1.
  apply (safe_millisecond s s1); [exact E1|exact (step_safe s s1 K E1)|]. now apply IH.
Qed.

Lemma effects_safe_run s s' : rtc effect s s' -> device_ok s -> safe_run s s'.
Proof.
  induction 1 as [s|s s1 s2 E _ IH]; intros K; [constructor|]. apply safe_run_trans with s1; [|apply IH; now apply (effect_ok s)].
  destruct E as [s1 A|ms s1 _ E].
  - apply (safe_action s s1); [exact A|now apply action_drives|constructor].
  - now apply (steps_safe_run (Z.to_nat ms)); [apply K|].
Qed.

(** Whatever a run of the simulator gives, a latched fault has everything off. *)
Lemma device_ok_fault_off s : device_ok s -> SafetyMcu.fault_ (SystemSim.mcu_ s) <> FaultCode.None ->
  SimBoard.heater_watts_ (SystemSim.board_ s) = fzero /\ MotorModel.duty_ (SimBoard.motor_model_ (SystemSim.board_ s)) = fzero.
Proof.
  intros [[Hm _] _ [[P D]|T] _] F; [now split|]. destruct (fault_off _ Hm T F) as (S1 & S2 & _). now split.
Qed.

End ScriptTheory.

(** ** Properties *)

Section CliProperties.
Import Commands SimMain.
Context {N : Type} `{NoiseSource N}.
Context (fopen : string -> option File) (opendir : string -> option (list string)) (open_script : string -> option string).

Lemma boot_ok o : exists s : SystemSim.SystemSim N, boot fopen opendir o = Ret s /\ device_ok s.
Proof.
  pose proof (new_device_ok (N := N) (seed o)) as K. unfold boot.
  destruct (load_directory_ok fopen opendir (recipe_dir o) _ (dev_library _ K)) as (st & l & -> & L & _).
  eexists. split; [reflexivity|]. now apply with_recipes_ok.
Qed.

(** The device of a run is the booted one after what was typed. *)
Lemma main_good argv stdin :
  match main (N := N) fopen opendir open_script argv stdin with
  | Ret (_, Some s) => device_ok s /\ exists o s0, parse_arguments argv default_options = Some o /\
      boot fopen opendir o = Ret s0 /\ device_ok s0 /\ rtc effect s0 s
  | Ret (status, None) => status = 2
  | Undefined => True
  | OutOfFuel => False
  end.
Proof.
  unfold main. destruct (parse_arguments argv default_options) as [o|]; [|reflexivity].
  destruct (boot_ok o) as (s & B & K). rewrite B. cbn [mbind outcome_bind]. destruct (script o) as [path|].
  - pose proof (run_script_good s (open_script path) true K) as G.
    destruct (Scripts.run_script s _ true) as [[st s']| |]; [|exact I|exact G]. destruct G as [G1 G2].
    split; [exact G2|]. now exists o, s.
  - pose proof (run_repl_good s stdin K) as G.
    destruct (Scripts.run_repl s stdin) as [env| |]; [|exact I|exact G]. destruct G as [G1 G2].
    split; [exact G2|]. now exists o, s.
Qed.

(** C6 (SR-001 to SR-004): no user can make the device unsafe: whatever scenario
    or typed input the simulator is run on, with whatever recipe files and seed,
    the run is one of user actions and milliseconds of the device that was
    booted, and every millisecond of it ends safe on the board as it is then:
    the heater has power, at most 1200 W, only while no fault is latched, the lid
    of the board is closed, the sensor works and has read less than 165 C off the
    bowl, and a target in range is set; the motor is driven at the commanded
    speed, at most 10700 rpm and at most 500 rpm with the lid of the board open; a
    latched fault means that both are off. What the user does in between drives
    nothing: it takes effect in the next millisecond. *)
Theorem no_input_makes_the_device_unsafe argv stdin status (s : SystemSim.SystemSim N) :
  main fopen opendir open_script argv stdin = Ret (status, Some s) ->
  exists o s0, parse_arguments argv default_options = Some o /\ boot fopen opendir o = Ret s0 /\
    drives s0 = (fzero, fzero, FaultCode.None) /\ safe_run s0 s /\
    (SafetyMcu.fault_ (SystemSim.mcu_ s) <> FaultCode.None ->
     SimBoard.heater_watts_ (SystemSim.board_ s) = fzero /\ MotorModel.duty_ (SimBoard.motor_model_ (SystemSim.board_ s)) = fzero).
Proof.
  intros E. pose proof (main_good argv stdin) as G. rewrite E in G. destruct G as (K & o & s0 & P & B & K0 & R).
  exists o, s0. split_and!; [exact P|exact B| |now apply effects_safe_run|now apply device_ok_fault_off].
  unfold boot in B. apply bind_ret in B as ([st l] & _ & B). injection B as <-. reflexivity.
Qed.

(** C29: the bowl is never overfilled: whatever input the simulator is run on,
    the mass in the bowl is a finite number between 0 and 2200 g, although the
    room that is left and the sum are rounded to binary32. *)
Theorem bowl_is_never_overfilled argv stdin status (s : SystemSim.SystemSim N) :
  main fopen opendir open_script argv stdin = Ret (status, Some s) ->
  let mass := SimBoard.true_mass_g (SystemSim.board_ s) in
  fin mass = true /\ fge mass fzero = true /\ fle mass (of_Z 2200) = true.
Proof.
  intros E. pose proof (main_good argv stdin) as G. rewrite E in G. destruct (dev_bowl _ (proj1 G)) as [F [L U]]. cbv zeta.
  assert (F2 : fin (of_Z 2200) = true) by (apply of_Z_spec; lia).
  rewrite fge_spec, fle_spec by (exact F || exact F2 || reflexivity). split_and!; [exact F|now apply Z.leb_le..].
Qed.

(** C31: the simulator always ends: whatever the arguments, the recipe directory,
    the scenario and the typed input, no loop of the simulated device, of the
    parsers or of the prompt runs for ever; only wrong arguments give status 2,
    and then no device was run. *)
Theorem simulator_always_ends argv stdin :
  match main (N := N) fopen opendir open_script argv stdin with
  | Ret (status, None) => status = 2 /\ parse_arguments argv default_options = None
  | Ret (status, Some _) => (status = 0 \/ status = 1) /\ parse_arguments argv default_options <> None
  | Undefined => True
  | OutOfFuel => False
  end.
Proof.
  pose proof (main_good argv stdin) as G. unfold main in *.
  destruct (parse_arguments argv default_options) as [o|]; [|now split].
  destruct (boot fopen opendir o) as [s| |]; [|exact I|exact G]. cbn [mbind outcome_bind] in *. destruct (script o).
  - destruct (Scripts.run_script s _ true) as [[st s']| |]; [|exact I|exact G]. cbn. split; [|discriminate].
    destruct (is_ok st); auto.
  - destruct (Scripts.run_repl s stdin); [|exact I|exact G]. cbn. split; [now left|discriminate].
Qed.

End CliProperties.
