(* ===== verification/Grammar.v ===== *)
(** * The command language

    What each line of the grammar means, one rule per form that README.md and the
    [help] command list, and the theorem that [execute_command] carries out
    exactly that. *)

From Stdlib Require Import Ascii.
From stdpp Require Import relations.
From S2P Require Import Prelude.
From S2P Require Import Float32.
From S2P Require Import Common.
From S2P Require Import C1Link.
From S2P Require Import Hal.
From S2P Require Import Mcu.
From S2P Require Import SafetyMcu.
From S2P Require Import Sim.
From S2P Require Import TelemetryStore.
From S2P Require Import McuClient.
From S2P Require Import OtaUpdater.
From S2P Require Import CString.
From S2P Require Import Recipe.
From S2P Require Import RecipeParser.
From S2P Require Import Programs.
From S2P Require Import Cooking.
From S2P Require Import System.
From S2P Require Import Cli.

(** ** The texts of arguments *)

(** A text that the C library reads as a number to its last character. *)
Definition reads_number (t : string) (n : Z) : Prop :=
  t <> "" /\ strip "-" t = None /\ strtoul t = Some (n, false, "").
Definition reads_real (t : string) (x : f32) : Prop := strtof t = Some (x, false, "") /\ isfinite x = true.

Definition within (lo hi x : f32) : Prop := flt x lo = false /\ fgt x hi = false.

Definition is_digit (c : ascii) : bool := bool_decide (is_Some (digit_value c)).
Fixpoint all_digits (t : string) : bool :=
  match t with EmptyString => true | String c t => is_digit c && all_digits t end.

(** The units of a duration, in milliseconds. *)
Inductive unit_ms : string -> Z -> Prop :=
| bare : unit_ms "" 1
| in_milliseconds : unit_ms "ms" 1
| in_seconds : unit_ms "s" 1000
| in_minutes : unit_ms "m" 60000.

Definition reads_duration (t : string) (ms : Z) : Prop :=
  exists number unit n k, t = number +:+ unit /\ all_digits number = true /\ unit_ms unit k /\
    reads_number number n /\ ms = n * k /\ ms <= 4294967295.

(** A target of the heater in tenths of a degree, or zero for off. *)
Definition reads_off (t : string) : Prop :=
  exists x, reads_real t x /\ flt x fzero = false /\ fgt x fzero = false.
Definition reads_target (t : string) (deci : Z) : Prop :=
  exists x, reads_real t x /\ fgt x fzero = true /\ within (of_Z 37) (of_Z 160) x /\ from_celsius x = Some deci.

Definition reads_minutes (t : string) (m : Z) : Prop := reads_number t m /\ 1 <= m <= 1440.

(** ** The meaning of a line *)

Inductive meaning :=
| Silent
| Pour (grams viscosity : f32)
| OpenLid
| CloseLid
| Ask (cmd : command)
| Start (p : Program.Program)
| Next
| Stop
| Verify (kib : Z) (corrupt : bool)
| Wait (ms : Z)
| Expect (holds : bool)
| Leave.

(** How stiff an ingredient makes the contents. *)
Inductive stiffness : string -> f32 -> Prop :=
| of_water : stiffness "water" (of_Z 1)
| of_oil : stiffness "oil" (lit 18 10)
| of_flour : stiffness "flour" (lit 65 10)
| of_dough : stiffness "dough" (lit 65 10)
| of_other what : ~ In what ["water"; "oil"; "flour"; "dough"] -> stiffness what (of_Z 2).

Inductive compares (a b : f32) : string -> bool -> Prop :=
| at_least : compares a b ">=" (fge a b)
| at_most : compares a b "<=" (fle a b)
| above : compares a b ">" (fgt a b)
| below : compares a b "<" (flt a b)
| equal : compares a b "==" (feq a b)
| unequal : compares a b "!=" (negb (feq a b)).

Inductive compares_text (a b : string) : string -> bool -> Prop :=
| same_text : compares_text a b "==" (bool_decide (a = b))
| other_text : compares_text a b "!=" (negb (bool_decide (a = b))).

Section Grammar.
Import Commands.
Context {N : Type} `{NoiseSource N}.

Implicit Types s : SystemSim.SystemSim N.
Implicit Types env : CommandEnv N.

(** What an expectation can ask for: the last reading, the average of two
    seconds, and the session. *)
Inductive measures s : string -> f32 -> Prop :=
| the_temp : measures s "temp" (to_celsius (TelemetryStore.deci_celsius (TelemetryStore.latest (store s))))
| the_average : measures s "avg-temp" (TelemetryStore.average_temp_c 2000 (store s))
| the_speed : measures s "rpm" (of_Z (TelemetryStore.rpm (TelemetryStore.latest (store s))))
| the_weight : measures s "weight" (of_Z (TelemetryStore.grams (TelemetryStore.latest (store s)))).

Definition lid_flag s (flag : Z) : Prop := Z.land (TelemetryStore.flags (TelemetryStore.latest (store s))) flag <> 0.

Inductive states s : string -> string -> Prop :=
| the_state : states s "state" (session_state_name (CookingController.state_ (controller s)))
| the_program : states s "program" (CookingController.program_name (controller s))
| lid_locked : lid_flag s kFlagLidLocked -> states s "lid" "locked"
| lid_closed : ~ lid_flag s kFlagLidLocked -> lid_flag s kFlagLidClosed -> states s "lid" "closed"
| lid_open : ~ lid_flag s kFlagLidLocked -> ~ lid_flag s kFlagLidClosed -> states s "lid" "open".

(** No session and no verification is going on. *)
Definition may_verify s : Prop :=
  (CookingController.state_ (controller s) = Idle \/ CookingController.state_ (controller s) = Done) /\
  OtaUpdater.busy (ApplicationRuntime.ota_ (app_of s)) = false.

Definition recipe_named s (names : list string) : option Recipe :=
  RecipeLibrary.find (c_str (String.concat " " names)) (ApplicationRuntime.recipes_ (app_of s)).

(** The grammar: the words of a line, and what they mean to the device. *)
Inductive documented s : list string -> meaning -> Prop :=
| on_empty : documented s [] Silent
| on_comment text args : documented s (String "#" text :: args) Silent
| on_help args : documented s ("help" :: args) Silent
| on_status args : documented s ("status" :: args) Silent
| on_weigh args : documented s ("weigh" :: args) Silent
| on_add what amount grams viscosity : reads_real amount grams ->
    within (lit 1 10) (room (SystemSim.board_ s)) grams -> stiffness what viscosity ->
    documented s ["add"; what; amount] (Pour grams viscosity)
| on_lid_open : documented s ["lid"; "open"] OpenLid
| on_lid_close : documented s ["lid"; "close"] CloseLid
| on_lid_lock : documented s ["lid"; "lock"] (Ask (LockLid true))
| on_lid_unlock : documented s ["lid"; "unlock"] (Ask (LockLid false))
| on_tare args : documented s ("tare" :: args) (Ask Tare)
| on_heater_off t : reads_off t -> documented s ["set-temp"; t] (Ask HeaterOff)
| on_set_temp t deci : reads_target t deci -> documented s ["set-temp"; t] (Ask (SetHeater deci))
| on_set_speed t dial : reads_number t dial -> dial <= 10 ->
    documented s ["set-speed"; t] (Ask (SetMotor (1070 * dial) kRampNormal))
| on_manual t deci dt dial mt m : reads_off t /\ deci = 0 \/ reads_target t deci -> reads_number dt dial -> dial <= 10 ->
    reads_minutes mt m -> documented s ["manual"; t; dt; mt] (Start (Program.Manual (ManualMode.new deci dial (60 * m))))
| on_dough mt m : reads_minutes mt m -> documented s ["dough"; mt] (Start (Program.Dough (DoughMode.new (60 * m))))
| on_steam mt m : reads_minutes mt m -> documented s ["steam"; mt] (Start (Program.Steam (SteamMode.new (60 * m))))
| on_sous_vide t x deci mt m : reads_real t x -> within (of_Z 37) (of_Z 90) x -> from_celsius x = Some deci ->
    reads_minutes mt m -> documented s ["sous-vide"; t; mt] (Start (Program.SousVide (SousVideMode.new deci (60 * m))))
| on_turbo t ms : reads_number t ms -> 1 <= ms <= 2000 -> documented s ["turbo"; t] (Start (Program.Turbo (TurboPulse.new ms)))
| on_load name names r : recipe_named s (name :: names) = Some r ->
    documented s ("load" :: name :: names) (Start (Program.Guided (GuidedRecipe.new r)))
| on_unknown_recipe name names : recipe_named s (name :: names) = None -> documented s ("load" :: name :: names) Silent
| on_next args : documented s ("next" :: args) Next
| on_stop args : documented s ("stop" :: args) Stop
| on_verify : may_verify s -> documented s ["ota-verify"] (Verify 512 false)
| on_verify_size t kib : may_verify s -> reads_number t kib -> 1 <= kib <= 65536 ->
    documented s ["ota-verify"; t] (Verify kib false)
| on_verify_corrupt t kib : may_verify s -> reads_number t kib -> 1 <= kib <= 65536 ->
    documented s ["ota-verify"; t; "corrupt"] (Verify kib true)
| on_wait t ms : reads_duration t ms -> documented s ["wait"; t] (Wait ms)
| on_expect_number name a op t b holds : measures s name a -> reads_real t b ->
    within (of_Z (-1000000)) (of_Z 1000000) b -> compares a b op holds -> documented s ["expect"; name; op; t] (Expect holds)
| on_expect_text name a op b holds : states s name a -> compares_text a b op holds ->
    documented s ["expect"; name; op; b] (Expect holds)
| on_quit args : documented s ("quit" :: args) Leave
| on_exit args : documented s ("exit" :: args) Leave.

(** What a meaning does to the device and to the counters of a run. *)
Definition perform (v : meaning) (env : CommandEnv N) : outcome (CommandEnv N) :=
  let on f := Ret (env <| sys := f (sys env) |>) in
  match v with
  | Silent => Ret env
  | Pour grams viscosity => on (on_board (load_of grams viscosity))
  | OpenLid => on (on_board SimBoard.open_lid)
  | CloseLid => on (on_board SimBoard.close_lid)
  | Ask cmd => on (fun s => (on_client (issue cmd) s).2)
  | Start p => on (fun s => (on_controller (CookingController.start_program (Some p)) s).2)
  | Next => on (fun s => (on_controller (fun k c => (tt, CookingController.user_next k, c)) s).2)
  | Stop => on (fun s => (on_controller (fun k c => let '(k, c) := CookingController.stop k c in (tt, k, c)) s).2)
  | Verify kib corrupt => on (fun s => with_app ((app_of s) <| ApplicationRuntime.ota_ :=
      (OtaUpdater.begin (Some (ota_image kib corrupt)) (length (ota_image kib corrupt))
         (crc16_ccitt (ota_image kib false) 0xFFFF) (ApplicationRuntime.ota_ (app_of s))).2 |>) s)
  | Wait ms => s ← SystemSim.step_ms (Z.to_nat ms) (sys env); Ret (env <| sys := s |>)
  | Expect holds => Ret (if holds then env else env <| expect_failures := expect_failures env + 1 |>)
  | Leave => Ret (env <| quit_requested := true |>)
  end.

End Grammar.

(** ** The arguments are read as they are written *)

Section Reading.
Import Commands.

Lemma parse_unsigned_spec t max n : parse_unsigned t max = Some n <-> reads_number t n /\ n <= max.
Proof.
  unfold parse_unsigned, reads_number. destruct (bool_decide_reflect (t = "")) as [->|E]; cbn [orb].
  { split; [discriminate|]. now intros [[X _] _]. }
  destruct (strip "-" t) as [u|] eqn:S.
  { rewrite bool_decide_true by now exists u. split; [discriminate|]. now intros [(_ & X & _) _]. }
  rewrite bool_decide_false by now intros []. destruct (strtoul t) as [[[v e] rest]|]; cbn [mbind option_bind].
  2: { split; [discriminate|]. now intros [(_ & _ & X) _]. }
  destruct e; cbn [orb]; [split; [discriminate|now intros [(_ & _ & X) _]]|].
  destruct (bool_decide_reflect (rest = "")) as [->|R]; cbn [negb orb]; [|split; [discriminate|intros [(_ & _ & X) _]; congruence]].
  destruct (Z.gtb_spec v max).
  - split; [discriminate|]. intros [(_ & _ & X) L]. simplify_eq. lia.
  - split; [intros [= ->]|intros [(_ & _ & X) _]; congruence]. now split_and!.
Qed.

Lemma parse_float_spec t lo hi x : Commands.parse_float t lo hi = Some x <-> reads_real t x /\ within lo hi x.
Proof.
  unfold Commands.parse_float, reads_real, within. destruct (strtof t) as [[[v e] rest]|]; cbn [mbind option_bind].
  2: { split; [discriminate|]. now intros [[X _] _]. }
  destruct e; cbn [orb]; [split; [discriminate|now intros [[X _] _]]|].
  destruct (bool_decide_reflect (rest = "")) as [->|R]; cbn [negb orb]; [|split; [discriminate|intros [[X _] _]; congruence]].
  destruct (isfinite v) eqn:F, (flt v lo) eqn:L, (fgt v hi) eqn:G; cbn [negb orb]; split;
    try discriminate; try (intros [[X Y] [Z1 Z2]]; simplify_eq; congruence).
  intros [= ->]. now split_and!.
Qed.

Lemma parse_minutes_spec t m : parse_minutes t = Some m <-> reads_minutes t m.
Proof.
  unfold parse_minutes, reads_minutes. split.
  - intros E. apply bind_Some in E as (n & P & E). apply parse_unsigned_spec in P as [R L].
    destruct (Z.eqb_spec n 0); [discriminate|]. simplify_eq. split; [exact R|]. destruct R as (_ & _ & R).
    apply strtoul_range in R. lia.
  - intros [R L]. rewrite (proj2 (parse_unsigned_spec t 1440 m)) by (split; [exact R|lia]). cbn [mbind option_bind].
    destruct (Z.eqb_spec m 0); [lia|reflexivity].
Qed.

Lemma reads_real_fin t x : reads_real t x -> fin x = true.
Proof. intros [S F]. exact (strtof_fin _ _ _ _ S F). Qed.

Lemma not_fgt_zero x : fin x = true -> fle x fzero = negb (fgt x fzero).
Proof.
  intros F. rewrite fle_spec, fgt_spec by (exact F || reflexivity). rewrite Z.leb_antisym. reflexivity.
Qed.

(** A temperature is off, or a target. *)
Lemma parse_celsius_spec t x : parse_celsius t = Some x ->
  exists d, from_celsius x = Some d /\
    (fle x fzero = true /\ reads_off t /\ d = 0 \/ fle x fzero = false /\ reads_target t d).
Proof.
  intros P. destruct (parse_celsius_deci t x P) as (d & E & D). exists d. split; [exact E|].
  unfold parse_celsius in P. apply bind_Some in P as (y & P & Q). apply parse_float_spec in P as [R [L U]].
  destruct (fgt y fzero && flt y (of_Z 37)) eqn:B; [discriminate|]. injection Q as ->.
  pose proof (not_fgt_zero x (reads_real_fin t x R)) as Z0. rewrite Z0 in *.
  destruct (fgt x fzero) eqn:G; cbn [negb andb] in *; [right|left].
  - split; [reflexivity|]. exists x. split_and!; [exact R|exact G|split; assumption|exact E].
  - split_and!; [reflexivity|now exists x|exact D].
Qed.

Lemma reads_off_parse t : reads_off t -> exists x, parse_celsius t = Some x /\ fle x fzero = true.
Proof.
  intros (x & R & L & G). exists x. pose proof (reads_real_fin t x R) as F. rewrite (not_fgt_zero x F), G. split; [|reflexivity].
  unfold parse_celsius. rewrite (proj2 (parse_float_spec t fzero (of_Z 160) x)).
  - cbn [mbind option_bind]. now rewrite G.
  - split; [exact R|]. split; [exact L|]. assert (F160 : fin (of_Z 160) = true) by reflexivity.
    rewrite fgt_spec in * by (assumption || reflexivity). apply Z.ltb_ge in G. apply Z.ltb_ge.
    transitivity (fz fzero); [exact G|]. vm_compute. discriminate.
Qed.

Lemma reads_target_parse t d : reads_target t d ->
  exists x, parse_celsius t = Some x /\ fle x fzero = false /\ from_celsius x = Some d.
Proof.
  intros (x & R & G & [L U] & E). exists x. pose proof (reads_real_fin t x R) as F. rewrite (not_fgt_zero x F), G.
  split_and!; [|reflexivity|exact E]. unfold parse_celsius. rewrite (proj2 (parse_float_spec t fzero (of_Z 160) x)).
  - cbn [mbind option_bind]. now rewrite G, L.
  - split; [exact R|]. split; [|exact U]. rewrite fgt_spec in G by (exact F || reflexivity).
    rewrite flt_spec by (exact F || reflexivity). apply Z.ltb_lt in G. apply Z.ltb_ge. lia.
Qed.

(** ** Durations *)

Lemma digits_first_spec t : let '(n, u) := digits_first t in t = n +:+ u /\ all_digits n = true.
Proof.
  induction t as [|c t IH]; [now split|]. cbn [digits_first]. destruct (digit_value c) as [d|] eqn:D; [|now split].
  destruct (digits_first t) as [n u]. destruct IH as [-> A]. split; [reflexivity|]. cbn [all_digits]. rewrite A, andb_true_r.
  unfold is_digit. apply bool_decide_true. now exists d.
Qed.

Lemma digits_first_app n u k : all_digits n = true -> unit_ms u k -> digits_first (n +:+ u) = (n, u).
Proof.
  intros A U. induction n as [|c n IH]; [destruct U; reflexivity|].
  cbn [all_digits] in A. apply andb_true_iff in A as [D A]. unfold is_digit in D. apply bool_decide_eq_true in D as [d D].
  change (String c n +:+ u) with (String c (n +:+ u)). cbn [digits_first]. now rewrite D, (IH A).
Qed.

Lemma parse_duration_spec t ms : parse_duration_ms t = Some ms <-> reads_duration t ms.
Proof.
  assert (Q : forall number n k, 0 < k -> (n' ← parse_unsigned number (4294967295 / k); Some (u32 (n' * k))) = Some n <->
    exists v, reads_number number v /\ n = v * k /\ n <= 4294967295).
  { intros number n k K. split.
    - intros E. apply bind_Some in E as (v & P & E). apply parse_unsigned_spec in P as [R L]. injection E as <-.
      pose proof R as (_ & _ & V). apply strtoul_range in V.
      assert (B : v * k <= 4294967295) by (pose proof (Z.mul_div_le 4294967295 k K); nia).
      exists v. rewrite u32_id by (unfold in_u32; nia). now split_and!.
    - intros (v & R & -> & B). pose proof R as (_ & _ & V). apply strtoul_range in V.
      rewrite (proj2 (parse_unsigned_spec number (4294967295 / k) v)).
      + cbn [mbind option_bind]. now rewrite u32_id by (unfold in_u32; nia).
      + split; [exact R|]. apply Z.div_le_lower_bound; lia. }
  split.
  - unfold parse_duration_ms. pose proof (digits_first_spec t) as D. destruct (digits_first t) as [number unit].
    destruct D as [-> A]. intros E.
    assert (U : exists k, unit_ms unit k /\ 0 < k /\ (n' ← parse_unsigned number (4294967295 / k); Some (u32 (n' * k))) = Some ms).
    { destruct (bool_decide_reflect (unit = "s")) as [->|]; [exists 1000; split_and!; [constructor|lia|exact E]|].
      destruct (bool_decide_reflect (unit = "m")) as [->|]; [exists 60000; split_and!; [constructor|lia|exact E]|].
      destruct (bool_decide_reflect (unit = "")) as [->|]; [exists 1; split_and!; [constructor|lia|exact E]|].
      destruct (bool_decide_reflect (unit = "ms")) as [->|]; [exists 1; split_and!; [constructor|lia|exact E]|discriminate E]. }
    destruct U as (k & U & K & E'). apply Q in E' as (v & R & -> & B); [|exact K].
    exists number, unit, v, k. now split_and!.
  - intros (number & unit & v & k & -> & A & U & R & -> & B). unfold parse_duration_ms.
    rewrite (digits_first_app number unit k A U). destruct U; cbn [mbind option_bind]; (apply Q; [lia|]); exists v; now split_and!.
Qed.

End Reading.

(** ** A line is carried out as documented *)

Section Carried.
Import Commands.
Context {N : Type} `{NoiseSource N}.

Implicit Types s : SystemSim.SystemSim N.
Implicit Types env : CommandEnv N.

(** Names of commands are compared by computation. *)
Ltac spell :=
  repeat match goal with
    | |- context [bool_decide ?p] =>
        let b := eval vm_compute in (bool_decide p) in
        match b with true => idtac | false => idtac end; change (bool_decide p) with b
    end;
  cbn [nth length Nat.eqb Nat.leb andb orb drop].

Lemma words_joined name names : foldl (fun name word => name +:+ " " +:+ word) name names = String.concat " " (name :: names).
Proof.
  revert name. induction names as [|w names IH]; intros name; [reflexivity|]. cbn [foldl]. rewrite IH.
  change (String.concat " " (name :: w :: names)) with (name +:+ " " +:+ String.concat " " (w :: names)).
  destruct names as [|w' names]; [reflexivity|].
  change (String.concat " " ((name +:+ " " +:+ w) :: w' :: names)) with ((name +:+ " " +:+ w) +:+ " " +:+ String.concat " " (w' :: names)).
  change (String.concat " " (w :: w' :: names)) with (w +:+ " " +:+ String.concat " " (w' :: names)).
  now rewrite !append_assoc.
Qed.

Lemma issue_performs cmd env : Ret (issue_command cmd env) = (env' ← perform (Ask cmd) env; Ret (true, env')).
Proof. cbn. unfold issue_command. now destruct (on_client (issue cmd) (sys env)). Qed.

Lemma start_performs p env : Ret (start p env) = (env' ← perform (Start p) env; Ret (true, env')).
Proof. cbn. unfold start. now destruct (on_controller _ (sys env)). Qed.

Lemma load_performs name names env : library_ok (ApplicationRuntime.recipes_ (app_of (sys env))) ->
  load (name :: names) env = match recipe_named (sys env) (name :: names) with
    | Some r => start (Program.Guided (GuidedRecipe.new r)) env
    | None => (true, env)
    end.
Proof.
  intros K. unfold load, recipe_named. rewrite words_joined. destruct (RecipeLibrary.find _ _) as [r|] eqn:F; [|reflexivity].
  apply find_valid in F as [(_ & _ & C) _]; [|exact K]. unfold start, CookingController.start_recipe.
  now destruct (Nat.eqb_spec (step_count r) 0) as [|_]; [contradiction|].
Qed.

Lemma stiffness_spec what v : stiffness what v <-> v =
  (if bool_decide (what = "water") then of_Z 1
   else if bool_decide (what = "oil") then lit 18 10
   else if bool_decide (what = "flour") || bool_decide (what = "dough") then lit 65 10
   else of_Z 2).
Proof.
  split.
  - destruct 1 as [| | | |what M]; try reflexivity. cbn [In] in M.
    rewrite !bool_decide_false by (intros ->; apply M; tauto). reflexivity.
  - intros ->. repeat case_bool_decide; subst; try constructor; cbn [orb In]. intros I. intuition congruence.
Qed.

Lemma compares_spec a b op holds : compares a b op holds <-> compare_numbers op a b = Some holds.
Proof.
  split; [destruct 1; reflexivity|]. unfold compare_numbers. repeat case_bool_decide; intros E; simplify_eq; constructor.
Qed.

Lemma compares_text_spec a b op holds : compares_text a b op holds <-> compare_texts op a b = Some holds.
Proof.
  split; [destruct 1; reflexivity|]. unfold compare_texts.
  destruct (bool_decide_reflect (op = "==")) as [->|]; [intros E; simplify_eq; constructor|].
  destruct (bool_decide_reflect (op = "!=")) as [->|]; intros E; simplify_eq; constructor.
Qed.

Lemma metric_spec name s v : metric name s = Some v <->
  match v with inl x => measures s name x | inr t => states s name t end.
Proof.
  split.
  - unfold metric. intros E. repeat case_bool_decide; simplify_eq; try constructor.
    destruct (Z.eqb_spec (Z.land (TelemetryStore.flags (TelemetryStore.latest (store s))) kFlagLidLocked) 0) as [L|L]; cbn [negb].
    + destruct (Z.eqb_spec (Z.land (TelemetryStore.flags (TelemetryStore.latest (store s))) kFlagLidClosed) 0) as [C|C]; cbn [negb];
        constructor; unfold lid_flag; auto.
    + now apply lid_locked.
  - destruct v as [x|t]; intros D; [now destruct D|]. destruct D as [| |L|L C|L C]; try reflexivity; unfold lid_flag in *; unfold metric; spell.
    + now rewrite (proj2 (Z.eqb_neq _ _) L).
    + apply Z.eq_dne in L. rewrite L. now rewrite (proj2 (Z.eqb_neq _ _) C).
    + apply Z.eq_dne in L, C. now rewrite L, C.
Qed.

Lemma minutes_seconds t m : reads_minutes t m -> parse_minutes t = Some m /\ u32 (m * 60) = 60 * m.
Proof.
  intros R. split; [now apply parse_minutes_spec|]. destruct R as [_ R]. rewrite u32_id by (unfold in_u32; lia). lia.
Qed.

Lemma dial_number t dial : reads_number t dial -> dial <= 10 ->
  parse_unsigned t 10 = Some dial /\ u8 dial = dial /\ dial_to_rpm dial = 1070 * dial.
Proof.
  intros R L. split; [now apply parse_unsigned_spec|]. destruct R as (_ & _ & R). apply strtoul_range in R.
  split; [apply u8_id; unfold in_u8; lia|]. unfold dial_to_rpm. destruct (Z.gtb_spec dial 10); [lia|].
  rewrite u16_id by (unfold in_u16; lia). lia.
Qed.

Lemma may_verify_open s : may_verify s ->
  negb (bool_decide (CookingController.state (controller s) = Idle)) &&
  negb (bool_decide (CookingController.state (controller s) = Done)) = false /\
  OtaUpdater.busy (ApplicationRuntime.ota_ (app_of s)) = false.
Proof.
  intros [S B]. split; [|exact B]. unfold CookingController.state. destruct S as [-> | ->]; reflexivity.
Qed.

Lemma verify_performs env kib corrupt :
  (let '(_, ota) := OtaUpdater.begin (Some (ota_image kib corrupt)) (length (ota_image kib corrupt))
     (crc16_ccitt (ota_image kib false) 0xFFFF) (ApplicationRuntime.ota_ (app_of (sys env))) in
   (true, env <| sys := with_app ((app_of (sys env)) <| ApplicationRuntime.ota_ := ota |>) (sys env) |>)) =
  (true, env <| sys := with_app ((app_of (sys env)) <| ApplicationRuntime.ota_ :=
     (OtaUpdater.begin (Some (ota_image kib corrupt)) (length (ota_image kib corrupt))
       (crc16_ccitt (ota_image kib false) 0xFFFF) (ApplicationRuntime.ota_ (app_of (sys env)))).2 |>) (sys env) |>).
Proof. now destruct (OtaUpdater.begin _ _ _ _). Qed.

Lemma add_performs env what amount grams viscosity : reads_real amount grams ->
  within (lit 1 10) (room (SystemSim.board_ (sys env))) grams -> stiffness what viscosity ->
  handle_add env ["add"; what; amount] = (true, env <| sys := on_board (load_of grams viscosity) (sys env) |>).
Proof.
  intros R W S. unfold handle_add. rewrite (proj2 (parse_float_spec _ _ _ grams)) by (split; [exact R|exact W]).
  apply stiffness_spec in S. now subst viscosity.
Qed.

Lemma verify_size_performs env args kib corrupt : may_verify (sys env) -> 1 <= kib <= 65536 ->
  match args with
  | [] => kib = 512 /\ corrupt = false
  | [t] => reads_number t kib /\ corrupt = false
  | [t; word] => reads_number t kib /\ corrupt = true /\ word = "corrupt"
  | _ => False
  end -> Ret (handle_ota env ("ota-verify" :: args)) = (env' ← perform (Verify kib corrupt) env; Ret (true, env')).
Proof.
  intros M R A. destruct (may_verify_open _ M) as [M1 M2]. unfold handle_ota. cbv zeta. rewrite M1, M2. cbn [orb perform mbind outcome_bind].
  assert (P : (3 <? length ("ota-verify" :: args))%nat = false /\
    (match "ota-verify" :: args with _ :: n :: _ => parse_unsigned n 65536 | _ => Some 512 end) = Some kib /\
    (length ("ota-verify" :: args) =? 3)%nat = corrupt /\
    corrupt && negb (bool_decide (nth 2 ("ota-verify" :: args) "" = "corrupt")) = false).
  { destruct args as [|t [|word [|]]]; [| | |contradiction].
    - destruct A as [-> ->]. now split_and!.
    - destruct A as [A ->]. split_and!; try reflexivity. apply parse_unsigned_spec. split; [exact A|lia].
    - destruct A as (A & -> & ->). split_and!; try reflexivity. apply parse_unsigned_spec. split; [exact A|lia]. }
  destruct P as (P1 & P2 & P3 & P4). rewrite P1, P2, P3, P4. destruct (Z.eqb_spec kib 0); [lia|]. cbn [orb].
  now rewrite verify_performs.
Qed.

Lemma documented_performed env line v : library_ok (ApplicationRuntime.recipes_ (app_of (sys env))) ->
  documented (sys env) (tokenize line) v -> execute_command env line = (env' ← perform v env; Ret (true, env')).
Proof.
  intros K D. unfold execute_command. cbv zeta. remember (tokenize line) as args eqn:E. clear E.
  destruct D as [|text args| | | |what amount g vis Rg W St| | | | | |t Off|t d T|t dial Rd Ld|t d dt dial mt m T Rd Ld Rm
    |mt m Rm|mt m Rm|t x d mt m Rx W Dx Rm|t ms Rt B|name names r F|name names F| | |V|t kib V Rk B|t kib V Rk B|t ms Rt
    |name a op t b holds M Rb W C|name a op b holds M C| |].
  all: spell; try reflexivity.
  - now rewrite (add_performs env what amount g vis Rg W St).
  - apply issue_performs.
  - apply issue_performs.
  - apply issue_performs.
  - destruct (reads_off_parse t Off) as (x & -> & ->). apply issue_performs.
  - destruct (reads_target_parse t d T) as (x & -> & -> & ->). apply issue_performs.
  - destruct (dial_number t dial Rd Ld) as (-> & -> & ->). apply issue_performs.
  - destruct (dial_number dt dial Rd Ld) as (-> & -> & _), (minutes_seconds mt m Rm) as [-> ->].
    destruct T as [[Off ->]|T].
    + destruct (reads_off_parse t Off) as (x & P & Z0). rewrite P.
      destruct (parse_celsius_spec t x P) as (d & -> & [(_ & _ & ->)|[X _]]); [apply start_performs|congruence].
    + destruct (reads_target_parse t d T) as (x & -> & _ & ->). apply start_performs.
  - destruct (minutes_seconds mt m Rm) as [-> ->]. apply start_performs.
  - destruct (minutes_seconds mt m Rm) as [-> ->]. apply start_performs.
  - rewrite (proj2 (parse_float_spec t _ _ x)) by (split; [exact Rx|exact W]). rewrite Dx.
    destruct (minutes_seconds mt m Rm) as [-> ->]. apply start_performs.
  - rewrite (proj2 (parse_unsigned_spec t 2000 ms)) by (split; [exact Rt|lia]). destruct (Z.eqb_spec ms 0); [lia|].
    rewrite u32_id by (unfold in_u32; lia). apply start_performs.
  - rewrite load_performs, F by exact K. apply start_performs.
  - now rewrite load_performs, F by exact K.
  - cbn [perform mbind outcome_bind]. now destruct (on_controller _ (sys env)).
  - apply verify_size_performs; [exact V|lia|now split].
  - apply verify_size_performs; [exact V|exact B|now split].
  - apply verify_size_performs; [exact V|exact B|now split_and!].
  - rewrite (proj2 (parse_duration_spec t ms) Rt). cbn [perform]. now destruct (SystemSim.step_ms _ _).
  - unfold handle_expect. rewrite (proj2 (metric_spec name (sys env) (inl a)) M). cbn [mbind option_bind].
    rewrite (proj2 (parse_float_spec t _ _ b)) by (split; [exact Rb|exact W]). cbn [mbind option_bind].
    rewrite (proj1 (compares_spec a b op holds) C). now destruct holds.
  - unfold handle_expect. rewrite (proj2 (metric_spec name (sys env) (inr a)) M).
    rewrite (proj1 (compares_text_spec a b op holds) C). now destruct holds.
Qed.

(** A line that means something, or is refused. *)
Definition heard env (args : list string) (o : outcome (bool * CommandEnv N)) : Prop :=
  (exists v, documented (sys env) args v) \/ o = Ret (false, env).

Lemma heard_means env args v o : documented (sys env) args v -> heard env args o.
Proof. intros D. left. now exists v. Qed.

Lemma heard_if env args (b : bool) o o' : (b = true -> heard env args o) -> heard env args o' -> heard env args (if b then o else o').
Proof. destruct b; auto. Qed.

Lemma heard_refused env args : heard env args (Ret (false, env)).
Proof. now right. Qed.

Lemma named_words args c word : bool_decide (nth 0 args "" = String c word) = true -> exists rest, args = String c word :: rest.
Proof. intros E. apply bool_decide_eq_true in E. destruct args as [|w rest]; [discriminate E|]. cbn in E. subst w. now exists rest. Qed.

Lemma heard_set_temp env t o o' :
  heard env ["set-temp"; t] match parse_celsius t with
    | None => Ret (false, env)
    | Some celsius => if fle celsius fzero then o else (d ← defined (from_celsius celsius); o' d)
    end.
Proof.
  destruct (parse_celsius t) as [x|] eqn:P; [|apply heard_refused].
  destruct (parse_celsius_spec t x P) as (d & _ & [(_ & R & _)|[_ R]]).
  - exact (heard_means _ _ _ _ (on_heater_off _ t R)).
  - exact (heard_means _ _ _ _ (on_set_temp _ t d R)).
Qed.

Lemma parse_dial t dial : parse_unsigned t 10 = Some dial -> reads_number t dial /\ dial <= 10.
Proof. apply parse_unsigned_spec. Qed.

Lemma heard_manual env t dt mt o :
  heard env ["manual"; t; dt; mt] match parse_celsius t, parse_unsigned dt 10, parse_minutes mt with
    | Some celsius, Some dial, Some minutes => o celsius dial minutes
    | _, _, _ => Ret (false, env)
    end.
Proof.
  destruct (parse_celsius t) as [x|] eqn:P; [|apply heard_refused].
  destruct (parse_unsigned dt 10) as [dial|] eqn:D; [|apply heard_refused].
  destruct (parse_minutes mt) as [m|] eqn:M; [|apply heard_refused].
  apply parse_dial in D as [D L]. apply parse_minutes_spec in M.
  destruct (parse_celsius_spec t x P) as (d & _ & [(_ & R & Z0)|[_ R]]);
    apply (heard_means _ _ _ _ (on_manual (sys env) t d dt dial mt m ltac:(auto) D L M)).
Qed.

Lemma heard_ota env args : heard env ("ota-verify" :: args) (Ret (handle_ota env ("ota-verify" :: args))).
Proof.
  unfold handle_ota. cbv zeta. destruct (_ || _ || _) eqn:B; [apply heard_refused|].
  apply orb_false_iff in B as [B L]. apply orb_false_iff in B as [B Bu].
  assert (V : may_verify (sys env)).
  { split; [|exact Bu]. apply andb_false_iff in B as [B|B]; apply negb_false_iff, bool_decide_eq_true in B; auto. }
  destruct args as [|t [|word [|]]]; [exact (heard_means _ _ _ _ (on_verify _ V))| | |discriminate L].
  - destruct (parse_unsigned t 65536) as [kib|] eqn:P; [|apply heard_refused]. apply parse_unsigned_spec in P as [R U].
    pose proof R as (_ & _ & Q). apply strtoul_range in Q.
    destruct (Z.eqb_spec kib 0); [apply heard_refused|]. exact (heard_means _ _ _ _ (on_verify_size _ t kib V R ltac:(lia))).
  - destruct (parse_unsigned t 65536) as [kib|] eqn:P; [|apply heard_refused]. apply parse_unsigned_spec in P as [R U].
    pose proof R as (_ & _ & Q). apply strtoul_range in Q. cbn [nth length Nat.eqb andb].
    destruct (Z.eqb_spec kib 0); [apply heard_refused|]. destruct (bool_decide_reflect (word = "corrupt")) as [->|]; [|apply heard_refused].
    exact (heard_means _ _ _ _ (on_verify_corrupt _ t kib V R ltac:(lia))).
Qed.

Lemma heard_add env args : heard env ("add" :: args) (Ret (handle_add env ("add" :: args))).
Proof.
  unfold handle_add. destruct args as [|what [|amount [|]]]; try apply heard_refused.
  destruct (Commands.parse_float amount _ _) as [g|] eqn:P; [|apply heard_refused]. apply parse_float_spec in P as [R W].
  exact (heard_means _ _ _ _ (on_add _ what amount g _ R W (proj2 (stiffness_spec what _) eq_refl))).
Qed.

Lemma heard_expect env args : heard env ("expect" :: args) (Ret (handle_expect env ("expect" :: args))).
Proof.
  unfold handle_expect. destruct args as [|name [|op [|t [|]]]]; try apply heard_refused. cbv zeta.
  destruct (metric name (sys env)) as [[a|a]|] eqn:M; [| |apply heard_refused]; apply metric_spec in M.
  - destruct (Commands.parse_float t _ _) as [b|] eqn:P; cbn [mbind option_bind]; [|apply heard_refused].
    apply parse_float_spec in P as [R W].
    destruct (compare_numbers op a b) as [h|] eqn:C; [|apply heard_refused]. apply compares_spec in C.
    exact (heard_means _ _ _ _ (on_expect_number _ name a op t b h M R W C)).
  - destruct (compare_texts op a t) as [h|] eqn:C; [|apply heard_refused]. apply compares_text_spec in C.
    exact (heard_means _ _ _ _ (on_expect_text _ name a op t h M C)).
Qed.

Lemma heard_lid env word : heard env ["lid"; word] (Ret (handle_lid word env)).
Proof.
  unfold handle_lid. repeat (case_bool_decide; [subst word; eapply heard_means; constructor|]). apply heard_refused.
Qed.

Lemma heard_comment env args : (length args =? 0)%nat || bool_decide (is_Some (strip "#" (nth 0 args ""))) = true ->
  exists v, documented (sys env) args v.
Proof.
  destruct args as [|word args]; [exists Silent; constructor|]. cbn [length Nat.eqb nth orb]. intros E.
  apply bool_decide_eq_true in E as [u E]. destruct word as [|c word]; [discriminate E|]. cbn [strip] in E.
  destruct (Ascii.eqb_spec "#" c) as [<-|]; [|discriminate E]. exists Silent. constructor.
Qed.

(** The words of a branch: its name, and as many arguments as it asks for. *)
Ltac words B :=
  repeat match type of B with _ && _ = true => let L := fresh "L" in apply andb_true_iff in B as [B L] end;
  apply named_words in B as [rest ->]; cbn [nth drop length] in *;
  repeat match goal with
    | L : (S _ =? S _)%nat = true |- _ => cbn [Nat.eqb] in L
    | L : (length ?r =? _)%nat = true |- _ => destruct r as [|? ?]; cbn [length Nat.eqb] in L; try discriminate L; cbn [nth]
  end.

Lemma execute_heard env line : library_ok (ApplicationRuntime.recipes_ (app_of (sys env))) ->
  heard env (tokenize line) (execute_command env line).
Proof.
  intros K. unfold execute_command. cbv zeta. generalize (tokenize line) as args. intros args.
  apply heard_if; [intros B; left; now apply heard_comment|].
  repeat (apply heard_if; [intros B|]); try apply heard_refused.
  all: try (words B); try (eapply heard_means; constructor; fail).
  - apply heard_add.
  - apply heard_set_temp.
  - destruct (parse_unsigned s 10) as [n|] eqn:P; [|apply heard_refused]. apply parse_dial in P as [R U].
    exact (heard_means _ _ _ _ (on_set_speed _ s n R U)).
  - apply heard_manual.
  - destruct (parse_minutes s) as [m|] eqn:P; [|apply heard_refused]. apply parse_minutes_spec in P.
    exact (heard_means _ _ _ _ (on_dough _ s m P)).
  - destruct (parse_minutes s) as [m|] eqn:P; [|apply heard_refused]. apply parse_minutes_spec in P.
    exact (heard_means _ _ _ _ (on_steam _ s m P)).
  - destruct (Commands.parse_float s _ _) as [x|] eqn:P; [|apply heard_refused].
    destruct (parse_minutes s0) as [m|] eqn:M; [|apply heard_refused]. apply parse_minutes_spec in M.
    pose proof P as Q. apply parse_float_range in Q as (F & Lo & Hi); [|apply float_of_Z; lia..].
    destruct (from_celsius_range x 37 90 F ltac:(lia) ltac:(lia) Lo Hi) as (d & D & _).
    apply parse_float_spec in P as [R W]. exact (heard_means _ _ _ _ (on_sous_vide _ s x d s0 m R W D M)).
  - destruct (parse_unsigned s 2000) as [n|] eqn:P; [|apply heard_refused]. apply parse_unsigned_spec in P as [R U].
    pose proof R as (_ & _ & Q). apply strtoul_range in Q.
    destruct (Z.eqb_spec n 0); [apply heard_refused|]. exact (heard_means _ _ _ _ (on_turbo _ s n R ltac:(lia))).
  - destruct rest as [|name names]; [discriminate L|]. destruct (recipe_named (sys env) (name :: names)) as [r|] eqn:F.
    + exact (heard_means _ _ _ _ (on_load _ name names r F)).
    + exact (heard_means _ _ _ _ (on_unknown_recipe _ name names F)).
  - apply heard_lid.
  - apply heard_ota.
  - destruct (parse_duration_ms s) as [ms|] eqn:P; [|apply heard_refused]. apply parse_duration_spec in P.
    exact (heard_means _ _ _ _ (on_wait _ s ms P)).
  - apply heard_expect.
  - apply orb_true_iff in B as [B|B]; words B; eapply heard_means; constructor.
Qed.

End Carried.

(** ** Property *)

Section GrammarProperties.
Import Commands.
Context {N : Type} `{NoiseSource N}.

(** C12: the command language is what it is documented to be: on a well-formed
    device a line that has a meaning in the grammar is accepted and does exactly
    what the meaning says (it pours a finite mass that fits into the bowl, moves
    the lid, sends one request, starts the program it names, continues or stops the
    session, starts a verification, lets the time pass, counts one failed
    expectation, or nothing), and a line that has none is refused and changes
    nothing. What it does is an action within the limits of the safety processor
    or the passing of time, it leaves a well-formed device, and only the time that
    a [wait] simulates can be undefined. *)
Theorem commands_implement_the_language (env : CommandEnv N) line : device_ok (sys env) ->
  (forall v, documented (sys env) (tokenize line) v ->
     execute_command env line = (env' ← perform v env; Ret (true, env'))) /\
  ((forall v, ~ documented (sys env) (tokenize line) v) -> execute_command env line = Ret (false, env)) /\
  match execute_command env line with
  | Ret (_, env') => effect (sys env) (sys env') /\ device_ok (sys env')
  | Undefined => exists ms, SystemSim.step_ms (Z.to_nat ms) (sys env) = Undefined
  | OutOfFuel => False
  end.
Proof.
  intros K. split_and!.
  - intros v. now apply documented_performed, dev_library.
  - intros Un. destruct (execute_heard env line (dev_library _ K)) as [[v D]|E]; [now destruct (Un v)|exact E].
  - pose proof (execute_answered env line (dev_library _ K)) as A. pose proof (execute_good env line K) as G.
    destruct (execute_command env line) as [[accepted env']| |]; [|exact A|exact G].
    split; [exact (proj1 A)|exact (proj2 G)].
Qed.

End GrammarProperties.
