(* ===== verification/Pipe.v ===== *)
(** * A line that loses nothing

    The UART of the in-process transport is a pair of queues: a byte that was
    written is read at the other end, in order, as long as no queue is full. The
    class [Pipe] states this of a UART; the link object, the receive loop of the
    safety processor and that of the client are then followed frame by frame. *)

From S2P Require Import Prelude.
From S2P Require Import Float32.
From S2P Require Import Common.
From S2P Require Import C1Link.
From S2P Require Import Hal.
From S2P Require Import Link.
From S2P Require Import Mcu.
From S2P Require Import SafetyMcu.
From S2P Require Import Supervision.
From S2P Require Import Sim.
From S2P Require Import TelemetryStore.
From S2P Require Import McuClient.

(** [inbox] is what can be read, [outbox] what was written and not yet taken by
    the other end. *)
Class Pipe (W : Type) `{IUart W} := {
  inbox : W -> list Z;
  outbox : W -> list Z;
  capacity : nat;
  pipe_ok : W -> Prop
}.

Class PipeLaws (W : Type) `{Pipe W} := {
  pipe_read w : pipe_ok w ->
    let '(r, w') := uart_read w in
    r = head (inbox w) /\ inbox w' = tail (inbox w) /\ outbox w' = outbox w /\ pipe_ok w';
  pipe_write bs w : pipe_ok w -> bytes_ok bs -> (length (outbox w) + length bs <= capacity)%nat ->
    let '(n, w') := uart_write bs w in
    n = length bs /\ inbox w' = inbox w /\ outbox w' = outbox w ++ bs /\ pipe_ok w';
  pipe_pending w : pipe_ok w -> rx_pending w = length (inbox w)
}.

(** ** The link object on a pipe *)

(** The bytes of frames. *)
Definition wires (fs : list Frame) : list Z := concat (wire kVersion <$> fs).

Lemma wires_app fs gs : wires (fs ++ gs) = wires fs ++ wires gs.
Proof. unfold wires. now rewrite fmap_app, concat_app. Qed.

Lemma wires_one f : wires [f] = wire kVersion f.
Proof. exact (app_nil_r (wire kVersion f)). Qed.

Lemma version_wf : version_ok kVersion /\ in_u8 kVersion.
Proof. split; [reflexivity|split; reflexivity || discriminate]. Qed.

Lemma wire_bytes f : frame_wf f -> bytes_ok (wire kVersion f).
Proof.
  intros (S & I & L & _ & B). pose proof (frame_type_byte_range (type f)) as T.
  unfold wire, wire_body. repeat (apply Forall_app_2 || apply Forall_cons_2 || apply Forall_nil_2);
    try assumption; try apply u8_range; try (split; reflexivity || discriminate); [|now apply Forall_take].
  unfold in_u8. lia.
Qed.

Lemma wire_length f : frame_wf f -> (length (wire kVersion f) <= 260)%nat.
Proof.
  intros W. pose proof (length_frame_payload f W) as L. destruct W as (_ & _ & B & _).
  unfold wire, wire_body. rewrite !length_app. cbn [length put_u16]. rewrite L. unfold kMaxPayload in B. lia.
Qed.

Lemma wires_length fs : Forall frame_wf fs -> (length (wires fs) <= 260 * length fs)%nat.
Proof.
  induction 1 as [|f fs W _ IH]; [cbn; lia|]. unfold wires in *. cbn [fmap list_fmap concat length].
  rewrite length_app. pose proof (wire_length f W). lia.
Qed.

Section LinkPipe.
Import Link.
Context {W : Type} `{IClock W, UartLaws W, !Pipe W, !PipeLaws W}.

(** Nothing waits in the transmit queue. *)
Definition flushed (l : Link) : Prop := tx_wf l /\ queued l = [].

Lemma new_link_flushed : flushed new_link.
Proof. apply new_link_wf. Qed.

Lemma flush_flushed l (w : W) : flushed l -> flush_tx l w = (l, w).
Proof.
  intros [T Q]. pose proof (length_queued l T) as L. rewrite Q in L. cbn in L. unfold flush_tx.
  destruct (Nat.leb_spec (tx_size_ l) (tx_offset_ l)); [reflexivity|lia].
Qed.

(** The line takes the whole queue. *)
Lemma flush_pipe l (w : W) : tx_wf l -> pipe_ok w -> bytes_ok (queued l) ->
  (length (outbox w) + length (queued l) <= capacity)%nat ->
  let '(l', w') := flush_tx l w in
  flushed l' /\ parser_ l' = parser_ l /\ pipe_ok w' /\ inbox w' = inbox w /\ outbox w' = outbox w ++ queued l.
Proof.
  intros T P B R. pose proof (length_queued l T) as L. pose proof T as [LB LO]. unfold flush_tx.
  destruct (Nat.leb_spec (tx_size_ l) (tx_offset_ l)) as [G|G].
  { assert (E : queued l = []) by (apply nil_length_inv; lia). rewrite E, app_nil_r. now repeat split. }
  fold (queued l). pose proof (pipe_write (queued l) w P B R) as Wr.
  destruct (uart_write (queued l) w) as [n w']. destruct Wr as (-> & I & O & P').
  rewrite L. rewrite Nat.ltb_irrefl. fields.
  replace (tx_offset_ l + (tx_size_ l - tx_offset_ l))%nat with (tx_size_ l) by lia. rewrite Nat.eqb_refl. fields.
  split_and!; try assumption; try reflexivity. split; [|reflexivity]. split; fields; [exact LB|lia].
Qed.

Lemma frame_fits payload : Z.of_nat (length payload) <= kMaxPayload -> forall type seq id,
  (length (frame_bytes type seq id payload) <= kTxCapacity)%nat.
Proof.
  intros L type seq id. rewrite length_frame_bytes by exact L.
  unfold kTxCapacity, kMaxFrameSize, kHeaderSize, kCrcSize, kMaxPayload in *. lia.
Qed.

(** A frame is written as a whole. *)
Lemma send_pipe ty seq id payload l (w : W) : flushed l -> pipe_ok w -> message_wf (ty, seq, id, payload) ->
  (length (outbox w) + 260 <= capacity)%nat ->
  exists l' w', send ty seq id (Some payload) (Z.of_nat (length payload)) l w = (Ok, l', w') /\
    flushed l' /\ parser_ l' = parser_ l /\ pipe_ok w' /\ inbox w' = inbox w /\
    outbox w' = outbox w ++ wire kVersion (frame_of ty seq id payload).
Proof.
  intros [T Q] P M R. pose proof (frame_of_wf ty seq id payload M) as F. destruct M as (S & I & L & B).
  pose proof (frame_bytes_wire ty seq id payload L) as FW.
  destruct (send_flushes ty seq id payload l w T L) as (m & -> & Tm & Qm & Pm & _).
  { rewrite Q. cbn [length]. now apply frame_fits. }
  rewrite Q, FW in Qm. cbn [app] in Qm. pose proof (wire_length _ F) as WL.
  pose proof (flush_pipe m w Tm P) as Fl. rewrite Qm in Fl. specialize (Fl (wire_bytes _ F) ltac:(lia)).
  destruct (flush_tx m w) as [l' w']. destruct Fl as (F1 & F2 & F3 & F4 & F5). exists l', w'.
  split_and!; try assumption; [reflexivity|congruence].
Qed.

(** The frames the bytes in the inbox are read as. *)
Definition incoming (l : Link) (w : W) (gs : list Frame) : Prop :=
  flushed l /\ pipe_ok w /\ exists q, FrameParser.feed_all (inbox w) (parser_ l) = (gs, q) /\ idle q.

(** A link between two frames with nothing to read or to send. *)
Definition settled (l : Link) (w : W) : Prop := flushed l /\ idle (parser_ l) /\ pipe_ok w /\ inbox w = [].

Lemma settled_incoming l (w : W) : settled l w -> incoming l w [].
Proof. intros (F & I & P & E). split_and!; try assumption. exists (parser_ l). now rewrite E. Qed.

Lemma incoming_wires l (w : W) fs : flushed l -> idle (parser_ l) -> pipe_ok w -> inbox w = wires fs ->
  Forall frame_wf fs -> exists gs, incoming l w gs /\ Forall2 same_frame fs gs.
Proof.
  intros F I P E Wf. destruct version_wf as [V1 V2].
  destruct (feed_all_wires kVersion fs (parser_ l) V1 V2 Wf I) as [S Q]. fold (wires fs) in S, Q. rewrite <- E in S, Q.
  exists (FrameParser.feed_all (inbox w) (parser_ l)).1. split; [|exact S]. split_and!; try assumption.
  destruct (FrameParser.feed_all (inbox w) (parser_ l)) as [gs q]. now exists q.
Qed.

Lemma read_loop_pipe fuel : forall l (w : W) gs q, pipe_ok w -> (length (inbox w) < fuel)%nat ->
  FrameParser.feed_all (inbox w) (parser_ l) = (gs, q) ->
  exists l' w', read_loop fuel l w = Ret (head gs, l', w') /\
    (flushed l -> flushed l') /\ pipe_ok w' /\ outbox w' = outbox w /\
    FrameParser.feed_all (inbox w') (parser_ l') = (tail gs, q) /\ (gs = [] -> inbox w' = []).
Proof.
  induction fuel as [|fuel IH]; intros l w gs q P B E; [lia|]. cbn [read_loop].
  pose proof (pipe_read w P) as R. destruct (uart_read w) as [r w1]. destruct R as (-> & I1 & O1 & P1).
  destruct (inbox w) as [|b rest] eqn:Iw; cbn [head tail] in *.
  { injection E as <- <-. exists l, w1. rewrite I1. now split_and!. }
  cbn [FrameParser.feed_all] in E. destruct (FrameParser.feed b true (parser_ l)) as [[g|] p] eqn:Fd.
  - destruct (FrameParser.feed_all rest p) as [gs' q'] eqn:Fa. injection E as <- <-.
    eexists _, w1. split; [reflexivity|]. fields. rewrite I1. split_and!; try assumption; [|discriminate].
    intros Fl. exact Fl.
  - set (l1 := if _ && _ then _ else _).
    assert (L1 : parser_ l1 = p /\ (flushed l -> flushed l1)).
    { unfold l1. destruct (_ && _); fields; split; try reflexivity; intros Fl; exact Fl. }
    destruct L1 as [L1 F1]. clearbody l1.
    destruct (IH l1 w1 gs q P1) as (l' & w' & E' & F' & P' & O' & X); [rewrite I1; cbn in B; lia| |].
    { rewrite I1, L1. destruct (FrameParser.feed_all rest p). exact E. }
    exists l', w'. split; [exact E'|]. split_and!; auto; try apply X. congruence.
Qed.

(** A poll returns the next frame, and settles the link when there is none. *)
Lemma poll_pipe l (w : W) gs : incoming l w gs ->
  exists l' w', poll l w = Ret (head gs, l', w') /\ incoming l' w' (tail gs) /\ outbox w' = outbox w /\
    (gs = [] -> settled l' w').
Proof.
  intros (F & P & q & E & I). unfold poll. rewrite flush_flushed by exact F.
  destruct (read_loop_pipe (S (rx_pending w)) l w gs q P) as (l1 & w1 & -> & F1 & P1 & O1 & E1 & N1); [|exact E|].
  { rewrite pipe_pending by exact P. lia. }
  cbn [mbind outcome_bind]. destruct gs as [|g gs]; cbn [head tail] in *.
  - specialize (N1 eq_refl). rewrite N1 in E1. cbn in E1. injection E1 as <-.
    assert (X : expire l1 w1 = l1).
    { unfold expire, receiving, FrameParser.in_progress. destruct I as (-> & _ & _). reflexivity. }
    rewrite X. exists l1, w1. assert (St : settled l1 w1) by (split_and!; auto).
    split_and!; auto. now apply settled_incoming.
  - exists l1, w1. split_and!; try reflexivity; try assumption; [|discriminate]. split_and!; auto. now exists q.
Qed.

Lemma incoming_tail l (w : W) g gs : incoming l w (g :: gs) -> link_ok l ->
  forall r l' w', poll l w = Ret (r, l', w') -> r = Some g /\ frame_wf g /\ link_ok l'.
Proof.
  intros I L r l' w' E. destruct (poll_pipe l w (g :: gs) I) as (l1 & w1 & E1 & _).
  destruct (poll_ok l w L) as (r2 & l2 & w2 & E2 & L2 & F2 & _). cbn [head] in E1.
  rewrite E1 in E, E2. simplify_eq. now split_and!.
Qed.

End LinkPipe.

(** ** Faults on the line *)

(** A telemetry frame that tells of a fault; every FAULT frame does. *)
Definition alarm (g : Frame) : Prop :=
  type g = TelemetryFrame /\ msg_id g = MsgId.Fault /\ payload_len g = 1 /\ nth 0 (frame_payload g) 0 <> FaultCode.None.
Definition truthful (g : Frame) : Prop :=
  type g = TelemetryFrame -> msg_id g = MsgId.Fault -> nth 0 (frame_payload g) 0 <> FaultCode.None.

Lemma same_truthful f g : same_frame f g -> truthful f -> truthful g.
Proof. intros (T & _ & M & _ & P) A. unfold truthful. now rewrite <- T, <- M, <- P. Qed.

Lemma same_alarm f g : same_frame f g -> alarm f -> alarm g.
Proof. intros (T & _ & M & L & P). unfold alarm. now rewrite <- T, <- M, <- L, <- P. Qed.

Lemma first_byte g : payload_len g = 1 -> nth 0 (frame_payload g) 0 = nth 0 (payload g) 0.
Proof. intros L. unfold frame_payload. rewrite L. now destruct (payload g). Qed.

Lemma same_frames_alarm fs gs : Forall2 same_frame fs gs -> List.Exists alarm fs -> List.Exists alarm gs.
Proof. induction 1 as [|f g fs gs S _ IH]; intros E; [exact E|]. apply Exists_cons in E as [E|E]; [left; exact (same_alarm f g S E)|right; auto]. Qed.

Lemma same_frames_truthful fs gs : Forall2 same_frame fs gs -> Forall truthful fs -> Forall truthful gs.
Proof. induction 1 as [|f g fs gs S _ IH]; intros F; [constructor|]. apply Forall_cons in F as [F1 F]. constructor; [exact (same_truthful f g S F1)|auto]. Qed.

(** ** The client on a pipe *)

Section ClientPipe.
Import McuClient.
#[local] Opaque frame_bytes Link.kTxCapacity.
Context {W : Type} `{AppBoardLaws W, !Pipe W, !PipeLaws W}.

(** The request a client waits for. *)
Definition pending_request (c : McuClient) : Frame :=
  frame_of Request (pending_seq_ c) (pending_msg_id_ c) (take (Z.to_nat (pending_payload_len_ c)) (pending_payload_ c)).

Definition outstanding (c : McuClient) : list Frame := if waiting_ c then [pending_request c] else [].

Definition is_ping (f : Frame) : Prop := frame_wf f /\ type f = Request /\ msg_id f = MsgId.Ping.

(** No request was given up. *)
Definition status_known (c : McuClient) : Prop := last_command_status_ c = Ok \/ last_command_status_ c = ProtocolError.

(** A client that has read everything, with at most a PING and the pending
    request on the line, the request of this very millisecond. *)
Record calling (c : McuClient) (w : W) : Prop := {
  ca_settled : settled (link_ c) w;
  ca_out : exists pings, outbox w = wires (pings ++ outstanding c) /\ Forall is_ping pings /\ (length pings <= 1)%nat;
  ca_fresh : waiting_ c = true ->
    sent_at_ms_ c = now_ms w /\ request_started_ms_ c = now_ms w /\ retried_ c = false /\
    pending_msg_id_ c <> MsgId.Ping /\ last_command_status_ c = Ok;
  ca_status : status_known c
}.

Lemma pings_wf pings : Forall is_ping pings -> Forall frame_wf pings.
Proof. intros F. apply (Forall_impl _ _ _ F). now intros f [Wf _]. Qed.

Lemma pending_request_wf c : client_ok c -> frame_wf (pending_request c).
Proof.
  intros [_ _ [P I] [L B] PL _ _]. apply frame_of_wf. split_and!; try assumption; [|now apply Forall_take].
  rewrite length_take. unfold kMaxPayload in *. lia.
Qed.

(** A request of the last millisecond has not timed out. *)
Lemma no_timeout c (w : W) t : (waiting_ c = true -> sent_at_ms_ c = u32 t /\ request_started_ms_ c = u32 t) ->
  now_ms w = u32 (t + 1) -> check_timeouts c w = (c, w).
Proof.
  intros F N. unfold check_timeouts. destruct (waiting_ c) eqn:Wt; cbn [andb]; [|reflexivity].
  destruct (F eq_refl) as [-> ->]. rewrite N.
  assert (E1 : u32_sub (u32 (t + 1)) (u32 t) = 1) by wrap_lia.
  assert (E2 : i32 (u32 (u32 (t + 1) - u32 t - kResponseTimeoutMs)) = -49) by (unfold kResponseTimeoutMs; wrap_lia).
  now rewrite E1, E2.
Qed.

(** A line with room for a few frames. *)
Context (room : (4000 <= capacity (W := W))%nat).

(** A client that is not busy sends its request. *)
Lemma request_pipe id payload c (w : W) : client_ok c -> calling c w -> busy c = false ->
  in_u8 id -> id <> MsgId.Ping -> bytes_ok payload -> Z.of_nat (length payload) <= kMaxPayload ->
  exists c' w', request id (Some payload) (Z.of_nat (length payload)) (c, w) = (Ok, (c', w')) /\
    calling c' w' /\ waiting_ c' = true /\ response_ready_ c' = false /\ pending_msg_id_ c' = id /\
    pending_payload_len_ c' = Z.of_nat (length payload) /\ last_command_status_ c' = Ok /\ last_fault_ c' = last_fault_ c.
Proof.
  intros K [(F & Id & P & Ib) (pings & O & Pg & Lp) _ _] Bu Hid Np B L. unfold request, client_request.
  unfold busy in Bu. rewrite Bu. apply orb_false_iff in Bu as [Wt Rr].
  destruct (Z.gtb_spec (Z.of_nat (length payload)) kMaxPayload); [lia|]. rewrite andb_false_r. cbn [orb]. simp_set.
  unfold outstanding in O. rewrite Wt, app_nil_r in O. pose proof (wires_length pings (pings_wf _ Pg)) as WL.
  destruct (send_pipe Request (next_seq_ c) id payload (link_ c) w F P) as (l' & w' & E & F' & Pa & P' & I' & O').
  { split_and!; [apply K|exact Hid|exact L|exact B]. }
  { rewrite O. lia. }
  pose proof (send_preserves now_us Request (next_seq_ c) id (Some payload) (Z.of_nat (length payload)) (link_ c) w clock_write) as C.
  rewrite E in C. cbn [snd] in C. rewrite E. rewrite bool_decide_eq_true_2 by reflexivity. cbn [negb].
  assert (Pl : length (pending_payload_ c) = Z.to_nat kMaxPayload) by apply K.
  set (c0 := if _ >? 0 then _ else _).
  assert (C0 : take (length payload) (pending_payload_ c0) = payload /\ waiting_ c0 = true /\ response_ready_ c0 = false /\
    pending_msg_id_ c0 = id /\ last_command_status_ c0 = Ok /\ last_fault_ c0 = last_fault_ c /\ link_ c0 = l' /\
    pending_seq_ c0 = next_seq_ c /\ sent_at_ms_ c0 = now_ms w' /\ request_started_ms_ c0 = now_ms w' /\ retried_ c0 = false).
  { subst c0. destruct (Z.gtb_spec (Z.of_nat (length payload)) 0) as [G|G]; cbn [from_option Datatypes.id]; simp_set.
    - rewrite Nat2Z.id, firstn_all, take_store_at_front. now split_and!.
    - destruct payload; [now split_and!|cbn in G; lia]. }
  clearbody c0. destruct C0 as (C1 & C2 & C3 & C4 & C5 & C6 & C7 & C8 & C9 & C10 & C11).
  eexists _, w'. split; [reflexivity|]. simp_set. split_and!; try assumption; try reflexivity.
  split; simp_set.
  - rewrite C7. split_and!; try assumption; congruence.
  - exists pings. unfold outstanding, pending_request. simp_set. rewrite C2, C4, C8, Nat2Z.id, C1. split_and!; try assumption.
    now rewrite wires_app, <- O, wires_one.
  - intros _. split_and!; try assumption. congruence.
  - left. exact C5.
Qed.

Lemma message_no_ping cmd : (message cmd).1 <> MsgId.Ping.
Proof. destruct cmd as [| | | | |[]]; discriminate. Qed.

Lemma issue_pipe cmd c (w : W) : command_bytes cmd -> client_ok c -> calling c w ->
  client_ok (issue cmd (c, w)).2.1 /\ calling (issue cmd (c, w)).2.1 (issue cmd (c, w)).2.2.
Proof.
  intros C K Ca. split; [now apply (issue_ok cmd (c, w))|]. rewrite issue_request.
  destruct (message_ok cmd C) as (Hid & B & L). destruct (busy c) eqn:Bu.
  - unfold request, client_request, busy in *. rewrite Bu. exact Ca.
  - destruct (request_pipe _ _ c w K Ca Bu Hid (message_no_ping cmd) B L) as (c' & w' & -> & Ca' & _). exact Ca'.
Qed.

(** ** Receiving *)

(** What a received frame does to the client, whatever the time and the store. *)
Definition hear (c : McuClient) (g : Frame) : McuClient := (dispatch 0 g c TelemetryStore.new_store).1.

Lemma dispatch_hear now g c store : (dispatch now g c store).1 = hear c g.
Proof.
  unfold hear, dispatch. destruct (_ && _ && _); [reflexivity|]. destruct (_ && _ && _); [reflexivity|].
  now destruct (_ || _).
Qed.

Lemma hear_link c g l : hear (c <| link_ := l |>) g = (hear c g) <| link_ := l |>.
Proof.
  unfold hear, dispatch. simp_set. destruct (_ && _ && _); [reflexivity|]. destruct (_ && _ && _); [reflexivity|].
  destruct (_ || _); [|reflexivity]. cbn [fst]. now destruct (_ && _ && _).
Qed.

Lemma hear_all_link gs : forall c l, fold_left hear gs (c <| link_ := l |>) = (fold_left hear gs c) <| link_ := l |>.
Proof. induction gs as [|g gs IH]; intros c l; cbn [fold_left]; [reflexivity|]. now rewrite hear_link, IH. Qed.

Lemma receive_pipe fuel : forall c store (w : W) gs, client_ok c -> store_ok store -> incoming (link_ c) w gs ->
  (rx_pending w < fuel)%nat ->
  exists l store' w', receive_loop fuel c store w = Ret ((fold_left hear gs c) <| link_ := l |>, store', w') /\
    settled l w' /\ outbox w' = outbox w.
Proof.
  induction fuel as [|fuel IH]; intros c store w gs K St I B; [lia|]. cbn [receive_loop].
  destruct (poll_pipe (link_ c) w gs I) as (l & w1 & E & I1 & O1 & N1).
  destruct (poll_ok (link_ c) w (ok_link c K)) as (r & l0 & w0 & E0 & L & F & R1 & R2).
  rewrite E0 in E. simplify_eq. rewrite E0. cbn [mbind outcome_bind]. destruct gs as [|g gs]; cbn [head tail] in *.
  - exists l, store, w1. split_and!; [reflexivity|now apply N1|exact O1].
  - pose proof (client_ok_link c l K L) as K1.
    pose proof (dispatch_ok (now_ms w1) g (c <| link_ := l |>) store K1 St F) as D.
    pose proof (dispatch_hear (now_ms w1) g (c <| link_ := l |>) store) as Hd. rewrite hear_link in Hd.
    destruct (dispatch (now_ms w1) g _ store) as [c2 st2]. cbn [fst] in Hd. subst c2. destruct D as (K2 & S2 & _).
    destruct (IH _ st2 w1 gs K2 S2 I1) as (l3 & st3 & w3 & -> & S3 & O3).
    { specialize (R2 ltac:(discriminate)). lia. }
    exists l3, st3, w3. rewrite hear_all_link. split_and!; [reflexivity|exact S3|congruence].
Qed.

(** A client that hears of a fault remembers one. *)
Lemma hear_fault c g : truthful g -> last_fault_ c <> FaultCode.None \/ alarm g -> last_fault_ (hear c g) <> FaultCode.None.
Proof.
  intros T A. unfold hear, dispatch.
  destruct (bool_decide (type g = TelemetryFrame) && (msg_id g =? MsgId.Telemetry) && _) eqn:B1; cbn [fst].
  { destruct A as [A|(_ & A & _)]; [exact A|]. apply andb_true_iff in B1 as [B1 _]. apply andb_true_iff in B1 as [_ B1].
    rewrite A in B1. discriminate B1. }
  destruct (bool_decide (type g = TelemetryFrame) && (msg_id g =? MsgId.Fault) && _) eqn:B2; cbn [fst]; simp_set.
  - apply andb_true_iff in B2 as [B2 B4]. apply andb_true_iff in B2 as [B2 B3]. apply bool_decide_eq_true in B2.
    apply Z.eqb_eq in B3, B4. rewrite <- first_byte by exact B4. apply T; [exact B2|exact B3].
  - assert (K : last_fault_ c <> FaultCode.None).
    { destruct A as [A|(A1 & A2 & A3 & _)]; [exact A|]. rewrite A1, A2, A3, bool_decide_true in B2 by reflexivity. discriminate B2. }
    destruct (_ || _); [|exact K]. cbn [fst]. destruct (waiting_ c && _ && _); exact K.
Qed.

Lemma hear_all_fault gs : forall c, Forall truthful gs -> last_fault_ c <> FaultCode.None \/ List.Exists alarm gs ->
  last_fault_ (fold_left hear gs c) <> FaultCode.None.
Proof.
  induction gs as [|g gs IH]; intros c T A; cbn [fold_left].
  - destruct A as [A|A]; [exact A|inversion A].
  - apply Forall_cons in T as [T1 T]. apply IH; [exact T|]. rewrite Exists_cons in A.
    destruct A as [A|[A|A]]; [left; apply hear_fault; auto|left; apply hear_fault; auto|now right].
Qed.

(** Frames that are no answer to the pending request. *)
Definition beside (c : McuClient) (g : Frame) : Prop :=
  type g = TelemetryFrame \/ waiting_ c = false \/ msg_id g <> pending_msg_id_ c.

Lemma hear_beside c g : beside c g -> exists fault, hear c g = c <| last_fault_ := fault |>.
Proof.
  intros B. unfold hear, dispatch. destruct (_ && _ && _); [now exists (last_fault_ c); destruct c|].
  destruct (_ && _ && _); [now eexists|]. exists (last_fault_ c).
  destruct (bool_decide (type g = Response) || bool_decide (type g = Nack)) eqn:Ty; cbn [fst]; [|now destruct c].
  assert (X : waiting_ c && (msg_id g =? pending_msg_id_ c) && (seq_ g =? pending_seq_ c) = false).
  { destruct B as [B|[->|B]]; [|reflexivity|].
    - rewrite B in Ty. discriminate Ty.
    - apply Z.eqb_neq in B. rewrite B. now rewrite andb_false_r. }
  rewrite X. now destruct c.
Qed.

Lemma hear_all_beside gs : forall c, Forall (beside c) gs ->
  exists fault, fold_left hear gs c = c <| last_fault_ := fault |>.
Proof.
  induction gs as [|g gs IH]; intros c F; cbn [fold_left]; [exists (last_fault_ c); now destruct c|].
  apply Forall_cons in F as [B F]. destruct (hear_beside c g B) as [f ->].
  destruct (IH (c <| last_fault_ := f |>)) as [f' ->]; [exact F|]. now exists f'.
Qed.

(** What a poll makes of an answer to the pending request. *)
Definition answered (c : McuClient) (a : option Frame) (c' : McuClient) : Prop :=
  waiting_ c' = false /\
  match a with
  | Some g => response_ready_ c' = true /\ response_ c' = g /\
      last_command_status_ c' = (if bool_decide (type g = Response) then Ok else ProtocolError)
  | None => response_ready_ c' = response_ready_ c /\ response_ c' = response_ c /\
      last_command_status_ c' = last_command_status_ c
  end.

(** The answer among PINGs' answers and telemetry. *)
Definition answer_to (c : McuClient) (a : option Frame) : Prop :=
  match a with
  | Some g => waiting_ c = true /\ msg_id g = pending_msg_id_ c /\ seq_ g = pending_seq_ c /\
      (type g = Response \/ type g = Nack)
  | None => waiting_ c = false
  end.

Lemma hear_answer c pings a tel : answer_to c a -> pending_msg_id_ c <> MsgId.Ping \/ waiting_ c = false ->
  Forall (fun g => msg_id g = MsgId.Ping) pings -> Forall (fun g => type g = TelemetryFrame) tel ->
  answered c a (fold_left hear (pings ++ option_list a ++ tel) c).
Proof.
  intros A N Fp Ft. rewrite !fold_left_app.
  assert (Bp : Forall (beside c) pings).
  { apply (Forall_impl _ _ _ Fp). intros g E. destruct N as [N|N]; [right; right; congruence|right; now left]. }
  destruct (hear_all_beside pings c Bp) as [f1 ->]. destruct a as [g|]; cbn [option_list option_rect fold_left].
  - destruct A as (A1 & A2 & A3 & A4).
    assert (E : hear (c <| last_fault_ := f1 |>) g = c <| last_fault_ := f1 |> <| response_ := g |> <| response_ready_ := true |>
      <| waiting_ := false |> <| last_command_status_ := if bool_decide (type g = Response) then Ok else ProtocolError |>).
    { unfold hear, dispatch. simp_set. rewrite A1, A2, A3, !Z.eqb_refl. cbn [andb].
      destruct A4 as [A4|A4]; rewrite A4; reflexivity. }
    rewrite E. destruct (hear_all_beside tel (c <| last_fault_ := f1 |> <| response_ := g |> <| response_ready_ := true |>
      <| waiting_ := false |> <| last_command_status_ := if bool_decide (type g = Response) then Ok else ProtocolError |>)) as [f2 ->].
    { apply (Forall_impl _ _ _ Ft). intros x Tx. now left. }
    unfold answered. now split_and!.
  - destruct (hear_all_beside tel (c <| last_fault_ := f1 |>)) as [f2 ->].
    { apply (Forall_impl _ _ _ Ft). intros x Tx. now left. }
    unfold answered. cbn in A. now split_and!.
Qed.

(** The heartbeat puts a PING on the line, or nothing. *)
Lemma heartbeat_pipe c (w : W) : client_ok c -> settled (link_ c) w -> outbox w = [] -> waiting_ c = false -> status_known c ->
  let '(c', w') := heartbeat c w in calling c' w' /\ answered c None c'.
Proof.
  intros K St O Wt Sk. pose proof St as (F & I & P & Ib). unfold heartbeat.
  destruct (negb (waiting_ c) && _).
  2: { split; [|now split_and!]. split; [exact St| |congruence|exact Sk]. exists []. unfold outstanding. rewrite Wt. cbn. split_and!; [exact O|constructor|lia]. }
  simp_set. rewrite send_none.
  destruct (send_pipe Request (next_seq_ c) MsgId.Ping [] (link_ c) w F P) as (l' & w' & E & F' & Pa & P' & I' & O').
  { split_and!; try apply K; try (split; reflexivity || discriminate); [discriminate|constructor]. }
  { rewrite O. cbn [length]. lia. }
  change (Z.of_nat (length (@nil Z))) with 0 in E. rewrite E, bool_decide_eq_true_2 by reflexivity.
  split; [|now split_and!]. split; simp_set.
  - split_and!; try assumption; congruence.
  - exists [frame_of Request (next_seq_ c) MsgId.Ping []]. unfold outstanding. simp_set. rewrite Wt, app_nil_r, wires_one.
    split_and!; [now rewrite O', O| |cbn; lia]. constructor; [|constructor]. split; [|now split].
    apply frame_of_wf. split_and!; try apply K; try (split; reflexivity || discriminate); [discriminate|constructor].
  - congruence.
  - exact Sk.
Qed.

Lemma answered_status c a c' : answered c a c' -> status_known c -> status_known c'.
Proof.
  unfold answered, status_known. destruct a as [g|]; intros (_ & _ & _ & ->); [|auto]. destruct (bool_decide _); auto.
Qed.

Lemma client_poll_pipe c store (w : W) pings a tel gs t : client_ok c -> store_ok store -> status_known c ->
  (waiting_ c = true -> sent_at_ms_ c = u32 t /\ request_started_ms_ c = u32 t) -> now_ms w = u32 (t + 1) ->
  incoming (link_ c) w gs -> gs = pings ++ option_list a ++ tel -> outbox w = [] ->
  answer_to c a -> pending_msg_id_ c <> MsgId.Ping \/ waiting_ c = false ->
  Forall (fun g => msg_id g = MsgId.Ping) pings -> Forall (fun g => type g = TelemetryFrame) tel ->
  exists c' store' w', poll c store w = Ret (c', store', w') /\ calling c' w' /\ answered c a c' /\
    last_fault_ c' = last_fault_ (fold_left hear gs c).
Proof.
  intros K St Sk Fr N I -> O A Np Fp Ft. unfold poll. rewrite (no_timeout c w t Fr N).
  destruct (receive_pipe (S (rx_pending w)) c store w _ K St I ltac:(lia)) as (l & st' & w1 & E & S1 & O1).
  rewrite E. cbn [mbind outcome_bind]. pose proof (hear_answer c pings a tel A Np Fp Ft) as An.
  destruct (receive_loop_ok (S (rx_pending w)) c store w K St ltac:(lia)) as (c2 & st2 & w2 & E2 & K2 & _).
  rewrite E in E2. injection E2 as <- <- <-. set (c1 := (fold_left hear _ c) <| link_ := l |>) in *.
  assert (An1 : answered c a c1) by exact An.
  pose proof (heartbeat_ok c1 w1 K2) as Hf.
  pose proof (heartbeat_pipe c1 w1 K2 S1 ltac:(congruence) (proj1 An1) (answered_status c _ c1 An1 Sk)) as Hb.
  destruct (heartbeat c1 w1) as [c3 w3]. destruct Hb as [Ca (B1 & B2 & B3 & B4)]. destruct Hf as (_ & _ & _ & Hf & _).
  exists c3, st', w3. split_and!; [reflexivity|exact Ca| |exact Hf]. destruct An1 as [_ An1]. split; [exact B1|].
  destruct a; [destruct An1 as (X1 & X2 & X3)|destruct An1 as (X1 & X2 & X3)]; split_and!; congruence.
Qed.

(** What the controller does to the client besides requests. *)
Lemma calling_take c (w : W) : calling c w -> calling (take_response true c).2 w.
Proof. intros []. unfold take_response. destruct (_ || _); now split. Qed.

Lemma calling_clear_status c (w : W) : calling c w -> calling (clear_command_status c) w.
Proof. intros [S O F _]. split; [exact S|exact O| |now left]. intros Wt. destruct (F Wt) as (F1 & F2 & F3 & F4 & _). now split_and!. Qed.

Lemma calling_clear_fault c (w : W) : calling c w -> calling (clear_fault c) w.
Proof. intros []. now split. Qed.

End ClientPipe.

(** ** The safety processor on a pipe *)

Section McuPipe.
Import SafetyMcu.
Context {N : Type} `{NoiseSource N} {U : Type} `{IUart U, !UartLaws U, !Pipe U, !PipeLaws U}.
#[local] Abbreviation W := (McuWorld.McuWorld N U).

#[export] Instance mcu_pipe : Pipe W := {|
  inbox w := inbox (McuWorld.line w);
  outbox w := outbox (McuWorld.line w);
  capacity := capacity (W := U);
  pipe_ok w := pipe_ok (McuWorld.line w)
|}.

#[export] Instance mcu_pipe_laws : PipeLaws W.
Proof.
  split.
  - intros w P. cbn. pose proof (pipe_read (McuWorld.line w) P) as R. now destruct (uart_read (McuWorld.line w)).
  - intros bs w P B L. cbn. pose proof (pipe_write bs (McuWorld.line w) P B L) as R.
    now destruct (uart_write bs (McuWorld.line w)).
  - intros w P. exact (pipe_pending (McuWorld.line w) P).
Qed.

Context (room : (4000 <= capacity (W := U))%nat).

(** The controllers a command acts on. *)
Definition controls : Type := MotorController.MotorController * HeaterPid.HeaterPid.
Definition motor_idle (c : controls) : Prop := stopped c.1.
Definition heater_idle (c : controls) : Prop := HeaterPid.enabled_ c.2 = false.
Definition controls_of (s : CommandHandler.State W) : controls := (CommandHandler.motor_ s, CommandHandler.pid_ s).
Definition mcu_controls (m : SafetyMcu W) : controls := controls_of (handler_ m).

(** What the requests that turn an output off do, and that nothing but a
    request for a target turns it on. *)
Record obeys (f : Frame) (accepted : Prop) (c c' : controls) : Prop := {
  ob_heater_off : msg_id f = MsgId.HeaterOff -> payload_len f = 0 -> accepted /\ heater_idle c';
  ob_motor_stop : msg_id f = MsgId.MotorStop -> payload_len f = 0 -> accepted /\ motor_idle c';
  ob_heater : msg_id f <> MsgId.HeaterSetTarget -> heater_idle c -> heater_idle c';
  ob_motor : msg_id f <> MsgId.MotorSetTarget -> motor_idle c -> motor_idle c'
}.

(** A catalogue entry leaves the line alone. *)
Definition entry_line (f : Frame) (s : CommandHandler.State W) (r : reply_state) : Prop :=
  CommandHandler.link_ r.2 = CommandHandler.link_ s /\
  McuWorld.line (CommandHandler.world r.2) = McuWorld.line (CommandHandler.world s) /\
  bytes_ok (default [] r.1) /\ obeys f (r.1 <> None) (controls_of s) (controls_of r.2).

Lemma byte_ok b : 0 <= b < 256 -> in_u8 b.
Proof. easy. Qed.

Lemma obeys_plain f accepted c c' : msg_id f <> MsgId.HeaterOff -> msg_id f <> MsgId.MotorStop ->
  (heater_idle c -> heater_idle c') -> (motor_idle c -> motor_idle c') -> obeys f accepted c c'.
Proof. intros. split; intros; try contradiction; auto. Qed.

Lemma entry_same f s r : msg_id f <> MsgId.HeaterOff -> msg_id f <> MsgId.MotorStop -> bytes_ok (default [] r) ->
  entry_line f s (r, s).
Proof. intros N1 N2 B. split_and!; try reflexivity; [exact B|]. now apply obeys_plain. Qed.

Lemma read_raw_line (w : W) : McuWorld.line (read_raw w).2 = McuWorld.line w.
Proof. unfold read_raw, sim_scale. now destruct (ScaleModel.read_raw_counts _). Qed.

Lemma catalog_motor_line f bytes i s : msg_id f = MsgId.MotorSetTarget -> entry_line f s (catalog_motor bytes i s).
Proof.
  intros E. assert (Nil : bytes_ok []) by constructor.
  assert (Refuse : entry_line f s (None, s)) by (apply entry_same; [rewrite E; discriminate..|exact Nil]).
  unfold catalog_motor. destruct bytes as [|lo [|hi [|ramp [|x bytes]]]]; try exact Refuse. cbv zeta.
  destruct (_ || _); [|destruct (_ && _); [|exact Refuse]]; (split_and!; [reflexivity..|apply put_u16_bytes|]);
    (split; rewrite E; intros; try discriminate; try assumption; congruence).
Qed.

Lemma catalog_heater_line f bytes s : msg_id f = MsgId.HeaterSetTarget -> entry_line f s (catalog_heater bytes s).
Proof.
  intros E. assert (Nil : bytes_ok []) by constructor.
  assert (Refuse : entry_line f s (None, s)) by (apply entry_same; [rewrite E; discriminate..|exact Nil]).
  unfold catalog_heater. destruct bytes as [|lo [|hi [|x bytes]]]; try exact Refuse. cbv zeta.
  destruct (_ && _); [|exact Refuse]. split_and!; [reflexivity..|exact Nil|].
  split; rewrite E; intros; try discriminate; try assumption; congruence.
Qed.

Lemma current_grams_line (s : CommandHandler.State W) g s1 : CommandHandler.current_grams s = Ret (g, s1) ->
  exists w, s1 = s <| CommandHandler.world := w |> /\ McuWorld.line w = McuWorld.line (CommandHandler.world s).
Proof.
  unfold CommandHandler.current_grams. pose proof (read_raw_line (CommandHandler.world s)) as L.
  destruct (read_raw (CommandHandler.world s)) as [raw w]. cbn [snd] in L.
  destruct (negb _); [intros [= <- <-]; now exists w|]. destruct (_ || _); [discriminate|].
  destruct (to_i32 _); [|discriminate]. cbn. intros [= <- <-]. now exists w.
Qed.

Lemma catalog_plain_line f i s r : frame_payload f = [] -> frame_wf f ->
  catalog_plain (msg_id f) i s = Ret r -> entry_line f s r.
Proof.
  intros P Wf. assert (Nil : bytes_ok []) by constructor. unfold catalog_plain.
  repeat match goal with |- context [msg_id f =? ?k] => destruct (Z.eqb_spec (msg_id f) k) as [E|?] end.
  - intros [= <-]. apply entry_same; [rewrite E; discriminate..|exact Nil].
  - intros [= <-]. apply entry_same; [rewrite E; discriminate..|]. repeat constructor; discriminate.
  - cbn [MotorController.stop]. intros [= <-]. split_and!; [reflexivity..|exact Nil|].
    split; rewrite E; intros; try discriminate; try assumption; (split; [discriminate|]) || idtac; split; reflexivity.
  - intros [= <-]. split_and!; [reflexivity..|exact Nil|].
    split; rewrite E; intros; try discriminate; try assumption; try reflexivity. now split.
  - intros [= <-]. unfold catalog_tare. pose proof (read_raw_line (CommandHandler.world s)) as L.
    destruct (_ <=? _); [|apply entry_same; [rewrite E; discriminate..|exact Nil]].
    destruct (read_raw (CommandHandler.world s)) as [raw w]. cbn [snd] in L.
    destruct (Result.is_ok raw); (split_and!; [reflexivity|exact L|exact Nil|]);
      (apply obeys_plain; [rewrite E; discriminate..|auto|auto]).
  - intros R. apply bind_ret in R as ([g s1] & G & R). injection R as <-.
    apply current_grams_line in G as (w & -> & L). split_and!; [reflexivity|exact L|apply put_u32_bytes|].
    apply obeys_plain; [rewrite E; discriminate..|auto|auto].
  - intros [= <-]. split_and!; [reflexivity..| |].
    + constructor; [|constructor]. cbn. destruct (LidModel.locked_ _); split; reflexivity || discriminate.
    + apply obeys_plain; [rewrite E; discriminate..|auto|auto].
  - destruct (_ <? _); intros [= <-]; [|apply entry_same; [rewrite E; discriminate..|exact Nil]].
    split_and!; [reflexivity..|exact Nil|]. apply obeys_plain; [rewrite E; discriminate..|auto|auto].
  - intros [= <-]. now apply entry_same.
Qed.

Lemma catalog_line f i faulted s r : frame_wf f -> catalog f i faulted s = Ret r -> entry_line f s r.
Proof.
  intros Wf. assert (Nil : bytes_ok []) by constructor. unfold catalog.
  destruct (faulted && negb (CommandHandler.allowed_when_faulted (msg_id f))) eqn:A.
  { intros [= <-]. apply andb_true_iff in A as [_ A]. apply negb_true_iff in A.
    apply entry_same; [intros E; rewrite E in A; discriminate A..|exact Nil]. }
  destruct (Z.eqb_spec (msg_id f) 16) as [E|]; [intros [= <-]; now apply catalog_motor_line|].
  destruct (Z.eqb_spec (msg_id f) 32) as [E|]; [intros [= <-]; now apply catalog_heater_line|].
  destruct (frame_payload f) as [|b p] eqn:P; [now apply catalog_plain_line|]. intros [= <-].
  assert (L : payload_len f <> 0).
  { intros L. destruct (payload_cases f Wf) as ([X _] & _). rewrite (X L) in P. discriminate P. }
  split_and!; [reflexivity..|exact Nil|]. split; intros; auto; contradiction.
Qed.

(** An answer carries the id and the number of its request. *)
Definition answers (f a : Frame) : Prop :=
  frame_wf a /\ seq_ a = seq_ f /\ msg_id a = msg_id f /\ (type a = Response \/ type a = Nack).

(** The frames queued for the application, and a parser left alone. *)
Definition says (fs : list Frame) (m m' : SafetyMcu W) : Prop :=
  flushed (link_ m') /\ Link.parser_ (link_ m') = Link.parser_ (link_ m) /\ pipe_ok (world m') /\
  inbox (world m') = inbox (world m) /\ outbox (world m') = outbox (world m) ++ wires fs.

Lemma transmit_pipe ty f payload (s : CommandHandler.State W) : flushed (CommandHandler.link_ s) -> pipe_ok (CommandHandler.world s) ->
  (length (outbox (CommandHandler.world s)) + 260 <= capacity (W := U))%nat ->
  frame_wf f -> bytes_ok (default [] payload) -> Z.of_nat (length (default [] payload)) <= kMaxPayload ->
  let a := frame_of ty (seq_ f) (msg_id f) (default [] payload) in
  let s' := CommandHandler.transmit ty f payload s in
  frame_wf a /\ flushed (CommandHandler.link_ s') /\
  Link.parser_ (CommandHandler.link_ s') = Link.parser_ (CommandHandler.link_ s) /\
  pipe_ok (CommandHandler.world s') /\ inbox (CommandHandler.world s') = inbox (CommandHandler.world s) /\
  outbox (CommandHandler.world s') = outbox (CommandHandler.world s) ++ wire kVersion a /\
  controls_of s' = controls_of s.
Proof.
  intros F P R Wf B L a s'. assert (M : message_wf (ty, seq_ f, msg_id f, default [] payload)) by (split_and!; try assumption; apply Wf).
  unfold s', CommandHandler.transmit.
  assert (E : Link.send ty (seq_ f) (msg_id f) payload
                (match payload with Some p => Z.of_nat (length p) | None => 0 end) (CommandHandler.link_ s) (CommandHandler.world s)
              = Link.send ty (seq_ f) (msg_id f) (Some (default [] payload))
                (Z.of_nat (length (default [] payload))) (CommandHandler.link_ s) (CommandHandler.world s))
    by (destruct payload; reflexivity).
  rewrite E. destruct (send_pipe ty (seq_ f) (msg_id f) (default [] payload) _ _ F P M R) as (l & w & -> & F' & Pa & P' & I & O).
  simp_set. split_and!; try assumption; [|reflexivity]. now apply frame_of_wf.
Qed.

Lemma handle_pipe f i faulted (s s' : CommandHandler.State W) : handler_ok s -> flushed (CommandHandler.link_ s) ->
  pipe_ok (CommandHandler.world s) -> (length (outbox (CommandHandler.world s)) + 260 <= capacity (W := U))%nat ->
  frame_wf f -> type f = Request -> CommandHandler.handle f i faulted s = Ret s' ->
  exists a, answers f a /\ flushed (CommandHandler.link_ s') /\
    Link.parser_ (CommandHandler.link_ s') = Link.parser_ (CommandHandler.link_ s) /\
    pipe_ok (CommandHandler.world s') /\ inbox (CommandHandler.world s') = inbox (CommandHandler.world s) /\
    outbox (CommandHandler.world s') = outbox (CommandHandler.world s) ++ wire kVersion a /\
    obeys f (type a = Response) (controls_of s) (controls_of s').
Proof.
  intros Hs F P R Wf T. rewrite handle_catalog by assumption. intros E. apply bind_ret in E as (r & C & E).
  injection E as <-. pose proof (catalog_effect f i faulted s Wf Hs) as Ef. rewrite C in Ef. destruct Ef as (Q & _ & _).
  pose proof (catalog_line f i faulted s r Wf C) as (L1 & L2 & B & Ob). destruct r as [reply s1]. cbn [fst snd] in *.
  unfold reply_short in Q.
  assert (Tr : forall ty p, default [] p = default [] reply ->
    let a := frame_of ty (seq_ f) (msg_id f) (default [] reply) in
    let s2 := CommandHandler.transmit ty f p s1 in
    frame_wf a /\ flushed (CommandHandler.link_ s2) /\
    Link.parser_ (CommandHandler.link_ s2) = Link.parser_ (CommandHandler.link_ s) /\
    pipe_ok (CommandHandler.world s2) /\ inbox (CommandHandler.world s2) = inbox (CommandHandler.world s) /\
    outbox (CommandHandler.world s2) = outbox (CommandHandler.world s) ++ wire kVersion a /\
    controls_of s2 = controls_of s1).
  { intros ty p Dp. rewrite <- L1, <- Dp. rewrite <- Dp in Q, B.
    replace (inbox (CommandHandler.world s)) with (inbox (CommandHandler.world s1)) by exact (f_equal inbox L2).
    replace (outbox (CommandHandler.world s)) with (outbox (CommandHandler.world s1)) by exact (f_equal outbox L2).
    apply transmit_pipe; try assumption; try (now rewrite L1).
    - cbn. now rewrite L2.
    - cbn. rewrite L2. exact R.
    - unfold kMaxPayload. lia. }
  destruct reply as [bytes|]; unfold answer.
  - pose proof (Tr Response (if (length bytes =? 0)%nat then None else Some bytes)
      ltac:(destruct bytes; reflexivity)) as (A1 & A2 & A3 & A4 & A5 & A6 & A7).
    exists (frame_of Response (seq_ f) (msg_id f) bytes). split; [split_and!; try reflexivity; [exact A1|now left]|].
    unfold CommandHandler.respond. split_and!; try assumption. rewrite A7. cbn [type frame_of].
    destruct Ob as [O1 O2 O3 O4]. split; auto; intros X Y; (split; [reflexivity|]); [now apply O1|now apply O2].
  - pose proof (Tr Nack None eq_refl) as (A1 & A2 & A3 & A4 & A5 & A6 & A7).
    exists (frame_of Nack (seq_ f) (msg_id f) []). split; [split_and!; try reflexivity; [exact A1|now right]|].
    unfold CommandHandler.nack. split_and!; try assumption. rewrite A7.
    destruct Ob as [O1 O2 O3 O4]. split; auto; intros X Y; exfalso; [now apply (O1 X Y)|now apply (O2 X Y)].
Qed.

(** Requests served one after the other: their answers, and what has become of
    the controllers. *)
Inductive serves : list Frame -> controls -> list Frame -> controls -> Prop :=
| serves_none c : serves [] c [] c
| serves_more f fs a bs c c1 c2 : answers f a -> obeys f (type a = Response) c c1 -> serves fs c1 bs c2 ->
    serves (f :: fs) c (a :: bs) c2.

Lemma serves_wf fs c bs c' : serves fs c bs c' -> Forall frame_wf bs /\ length bs = length fs.
Proof. induction 1 as [|f fs a bs c c1 c2 [A _] _ _ [IH1 IH2]]; [now split|]. cbn. auto. Qed.

Lemma serves_answers fs c bs c' : serves fs c bs c' -> Forall2 answers fs bs.
Proof. induction 1; constructor; assumption. Qed.

(** Nothing but a request for a target turns an output on. *)
Lemma serves_heater fs c bs c' : serves fs c bs c' -> Forall (fun f => msg_id f <> MsgId.HeaterSetTarget) fs ->
  heater_idle c -> heater_idle c'.
Proof.
  induction 1 as [|f fs a bs c c1 c2 _ O _ IH]; intros Fs Hi; [exact Hi|]. apply Forall_cons in Fs as [F Fs].
  apply IH; [exact Fs|]. now apply (ob_heater _ _ _ _ O).
Qed.

Lemma serves_motor fs c bs c' : serves fs c bs c' -> Forall (fun f => msg_id f <> MsgId.MotorSetTarget) fs ->
  motor_idle c -> motor_idle c'.
Proof.
  induction 1 as [|f fs a bs c c1 c2 _ O _ IH]; intros Fs Hi; [exact Hi|]. apply Forall_cons in Fs as [F Fs].
  apply IH; [exact Fs|]. now apply (ob_motor _ _ _ _ O).
Qed.

Lemma serves_last fs f c bs c' : serves (fs ++ [f]) c bs c' ->
  exists bs0 a c1, bs = bs0 ++ [a] /\ serves fs c bs0 c1 /\ answers f a /\ obeys f (type a = Response) c1 c'.
Proof.
  revert c bs. induction fs as [|g fs IH]; intros c bs Sv; cbn [app] in Sv.
  - inversion Sv as [|? ? a ? ? c1 ? A O Sv']; subst. inversion Sv'; subst. exists [], a, c. split_and!; auto. constructor.
  - inversion Sv as [|? ? b ? ? c1 ? A O Sv']; subst. destruct (IH _ _ Sv') as (bs1 & a & c2 & -> & S0 & A2 & O2).
    exists (b :: bs1), a, c2. split_and!; auto. now apply serves_more with c1.
Qed.

Lemma serve_frame_pipe f m m' : mcu_ok m -> flushed (link_ m) -> pipe_ok (world m) ->
  (length (outbox (world m)) + 260 <= capacity (W := U))%nat -> frame_wf f -> type f = Request ->
  serve_frame f m = Ret m' ->
  exists a, answers f a /\ says [a] m m' /\ obeys f (type a = Response) (mcu_controls m) (mcu_controls m').
Proof.
  intros Hm F P R Wf T. unfold serve_frame. rewrite T, bool_decide_true by reflexivity. cbv zeta. intros E.
  apply bind_ret in E as (h & Hd & E).
  destruct (handle_pipe f _ _ _ h (mo_handler _ Hm) F P R Wf T Hd) as (a & A & F' & Pa & P' & I & O & Ob).
  exists a. split; [exact A|].
  assert (X : handler_ m' = h) by (injection E as <-; match goal with |- context [if ?b then _ else _] => now destruct b end).
  unfold says, mcu_controls, link_, world. rewrite X, wires_one. split; [now split_and!|exact Ob].
Qed.

Lemma incoming_same l l' (w w' : W) gs : incoming l w gs -> flushed l' -> Link.parser_ l' = Link.parser_ l ->
  pipe_ok w' -> inbox w' = inbox w -> incoming l' w' gs.
Proof. intros (_ & _ & q & E & I) F Pa P Ib. split_and!; try assumption. exists q. now rewrite Pa, Ib. Qed.

Lemma serve_loop_pipe fuel : forall m gs m', mcu_ok m -> incoming (link_ m) (world m) gs ->
  Forall (fun f => type f = Request) gs ->
  (length (outbox (world m)) + 260 * length gs <= capacity (W := U))%nat -> serve_loop fuel m = Ret m' ->
  exists bs, serves gs (mcu_controls m) bs (mcu_controls m') /\ settled (link_ m') (world m') /\
    outbox (world m') = outbox (world m) ++ wires bs.
Proof.
  induction fuel as [|fuel IH]; intros m gs m' Hm I Rq R E; [discriminate|]. cbn [serve_loop] in E.
  apply bind_ret in E as ([[r l] w] & E1 & E). pose proof Hm as [(Hl & _) _ _ _].
  destruct (poll_pipe (link_ m) (world m) gs I) as (l1 & w1 & E2 & I1 & O1 & N1). rewrite E1 in E2. injection E2 as -> <- <-.
  destruct (poll_ok (link_ m) (world m) Hl) as (r & l0 & w0 & E0 & L0 & F0 & _). rewrite E1 in E0. injection E0 as <- <- <-.
  destruct gs as [|g gs]; cbn [head tail] in *.
  - injection E as <-. exists []. split_and!; [constructor|exact (N1 eq_refl)|]. unfold wires. cbn [fmap list_fmap concat].
    now rewrite app_nil_r.
  - apply bind_ret in E as (m2 & E3 & E). set (m1 := with_world w (with_link l m)) in *.
    assert (Hm1 : mcu_ok m1) by now apply received_ok.
    apply Forall_cons in Rq as [T Rq]. cbn [length] in R.
    destruct I1 as (F1 & P1 & X1). assert (Om : outbox (world m1) = outbox (world m)) by exact O1.
    destruct (serve_frame_pipe g m1 m2 Hm1 F1 P1) as (a & A & (S1 & S2 & S3 & S4 & S5) & Ob); try assumption.
    { rewrite Om. lia. }
    pose proof (serve_frame_ok g m1 F0 Hm1) as K2. rewrite E3 in K2. destruct K2 as [K2 _].
    pose proof (wire_length a (proj1 A)) as WL. rewrite wires_one in S5.
    destruct (IH m2 gs m' K2) as (bs & Sv & St & O); try assumption.
    { refine (incoming_same l _ w _ gs _ S1 S2 S3 S4). now split. }
    { rewrite S5, length_app, Om. lia. }
    exists (a :: bs). split_and!; [exact (serves_more g gs a bs _ _ _ A Ob Sv)|exact St|].
    rewrite O, S5, Om. change (a :: bs) with ([a] ++ bs). now rewrite wires_app, wires_one, app_assoc.
Qed.

(** The phases around the receive loop: they leave the line alone and turn
    nothing on. *)
Definition inside (m m' : SafetyMcu W) : Prop :=
  link_ m' = link_ m /\ McuWorld.line (world m') = McuWorld.line (world m) /\
  (heater_idle (mcu_controls m) -> heater_idle (mcu_controls m')) /\
  (motor_idle (mcu_controls m) -> motor_idle (mcu_controls m')).

Lemma inside_refl m : inside m m.
Proof. now split_and!. Qed.

Lemma inside_trans m1 m2 m3 : inside m1 m2 -> inside m2 m3 -> inside m1 m3.
Proof. intros (A1 & A2 & A3 & A4) (B1 & B2 & B3 & B4). split_and!; auto; congruence. Qed.

Lemma enter_fault_inside code m : inside m (enter_fault code m).
Proof. split; [reflexivity|]. split; [reflexivity|]. split; intros _; [reflexivity|split; reflexivity]. Qed.

Lemma sample_inside m : inside m (sample_phase m).
Proof.
  unfold sample_phase, sample_inputs.
  assert (L : McuWorld.line (read_deci_celsius (world m)).2 = McuWorld.line (world m)).
  { unfold read_deci_celsius, sim_temp. now destruct (SimBoard.read_deci_celsius _). }
  destruct (read_deci_celsius (world m)) as [r w]. cbn [snd] in L.
  assert (X : forall m', handler_ m' = handler_ (with_world w m) -> inside m m').
  { intros m' E. unfold inside, mcu_controls, link_, world. rewrite E. now split_and!. }
  destruct (negb _); cbn [negb andb]; [destruct (negb _)|]; try (now apply X).
  eapply inside_trans; [|apply enter_fault_inside]. now apply X.
Qed.

Lemma supervision_inside m : inside m (supervise_phase (interlock_phase m)).
Proof.
  apply (inside_trans _ (interlock_phase m)).
  - unfold interlock_phase. destruct (_ =? _); [|apply inside_refl]. cbv zeta.
    destruct (negb _); [apply enter_fault_inside|apply inside_refl].
  - unfold supervise_phase. destruct (_ && _ && _); [apply enter_fault_inside|apply inside_refl].
Qed.

Lemma drive_inside m : mcu_ok m -> inside m (drive_phase m).2.
Proof.
  intros Hm. pose proof (heater_watts_ok m Hm) as HW. unfold drive_phase, MotorController.tick_1ms. cbv zeta.
  set (cap := Interlocks.continuous_cap (inputs_ m)). pose proof (continuous_cap_range (inputs_ m)) as CR. fold cap in CR.
  pose proof (stopped_drive cap (motor_ctrl_ m)) as SD. cbv zeta in SD.
  fields.
  match type of HW with context [if ?b then HeaterPid.update ?x ?y ?z else ?e] =>
    destruct (if b then HeaterPid.update x y z else e) as [watts p] end.
  destruct HW as (_ & _ & _ & Ep & _). fields.
  split_and!; try reflexivity; unfold heater_idle, motor_idle, mcu_controls, controls_of; fields; cbn [fst snd].
  - congruence.
  - intros S. now apply SD.
Qed.

(** Telemetry: at most a fault and a reading a tick. *)
Definition is_telemetry (f : Frame) : Prop := frame_wf f /\ type f = TelemetryFrame /\ truthful f.

Lemma send_telemetry seq id payload l (w : W) : settled l w -> message_wf (TelemetryFrame, seq, id, payload) ->
  (length (outbox w) + 260 <= capacity (W := U))%nat ->
  exists l' w', Link.send TelemetryFrame seq id (Some payload) (Z.of_nat (length payload)) l w = (Ok, l', w') /\
    settled l' w' /\ outbox w' = outbox w ++ wires [frame_of TelemetryFrame seq id payload].
Proof.
  intros (F & I & P & Ib) M R.
  destruct (send_pipe TelemetryFrame seq id payload l w F P M R) as (l' & w' & E & F' & Pa & P' & I' & O').
  exists l', w'. split; [exact E|]. split; [split_and!; try assumption; congruence|].
  rewrite wires_one. exact O'.
Qed.

Lemma telemetry_frame seq id payload : message_wf (TelemetryFrame, seq, id, payload) ->
  (id = MsgId.Fault -> nth 0 payload 0 <> FaultCode.None) -> is_telemetry (frame_of TelemetryFrame seq id payload).
Proof.
  intros M T. split_and!; [now apply frame_of_wf|reflexivity|]. intros _ I. rewrite frame_of_payload by apply M. now apply T.
Qed.

Lemma pending_pipe p l (w : W) : in_u8 (TelemetryPublisher.seq_ p) -> in_u8 (TelemetryPublisher.pending_fault_ p) -> settled l w ->
  (length (outbox w) + 520 <= capacity (W := U))%nat ->
  let '(go, p1, l1, w1) := TelemetryPublisher.publish_pending p l w in
  go = true /\ in_u8 (TelemetryPublisher.seq_ p1) /\ TelemetryPublisher.pending_fault_ p1 = FaultCode.None /\ settled l1 w1 /\
  exists tel, outbox w1 = outbox w ++ wires tel /\ Forall is_telemetry tel /\ (length tel <= 1)%nat /\
    (TelemetryPublisher.pending_fault_ p <> FaultCode.None -> List.Exists alarm tel).
Proof.
  intros Sq Pf St R. unfold TelemetryPublisher.publish_pending.
  destruct (Z.eqb_spec (TelemetryPublisher.pending_fault_ p) FaultCode.None) as [E|E].
  - split_and!; try assumption; try reflexivity; try apply Sq; try apply St. exists []. unfold wires. cbn. rewrite app_nil_r.
    split_and!; [reflexivity|constructor|lia|contradiction].
  - assert (M : message_wf (TelemetryFrame, TelemetryPublisher.seq_ p, MsgId.Fault, [u8 (TelemetryPublisher.pending_fault_ p)])).
    { split_and!; try apply Sq; try (split; reflexivity || discriminate); [discriminate|].
      constructor; [apply u8_range|constructor]. }
    assert (T : nth 0 [u8 (TelemetryPublisher.pending_fault_ p)] 0 <> FaultCode.None) by (cbn; now rewrite u8_id).
    destruct (send_telemetry _ _ _ l w St M ltac:(lia)) as (l1 & w1 & Es & S1 & O1).
    change (Z.of_nat (length [u8 (TelemetryPublisher.pending_fault_ p)])) with 1 in Es. rewrite Es, bool_decide_true by reflexivity. cbn [negb].
    split_and!; try reflexivity; try assumption; try apply u8_range; try apply S1.
    exists [frame_of TelemetryFrame (TelemetryPublisher.seq_ p) MsgId.Fault [u8 (TelemetryPublisher.pending_fault_ p)]].
    split_and!; [exact O1|constructor; [now apply telemetry_frame|constructor]|cbn; lia|].
    intros _. left. split_and!; try reflexivity. rewrite frame_of_payload by discriminate. exact T.
Qed.

Lemma publish_pipe data p l (w : W) : in_u8 (TelemetryPublisher.seq_ p) -> in_u8 (TelemetryPublisher.pending_fault_ p) ->
  in_u8 (flags data) -> settled l w -> (length (outbox w) + 520 <= capacity (W := U))%nat ->
  let '(p', l', w') := TelemetryPublisher.maybe_publish data p l w in
  in_u8 (TelemetryPublisher.seq_ p') /\ TelemetryPublisher.pending_fault_ p' = FaultCode.None /\ settled l' w' /\
  exists tel, outbox w' = outbox w ++ wires tel /\ Forall is_telemetry tel /\
    (TelemetryPublisher.pending_fault_ p <> FaultCode.None -> List.Exists alarm tel).
Proof.
  intros Sq Pf Fl St R. unfold TelemetryPublisher.maybe_publish. pose proof (pending_pipe p l w Sq Pf St R) as Pp.
  destruct (TelemetryPublisher.publish_pending p l w) as [[[go p1] l1] w1].
  destruct Pp as (-> & Sq1 & N1 & S1 & tel & O1 & T1 & L1 & A1). cbn [negb]. cbv zeta.
  destruct (_ <? _); [split_and!; try assumption; try apply Sq1; try apply S1; now exists tel|].
  assert (M : message_wf (TelemetryFrame, TelemetryPublisher.seq_ p1, MsgId.Telemetry, encode_telemetry data)).
  { split_and!; try apply Sq1; try (split; reflexivity || discriminate);
      [rewrite length_encode_telemetry; discriminate|now apply encode_telemetry_bytes]. }
  destruct (send_telemetry _ _ _ l1 w1 S1 M) as (l2 & w2 & E & S2 & O2).
  { rewrite O1, length_app. pose proof (wires_length tel (Forall_impl _ _ _ T1 (fun f X => proj1 X))). lia. }
  change (Z.of_nat (length (encode_telemetry data))) with kTelemetryPayloadSize in E.
  rewrite E, bool_decide_true by reflexivity. split_and!; try assumption; try apply u8_range; try apply S2.
  eexists (tel ++ [_]). rewrite O2, O1, wires_app, app_assoc. split; [reflexivity|]. split.
  - apply Forall_app. split; [exact T1|]. constructor; [|constructor]. now apply telemetry_frame.
  - intros A. apply Exists_app. left. now apply A1.
Qed.

(** What a tick makes of the requests that have arrived. *)
Record tick_served (m : SafetyMcu W) (gs : list Frame) (m' : SafetyMcu W) (bs tel : list Frame) : Prop := {
  sv_settled : settled (link_ m') (world m');
  sv_out : outbox (world m') = wires (bs ++ tel);
  sv_telemetry : Forall is_telemetry tel;
  sv_seq : in_u8 (TelemetryPublisher.seq_ (telemetry_ m'));
  sv_pending : TelemetryPublisher.pending_fault_ (telemetry_ m') = FaultCode.None;
  sv_fault : fault_ m' <> FaultCode.None -> fault_ m <> FaultCode.None \/ List.Exists alarm tel;
  sv_obeyed : exists c0 c1, serves gs c0 bs c1 /\
    (heater_idle (mcu_controls m) -> heater_idle c0) /\ (motor_idle (mcu_controls m) -> motor_idle c0) /\
    (heater_idle c1 -> heater_idle (mcu_controls m')) /\ (motor_idle c1 -> motor_idle (mcu_controls m'))
}.

(** A fault is either one that was there before, as [K] says, or about to be
    announced. *)
Definition announced (K : Prop) (m : SafetyMcu W) : Prop :=
  in_u8 (TelemetryPublisher.seq_ (telemetry_ m)) /\ in_u8 (TelemetryPublisher.pending_fault_ (telemetry_ m)) /\
  (fault_ m <> FaultCode.None -> K \/ TelemetryPublisher.pending_fault_ (telemetry_ m) <> FaultCode.None).

Lemma enter_fault_announced K code (m : SafetyMcu W) : in_u8 code -> code <> FaultCode.None -> announced K m ->
  announced K (enter_fault code m).
Proof. intros C Nc (S & _ & _). split; [exact S|]. split; [exact C|]. intros _. now right. Qed.

Lemma announced_same K (m m' : SafetyMcu W) : telemetry_ m' = telemetry_ m ->
  fault_ m' = fault_ m \/ fault_ m' = FaultCode.None -> announced K m -> announced K m'.
Proof.
  intros E F A. unfold announced. rewrite E. destruct A as (A1 & A2 & A3). split; [exact A1|]. split; [exact A2|].
  destruct F as [-> | ->]; [exact A3|contradiction].
Qed.

Lemma serve_frame_same (m : SafetyMcu W) f m' : serve_frame f m = Ret m' ->
  telemetry_ m' = telemetry_ m /\ (fault_ m' = fault_ m \/ fault_ m' = FaultCode.None).
Proof.
  unfold serve_frame. cbv zeta. intros E. apply bind_ret in E as (h & _ & E). injection E as <-.
  destruct (bool_decide (type f = Request)); cbn [andb]; [|now split; [|left]].
  match goal with |- context [if ?b then _ else _] => destruct b end; (split; [reflexivity|]); [now right|now left].
Qed.

Lemma serve_loop_announced K fuel : forall (m : SafetyMcu W) m', serve_loop fuel m = Ret m' -> announced K m -> announced K m'.
Proof.
  induction fuel as [|fuel IH]; intros m m' E A; [discriminate|]. cbn [serve_loop] in E.
  apply bind_ret in E as ([[r l] w] & _ & E). destruct r as [f|]; [|now injection E as <-].
  apply bind_ret in E as (m2 & E2 & E). apply serve_frame_same in E2 as [T F]. apply (IH m2 m' E).
  exact (announced_same K _ m2 T F A).
Qed.

Lemma sample_announced K (m : SafetyMcu W) : announced K m -> announced K (sample_phase m).
Proof.
  intros A. unfold sample_phase, sample_inputs. destruct (read_deci_celsius (world m)) as [r w].
  destruct (negb _); cbn [negb andb]; [destruct (negb _)|]; try exact A.
  apply enter_fault_announced; [split; reflexivity || discriminate|discriminate|exact A].
Qed.

Lemma supervision_announced K (m : SafetyMcu W) : announced K m -> announced K (supervise_phase (interlock_phase m)).
Proof.
  intros A. assert (A1 : announced K (interlock_phase m)).
  { unfold interlock_phase. destruct (fault_ m =? FaultCode.None); [|exact A]. cbv zeta.
    destruct (Z.eqb_spec (Interlocks.evaluate (inputs_ m)) FaultCode.None) as [E|E]; cbn [negb]; [exact A|].
    apply enter_fault_announced; [|exact E|exact A]. unfold Interlocks.evaluate.
    destruct (fge _ _); [split; reflexivity || discriminate|]. destruct (Interlocks.motor_stalled _); split; reflexivity || discriminate. }
  unfold supervise_phase. destruct (_ && _ && _); [|exact A1].
  apply enter_fault_announced; [split; reflexivity || discriminate|discriminate|exact A1].
Qed.

Lemma drive_announced K (m : SafetyMcu W) : announced K m -> announced K (drive_phase m).2.
Proof.
  intros A. refine (announced_same K m _ _ (or_introl _) A); unfold drive_phase; cbv zeta;
    (match goal with |- context [let '(_, _) := ?x in _] => destruct x as [watts p] end); reflexivity.
Qed.

Lemma inside_settled m m' : inside m m' -> settled (link_ m) (world m) -> settled (link_ m') (world m').
Proof. intros (E & L & _) (F & I & P & Ib). unfold settled. rewrite E. cbn in *. rewrite L. now split_and!. Qed.

Lemma tick_pipe m gs m' : mcu_ok m -> in_u8 (TelemetryPublisher.seq_ (telemetry_ m)) ->
  TelemetryPublisher.pending_fault_ (telemetry_ m) = FaultCode.None ->
  incoming (link_ m) (world m) gs -> Forall (fun f => type f = Request) gs -> (length gs <= 4)%nat ->
  outbox (world m) = [] -> SafetyMcu.tick_1ms m = Ret m' -> exists bs tel, tick_served m gs m' bs tel.
Proof.
  intros Hm Sq Pf I Rq Lg O. unfold SafetyMcu.tick_1ms. set (m0 := m <| tick_count_ := _ |>).
  assert (A0 : announced (fault_ m <> FaultCode.None) m0).
  { split; [exact Sq|]. split; [|now left]. replace (TelemetryPublisher.pending_fault_ _) with FaultCode.None by (symmetry; exact Pf).
    split; reflexivity || discriminate. }
  assert (H0' : mcu_ok m0) by (destruct Hm; subst m0; split; fields; assumption).
  pose proof (sample_phase_ok m0 H0') as (H1' & _ & _). pose proof (sample_inside m0) as N1. pose proof (sample_announced _ m0 A0) as A1.
  set (m1 := sample_phase m0) in *. clearbody m1. cbv zeta. intros E. apply bind_ret in E as (m2 & E2 & E).
  pose proof N1 as (L1 & W1 & C1 & D1).
  assert (I1 : incoming (link_ m1) (world m1) gs).
  { destruct I as (F & P & q & X & Iq). unfold incoming. rewrite L1. cbn in *. rewrite W1. split_and!; try assumption. now exists q. }
  assert (O1 : outbox (world m1) = []) by (cbn in *; now rewrite W1).
  destruct (serve_loop_pipe _ m1 gs m2 H1' I1 Rq ltac:(rewrite O1; cbn [length]; lia) E2) as (bs & Sv & St2 & O2).
  rewrite O1 in O2. cbn [app] in O2. pose proof (serve_loop_announced _ _ _ _ E2 A1) as A2.
  assert (H2' : mcu_ok m2).
  { pose proof (serve_loop_ok (S (rx_pending (world m1))) m1 ltac:(lia) H1') as X. rewrite E2 in X. apply X. }
  pose proof (interlock_phase_ok m2 H2') as (H3' & _). pose proof (supervise_phase_ok _ H3') as (H4' & _).
  pose proof (supervision_inside m2) as N2. pose proof (supervision_announced _ m2 A2) as A4.
  set (m4 := supervise_phase (interlock_phase m2)) in *. clearbody m4.
  pose proof (drive_inside m4 H4') as N3. pose proof (drive_announced _ m4 A4) as A5. destruct (drive_phase m4) as [watts m5]. cbn [snd] in N3, A5.
  destruct A5 as (Sq5 & Pf5 & Ft5).
  pose proof (inside_trans _ _ _ N2 N3) as N23. pose proof (inside_settled _ _ N23 St2) as St5. destruct N23 as (L5 & W5 & C5 & D5).
  unfold publish_phase in E. apply bind_ret in E as (deci & _ & E). apply bind_ret in E as ([g h] & G & E).
  apply current_grams_line in G as (w & -> & Lw). cbv zeta in E. set (data := Build_TelemetryData _ _ _ _ _) in E.
  destruct (serves_wf _ _ _ _ Sv) as [Wb Lb]. pose proof (wires_length bs Wb) as WL.
  assert (Ow : outbox w = wires bs).
  { etrans; [exact (f_equal (outbox (W := U)) (eq_trans Lw W5))|exact O2]. }
  pose proof (publish_pipe data (telemetry_ m5) (link_ m5) w) as Pb.
  match type of E with (let '(_, _) := TelemetryPublisher.maybe_publish ?a ?b ?c ?d in _) = _ =>
    change (TelemetryPublisher.maybe_publish a b c d) with (TelemetryPublisher.maybe_publish data (telemetry_ m5) (link_ m5) w) in E end.
  destruct (TelemetryPublisher.maybe_publish data (telemetry_ m5) (link_ m5) w) as [[p l] w'].
  destruct Pb as (P1 & P2 & P3 & tel & P4 & P5 & P6).
  { exact Sq5. }
  { exact Pf5. }
  { apply u8_range. }
  { destruct St5 as (F & Ip & P & Ib). split_and!; [exact F|exact Ip|exact (eq_ind_r (pipe_ok (W := U)) P Lw)|].
    exact (eq_trans (f_equal (inbox (W := U)) Lw) Ib). }
  { rewrite Ow. lia. }
  injection E as <-. exists bs, tel. split; try assumption.
  - rewrite wires_app, <- Ow. exact P4.
  - intros F. destruct (Ft5 F) as [X|X]; [now left|right; exact (P6 X)].
  - exists (mcu_controls m1), (mcu_controls m2). split_and!; assumption.
Qed.

End McuPipe.
