(* ===== verification/Lockstep.v ===== *)
(** * The device in lockstep

    Board, safety processor and application share a clock and a line that loses
    nothing: every request is answered within the millisecond it is served in, so
    what the application knows of the safety processor is what the safety
    processor does. *)

From stdpp Require Import relations.
From S2P Require Import Prelude.
From S2P Require Import Float32.
From S2P Require Import Common.
From S2P Require Import C1Link.
From S2P Require Import Hal.
From S2P Require Import Link.
From S2P Require Import Mcu.
From S2P Require Import SafetyMcu.
From S2P Require Import Supervision.
From S2P Require Import Sim.
From S2P Require Import TelemetryStore.
From S2P Require Import McuClient.
From S2P Require Import OtaUpdater.
From S2P Require Import Recipe.
From S2P Require Import RecipeParser.
From S2P Require Import Pipe.
From S2P Require Import Programs.
From S2P Require Import Cooking.
From S2P Require Import System.
From S2P Require Import Cli.

(** ** The in-memory transport loses nothing *)

Section Queues.
Import RingBuffer InMemoryTransport.
#[local] Abbreviation queue_wf := (wf kQueueCapacity).
#[local] Abbreviation queue := (contents kQueueCapacity).

Lemma queue_capacity : (0 < kQueueCapacity)%nat /\ (4000 <= kQueueCapacity)%nat.
Proof. unfold kQueueCapacity. lia. Qed.

Lemma write_queue bs : forall q, queue_wf q -> (length (queue q) + length bs <= kQueueCapacity)%nat ->
  let '(n, q') := write bs q in n = length bs /\ queue_wf q' /\ queue q' = queue q ++ bs.
Proof.
  destruct queue_capacity as [C _].
  induction bs as [|b bs IH]; intros q K L; cbn [write]; [now rewrite app_nil_r|]. cbn [length] in L.
  pose proof (push_wf _ C b q K) as K1. pose proof (push_contents _ C b q K) as E.
  assert (P : (push kQueueCapacity b q).1 = true).
  { unfold push. rewrite length_contents in L. destruct (Nat.eqb_spec (count_ q) kQueueCapacity); [lia|reflexivity]. }
  destruct (push kQueueCapacity b q) as [ok q1]. cbn [fst snd] in *. subst ok.
  specialize (IH q1 K1). rewrite E, length_app in IH. cbn [length] in IH. specialize (IH ltac:(lia)).
  destruct (write bs q1) as [n q']. destruct IH as (-> & K' & E'). split_and!; [reflexivity|exact K'|].
  now rewrite E', <- app_assoc.
Qed.

Lemma read_queue q : queue_wf q -> bytes_ok (queue q) ->
  let '(r, q') := read q in r = head (queue q) /\ queue_wf q' /\ queue q' = tail (queue q).
Proof.
  destruct queue_capacity as [C _]. intros K B. unfold read. pose proof (pop_wf _ C q K) as K'.
  destruct (pop_contents _ C q K) as [R E]. destruct (pop kQueueCapacity q) as [r q']. cbn [fst snd] in *.
  split_and!; try assumption. subst r. destruct (queue q) as [|b bs]; [reflexivity|]. cbn. f_equal.
  apply u8_id. now apply Forall_cons in B as [B _].
Qed.

(** The queues in both directions hold bytes. *)
Definition transport_ok (t : InMemoryTransport) : Prop :=
  (queue_wf (app_to_mcu_ t) /\ bytes_ok (queue (app_to_mcu_ t))) /\
  (queue_wf (mcu_to_app_ t) /\ bytes_ok (queue (mcu_to_app_ t))).

Lemma new_transport_ok : transport_ok new_transport /\ queue (app_to_mcu_ new_transport) = [] /\
  queue (mcu_to_app_ new_transport) = [].
Proof.
  destruct queue_capacity as [C _]. destruct (empty_buffer_wf _ C) as [K E]. unfold transport_ok, new_transport. cbn [app_to_mcu_ mcu_to_app_].
  rewrite !E. repeat split; try apply K; constructor.
Qed.

Lemma write_transport bs q : queue_wf q /\ bytes_ok (queue q) -> bytes_ok bs ->
  (length (queue q) + length bs <= kQueueCapacity)%nat ->
  let '(n, q') := write bs q in n = length bs /\ queue q' = queue q ++ bs /\ queue_wf q' /\ bytes_ok (queue q').
Proof.
  intros [K B] Bb L. pose proof (write_queue bs q K L) as X. destruct (write bs q) as [n q'].
  destruct X as (-> & K' & E). split_and!; try assumption; [reflexivity|]. rewrite E. now apply Forall_app_2.
Qed.

Lemma read_transport q : queue_wf q /\ bytes_ok (queue q) ->
  let '(r, q') := read q in r = head (queue q) /\ queue q' = tail (queue q) /\ queue_wf q' /\ bytes_ok (queue q').
Proof.
  intros [K B]. pose proof (read_queue q K B) as X. destruct (read q) as [r q']. destruct X as (-> & K' & E).
  split_and!; try assumption; [reflexivity|]. rewrite E. destruct (queue q); [exact B|]. now apply Forall_cons in B as [_ B].
Qed.

#[export] Instance end_pipe : Pipe McuEnd.McuEnd := {|
  inbox e := queue (app_to_mcu_ (McuEnd.transport e));
  outbox e := queue (mcu_to_app_ (McuEnd.transport e));
  capacity := kQueueCapacity;
  pipe_ok e := transport_ok (McuEnd.transport e)
|}.

#[export] Instance end_pipe_laws : PipeLaws McuEnd.McuEnd.
Proof.
  split.
  - intros e [K1 K2]. cbn. pose proof (read_transport _ K1) as X. destruct (read _) as [r q].
    destruct X as (X1 & X2 & X3). now split_and!.
  - intros bs e [K1 K2] B L. cbn. pose proof (write_transport bs _ K2 B L) as X. destruct (write bs _) as [n q].
    destruct X as (X1 & X2 & X3). now split_and!.
  - intros e [[K _] _]. cbn. symmetry. now apply length_contents.
Qed.

Context {N : Type} `{NoiseSource N}.

#[export] Instance app_pipe : Pipe (AppWorld.AppWorld N) := {|
  inbox w := queue (mcu_to_app_ (AppWorld.transport w));
  outbox w := queue (app_to_mcu_ (AppWorld.transport w));
  capacity := kQueueCapacity;
  pipe_ok w := transport_ok (AppWorld.transport w)
|}.

#[export] Instance app_pipe_laws : PipeLaws (AppWorld.AppWorld N).
Proof.
  split.
  - intros e [K1 K2]. cbn. pose proof (read_transport _ K2) as X. destruct (read _) as [r q].
    destruct X as (X1 & X2 & X3). now split_and!.
  - intros bs e [K1 K2] B L. cbn. pose proof (write_transport bs _ K1 B L) as X. destruct (write bs _) as [n q].
    destruct X as (X1 & X2 & X3). now split_and!.
  - intros e [_ [K _]]. cbn. symmetry. now apply length_contents.
Qed.

Lemma app_room : (4000 <= capacity (W := AppWorld.AppWorld N))%nat.
Proof. apply queue_capacity. Qed.

Lemma end_room : (4000 <= capacity (W := McuEnd.McuEnd))%nat.
Proof. apply queue_capacity. Qed.

Lemma app_feed_pipe (w : AppWorld.AppWorld N) : inbox (watchdog_feed w) = inbox w /\ outbox (watchdog_feed w) = outbox w /\
  (pipe_ok w -> pipe_ok (watchdog_feed w)).
Proof. now split_and!. Qed.
End Queues.

(** ** The session and the safety processor

    [Hq] and [Mq]: the heater and the motor of the safety processor are idle. *)

Section SessionPipe.
Import CookingController.
Context {W : Type} `{AppBoardLaws W, !Pipe W, !PipeLaws W}.
Context (room : (4000 <= capacity (W := W))%nat).
Context (feed_pipe : forall w : W, inbox (watchdog_feed w) = inbox w /\ outbox (watchdog_feed w) = outbox w /\
  (pipe_ok w -> pipe_ok (watchdog_feed w))).
Context (Hq Mq : Prop).

Definition ending (k : CookingController) : Prop := state_ k = Stopping \/ state_ k = Faulted.
Definition over (k : CookingController) : Prop :=
  state_ k = Done \/ state_ k = Faulted /\ shutdown_motor_done_ k = true.

(** The client waits for the answer to [id], or has it and what it says holds. *)
Definition holds (id : Z) (P : Prop) (c : McuClient.McuClient) : Prop :=
  McuClient.last_command_status_ c = Ok /\
  (McuClient.waiting_ c = true /\ McuClient.pending_msg_id_ c = id /\ McuClient.pending_payload_len_ c = 0 \/
   McuClient.waiting_ c = false /\ McuClient.response_ready_ c = true /\ type (McuClient.response_ c) = Response /\
   msg_id (McuClient.response_ c) = id /\ P).

(** What the flags of a shutdown say of the client and of the outputs. *)
Record secured (k : CookingController) (c : McuClient.McuClient) : Prop := {
  se_heater : ending k -> shutdown_heater_sent_ k = true -> shutdown_heater_done_ k = false -> holds MsgId.HeaterOff Hq c;
  se_motor : ending k -> shutdown_heater_done_ k = true -> shutdown_motor_done_ k = false ->
    Hq /\ shutdown_motor_sent_ k = true /\ holds MsgId.MotorStop Mq c;
  se_stopping : state_ k = Stopping -> shutdown_motor_done_ k = false
}.

(** How many ticks a shutdown takes at most: three, and two more if a fault
    starts it again. *)
Definition rank (k : CookingController) : nat :=
  match state_ k with
  | Stopping => if shutdown_heater_done_ k then 3 else if shutdown_heater_sent_ k then 4 else 5
  | Faulted => if shutdown_heater_done_ k then 1 else if shutdown_heater_sent_ k then 2 else 3
  | _ => 0
  end.

Definition advances (k k' : CookingController) : Prop :=
  over k' \/ state_ k' = Running \/ ending k' /\ ~ over k' /\ (rank k' < rank k)%nat.

(** What a tick makes of a session. *)
Record ticked (k : CookingController) (r : CookingController * McuClient.McuClient * W) : Prop := {
  tk_client : client_ok r.1.2;
  tk_calling : calling r.1.2 r.2;
  tk_secured : secured r.1.1 r.1.2;
  tk_over : over r.1.1 -> over k \/ Hq /\ Mq;
  tk_running : state_ r.1.1 = Running -> state_ k = Running \/ Hq /\ Mq;
  tk_restart : state_ r.1.1 = Running -> state_ k = Running \/ start_after_shutdown_ k = true;
  tk_advances : ending k -> ~ over k -> advances k r.1.1;
  tk_start : start_after_shutdown_ k = false -> start_after_shutdown_ r.1.1 = false
}.

Lemma off_request id c (w : W) : client_ok c -> calling c w -> busy c = false -> in_u8 id -> id <> MsgId.Ping ->
  exists c' w', request id None 0 (c, w) = (Ok, (c', w')) /\ client_ok c' /\ calling c' w' /\
    forall P, holds id P c'.
Proof.
  intros K Ca B Hid Np. rewrite request_none. change 0 with (Z.of_nat (length (@nil Z))).
  destruct (request_pipe room id [] c w K Ca B Hid Np (Forall_nil_2 _) ltac:(discriminate))
    as (c' & w' & E & Ca' & R1 & _ & R3 & R4 & R5 & _).
  pose proof (request_ok id [] c w K Hid (Forall_nil_2 _) ltac:(discriminate)) as K'. rewrite E in K'.
  exists c', w'. split_and!; [exact E|apply K'|exact Ca'|]. intros P. split; [exact R5|left]. now split_and!.
Qed.

Lemma no_confirm r k : shutdown_heater_sent_ k && negb (shutdown_heater_done_ k) = false ->
  shutdown_motor_sent_ k && negb (shutdown_motor_done_ k) = false -> confirm r k = k.
Proof.
  intros E1 E2. unfold confirm. destruct r as [f|]; [|reflexivity]. destruct (bool_decide _); [|reflexivity].
  now rewrite E1, E2.
Qed.

Lemma ok_rearm k c : McuClient.last_command_status_ c = Ok -> rearm k c = (k, c).
Proof. intros E. unfold rearm, McuClient.last_command_status. now rewrite E. Qed.

Lemma confirms_cases id r : confirms id r -> exists f, r = Some f /\ type f = Response /\ msg_id f = id.
Proof. easy. Qed.

Lemma confirm_heater r k : confirms MsgId.HeaterOff r -> shutdown_heater_sent_ k = true -> shutdown_heater_done_ k = false ->
  confirm r k = k <| shutdown_heater_done_ := true |>.
Proof. intros (f & -> & T & E) S D. unfold confirm. rewrite T, E, S, D. reflexivity. Qed.

Lemma confirm_motor r k : confirms MsgId.MotorStop r -> shutdown_heater_done_ k = true ->
  shutdown_motor_sent_ k = true -> shutdown_motor_done_ k = false -> confirm r k = k <| shutdown_motor_done_ := true |>.
Proof. intros (f & -> & T & E) H3 S D. unfold confirm. rewrite T, E, H3, S, D, andb_false_r. reflexivity. Qed.

Lemma begun_late k : session_inv k -> shutdown_heater_done_ k = false ->
  shutdown_motor_sent_ k = false /\ shutdown_motor_done_ k = false.
Proof.
  intros I Hd. pose proof (inv_order k I) as X. rewrite Hd in X.
  destruct (shutdown_motor_sent_ k), (shutdown_motor_done_ k); split; try reflexivity; exfalso;
    auto using diff_false_true.
Qed.

Lemma ending_faulted k : session_inv k -> ending k -> fault_shutdown_ k = true /\ state_ k = Faulted \/
  fault_shutdown_ k = false /\ state_ k = Stopping.
Proof.
  intros I [E|E].
  - right. split; [|exact E]. destruct (fault_shutdown_ k) eqn:F; [|reflexivity]. apply (inv_fault k I) in F. congruence.
  - left. split; [|exact E]. now apply (inv_fault k I).
Qed.

(** The four cases of the sequence: it is over, the motor is confirmed, the
    heater is confirmed, or it begins. *)

Lemma over_pipe r k c (w : W) : session_inv k -> ending k -> client_ok c -> calling c w ->
  shutdown_heater_done_ k = true -> shutdown_motor_done_ k = true ->
  (state_ k = Stopping -> shutdown_motor_done_ k = false) -> ticked k (run_stopping_sequence r k c w).
Proof.
  intros I En K Ca Hd Md Sd. destruct (ending_faulted k I En) as [[F S]|[F S]]; [|rewrite Sd in Md by exact S; discriminate Md].
  unfold run_stopping_sequence. rewrite no_confirm by (rewrite ?Hd, ?Md; apply andb_false_r).
  assert (Ov : over k) by now right.
  assert (St : start_after_shutdown_ k = false).
  { destruct (start_after_shutdown_ k) eqn:X; [|reflexivity]. apply (inv_start k I) in X as [X _]. congruence. }
  destruct (rearm k c) as [k1 c1] eqn:Rk.
  assert (E1 : k1 = k /\ client_ok c1 /\ calling c1 w).
  { unfold rearm in Rk. rewrite Hd, Md in Rk. cbn [negb] in Rk.
    destruct (negb _); injection Rk as <- <-; split_and!; auto using clear_status_ok, calling_clear_status. }
  destruct E1 as (-> & K1 & Ca1). rewrite Hd, Md, St, F. cbn [negb].
  split; cbn [fst snd]; auto.
  - split; simp_set; congruence.
  - simp_set. discriminate.
  - simp_set. discriminate.
  - intros _ N. contradiction.
Qed.

Lemma motor_confirmed_pipe r k c (w : W) : session_inv k -> ending k -> client_ok c -> calling c w ->
  shutdown_heater_done_ k = true -> shutdown_motor_done_ k = false -> shutdown_motor_sent_ k = true ->
  McuClient.last_command_status_ c = Ok -> confirms MsgId.MotorStop r -> Hq -> Mq ->
  ticked k (run_stopping_sequence r k c w).
Proof.
  intros I En K Ca Hd Md Ms St Cf HQ MQ. unfold run_stopping_sequence.
  rewrite (confirm_motor r k Cf Hd Ms Md), ok_rearm by exact St. simp_set. rewrite Hd. cbn [negb].
  destruct (ending_faulted k I En) as [[F S]|[F S]].
  - assert (Sa : start_after_shutdown_ k = false).
    { destruct (start_after_shutdown_ k) eqn:X; [|reflexivity]. apply (inv_start k I) in X as [X _]. congruence. }
    rewrite Sa, F. split; cbn [fst snd]; simp_set; auto; try congruence.
    + split; simp_set; congruence.
    + intros _ _. left. right. now split.
  - rewrite F. destruct (start_after_shutdown_ k) eqn:Sa; [destruct (pending_program_ k) as [next|] eqn:Pp|].
    + cbn [begin]. split; cbn [fst snd]; simp_set; auto.
      * now apply clear_status_ok, clear_fault_ok.
      * now apply calling_clear_status, calling_clear_fault.
      * split; simp_set; try discriminate; intros [X|X]; discriminate X.
      * intros _ _. right. now left.
    + exfalso. apply (inv_pending k I) in Sa. congruence.
    + split; cbn [fst snd]; simp_set; auto; try discriminate.
      * split; simp_set; try discriminate; intros [X|X]; discriminate X.
      * intros _ _. left. now left.
Qed.

Lemma heater_confirmed_pipe r k c (w : W) : session_inv k -> ending k -> client_ok c -> calling c w -> busy c = false ->
  shutdown_heater_done_ k = false -> shutdown_heater_sent_ k = true ->
  McuClient.last_command_status_ c = Ok -> confirms MsgId.HeaterOff r -> Hq ->
  ticked k (run_stopping_sequence r k c w).
Proof.
  intros I En K Ca B Hd Hs St Cf HQ. unfold run_stopping_sequence.
  rewrite (confirm_heater r k Cf Hs Hd), ok_rearm by exact St. simp_set. cbn [negb].
  destruct (begun_late k I Hd) as [Ms Md]. rewrite Ms, Md, (busy_waiting c B). cbn [negb andb]. unfold motor_stop.
  destruct (off_request MsgId.MotorStop c w K Ca B) as (c' & w' & E & K' & Ca' & Ho); try (split; reflexivity || discriminate); try discriminate.
  rewrite E. split; cbn [fst snd]; simp_set; auto.
  - split; simp_set; auto. congruence.
  - intros _ _. right. right. split_and!; [exact En| |].
    + unfold over. simp_set. intros [X|[_ X]]; [destruct En; congruence|congruence].
    + unfold rank. simp_set. rewrite Hd, Hs. destruct En as [-> | ->]; lia.
Qed.

Lemma begin_pipe r k c (w : W) : session_inv k -> ending k -> client_ok c -> calling c w -> busy c = false ->
  shutdown_heater_done_ k = false -> shutdown_heater_sent_ k = false -> ticked k (run_stopping_sequence r k c w).
Proof.
  intros I En K Ca B Hd Hs. destruct (begun_late k I Hd) as [Ms Md]. unfold run_stopping_sequence.
  rewrite no_confirm by now rewrite ?Hs, ?Ms. destruct (rearm k c) as [k1 c1] eqn:Rk.
  assert (E1 : k1 = k <| shutdown_heater_sent_ := false |> /\ client_ok c1 /\ calling c1 w /\ busy c1 = false).
  { unfold rearm in Rk. rewrite Hd in Rk. cbn [negb] in Rk.
    assert (Ek : k = k <| shutdown_heater_sent_ := false |>) by (destruct k; cbn in Hs; now subst).
    destruct (negb _); injection Rk as <- <-; split_and!; auto using clear_status_ok, calling_clear_status. }
  destruct E1 as (-> & K1 & Ca1 & B1). simp_set. rewrite Hd, (busy_waiting c1 B1). cbn [negb andb]. unfold heater_off.
  destruct (off_request MsgId.HeaterOff c1 w K1 Ca1 B1) as (c' & w' & E & K' & Ca' & Ho); try (split; reflexivity || discriminate); try discriminate.
  rewrite E. split; cbn [fst snd]; simp_set; auto.
  - split; simp_set; auto. congruence.
  - intros _ _. right. right. split_and!; [exact En| |].
    + unfold over. simp_set. intros [X|[_ X]]; [destruct En; congruence|congruence].
    + unfold rank. simp_set. rewrite Hd, Hs. change (is_ok Ok) with true. destruct En as [-> | ->]; lia.
Qed.

Lemma stopping_pipe r k c (w : W) : session_inv k -> ending k -> client_ok c -> calling c w -> busy c = false ->
  (shutdown_heater_sent_ k = true -> shutdown_heater_done_ k = false ->
     McuClient.last_command_status_ c = Ok /\ confirms MsgId.HeaterOff r /\ Hq) ->
  (shutdown_heater_done_ k = true -> shutdown_motor_done_ k = false ->
     Hq /\ shutdown_motor_sent_ k = true /\ McuClient.last_command_status_ c = Ok /\ confirms MsgId.MotorStop r /\ Mq) ->
  (state_ k = Stopping -> shutdown_motor_done_ k = false) ->
  ticked k (run_stopping_sequence r k c w).
Proof.
  intros I En K Ca B Sh Sm Sd. destruct (shutdown_heater_done_ k) eqn:Hd; [destruct (shutdown_motor_done_ k) eqn:Md|].
  - apply over_pipe; try assumption. intros S. discriminate (Sd S).
  - destruct (Sm eq_refl eq_refl) as (HQ & Ms & St & Cf & MQ). apply motor_confirmed_pipe; assumption.
  - destruct (shutdown_heater_sent_ k) eqn:Hs; [|apply begin_pipe; assumption].
    destruct (Sh eq_refl eq_refl) as (St & Cf & HQ). apply heater_confirmed_pipe; assumption.
Qed.

(** A tick in which the client waits for nothing. *)

Lemma calling_feed c (w : W) : calling c w -> calling c (watchdog_feed w).
Proof.
  destruct (feed_pipe w) as (I & O & P). intros [(F & Id & Pw & Ib) Co Cf Cs]. split.
  - split_and!; auto. congruence.
  - rewrite O. exact Co.
  - unfold now_ms. rewrite clock_feed. exact Cf.
  - exact Cs.
Qed.

Lemma issue_calling cmd (m : McuClient.McuClient * W) : command_bytes cmd -> client_ok m.1 /\ calling m.1 m.2 ->
  client_ok (issue cmd m).2.1 /\ calling (issue cmd m).2.1 (issue cmd m).2.2.
Proof. destruct m as [c w]. intros C [K Ca]. now apply issue_pipe. Qed.

Lemma run_session_pipe r store k c (w : W) : session_inv k -> client_ok c -> calling c w -> ~ ending k ->
  let x := run_session r store k c w in
  client_ok x.1.2 /\ calling x.1.2 x.2 /\ secured x.1.1 x.1.2 /\
  (over x.1.1 -> over k) /\ (state_ x.1.1 = Running -> state_ k = Running) /\
  (start_after_shutdown_ k = false -> start_after_shutdown_ x.1.1 = false).
Proof.
  intros I K Ca Ne. cbv zeta.
  assert (Se : secured k c).
  { split; [intros X; now destruct Ne..|]. intros X. destruct Ne. now left. }
  unfold run_session. destruct (state_ k) eqn:S;
    try (destruct Ne; (now left) || (now right)); try (split_and!; cbn [fst snd]; auto; congruence).
  destruct (program_ k) as [p|]; [|split_and!; cbn [fst snd]; auto].
  pose proof (on_tick_preserves (fun m : McuClient.McuClient * W => client_ok m.1 /\ calling m.1 m.2)
    issue_calling
    (u32_sub (now_ms w) (started_ms_ k)) store p (c, w) (conj K Ca)) as T.
  destruct (Program.on_tick _ store p (c, w)) as [p' [c' w']]. cbn [snd fst] in T. destruct T as [K' Ca'].
  destruct (Program.finished _ p').
  - cbn [begin_shutdown fst snd]. split_and!; simp_set; auto using clear_status_ok, calling_clear_status; try discriminate.
    + split; simp_set; auto; discriminate.
    + unfold over. simp_set. intros [X|[X _]]; discriminate X.
  - cbn [fst snd]. split_and!; simp_set; auto.
    + split; simp_set; [intros [X|X]; unfold ending in *; simp_set; congruence..|congruence].
Qed.

Lemma take_response_held id P c : McuClient.waiting_ c = false -> holds id P c ->
  let '(r, c') := McuClient.take_response true c in
  McuClient.last_command_status_ c' = Ok /\ confirms id r /\ P.
Proof.
  intros Wt [St [(X & _)|(_ & R & T & E & HP)]]; [congruence|]. unfold McuClient.take_response. rewrite R. cbn [negb orb].
  split_and!; auto. now exists (McuClient.response_ c).
Qed.

Lemma session_tick_pipe store k ota c (w : W) : session_inv k -> client_ok c -> calling c w -> McuClient.waiting_ c = false ->
  secured k c ->
  let '(k', _, c', w') := tick_10ms store k ota c w in ticked k (k', c', w').
Proof.
  intros I K Ca Wt [Sh Sm Sd]. destruct (tick_split store k ota c w) as [ota' ->].
  pose proof (take_response_ok c K) as K1. pose proof (calling_take c w Ca) as Ca1.
  pose proof (take_response_held MsgId.HeaterOff Hq c Wt) as Hh. pose proof (take_response_held MsgId.MotorStop Mq c Wt) as Hm.
  assert (B : busy (McuClient.take_response true c).2 = false).
  { unfold busy, McuClient.take_response. destruct (McuClient.response_ready_ c) eqn:R; cbn [negb orb snd]; simp_set; rewrite Wt; [reflexivity|exact R]. }
  destruct (McuClient.take_response true c) as [r c1]. cbn [snd] in *. apply calling_feed in Ca1.
  pose proof (refreshed_inv store k I) as I1. set (k1 := refreshed store k) in *.
  set (w1 := watchdog_feed w) in *. clearbody w1. unfold guard.
  destruct (negb (bool_decide (state_ k1 = Faulted)) && trouble c1) eqn:G.
  - apply andb_true_iff in G as [G _]. cbn [begin_shutdown].
    match goal with |- context [run_session r store ?a ?b w1] => set (k2 := a); set (c2 := b) end.
    assert (T : ticked k2 (run_session r store k2 c2 w1)).
    { apply stopping_pipe; try assumption.
      - exact (begin_shutdown_inv true k1 c1).
      - now right.
      - now apply clear_status_ok.
      - now apply calling_clear_status.
      - discriminate.
      - discriminate.
      - discriminate. }
    destruct (run_session r store k2 c2 w1) as [[k3 c3] w3]. destruct T as [T1 T2 T3 T4 T5 T6 T7 T8].
    split; try assumption; cbn [fst snd] in *.
    + intros O. right. destruct (T4 O) as [[X|[_ X]]|X]; [discriminate X|discriminate X|exact X].
    + intros R. right. destruct (T5 R) as [X|X]; [discriminate X|exact X].
    + intros R. destruct (T6 R) as [X|X]; discriminate X.
    + intros En No. destruct T7 as [X|[X|(X1 & X2 & X3)]]; [now right| |now left|right; now left|right; right].
      { intros [X|[_ X]]; discriminate X. }
      split_and!; try assumption. change (rank k2) with 3%nat in X3. unfold rank at 2.
      destruct En as [E|E]; [|change (state_ k1) with (state_ k) in G; rewrite E in G; discriminate G].
      rewrite E. destruct (shutdown_heater_done_ k), (shutdown_heater_sent_ k); lia.
    + auto.
  - clear G. assert (Ed : ending k1 \/ ~ ending k1).
    { unfold ending. destruct (state_ k1); (left; now left) || (left; now right) || (right; intros [X|X]; discriminate X). }
    destruct Ed as [En|Ne].
    + assert (T : ticked k1 (run_stopping_sequence r k1 c1 w1)).
      { apply stopping_pipe; try assumption.
        - intros S D. exact (Hh (Sh En S D)).
        - intros S D. destruct (Sm En S D) as (X1 & X2 & X3). split_and!; try assumption; apply (Hm X3). }
      assert (E : run_session r store k1 c1 w1 = run_stopping_sequence r k1 c1 w1).
      { unfold run_session. destruct En as [-> | ->]; reflexivity. }
      rewrite E. destruct (run_stopping_sequence r k1 c1 w1) as [[k3 c3] w3]. destruct T. now split.
    + pose proof (run_session_pipe r store k1 c1 w1 I1 K1 Ca1 Ne) as X. cbv zeta in X.
      destruct (run_session r store k1 c1 w1) as [[k3 c3] w3]. cbn [fst snd] in X.
      destruct X as (X1 & X2 & X3 & X4 & X5 & X6). split; cbn [fst snd]; auto. intros En. contradiction.
Qed.
End SessionPipe.


(** ** A millisecond between the two processors *)

Section Exchange.
Import CookingController.

(** The application's requests, served, and their answers as the client reads
    them. *)
Record exchanged (c : McuClient.McuClient) (on : controls) (fs : list Frame) (on' : controls)
    (pings : list Frame) (a : option Frame) (tel : list Frame) : Prop := {
  ex_frames : fs = pings ++ option_list a ++ tel;
  ex_answer : answer_to c a;
  ex_pings : Forall (fun g => msg_id g = MsgId.Ping) pings;
  ex_telemetry : Forall (fun g => type g = TelemetryFrame) tel;
  ex_heater_off : McuClient.waiting_ c = true -> McuClient.pending_msg_id_ c = MsgId.HeaterOff ->
    McuClient.pending_payload_len_ c = 0 -> heater_idle on' /\ exists g, a = Some g /\ type g = Response;
  ex_motor_stop : McuClient.waiting_ c = true -> McuClient.pending_msg_id_ c = MsgId.MotorStop ->
    McuClient.pending_payload_len_ c = 0 -> motor_idle on' /\ exists g, a = Some g /\ type g = Response;
  ex_heater : (McuClient.waiting_ c = true -> McuClient.pending_msg_id_ c <> MsgId.HeaterSetTarget) ->
    heater_idle on -> heater_idle on';
  ex_motor : (McuClient.waiting_ c = true -> McuClient.pending_msg_id_ c <> MsgId.MotorSetTarget) ->
    motor_idle on -> motor_idle on'
}.

Lemma pings_served pings gs on bs on' : Forall is_ping pings -> Forall2 same_frame pings gs -> serves gs on bs on' ->
  Forall (fun g => type g = Request) gs /\ Forall (fun g => msg_id g = MsgId.Ping) gs /\
  Forall (fun g => msg_id g = MsgId.Ping) bs /\
  (heater_idle on -> heater_idle on') /\ (motor_idle on -> motor_idle on').
Proof.
  intros Fp S Sv.
  assert (G : Forall (fun g => type g = Request /\ msg_id g = MsgId.Ping) gs).
  { clear Sv. induction S as [|f g pings gs (S1 & S2 & S3 & _) _ IH]; [constructor|]. apply Forall_cons in Fp as [(_ & P1 & P2) Fp].
    constructor; [split; congruence|]. now apply IH. }
  assert (Gi : Forall (fun g => msg_id g = MsgId.Ping) gs) by (apply (Forall_impl _ _ _ G); now intros x [_ ?]).
  split_and!; [apply (Forall_impl _ _ _ G); now intros x [? _]|exact Gi| | |].
  - pose proof (serves_answers _ _ _ _ Sv) as A. clear Sv S. induction A as [|g b gs bs (_ & _ & A & _) _ IH]; [constructor|].
    apply Forall_cons in Gi as [Gi1 Gi]. apply Forall_cons in G as [_ G]. constructor; [congruence|]. now apply IH.
  - apply (serves_heater _ _ _ _ Sv). apply (Forall_impl _ _ _ Gi). intros x ->. discriminate.
  - apply (serves_motor _ _ _ _ Sv). apply (Forall_impl _ _ _ Gi). intros x ->. discriminate.
Qed.

Lemma requests_served c pings gs : Forall is_ping pings -> Forall2 same_frame (pings ++ outstanding c) gs ->
  Forall (fun g => type g = Request) gs.
Proof.
  intros Fp S. assert (F : Forall (fun f => type f = Request) (pings ++ outstanding c)).
  { apply Forall_app. split; [apply (Forall_impl _ _ _ Fp); now intros f (_ & ? & _)|].
    unfold outstanding. destruct (McuClient.waiting_ c); repeat constructor. }
  induction S as [|f g fs gs (T & _) _ IH]; [constructor|]. apply Forall_cons in F as [F1 F].
  constructor; [congruence|]. now apply IH.
Qed.

Lemma same_ids (P : Z -> Prop) fs gs : Forall2 same_frame fs gs -> Forall (fun f => P (msg_id f)) fs ->
  Forall (fun g => P (msg_id g)) gs.
Proof.
  induction 1 as [|f g fs gs (_ & _ & E & _) _ IH]; intros F; [constructor|]. apply Forall_cons in F as [F1 F].
  constructor; [now rewrite <- E|]. now apply IH.
Qed.

Lemma same_telemetry fs gs : Forall2 same_frame fs gs -> Forall is_telemetry fs -> Forall (fun g => type g = TelemetryFrame) gs.
Proof.
  induction 1 as [|f g fs gs (E & _) _ IH]; intros F; [constructor|]. apply Forall_cons in F as [(_ & F1 & _) F].
  constructor; [congruence|]. now apply IH.
Qed.

Lemma exchange c pings gs on bs on' tel fs : client_ok c -> Forall is_ping pings ->
  Forall2 same_frame (pings ++ outstanding c) gs -> serves gs on bs on' ->
  Forall is_telemetry tel -> Forall2 same_frame (bs ++ tel) fs ->
  exists pings' a tel', exchanged c on fs on' pings' a tel'.
Proof.
  intros K Fp S Sv Ft R. apply Forall2_app_inv_l in R as (fs1 & fs2 & R1 & R2 & ->).
  pose proof (same_telemetry _ _ R2 Ft) as T2.
  unfold outstanding in S. destruct (McuClient.waiting_ c) eqn:Wt.
  - apply Forall2_app_inv_l in S as (gs1 & gs2 & S1 & S2 & ->).
    inversion S2 as [|? g ? ? (Q1 & Q2 & Q3 & Q4 & _) S3]; subst. inversion S3; subst.
    apply serves_last in Sv as (bs1 & a & on1 & -> & Sv & (A1 & A2 & A3 & A4) & Ob).
    apply Forall2_app_inv_l in R1 as (fs1' & fs1'' & R1 & R3 & ->).
    inversion R3 as [|? a' ? ? (E1 & E2 & E3 & _) R4]; subst. inversion R4; subst.
    destruct (pings_served pings gs1 on bs1 on1 Fp S1 Sv) as (_ & _ & Bp & Hh & Hm).
    cbn [pending_request frame_of type seq_ msg_id payload_len] in Q1, Q2, Q3, Q4.
    assert (L : Z.of_nat (length (take (Z.to_nat (McuClient.pending_payload_len_ c)) (McuClient.pending_payload_ c))) = McuClient.pending_payload_len_ c).
    { destruct K as [_ _ _ [X _] PL _ _]. rewrite length_take, X. lia. }
    exists fs1', (Some a'), fs2. split.
    + now rewrite <- app_assoc.
    + split_and!; [exact Wt|congruence|congruence|]. destruct A4; [left|right]; congruence.
    + apply (same_ids (fun i => i = MsgId.Ping) _ _ R1 Bp).
    + exact T2.
    + intros _ I Z0. destruct (ob_heater_off _ _ _ _ Ob) as [O1 O2]; [congruence|congruence|]. split; [exact O2|].
      exists a'. split; congruence.
    + intros _ I Z0. destruct (ob_motor_stop _ _ _ _ Ob) as [O1 O2]; [congruence|congruence|]. split; [exact O2|].
      exists a'. split; congruence.
    + intros N Hi. apply (ob_heater _ _ _ _ Ob); [|now apply Hh]. rewrite <- Q3. now apply N.
    + intros N Hi. apply (ob_motor _ _ _ _ Ob); [|now apply Hm]. rewrite <- Q3. now apply N.
  - rewrite app_nil_r in S. destruct (pings_served pings gs on bs on' Fp S Sv) as (_ & _ & Bp & Hh & Hm).
    exists fs1, None, fs2. split; try congruence; try exact T2; auto.
    apply (same_ids (fun i => i = MsgId.Ping) _ _ R1 Bp).
Qed.

(** What a session awaits is what the safety processor does. *)
Lemma secured_exchange k c on fs on' pings a tel c' (Hq Mq Hq' Mq' : Prop) :
  exchanged c on fs on' pings a tel -> answered c a c' ->
  (Hq -> heater_idle on) -> (Mq -> motor_idle on) -> (heater_idle on' -> Hq') -> (motor_idle on' -> Mq') ->
  secured Hq Mq k c -> secured Hq' Mq' k c'.
Proof.
  intros [_ An _ _ Xh Xm Kh Km] (Aw & Aa) I1 I2 I3 I4 [Sh Sm Sd].
  assert (Other : forall id P P', id <> MsgId.Ping -> holds id P c ->
    (McuClient.waiting_ c = true -> McuClient.pending_msg_id_ c = id -> McuClient.pending_payload_len_ c = 0 ->
       P' /\ exists g, a = Some g /\ type g = Response) ->
    (McuClient.waiting_ c = false -> P -> P') -> holds id P' c').
  { intros id P P' Np (St & [(W1 & W2 & W3)|(W1 & W2 & W3 & W4 & W5)]) Hw Hn.
    - destruct (Hw W1 W2 W3) as (HP & g & -> & Tg). destruct Aa as (B1 & B2 & B3). rewrite Tg in B3.
      split; [exact B3|]. right. destruct An as (_ & An & _). split_and!; try congruence.
    - destruct a as [g|]; [destruct An; congruence|]. destruct Aa as (B1 & B2 & B3).
      split; [congruence|]. right. split_and!; try congruence. now apply Hn. }
  split; [| |exact Sd].
  - intros En S D. apply (Other MsgId.HeaterOff _ _ ltac:(discriminate) (Sh En S D)).
    + intros W1 W2 W3. destruct (Xh W1 W2 W3) as [X1 X2]. auto.
    + intros W1 X. apply I3, Kh; [congruence|auto].
  - intros En S D. destruct (Sm En S D) as (X1 & X2 & X3). split_and!; [|exact X2|].
    + apply I3, Kh; [|auto]. intros W1. destruct X3 as (_ & [(_ & -> & _)|(W2 & _)]); [discriminate|congruence].
    + apply (Other MsgId.MotorStop _ _ ltac:(discriminate) X3).
      * intros W1 W2 W3. destruct (Xm W1 W2 W3) as [Y1 Y2]. auto.
      * intros W1 X. apply I4, Km; [congruence|auto].
Qed.

End Exchange.

(** ** The device *)

Section Device.
Import SystemSim.
Context {N : Type} `{NoiseSource N}.

Implicit Types s : SystemSim N.

(** A tick of the application that finds the answers to its requests. *)
Lemma runtime_pipe a (w : AppWorld.AppWorld N) t gs on on' pings x tel (Hq Mq Hq' Mq' : Prop) : runtime_ok a ->
  status_known (ApplicationRuntime.client_ a) ->
  (McuClient.waiting_ (ApplicationRuntime.client_ a) = true ->
     McuClient.sent_at_ms_ (ApplicationRuntime.client_ a) = u32 t /\
     McuClient.request_started_ms_ (ApplicationRuntime.client_ a) = u32 t /\
     McuClient.pending_msg_id_ (ApplicationRuntime.client_ a) <> MsgId.Ping) ->
  Hal.now_ms w = u32 (t + 1) -> incoming (McuClient.link_ (ApplicationRuntime.client_ a)) w gs -> outbox w = [] ->
  exchanged (ApplicationRuntime.client_ a) on gs on' pings x tel -> Forall truthful gs ->
  (Hq -> heater_idle on) -> (Mq -> motor_idle on) -> (heater_idle on' -> Hq') -> (motor_idle on' -> Mq') ->
  secured Hq Mq (ApplicationRuntime.controller_ a) (ApplicationRuntime.client_ a) ->
  exists a' w', ApplicationRuntime.tick_1ms a w = Ret (a', w') /\
    calling (ApplicationRuntime.client_ a') w' /\
    secured Hq' Mq' (ApplicationRuntime.controller_ a') (ApplicationRuntime.client_ a') /\
    (McuClient.last_fault_ (ApplicationRuntime.client_ a) <> FaultCode.None \/ List.Exists alarm gs ->
     McuClient.last_fault_ (ApplicationRuntime.client_ a') <> FaultCode.None /\
     ((u8 (ApplicationRuntime.app_divider_ a + 1) >=? 10) = true -> CookingController.state_ (ApplicationRuntime.controller_ a') = Faulted)) /\
    if u8 (ApplicationRuntime.app_divider_ a + 1) >=? 10
    then ticked Hq' Mq' (ApplicationRuntime.controller_ a) (ApplicationRuntime.controller_ a', ApplicationRuntime.client_ a', w')
    else ApplicationRuntime.controller_ a' = ApplicationRuntime.controller_ a.
Proof.
  intros [K St I D] Sk Fr Nw Inc O Ex Tf I1 I2 I3 I4 Se.
  pose proof Ex as [X1 X2 X3 X4 _ _ _ _].
  destruct (client_poll_pipe app_room _ (ApplicationRuntime.telemetry_ a) w pings x tel gs t K St Sk) as (c & store & w1 & E & Ca & An & Lf);
    try assumption.
  { intros Wt. destruct (Fr Wt) as (F1 & F2 & _). now split. }
  { destruct (McuClient.waiting_ (ApplicationRuntime.client_ a)) eqn:Wt; [left; now apply Fr|now right]. }
  destruct (client_poll_ok _ _ w K St) as (c2 & st2 & w2 & E2 & K1 & S1 & _). rewrite E in E2. injection E2 as <- <- <-.
  pose proof (secured_exchange _ _ _ _ _ _ _ _ _ _ _ _ _ Ex An I1 I2 I3 I4 Se) as Se1.
  pose proof (hear_all_fault gs (ApplicationRuntime.client_ a) Tf) as Hf. rewrite <- Lf in Hf.
  unfold ApplicationRuntime.tick_1ms. rewrite E. cbn [mbind outcome_bind]. cbv zeta. simp_set.
  destruct (_ >=? 10).
  - pose proof (session_tick_pipe app_room app_feed_pipe Hq' Mq' store (ApplicationRuntime.controller_ a) (ApplicationRuntime.ota_ a) c w1
      I K1 Ca (proj1 An) Se1) as T.
    pose proof (tick_faulted store (ApplicationRuntime.controller_ a) (ApplicationRuntime.ota_ a) c w1 I) as Tk.
    destruct (CookingController.tick_10ms store _ _ c w1) as [[[k o] c3] w3].
    eexists _, _. split; [reflexivity|]. simp_set. split_and!; [apply T|apply T| |exact T].
    intros A. destruct (Tk (Hf A)) as (Tk1 & _ & Tk2). split; [|intros _; exact Tk1].
    intros X. apply (Hf A). etrans; [symmetry; exact Tk2|exact X].
  - eexists _, _. split; [reflexivity|]. simp_set. split_and!; [exact Ca|exact Se1| |reflexivity].
    intros A. split; [exact (Hf A)|discriminate].
Qed.

Definition client s := ApplicationRuntime.client_ (app_ s).
Definition session s := ApplicationRuntime.controller_ (app_ s).

(** The heater, and the motor, of the safety processor are off. *)
Definition heater_rests s : Prop := heater_idle (mcu_controls (mcu_ s)).
Definition motor_rests s : Prop := motor_idle (mcu_controls (mcu_ s)).

(** The device between two milliseconds, [t] after power-on. *)
Record lockstep (t : Z) s : Prop := {
  ls_device : device_ok s;
  ls_clock : SimClock.now_us_ (SimBoard.clock_ (board_ s)) = 1000 * t;
  ls_seq : in_u8 (TelemetryPublisher.seq_ (SafetyMcu.telemetry_ (mcu_ s)));
  ls_pending : TelemetryPublisher.pending_fault_ (SafetyMcu.telemetry_ (mcu_ s)) = FaultCode.None;
  ls_known : SafetyMcu.fault_ (mcu_ s) <> FaultCode.None -> McuClient.last_fault_ (client s) <> FaultCode.None;
  ls_flushed : flushed (SafetyMcu.link_ (mcu_ s));
  ls_idle : idle (Link.parser_ (SafetyMcu.link_ (mcu_ s)));
  ls_calling : calling (client s) (app_world s);
  ls_secured : secured (heater_rests s) (motor_rests s) (session s) (client s)
}.

(** The millisecond in which the controller runs. *)
Definition controller_due s : bool := u8 (ApplicationRuntime.app_divider_ (app_ s) + 1) >=? 10.

(** What a millisecond makes of the session. *)
Definition stepped s s' : Prop :=
  if controller_due s
  then ticked (heater_rests s') (motor_rests s') (session s) (session s', client s', app_world s')
  else session s' = session s.

(** The application remembers a fault of the safety processor, and its session
    is faulted when the controller has run. *)
Definition alarmed s s' : Prop :=
  McuClient.last_fault_ (client s) <> FaultCode.None \/ SafetyMcu.fault_ (mcu_ s') <> FaultCode.None ->
  McuClient.last_fault_ (client s') <> FaultCode.None /\
  (controller_due s = true -> CookingController.state_ (session s') = Faulted).

Lemma clock_ms t us : us = 1000 * t -> to_millis us = u32 t.
Proof. intros ->. unfold to_millis. f_equal. rewrite Z.mul_comm. apply Z.div_mul. lia. Qed.

Lemma new_system_lockstep seed : lockstep 0 (new_system seed).
Proof.
  destruct new_transport_ok as (T & Q1 & Q2). split; try reflexivity.
  - apply new_device_ok.
  - split; reflexivity || discriminate.
  - intros F. now destruct F.
  - apply new_link_flushed.
  - repeat split.
  - split.
    + split_and!; [apply new_link_flushed|repeat split|exact T|exact Q2].
    + exists []. split_and!; [exact Q1|constructor|cbn; lia].
    + discriminate.
    + now left.
  - split; [intros [X|X]; discriminate X..|discriminate].
Qed.

(** The safety processor's half of a millisecond. *)
Lemma mcu_half (m : SafetyMcu.SafetyMcu (McuWorld.McuWorld N McuEnd.McuEnd)) c pings m' : mcu_ok m ->
  in_u8 (TelemetryPublisher.seq_ (SafetyMcu.telemetry_ m)) ->
  TelemetryPublisher.pending_fault_ (SafetyMcu.telemetry_ m) = FaultCode.None -> flushed (SafetyMcu.link_ m) ->
  idle (Link.parser_ (SafetyMcu.link_ m)) -> pipe_ok (SafetyMcu.world m) -> outbox (SafetyMcu.world m) = [] ->
  client_ok c -> inbox (SafetyMcu.world m) = wires (pings ++ outstanding c) -> Forall is_ping pings -> (length pings <= 1)%nat ->
  SafetyMcu.tick_1ms m = Ret m' ->
  exists gs bs tel, Forall2 same_frame (pings ++ outstanding c) gs /\ tick_served m gs m' bs tel.
Proof.
  intros Km Sq Pf Fl Id P O Kc I Fp Lp E.
  assert (Fw : Forall frame_wf (pings ++ outstanding c)).
  { apply Forall_app_2; [now apply pings_wf|]. unfold outstanding.
    destruct (McuClient.waiting_ c); [constructor; [now apply pending_request_wf|]|]; constructor. }
  destruct (incoming_wires (SafetyMcu.link_ m) (SafetyMcu.world m) _ Fl Id P I Fw) as (gs & Inc & S).
  assert (L : (length gs <= 4)%nat).
  { apply Forall2_length in S. rewrite length_app in S. unfold outstanding in S.
    destruct (McuClient.waiting_ c); cbn [length] in S; lia. }
  destruct (tick_pipe end_room m gs m' Km Sq Pf Inc (requests_served c pings gs Fp S) L O E) as (bs & tel & T).
  now exists gs, bs, tel.
Qed.

Lemma app_world_with w s : app_world (with_app_world w s) = w.
Proof. now destruct w. Qed.

(** The application's half. *)
Lemma app_half t s m gs bs tel pings a w : device_ok s -> SimClock.now_us_ (SimBoard.clock_ (McuWorld.board (SafetyMcu.world m))) = 1000 * (t + 1) ->
  SimClock.now_us_ (SimBoard.clock_ (board_ s)) = 1000 * t -> calling (client s) (app_world s) ->
  secured (heater_rests s) (motor_rests s) (session s) (client s) ->
  Forall is_ping pings -> Forall2 same_frame (pings ++ outstanding (client s)) gs ->
  tick_served (SafetyMcu.with_world ((SafetyMcu.world (mcu_ s)) <| McuWorld.board := McuWorld.board (SafetyMcu.world (mcu_ s)) |>) (mcu_ s)) gs m bs tel ->
  ApplicationRuntime.tick_1ms (app_ s) (app_world {| mcu_ := m; app_ := app_ s; app_sent_ := app_sent_ s |}) = Ret (a, w) ->
  calling (ApplicationRuntime.client_ a) w /\
  secured (heater_idle (mcu_controls m)) (motor_idle (mcu_controls m)) (ApplicationRuntime.controller_ a) (ApplicationRuntime.client_ a) /\
  (McuClient.last_fault_ (client s) <> FaultCode.None \/ List.Exists alarm tel ->
   McuClient.last_fault_ (ApplicationRuntime.client_ a) <> FaultCode.None /\
   (controller_due s = true -> CookingController.state_ (ApplicationRuntime.controller_ a) = Faulted)) /\
  if controller_due s
  then ticked (heater_idle (mcu_controls m)) (motor_idle (mcu_controls m)) (session s)
         (ApplicationRuntime.controller_ a, ApplicationRuntime.client_ a, w)
  else ApplicationRuntime.controller_ a = session s.
Proof.
  intros Dv Ck1 Ck Ca Se Fp S [T1 T2 T3 T4 _ _ (on & on' & Sv & I1 & I2 & I3 & I4)] R.
  set (s1 := {| mcu_ := m; app_ := app_ s; app_sent_ := app_sent_ s |}) in *.
  pose proof (dev_system _ Dv) as [_ Ka]. pose proof (rt_client _ Ka) as Kc.
  destruct Ca as [(Cf & Ci & _ & _) _ Cr Cs]. destruct T1 as (_ & _ & P & Ib).
  assert (Fw : Forall frame_wf (bs ++ tel)).
  { apply Forall_app_2; [exact (proj1 (serves_wf _ _ _ _ Sv))|]. apply (Forall_impl _ _ _ T3). now intros f [? _]. }
  assert (Tf : Forall truthful (bs ++ tel)).
  { apply Forall_app_2; [|apply (Forall_impl _ _ _ T3); now intros f (_ & _ & ?)]. apply serves_answers in Sv.
    clear -Sv. induction Sv as [|f b fs bs (_ & _ & _ & A) _ IH]; constructor; [|exact IH].
    intros T. destruct A; congruence. }
  assert (P' : pipe_ok (app_world s1)) by (cbn in P |- *; exact P).
  assert (T2' : inbox (app_world s1) = wires (bs ++ tel)) by (cbn in T2 |- *; exact T2).
  assert (Ib' : outbox (app_world s1) = []) by (cbn in Ib |- *; exact Ib).
  destruct (incoming_wires (McuClient.link_ (client s)) (app_world s1) (bs ++ tel) Cf Ci P' T2' Fw) as (fs & Inc & Rs).
  destruct (exchange (client s) pings gs on bs on' tel fs Kc Fp S Sv T3 Rs) as (pings' & x & tel' & Ex).
  destruct (runtime_pipe (app_ s) (app_world s1) t fs on on' pings' x tel' (heater_rests s) (motor_rests s)
    (heater_idle (mcu_controls m)) (motor_idle (mcu_controls m)) Ka Cs) as (a' & w' & R' & X1 & X2 & X3 & X4); try assumption.
  - intros Wt. destruct (Cr Wt) as (C1 & C2 & _ & C4 & _).
    assert (Nw : Hal.now_ms (app_world s) = u32 t) by exact (clock_ms t _ Ck). rewrite Nw in C1, C2. now split_and!.
  - exact (clock_ms (t + 1) _ Ck1).
  - exact (same_frames_truthful _ _ Rs Tf).
  - rewrite R' in R. injection R as <- <-. split_and!; [exact X1|exact X2| |exact X4].
    intros [A|A]; apply X3; [now left|right]. apply (same_frames_alarm _ _ Rs). apply Exists_app. now right.
Qed.

Lemma advance_clock t c : 0 <= t < kRunMs -> SimClock.now_us_ c = 1000 * t ->
  SimClock.now_us_ (SimClock.advance_us 1000 c) = 1000 * (t + 1).
Proof. intros Ht E. unfold SimClock.advance_us. cbn. rewrite E. unfold u64, kRunMs in *. rewrite Z.mod_small; lia. Qed.

Lemma step_clock t s s' : 0 <= t < kRunMs -> SimClock.now_us_ (SimBoard.clock_ (board_ s)) = 1000 * t ->
  step_1ms s = Ret s' -> SimClock.now_us_ (SimBoard.clock_ (board_ s')) = 1000 * (t + 1).
Proof.
  intros Ht Ck E. apply step_timing in E as [_ E]. apply (f_equal fst) in E.
  replace (SimBoard.clock_ (board_ s')) with (SimClock.advance_us 1000 (SimBoard.clock_ (board_ s))).
  - now apply advance_clock.
  - symmetry. etrans; [exact E|]. now destruct (_ >=? 10).
Qed.

Lemma step_lockstep t s s' : 0 <= t < kRunMs -> lockstep t s -> step_1ms s = Ret s' ->
  lockstep (t + 1) s' /\ stepped s s' /\ alarmed s s'.
Proof.
  intros Ht [Dv Ck Sq Pf Kn Fl Id Ca Se] E.
  pose proof (passes_ok 1 s s') as Dv'. cbn [step_ms] in Dv'. rewrite E in Dv'. specialize (Dv' eq_refl Dv).
  pose proof (step_clock t s s' Ht Ck E) as Ck'.
  unfold step_1ms in E. apply bind_ret in E as (b & B & E). apply board_step_timing in B. cbv zeta in B.
  apply bind_ret in E as (m & T & E). apply bind_ret in E as ([a w] & R & E).
  pose proof Ca as [(_ & _ & Cp & Cb) (pings & Co & Fp & Lp) _ _].
  set (m0 := SafetyMcu.with_world _ (mcu_ s)) in T.
  destruct (mcu_half m0 (client s) pings m) as (gs & bs & tel & S & Sd); try assumption.
  { apply with_world_ok. apply Dv. }
  { apply Dv. }
  pose proof mcu_untouched as U. apply (tick_seen (fun w => timing (McuWorld.board w))) in T.
  assert (Ck1 : SimClock.now_us_ (SimBoard.clock_ (McuWorld.board (SafetyMcu.world m))) = 1000 * (t + 1)).
  { assert (X : timing (McuWorld.board (SafetyMcu.world m)) = timing b) by exact T. rewrite B in X.
    apply (f_equal fst) in X. cbn [fst timing] in X. rewrite X. now apply advance_clock. }
  assert (Sd' : tick_served (SafetyMcu.with_world ((SafetyMcu.world (mcu_ s)) <| McuWorld.board := McuWorld.board (SafetyMcu.world (mcu_ s)) |>) (mcu_ s)) gs m bs tel).
  { destruct Sd as [T1 T2 T3 T4 T5 T6 T7]. now split. }
  destruct (app_half t s m gs bs tel pings a w Dv Ck1 Ck Ca Se Fp S Sd' R) as (X1 & X2 & X3 & X4).
  destruct Sd as [(T1 & T1' & _) _ _ T4 T5 T6 _]. injection E as <-.
  assert (Al : McuClient.last_fault_ (client s) <> FaultCode.None \/ SafetyMcu.fault_ m <> FaultCode.None ->
    McuClient.last_fault_ (client s) <> FaultCode.None \/ List.Exists alarm tel).
  { intros [A|A]; [now left|]. destruct (T6 A) as [B1|B1]; [left; exact (Kn B1)|now right]. }
  split; [split|split].
  - exact Dv'.
  - exact Ck'.
  - exact T4.
  - exact T5.
  - intros F. apply X3, Al. now right.
  - exact T1.
  - exact T1'.
  - rewrite <- (app_world_with w {| mcu_ := m; app_ := app_ s; app_sent_ := app_sent_ s |}) in X1. exact X1.
  - exact X2.
  - unfold stepped. change (app_world _) with (app_world (with_app_world w {| mcu_ := m; app_ := app_ s; app_sent_ := app_sent_ s |})) at 1.
    rewrite app_world_with. exact X4.
  - intros A. exact (X3 (Al A)).
Qed.

(** ** What the user does in between *)

(** A shutdown under way goes on, and only the controller ends it. *)
Record undisturbed (k k' : CookingController.CookingController) : Prop := {
  un_ending : ending k -> ~ over k -> ending k' /\ ~ over k' /\ rank k' = rank k;
  un_start : ending k -> ~ over k -> CookingController.start_after_shutdown_ k = false ->
    CookingController.start_after_shutdown_ k' = false;
  un_over : over k' -> over k;
  un_running : CookingController.state_ k' = Running -> CookingController.state_ k = Running
}.

Lemma undisturbed_same k k' : ending k' = ending k -> over k' = over k -> rank k' = rank k ->
  CookingController.start_after_shutdown_ k' = CookingController.start_after_shutdown_ k ->
  CookingController.state_ k' = CookingController.state_ k -> undisturbed k k'.
Proof. intros E1 E2 E3 E4 E5. split; rewrite ?E1, ?E2, ?E3, ?E4, ?E5; auto. Qed.

Lemma reset_undisturbed k k' : ~ ending k \/ over k -> ~ over k' -> CookingController.state_ k' <> Running -> undisturbed k k'.
Proof. intros [E|O] No Nr; split; intros; contradiction. Qed.

Lemma on_board_lockstep t f s : (forall b, SimBoard.clock_ (f b) = SimBoard.clock_ b) ->
  device_ok (Commands.on_board f s) -> lockstep t s -> lockstep t (Commands.on_board f s).
Proof.
  intros Cf Dv' [Dv Ck Sq Pf Kn Fl Id [C1 C2 C3 C4] Se]. split; try assumption.
  - etrans; [|exact Ck]. exact (f_equal SimClock.now_us_ (Cf (board_ s))).
  - assert (Nw : Hal.now_ms (app_world (Commands.on_board f s)) = Hal.now_ms (app_world s)).
    { unfold Hal.now_ms. f_equal. exact (f_equal SimClock.now_us_ (Cf (board_ s))). }
    split; [exact C1|exact C2| |exact C4]. rewrite Nw. exact C3.
Qed.

(** A call of the controller that keeps what the session awaits. *)
Lemma on_controller_lockstep {A} (call : _ -> _ -> A * _ * _) t s : device_ok (Commands.on_controller call s).2 ->
  (forall Hq Mq, secured Hq Mq (session s) (client s) ->
   let '(_, k, c) := call (session s) (client s) in
   ((c = client s \/ c = McuClient.clear_command_status (client s)) /\ secured Hq Mq k c) /\ undisturbed (session s) k) ->
  lockstep t s -> lockstep t (Commands.on_controller call s).2 /\
    undisturbed (session s) (session (Commands.on_controller call s).2).
Proof.
  intros Dv' Cl [Dv Ck Sq Pf Kn Fl Id Ca Se]. specialize (Cl _ _ Se). revert Dv' Cl.
  unfold Commands.on_controller, Commands.controller, Commands.app_of.
  change (ApplicationRuntime.controller_ (app_ s)) with (session s).
  change (ApplicationRuntime.client_ (app_ s)) with (client s).
  destruct (call (session s) (client s)) as [[r k] c]. intros Dv' [[Cl Sk] Un]. split; [|exact Un]. split; try assumption.
  - destruct Cl as [-> | ->]; exact Kn.
  - destruct Cl as [-> | ->]; [exact Ca|exact (calling_clear_status _ _ Ca)].
Qed.

(** Nothing is awaited of a client that is free. *)
Lemma free_secured Hq Mq k c c' : busy c = false -> secured Hq Mq k c -> secured Hq Mq k c'.
Proof.
  intros B [Sh Sm Sd]. assert (No : forall id P, ~ holds id P c).
  { unfold busy in B. apply orb_false_iff in B as [B1 B2]. intros id P (_ & [(X & _)|(_ & X & _)]); congruence. }
  split; [| |exact Sd].
  - intros En S D. now destruct (No _ _ (Sh En S D)).
  - intros En S D. destruct (Sm En S D) as (_ & _ & X). now destruct (No _ _ X).
Qed.

Lemma issue_busy cmd c (w : AppWorld.AppWorld N) : busy c = true -> issue cmd (c, w) = (NotReady, (c, w)).
Proof. intros B. rewrite issue_request. unfold request, McuClient.client_request. unfold busy in B. now rewrite B. Qed.

Lemma on_client_lockstep cmd t s : within_limits cmd -> lockstep t s -> lockstep t (Commands.on_client (issue cmd) s).2.
Proof.
  intros Cm K. pose proof (on_client_ok cmd s Cm (ls_device _ _ K)) as Dv'.
  destruct (busy (client s)) eqn:B.
  - unfold Commands.on_client in *. rewrite issue_busy in * by exact B. destruct K.
    split; try assumption.
  - destruct K as [Dv Ck Sq Pf Kn Fl Id Ca Se].
    pose proof (rt_client _ (sys_app _ (dev_system _ Dv))) as Kc.
    pose proof (issue_pipe app_room cmd (client s) (app_world s) (within_bytes _ Cm) Kc Ca) as [_ Ca'].
    assert (Kp : kept AppWorld.board (McuClient.last_fault (client s)) (board_ s) (issue cmd (client s, app_world s)).2).
    { apply issue_kept; [|now split]. intros bs w. cbn. now destruct (InMemoryTransport.write bs _). }
    destruct Kp as [Lf Bd].
    unfold Commands.on_client, Commands.app_of in *. change (ApplicationRuntime.client_ (app_ s)) with (client s) in *.
    destruct (issue cmd (client s, app_world s)) as [r [c w]]. cbn [fst snd] in *. split; try assumption.
    + etrans; [|exact Ck]. exact (f_equal (fun b => SimClock.now_us_ (SimBoard.clock_ b)) Bd).
    + intros F X. apply (Kn F). etrans; [symmetry; exact Lf|exact X].
    + rewrite <- (app_world_with w s) in Ca'. exact Ca'.
    + exact (free_secured _ _ _ _ c B Se).
Qed.

(** The controller's operations a user can call. *)
Lemma start_program_secured p k c Hq Mq : session_inv k -> secured Hq Mq k c ->
  let '(_, k', c') := CookingController.start_program (Some p) k c in
  ((c' = c \/ c' = McuClient.clear_command_status c) /\ secured Hq Mq k' c') /\ undisturbed k k'.
Proof.
  intros I Se. unfold CookingController.start_program. destruct (_ || _) eqn:G.
  { split_and!; auto. now apply undisturbed_same. }
  apply orb_false_iff in G as [G1 G2]. apply orb_false_iff in G1 as [G0 G1]. cbn [CookingController.begin_shutdown].
  split_and!; [now right| |].
  - split; simp_set; auto; discriminate.
  - apply bool_decide_eq_false in G0, G1. apply reset_undisturbed; [|intros [X|[X _]]; discriminate X|discriminate].
    destruct (CookingController.state_ k) eqn:S; try (left; intros [X|X]; congruence).
    right. right. split; [exact S|]. cbn in G2. now apply negb_false_iff in G2.
Qed.

Lemma stop_secured k c Hq Mq : secured Hq Mq k c ->
  let '(k', c') := CookingController.stop k c in
  ((c' = c \/ c' = McuClient.clear_command_status c) /\ secured Hq Mq k' c') /\ undisturbed k k'.
Proof.
  intros Se. pose proof Se as [Sh Sm Sd]. unfold CookingController.stop. destruct (_ && CookingController.start_after_shutdown_ k) eqn:G.
  { split_and!; [now left|split; simp_set; assumption|]. split; auto. }
  clear G. destruct (negb _ && _) eqn:G; [|split_and!; auto; now apply undisturbed_same].
  apply andb_true_iff in G as [G1 G2]. apply negb_true_iff, bool_decide_eq_false in G1, G2. cbn [CookingController.begin_shutdown].
  split_and!; [now right| |].
  - split; simp_set; auto; discriminate.
  - apply reset_undisturbed; [left; intros [X|X]; contradiction|intros [X|[X _]]; discriminate X|discriminate].
Qed.

Lemma action_lockstep t s s' : lockstep t s -> action s s' -> lockstep t s' /\ undisturbed (session s) (session s').
Proof.
  intros K A. pose proof (action_ok s s' A (ls_device _ _ K)) as Dv'.
  pose proof (rt_session _ (sys_app _ (dev_system _ (ls_device _ _ K)))) as I.
  destruct A as [|g v F L R| | |cmd Cm|p Lp| | |kib corrupt Kb Rs].
  - split; [exact K|now apply undisturbed_same].
  - split; [now apply on_board_lockstep|now apply undisturbed_same].
  - split; [now apply on_board_lockstep|now apply undisturbed_same].
  - split; [now apply on_board_lockstep|now apply undisturbed_same].
  - split; [now apply on_client_lockstep|]. apply undisturbed_same; unfold session, Commands.on_client;
      destruct (issue cmd _) as [r [c w]]; reflexivity.
  - apply on_controller_lockstep; [exact Dv'| |exact K]. intros Hq Mq. now apply start_program_secured.
  - apply on_controller_lockstep; [exact Dv'| |exact K]. intros Hq Mq [Sh Sm Sd].
    unfold CookingController.user_next. destruct (CookingController.program_ (session s));
      (split_and!; [now left|now split|now apply undisturbed_same]).
  - apply on_controller_lockstep; [exact Dv'| |exact K]. intros Hq Mq Se.
    pose proof (stop_secured (session s) (client s) Hq Mq Se) as X. destruct (CookingController.stop _ _). exact X.
  - split; [|now apply undisturbed_same]. destruct K. now split.
Qed.

(** ** Histories *)

(** What can happen to a device in [n] milliseconds: time passes, and the user
    acts whenever he likes. *)
Inductive evolves : nat -> SystemSim N -> SystemSim N -> Prop :=
| ev_done s : evolves 0 s s
| ev_act n s1 s2 s3 : action s1 s2 -> evolves n s2 s3 -> evolves n s1 s3
| ev_step n s1 s2 s3 : step_1ms s1 = Ret s2 -> evolves n s2 s3 -> evolves (S n) s1 s3.

Lemma evolves_trans n1 n2 s1 s2 s3 : evolves n1 s1 s2 -> evolves n2 s2 s3 -> evolves (n1 + n2) s1 s3.
Proof. induction 1; intros E; [exact E|eapply ev_act; eauto|eapply ev_step; eauto]. Qed.

Lemma evolves_steps n : forall s s', step_ms n s = Ret s' -> evolves n s s'.
Proof.
  induction n as [|n IH]; intros s s' E; cbn [step_ms] in E; [injection E as <-; constructor|].
  apply bind_ret in E as (s1 & E1 & E). apply ev_step with s1; auto.
Qed.

(** A device that was switched on, its recipes loaded. *)
Definition powered s : Prop :=
  exists seed l, library_ok l /\ s = SimMain.with_recipes l (new_system seed).

Lemma powered_lockstep s : powered s -> lockstep 0 s.
Proof.
  intros (seed & l & L & ->). pose proof (with_recipes_ok l _ L (ls_device _ _ (new_system_lockstep seed))) as Dv.
  destruct (new_system_lockstep seed). now split.
Qed.

Lemma evolves_lockstep n s s' : evolves n s s' -> forall t, 0 <= t -> t + Z.of_nat n <= kRunMs -> lockstep t s ->
  lockstep (t + Z.of_nat n) s'.
Proof.
  induction 1 as [s|n s1 s2 s3 A _ IH|n s1 s2 s3 E _ IH]; intros t Ht Hn K.
  - now rewrite Z.add_0_r.
  - apply IH; [exact Ht|exact Hn|]. now apply (action_lockstep t s1).
  - replace (t + Z.of_nat (S n)) with ((t + 1) + Z.of_nat n) by lia. apply IH; [lia|lia|].
    apply (step_lockstep t s1); [lia|exact K|exact E].
Qed.

(** The heater draws no power and the motor is not driven. *)
Definition outputs_off s : Prop :=
  SimBoard.heater_watts_ (board_ s) = fzero /\ MotorModel.duty_ (SimBoard.motor_model_ (board_ s)) = fzero.

Lemma rest_off s s' : device_ok s -> step_1ms s = Ret s' -> heater_rests s' -> motor_rests s' -> outputs_off s'.
Proof.
  intros Dv E Hr [Mr _]. destruct (step_control s s' (dev_system _ Dv) E) as [_ [[O1 O2 O3 O4 O5 O6 O7] _]].
  split; [apply O6; right; left; exact Hr|]. etrans; [exact O1|]. unfold duty_of.
  replace (MotorController.commanded_rpm_ _) with fzero by (symmetry; exact Mr). now vm_compute.
Qed.

(** The milliseconds a shutdown takes at most. *)
Definition budget s : nat :=
  (10 - Z.to_nat (ApplicationRuntime.app_divider_ (app_ s))) + 10 * (rank (session s) - 1).

Lemma ending_rank k : ending k -> ~ over k -> (1 <= rank k <= 5)%nat.
Proof.
  intros En No. unfold rank. destruct En as [S|S]; rewrite S.
  - destruct (CookingController.shutdown_heater_done_ k), (CookingController.shutdown_heater_sent_ k); lia.
  - destruct (CookingController.shutdown_heater_done_ k), (CookingController.shutdown_heater_sent_ k); lia.
Qed.

Lemma action_divider s s' : action s s' ->
  ApplicationRuntime.app_divider_ (app_ s') = ApplicationRuntime.app_divider_ (app_ s).
Proof.
  intros A. destruct A as [|g v F L R| | |cmd Cm|p Lp| | |kib corrupt Kb Rs]; try reflexivity.
  - unfold Commands.on_client. destruct (issue cmd _) as [r [c w]]. reflexivity.
  - unfold Commands.on_controller. now destruct (CookingController.start_program _ _ _) as [[r k] c].
  - unfold Commands.on_controller. now destruct (CookingController.stop _ _) as [k c].
Qed.

(** The session has come to rest, or runs the program that was waiting. *)
Definition settles s s2 : Prop :=
  (over (session s2) \/ CookingController.state_ (session s2) = Running /\
     CookingController.start_after_shutdown_ (session s) = true) /\ outputs_off s2.

Lemma shutdown_settles n s s' : evolves n s s' -> forall t, 0 <= t -> t + Z.of_nat n <= kRunMs -> lockstep t s ->
  ending (session s) -> ~ over (session s) -> (budget s <= n)%nat ->
  exists m s2, (m <= n)%nat /\ evolves m s s2 /\ evolves (n - m) s2 s' /\ settles s s2.
Proof.
  induction 1 as [s|n s1 s2 s3 A E IH|n s1 s2 s3 E Ev IH]; intros t Ht Hn K En No B.
  - pose proof (ending_rank _ En No). pose proof (rt_divider _ (sys_app _ (dev_system _ (ls_device _ _ K)))). unfold budget in B. lia.
  - destruct (action_lockstep t s1 s2 K A) as [K2 [U1 U2 _ _]]. destruct (U1 En No) as (En2 & No2 & R2).
    destruct (IH t Ht Hn K2 En2 No2) as (m & s4 & L & E1 & E2 & [S1 S2]).
    { unfold budget in *. now rewrite R2, (action_divider s1 s2 A). }
    exists m, s4. split_and!; [exact L|now apply ev_act with s2|exact E2|]. split; [|exact S2].
    destruct S1 as [S1|[S1 S3]]; [now left|right]. split; [exact S1|].
    destruct (CookingController.start_after_shutdown_ (session s1)) eqn:X; [reflexivity|].
    rewrite (U2 En No eq_refl) in S3. discriminate S3.
  - destruct (step_lockstep t s1 s2 ltac:(lia) K E) as (K2 & St & _). pose proof (step_timing s1 s2 E) as Tm. cbv zeta in Tm.
    destruct Tm as [D2 _]. pose proof (rt_divider _ (sys_app _ (dev_system _ (ls_device _ _ K)))) as D1.
    unfold next_divider in D2. unfold stepped, controller_due in St.
    rewrite u8_id in D2, St by (unfold in_u8; lia). rewrite Z.geb_leb in D2, St.
    pose proof (ending_rank _ En No) as R1.
    destruct (Z.leb_spec 10 (ApplicationRuntime.app_divider_ (app_ s1) + 1)) as [Due|Due].
    + destruct St as [_ _ _ T4 T5 T6 T7 T8]. cbn [fst snd] in *.
      assert (Off : heater_rests s2 /\ motor_rests s2 -> outputs_off s2) by (intros [X1 X2]; exact (rest_off s1 s2 (ls_device _ _ K) E X1 X2)).
      destruct (T7 En No) as [Ov|[Rn|(En2 & No2 & R2)]].
      * exists 1%nat, s2. split_and!; [lia|now apply ev_step with s2, ev_done|cbn; now rewrite Nat.sub_0_r|].
        split; [now left|]. destruct (T4 Ov); [contradiction|auto].
      * exists 1%nat, s2. split_and!; [lia|now apply ev_step with s2, ev_done|cbn; now rewrite Nat.sub_0_r|].
        assert (Nr : CookingController.state_ (session s1) <> Running) by (destruct En; congruence).
        split; [right; split; [exact Rn|]; now destruct (T6 Rn)|]. destruct (T5 Rn); [contradiction|auto].
      * destruct (IH (t + 1) ltac:(lia) ltac:(lia) K2 En2 No2) as (m & s4 & L & E1 & E2 & [S1 S2]).
        { unfold budget in *. pose proof (ending_rank _ En2 No2). lia. }
        exists (S m), s4. split_and!; [lia|now apply ev_step with s2|exact E2|]. split; [|exact S2].
        destruct S1 as [S1|[S1 S3]]; [now left|right]. split; [exact S1|].
        destruct (CookingController.start_after_shutdown_ (session s1)) eqn:X; [reflexivity|].
        rewrite (T8 eq_refl) in S3. discriminate S3.
    + rewrite <- St in En, No. destruct (IH (t + 1) ltac:(lia) ltac:(lia) K2 En No) as (m & s4 & L & E1 & E2 & [S1 S2]).
      { unfold budget in *. rewrite St, D2. lia. }
      exists (S m), s4. split_and!; [lia|now apply ev_step with s2|exact E2|]. split; [|exact S2]. now rewrite <- St.
Qed.

(** No action of the user hides a fault. *)
Lemma action_fault s s' : action s s' -> McuClient.last_fault_ (client s') = McuClient.last_fault_ (client s).
Proof.
  intros A. destruct A as [|g v F L R| | |cmd Cm|p Lp| | |kib corrupt Kb Rs]; try reflexivity.
  - pose proof (proj1 (issue_kept (fun _ => tt) (fun _ _ => eq_refl) _ _ cmd (client s, app_world s) (conj eq_refl eq_refl))) as X.
    unfold Commands.on_client, Commands.app_of in *. change (ApplicationRuntime.client_ (app_ s)) with (client s).
    destruct (issue cmd (client s, app_world s)) as [r [c w]]. exact X.
  - unfold Commands.on_controller, client, Commands.app_of. unfold CookingController.start_program. now destruct (_ || _).
  - unfold Commands.on_controller, client, Commands.app_of, CookingController.stop.
    destruct (_ && CookingController.start_after_shutdown_ _); [reflexivity|]. now destruct (_ && _).
Qed.

(** A session is faulted at the controller's next tick. *)
Lemma fault_settles n s s' : evolves n s s' -> forall t, 0 <= t -> t + Z.of_nat n <= kRunMs -> lockstep t s ->
  McuClient.last_fault_ (client s) <> FaultCode.None ->
  10 - ApplicationRuntime.app_divider_ (app_ s) <= Z.of_nat n ->
  exists m s2, (m <= n)%nat /\ evolves m s s2 /\ evolves (n - m) s2 s' /\
    CookingController.state_ (session s2) = Faulted.
Proof.
  induction 1 as [s|n s1 s2 s3 A E IH|n s1 s2 s3 E Ev IH]; intros t Ht Hn K Lf B.
  - pose proof (rt_divider _ (sys_app _ (dev_system _ (ls_device _ _ K)))). lia.
  - destruct (action_lockstep t s1 s2 K A) as [K2 _]. rewrite <- (action_fault s1 s2 A) in Lf.
    rewrite <- (action_divider s1 s2 A) in B. destruct (IH t Ht Hn K2 Lf B) as (m & s4 & L & E1 & E2 & S4).
    exists m, s4. split_and!; [exact L|now apply ev_act with s2|exact E2|exact S4].
  - destruct (step_lockstep t s1 s2 ltac:(lia) K E) as (K2 & _ & Al). destruct (Al (or_introl Lf)) as [Lf2 Fd].
    pose proof (proj1 (step_timing s1 s2 E)) as D2. cbv zeta in D2.
    pose proof (rt_divider _ (sys_app _ (dev_system _ (ls_device _ _ K)))) as D1.
    unfold next_divider in D2. unfold controller_due in Fd. rewrite u8_id in D2, Fd by (unfold in_u8; lia).
    destruct (_ >=? 10).
    + exists 1%nat, s2. split_and!; [lia|now apply ev_step with s2, ev_done|cbn; now rewrite Nat.sub_0_r|now apply Fd].
    + destruct (IH (t + 1) ltac:(lia) ltac:(lia) K2 Lf2 ltac:(lia)) as (m & s4 & L & E1 & E2 & S4).
      exists (S m), s4. split_and!; [lia|now apply ev_step with s2|exact E2|exact S4].
Qed.

(** No action of the user is noticed by the watchdog of the application. *)
Lemma action_timing s s' : action s s' -> timing (board_ s') = timing (board_ s).
Proof.
  intros A. destruct A as [|g v F L R| | |cmd Cm|p Lp| | |kib corrupt Kb Rs]; try reflexivity.
  - pose proof (proj2 (issue_kept (fun w => timing (AppWorld.board w)) app_timing_write _ _ cmd
      (client s, app_world s) (conj eq_refl eq_refl))) as X.
    unfold Commands.on_client, Commands.app_of in *. change (ApplicationRuntime.client_ (app_ s)) with (client s).
    destruct (issue cmd (client s, app_world s)) as [r [c w]]. exact X.
  - unfold Commands.on_controller. now destruct (CookingController.start_program _ _ _) as [[r k] c].
  - unfold Commands.on_controller. now destruct (CookingController.stop _ _) as [k c].
Qed.

Lemma evolves_on_time n s s' : evolves n s s' -> forall t, 0 <= t -> t + Z.of_nat n <= kRunMs -> on_time t s ->
  on_time (t + Z.of_nat n) s'.
Proof.
  induction 1 as [s|n s1 s2 s3 A _ IH|n s1 s2 s3 E _ IH]; intros t Ht Hn K.
  - now rewrite Z.add_0_r.
  - apply IH; [lia..|]. pose proof (action_timing s1 s2 A) as T. injection T as Tc Tw. unfold on_time in *.
    now rewrite (action_divider s1 s2 A), Tc, Tw.
  - replace (t + Z.of_nat (S n)) with ((t + 1) + Z.of_nat n) by lia.
    apply IH; [lia..|]. apply (step_on_time t s1 s2); [lia|exact K|exact E].
Qed.

(** The user stops the session. *)
Definition press_stop s : SystemSim N :=
  (Commands.on_controller (fun k c => let '(k, c) := CookingController.stop k c in (tt, k, c)) s).2.

(** A session that a fault has not ended already is ending then. *)
Lemma stop_ends s : session_inv (session s) ->
  (CookingController.state_ (session s) = Faulted -> CookingController.shutdown_motor_done_ (session s) = false) ->
  ending (session (press_stop s)) /\ ~ over (session (press_stop s)) /\
  CookingController.start_after_shutdown_ (session (press_stop s)) = false.
Proof.
  intros I F. unfold press_stop, session, Commands.on_controller, Commands.controller, Commands.app_of in *.
  set (k := ApplicationRuntime.controller_ (app_ s)) in *. unfold CookingController.stop.
  destruct (bool_decide_reflect (CookingController.state_ k = Stopping)) as [S|S]; cbn [negb andb].
  - assert (No : ~ over k) by (intros [X|[X _]]; congruence).
    destruct (CookingController.start_after_shutdown_ k) eqn:A; cbn [fst snd app_ Commands.with_app]; simp_set.
    + split_and!; [now left|exact No|reflexivity].
    + split_and!; [now left|exact No|exact A].
  - destruct (bool_decide_reflect (CookingController.state_ k = Faulted)) as [T|T]; cbn [negb andb].
    + split_and!; [now right|intros [X|[_ X]]; [change (CookingController.state_ k = Done) in X; congruence|]|].
      * change (CookingController.shutdown_motor_done_ k = true) in X. rewrite F in X by exact T. discriminate X.
      * destruct (CookingController.start_after_shutdown_ k) eqn:A; [|exact A].
        apply (inv_start k I) in A as [A _]. congruence.
    + split_and!; [now left|intros [X|[X _]]; discriminate X|reflexivity].
Qed.

End Device.

(** ** Properties *)

Section LockstepProperties.
Import SystemSim.
Context {N : Type} `{NoiseSource N}.

(** C9: no request is lost, repeated or late: whatever the user does to the
    device, whenever he does it, the application never has to send a request a
    second time and never gives one up: a request that is pending between two
    milliseconds was sent since the last one, and the status of the last command
    is that of an answer. *)
Theorem requests_are_answered_at_once n (s0 s : SystemSim N) : powered s0 -> evolves n s0 s -> Z.of_nat n <= kRunMs ->
  (McuClient.last_command_status_ (client s) = Ok \/ McuClient.last_command_status_ (client s) = ProtocolError) /\
  (McuClient.waiting_ (client s) = true ->
     McuClient.request_started_ms_ (client s) = now_ms s /\ McuClient.retried_ (client s) = false).
Proof.
  intros P E L. pose proof (evolves_lockstep n s0 s E 0 ltac:(lia) ltac:(lia) (powered_lockstep s0 P)) as [_ _ _ _ _ _ _ [_ _ F St] _].
  split; [exact St|]. intros Wt. destruct (F Wt) as (_ & F2 & F3 & _). split; [exact F2|exact F3].
Qed.

(** C8 (SR-001): the end of a session is the end of heating and stirring: in
    whatever state of the whole device the session comes to rest, or begins the
    program it was to start next, be it by an action of the user or by the
    passing of a millisecond, the heater draws no power and the motor is not
    driven at that moment. *)
Theorem session_rests_with_outputs_off n (s0 s s' : SystemSim N) : powered s0 -> evolves n s0 s -> Z.of_nat n < kRunMs ->
  action s s' \/ step_1ms s = Ret s' ->
  over (session s') /\ ~ over (session s) \/
  CookingController.state_ (session s') = Running /\ CookingController.state_ (session s) <> Running ->
  outputs_off s'.
Proof.
  intros P E L [A|St] C; pose proof (evolves_lockstep n s0 s E 0 ltac:(lia) ltac:(lia) (powered_lockstep s0 P)) as K.
  - destruct (action_lockstep _ s s' K A) as [_ [_ _ U1 U2]]. destruct C as [[O No]|[R Nr]]; [now destruct No; apply U1|now destruct Nr; apply U2].
  - destruct (step_lockstep (0 + Z.of_nat n) s s' ltac:(lia) K St) as (_ & Sp & _). unfold stepped in Sp. destruct (controller_due s).
    + destruct Sp as [_ _ _ T1 T2 _ _ _]. cbn [fst snd] in *.
      destruct C as [[O No]|[R Nr]]; [destruct (T1 O) as [X|[X1 X2]]|destruct (T2 R) as [X|[X1 X2]]];
        try contradiction; exact (rest_off s s' (ls_device _ _ K) St X1 X2).
    + rewrite Sp in C. destruct C as [[O No]|[R Nr]]; contradiction.
Qed.

(** C7: stop always stops: when the user stops the session of a device that a
    fault has not taken down already, then whatever he does in the 50 ms after
    it, at some moment of them the session is at rest, the heater draws no power
    and the motor is not driven. *)
Theorem stop_comes_to_rest n (s0 s s' : SystemSim N) : powered s0 -> evolves n s0 s -> Z.of_nat n + 50 <= kRunMs ->
  (CookingController.state_ (session s) = Faulted -> CookingController.shutdown_motor_done_ (session s) = false) ->
  evolves 50 (press_stop s) s' ->
  exists m s2, (m <= 50)%nat /\ evolves m (press_stop s) s2 /\ evolves (50 - m) s2 s' /\
    over (session s2) /\ outputs_off s2.
Proof.
  intros P E L F Ev. pose proof (evolves_lockstep n s0 s E 0 ltac:(lia) ltac:(lia) (powered_lockstep s0 P)) as K.
  pose proof (rt_session _ (sys_app _ (dev_system _ (ls_device _ _ K)))) as I.
  destruct (stop_ends s I F) as (En & No & Sa).
  destruct (action_lockstep _ s (press_stop s) K (stops s)) as [K1 _].
  pose proof (ending_rank _ En No) as R. pose proof (rt_divider _ (sys_app _ (dev_system _ (ls_device _ _ K1)))) as D.
  destruct (shutdown_settles 50 (press_stop s) s' Ev (0 + Z.of_nat n) ltac:(lia) ltac:(lia) K1 En No)
    as (m & s2 & Lm & E1 & E2 & [S1 S2]); [unfold budget; lia|].
  exists m, s2. split_and!; try assumption. destruct S1 as [S1|[_ S1]]; [exact S1|congruence].
Qed.

(** C32: the application is never late for its watchdog: whatever the user does to
    the device and whenever, from the tenth millisecond on the watchdog is armed
    and was last fed fewer than ten milliseconds ago, on the wrapping millisecond
    clock, and it never trips, in every run shorter than the wrap of the 64-bit
    microsecond clock. *)
Theorem app_watchdog_never_trips n (s0 s : SystemSim N) : powered s0 -> evolves n s0 s -> Z.of_nat n <= kRunMs ->
  let watchdog := SimBoard.watchdog_ (board_ s) in
  Watchdog.tripped_ watchdog = false /\
  ((10 <= n)%nat -> Watchdog.armed_ watchdog = true /\ u32_sub (now_ms s) (Watchdog.last_feed_ms_ watchdog) < 10).
Proof.
  intros (seed & l & _ & ->) E L watchdog.
  destruct (evolves_on_time n _ s E 0 ltac:(lia) ltac:(lia) (new_system_on_time seed)) as (C & D & T & F & A).
  split; [exact T|]. intros G. destruct A as [A|A]; [|lia]. split; [exact A|].
  unfold watchdog. rewrite F by exact A. change (now_ms s) with (to_millis (SimClock.now_us_ (SimBoard.clock_ (board_ s)))).
  rewrite (clock_ms _ _ C). unfold kRunMs in *. wrap_lia.
Qed.

(** Every shutdown ends: whatever made the session end, and whatever the
    user does in the meantime, within 50 ms it is over, or the program that was
    waiting for it runs, and at that moment the outputs are off. *)
Theorem every_shutdown_ends n (s0 s s' : SystemSim N) : powered s0 -> evolves n s0 s -> Z.of_nat n + 50 <= kRunMs ->
  ending (session s) -> ~ over (session s) -> evolves 50 s s' ->
  exists m s2, (m <= 50)%nat /\ evolves m s s2 /\ evolves (50 - m) s2 s' /\ outputs_off s2 /\
    (over (session s2) \/ CookingController.state_ (session s2) = Running /\
       CookingController.start_after_shutdown_ (session s) = true).
Proof.
  intros P E L En No Ev. pose proof (evolves_lockstep n s0 s E 0 ltac:(lia) ltac:(lia) (powered_lockstep s0 P)) as K.
  pose proof (ending_rank _ En No) as R. pose proof (rt_divider _ (sys_app _ (dev_system _ (ls_device _ _ K)))) as D.
  destruct (shutdown_settles 50 s s' Ev (0 + Z.of_nat n) ltac:(lia) ltac:(lia) K En No)
    as (m & s2 & Lm & E1 & E2 & [S1 S2]); [unfold budget; lia|].
  now exists m, s2.
Qed.

(** C10: faults are not missed: while the safety processor has a fault latched,
    the application knows of one at every moment of the whole device, and
    whatever the user does, within 10 ms its session is faulted. *)
Theorem faults_reach_the_session n (s0 s s' : SystemSim N) : powered s0 -> evolves n s0 s -> Z.of_nat n + 10 <= kRunMs ->
  SafetyMcu.fault_ (mcu_ s) <> FaultCode.None ->
  McuClient.last_fault (client s) <> FaultCode.None /\
  (evolves 10 s s' ->
   exists m s2, (m <= 10)%nat /\ evolves m s s2 /\ evolves (10 - m) s2 s' /\
     CookingController.state_ (session s2) = Faulted).
Proof.
  intros P E L F. pose proof (evolves_lockstep n s0 s E 0 ltac:(lia) ltac:(lia) (powered_lockstep s0 P)) as K.
  pose proof (ls_known _ _ K F) as Lf. split; [exact Lf|]. intros Ev.
  pose proof (rt_divider _ (sys_app _ (dev_system _ (ls_device _ _ K)))) as D.
  apply (fault_settles 10 s s' Ev (0 + Z.of_nat n)); try assumption; lia.
Qed.

End LockstepProperties.
