(* ===== verification/McuMain.v ===== *)
(** * The safety processor as a process (src/apps/culina_mcu_main.cpp)

    The simulated board, the controller on a socket to the application, and the
    control server through which a user interface acts on the board. What is
    printed is not modelled, except that asking for the state of the link may
    accept a connection. *)

From stdpp Require Import relations.
From S2P Require Import Prelude.
From S2P Require Import Float32.
From S2P Require Import Common.
From S2P Require Import C1Link.
From S2P Require Import Hal.
From S2P Require Import Mcu.
From S2P Require Import SafetyMcu.
From S2P Require Import Supervision.
From S2P Require Import Sim.
From S2P Require Import CString.
From S2P Require Import Sockets.
From S2P Require Import SimControl.
From S2P Require Import SocketUart.
From S2P Require Import System.

Module McuMain.

(** ** Arguments *)

Record Options := { socket_path : string; control_socket_path : option string; water_g : f32 }.
#[global] Instance eta_Options : Eta Options := fun o =>
  {| socket_path := socket_path o; control_socket_path := control_socket_path o; water_g := water_g o |}.

Definition default_options : Options :=
  {| socket_path := "/tmp/c1link.sock"; control_socket_path := None; water_g := fzero |}.

(** [None]: the process ends with status 2. *)
Fixpoint parse_arguments (argv : list string) (o : Options) : option Options :=
  match argv with
  | [] => Some o
  | arg :: argv =>
      if bool_decide (arg = "--socket") then
        match argv with v :: argv => parse_arguments argv (o <| socket_path := v |>) | [] => None end
      else if bool_decide (arg = "--control-socket") then
        match argv with v :: argv => parse_arguments argv (o <| control_socket_path := Some v |>) | [] => None end
      else if bool_decide (arg = "--water") then
        match argv with
        | v :: argv =>
            match parse_float (Some v) fzero (of_Z 2200) with
            | Some grams => parse_arguments argv (o <| water_g := grams |>)
            | None => None
            end
        | [] => None
        end
      else None
  end.

(** ** The process *)

(** The controller, with the board and its socket as its world, and the control
    server, which shares the board and the system with it. *)
Record Process {N W : Type} := {
  mcu : SafetyMcu.SafetyMcu (McuWorld.McuWorld N (SocketLine W));
  control : SimControlServer.SimControlServer
}.
Arguments Process : clear implicits.

Section Process.
Context {N : Type} `{NoiseSource N} {W : Type} `{ISockets W}.

Definition world (p : Process N W) : McuWorld.McuWorld N (SocketLine W) := SafetyMcu.world (mcu p).
Definition board (p : Process N W) : SimBoard.SimBoard N := McuWorld.board (world p).

Definition with_kernel (k : W) (l : SocketLine W) : SocketLine W :=
  {| transport := transport l; kernel := k; sent := sent l |}.

(** What the rest of the system does between two turns. *)
Definition disturb (change : W -> W) (p : Process N W) : Process N W :=
  let l := McuWorld.line (world p) in
  {| mcu := SafetyMcu.with_world ((world p) <| McuWorld.line := with_kernel (change (kernel l)) l |>) (mcu p);
     control := control p |}.

(** Everything before the loop; [inr] is an exit status. *)
Definition start (o : Options) (k : W) : (Process N W + Z) * W :=
  let b := SimBoard.new_board 42 in
  let b := if fgt (water_g o) fzero then SimBoard.add_mass (water_g o) b else b in
  let '(uart, k) := SocketTransport.listen_on (Some (socket_path o)) k in
  if negb (SocketTransport.valid uart) then (inr 1, SocketTransport.destroy uart k)
  else
    let '(server, k) := SimControlServer.listen_on (control_socket_path o) true k in
    if bool_decide (is_Some (control_socket_path o)) && negb (SimControlServer.valid server)
    then (inr 1, SocketTransport.destroy uart (SimControlServer.destroy server k))
    else
      (inl {| mcu := SafetyMcu.new_mcu {| McuWorld.board := b;
                                          McuWorld.line := {| transport := uart; kernel := k; sent := [] |} |};
              control := server |}, k).

Definition boot (argv : list string) (k : W) : (Process N W + Z) * W :=
  match parse_arguments argv default_options with
  | None => (inr 2, k)
  | Some o => start o k
  end.

(** The status line, every two seconds of the machine's clock: it asks whether
    the link is up. *)
Definition report (p : Process N W) : Process N W :=
  {| mcu := SafetyMcu.with_world
              ((world p) <| McuWorld.line := (line_connected (McuWorld.line (world p))).2 |>) (mcu p);
     control := control p |}.

(** One turn of the loop; [due]: the status line is due. *)
Definition turn (due : bool) (p : Process N W) : outcome (Process N W) :=
  b ← SimBoard.step_ms 1 (board p);
  let l := McuWorld.line (world p) in
  '(server, b, k) ← SimControlServer.poll (control p) b (kernel l);
  m ← SafetyMcu.tick_1ms (SafetyMcu.with_world {| McuWorld.board := b; McuWorld.line := with_kernel k l |} (mcu p));
  let p := {| mcu := m; control := server |} in
  Ret (if due then report p else p).

Fixpoint run (turns : list ((W -> W) * bool)) (p : Process N W) : outcome (Process N W) :=
  match turns with
  | [] => Ret p
  | (change, due) :: turns => p ← turn due (disturb change p); run turns p
  end.
End Process.
End McuMain.

(** * Theorems *)

Section McuProcess.
Import McuMain.
Context {N : Type} `{NoiseSource N} {W : Type} `{SocketLaws W}.

Implicit Types p : Process N W.

(** ** Start *)

Lemma parse_arguments_water argv : forall o o', bowl_mass_ok (water_g o) -> parse_arguments argv o = Some o' ->
  bowl_mass_ok (water_g o').
Proof.
  induction argv as [argv IH] using (induction_ltof1 _ (@length string)). unfold ltof in IH.
  intros o o' B E. destruct argv as [|arg argv]; cbn [parse_arguments] in E; [now simplify_eq|].
  destruct (bool_decide (arg = "--socket")).
  { destruct argv as [|v argv]; [discriminate|]. now apply (IH argv ltac:(cbn; lia)) in E. }
  destruct (bool_decide (arg = "--control-socket")).
  { destruct argv as [|v argv]; [discriminate|]. now apply (IH argv ltac:(cbn; lia)) in E. }
  destruct (bool_decide (arg = "--water")); [|discriminate]. destruct argv as [|v argv]; [discriminate|].
  destruct (parse_float _ _ _) as [grams|] eqn:P; [|discriminate].
  apply (IH argv ltac:(cbn; lia)) in E; [exact E|]. simp_set.
  assert (F : fin (of_Z 2200) = true) by (apply of_Z_spec; lia).
  apply parse_float_range in P as (Fg & L & G); [|reflexivity|exact F]. split; [exact Fg|].
  rewrite fge_spec in L by (exact Fg || reflexivity). rewrite fle_spec in G by assumption.
  apply Z.leb_le in L, G. now split.
Qed.

(** ** The invariant *)

Record process_ok p : Prop := { proc_mcu : mcu_ok (mcu p); proc_bowl : bowl_ok (board p) }.

Lemma disturb_ok change p : process_ok p -> process_ok (disturb change p).
Proof. intros [K B]. split; [now apply with_world_ok|exact B]. Qed.

Lemma water_bowl_ok grams seed : bowl_mass_ok grams ->
  bowl_ok (SimBoard.add_mass grams (SimBoard.new_board (N := N) seed)).
Proof.
  intros [F R]. unfold bowl_ok, SimBoard.true_mass_g, SimBoard.add_mass. simp_set.
  unfold ScaleModel.add_mass. simp_set. change (ScaleModel.true_mass_g_ _) with fzero.
  destruct (fadd_spec fzero grams eq_refl F) as [Fs Es]; change (fz fzero) with 0 in *; rewrite Z.add_0_l in *.
  - rewrite (rz_fz grams F). now apply fz_lt_huge.
  - split; [exact Fs|]. rewrite Es, (rz_fz grams F). exact R.
Qed.

Lemma mcu_boot_ok argv k : match (boot argv k).1 with inl p => process_ok p | inr _ => True end.
Proof.
  unfold boot. destruct (parse_arguments argv default_options) as [o|] eqn:A; [|exact I].
  apply parse_arguments_water in A; [|split; [reflexivity|vm_compute; split; discriminate]].
  unfold start. cbv zeta. destruct (SocketTransport.listen_on _ k) as [uart k1]. destruct (negb _); [exact I|].
  destruct (SimControlServer.listen_on _ _ k1) as [server k2]. destruct (_ && _); [exact I|].
  split; [apply new_mcu_ok|]. unfold board, world. cbn [fst mcu]. change (SafetyMcu.world (SafetyMcu.new_mcu ?w)) with w.
  cbn [McuWorld.board]. destruct (fgt _ _); [now apply water_bowl_ok|apply new_bowl_ok].
Qed.
(** ** A turn *)

(** What a turn promises of its result. *)
Definition turn_safe (o : outcome (Process N W)) : Prop :=
  match o with Ret p => process_ok p /\ tick_safe (mcu p) | Undefined => True | OutOfFuel => False end.

Lemma report_ok p : process_ok p -> tick_safe (mcu p) -> process_ok (report p) /\ tick_safe (mcu (report p)).
Proof.
  intros [K B] [S1 S2]. split; [split; [now apply with_world_ok|exact B]|]. split; [|exact S2].
  now apply (outputs_safe_transfer (power_w (SafetyMcu.world (mcu p))) (mcu p)).
Qed.

Lemma mcu_turn_ok due p : process_ok p -> turn_safe (turn due p).
Proof.
  intros [K B]. unfold turn. pose proof (board_step_ends (board p)) as Ends.
  destruct (SimBoard.step_ms 1 (board p)) as [b| |] eqn:E; [|exact I|congruence]. apply step_bowl in E. cbn [mbind outcome_bind].
  set (l := McuWorld.line (world p)).
  destruct (server_poll_ok (control p) b (kernel l)) as ([[server b2] k] & -> & _ & A & _). cbn [mbind outcome_bind].
  assert (B2 : bowl_ok b2) by (apply (actions_bowl b b2 A); unfold bowl_ok; rewrite E; exact B).
  set (m := SafetyMcu.with_world _ (mcu p)).
  assert (Km : mcu_ok m) by now apply with_world_ok.
  pose proof (tick_ok m Km) as T. destruct (SafetyMcu.tick_1ms m) as [m'| |] eqn:Et; [|exact I|exact T].
  destruct T as [K' S]. cbn [mbind outcome_bind]. pose proof (mass_untouched (U := SocketLine W)) as Un.
  apply (tick_seen (fun w => mass (McuWorld.board w))) in Et.
  assert (P : process_ok {| mcu := m'; control := server |}).
  { split; [exact K'|]. unfold bowl_ok. change (bowl_mass_ok (mass (McuWorld.board (SafetyMcu.world m')))).
    unfold watched in Et. rewrite Et. exact B2. }
  destruct due; [now apply report_ok|now split].
Qed.

Lemma mcu_runs_ok turns : forall p, process_ok p ->
  match run turns p with
  | Ret p' => process_ok p' /\ (turns <> [] -> tick_safe (mcu p'))
  | Undefined => True
  | OutOfFuel => False
  end.
Proof.
  induction turns as [|[change due] turns IH]; intros p K; [now split|]. cbn [run].
  pose proof (mcu_turn_ok due _ (disturb_ok change p K)) as T.
  destruct (turn due (disturb change p)) as [p1| |]; [|exact I|exact T]. destruct T as [K1 S1]. cbn [mbind outcome_bind].
  specialize (IH p1 K1). destruct turns as [|t turns]; [now split|].
  destruct (run (t :: turns) p1) as [p2| |]; [|exact I|exact IH]. destruct IH as [K2 S2]. split; [exact K2|].
  intros _. now apply S2.
Qed.
End McuProcess.

(** ** Properties *)

Section McuProcessProperties.
Import McuMain.
Context {N : Type} `{NoiseSource N} {W : Type} `{SocketLaws W}.

(** C11 (SR-001 to SR-004): the safety processor is safe as a process: whatever its
    arguments, whatever the system calls answer, whatever bytes arrive on the
    link and whatever lines on the control socket, no loop of it hangs (as long as
    no bytes arrive while a turn reads its sockets: [left_recv]), and after
    every turn that is defined (a cast in the models of the board may not be) the heater has power only while no fault is latched, the
    lid is closed, the bowl is below 165 C and a target in range is set; a
    latched fault means that motor and heater are off; and the bowl holds
    between 0 and 2200 g. *)
Theorem mcu_process_is_safe argv (k : W) p turns : (boot argv k).1 = inl p -> turns <> [] ->
  match run turns p with
  | Ret p' =>
      let m := mcu p' in
      (SimBoard.heater_watts_ (board p') <> fzero ->
         SafetyMcu.fault_ m = FaultCode.None /\ Interlocks.lid_closed (SafetyMcu.inputs_ m) = true /\
         fge (Interlocks.temp_c (SafetyMcu.inputs_ m)) (of_Z 165) = false /\
         370 <= HeaterPid.target_deci_ (SafetyMcu.pid_ m) <= 1600) /\
      (SafetyMcu.fault_ m <> FaultCode.None ->
         SimBoard.heater_watts_ (board p') = fzero /\ MotorModel.duty_ (SimBoard.motor_model_ (board p')) = fzero) /\
      bowl_mass_ok (SimBoard.true_mass_g (board p'))
  | Undefined => True
  | OutOfFuel => False
  end.
Proof.
  intros E Nn. pose proof (mcu_boot_ok argv k) as K. rewrite E in K.
  pose proof (mcu_runs_ok turns p K) as R. destruct (run turns p) as [p'| |]; [|exact I|exact R].
  destruct R as [[Km B] T]. specialize (T Nn). cbv zeta. split_and!; [| |exact B].
  - intros P. destruct (heater_safe _ Km T) as (_ & _ & S). destruct (S P) as (S1 & _ & S2 & S3 & _ & _ & S4). now split_and!.
  - intros F. destruct (fault_off _ Km T F) as (S1 & S2 & _). now split.
Qed.

End McuProcessProperties.
