(* ===== verification/Desk.v ===== *)
(** * The world of an application process

    A process of its own ([culina_app], [culina_ui]) has a clock it advances
    itself and a line to the safety processor; nothing watches it. *)

From S2P Require Import Prelude.
From S2P Require Import Common.
From S2P Require Import Hal.
From S2P Require Import Sim.

(** The simulation's clock is the only one it reads. *)
Record Desk {U : Type} := { clock : SimClock.SimClock; line : U }.
Arguments Desk : clear implicits.
#[global] Instance eta_Desk {U} : Eta (Desk U) := fun d => {| clock := clock d; line := line d |}.

Section Worlds.
Context {U : Type} `{IUart U}.

#[export] Instance desk_clock : IClock (Desk U) := fun d => SimClock.now_us_ (clock d).
#[export] Instance desk_uart : IUart (Desk U) := {|
  uart_write bs d := let '(n, l) := uart_write bs (line d) in (n, d <| line := l |>);
  uart_read d := let '(b, l) := uart_read (line d) in (b, d <| line := l |>);
  rx_pending d := rx_pending (line d)
|}.

(** [AppWatchdog] of the user interface; the prompt's process has none, and its
    client does not ask for one. *)
#[export] Instance desk_watchdog : IWatchdog (Desk U) := {| watchdog_feed d := d; timeout_ms := 500 |}.

(** A millisecond. *)
Definition advance (d : Desk U) : Desk U := d <| clock := SimClock.advance_us 1000 (clock d) |>.
End Worlds.

(** ** Laws *)

Section Laws.
Context {U : Type} `{IUart U, !UartLaws U}.

#[export] Instance desk_uart_laws : UartLaws (Desk U).
Proof.
  refine {| tx_log := fun d => tx_log (line d) |}.
  - intros bs d. pose proof (write_log bs (line d)) as L. cbn. now destruct (uart_write bs (line d)).
  - intros bs d. pose proof (write_pending bs (line d)) as L. cbn. now destruct (uart_write bs (line d)).
  - intros d. pose proof (read_log (line d)) as L. cbn. now destruct (uart_read (line d)).
  - intros d b. pose proof (read_some (line d) b) as L. cbn. now destruct (uart_read (line d)).
  - intros d. pose proof (read_none (line d)) as L. cbn. now destruct (uart_read (line d)).
Defined.

#[export] Instance desk_laws : AppBoardLaws (Desk U).
Proof.
  split; intros; try reflexivity.
  - cbn. unfold now_us, desk_clock. now destruct (uart_write bs (line w)).
  - cbn. unfold now_us, desk_clock. now destruct (uart_read (line w)).
Defined.
End Laws.
