(* ===== verification/AppMain.v ===== *)
(** * The application as a process (src/apps/culina_app_main.cpp)

    One turn of its loop after the other: the clock moves on by a millisecond, the
    client is polled, a safe stop goes on, and a line of the user is carried out.
    What is printed is not modelled. *)

From stdpp Require Import relations.
From S2P Require Import Prelude.
From S2P Require Import Float32.
From S2P Require Import Common.
From S2P Require Import C1Link.
From S2P Require Import Hal.
From S2P Require Import Sim.
From S2P Require Import TelemetryStore.
From S2P Require Import McuClient.
From S2P Require Import Desk.
From S2P Require Import CString.
From S2P Require Import Programs.

(** ** The safe stop *)
Module SafeStop.
Inductive Phase := Idle | Heater | Motor.
#[global] Instance Phase_eq_dec : EqDecision Phase.
Proof. solve_decision. Defined.

Record SafeStop := { phase_ : Phase; request_sent_ : bool; started_ms_ : Z }.
#[global] Instance eta_SafeStop : Eta SafeStop := fun s =>
  {| phase_ := phase_ s; request_sent_ := request_sent_ s; started_ms_ := started_ms_ s |}.

Definition kDeadlineMs : Z := 1000.

Definition new_stop : SafeStop := {| phase_ := Idle; request_sent_ := false; started_ms_ := 0 |}.

Definition begin (now : Z) (s : SafeStop) : SafeStop :=
  s <| phase_ := Heater |> <| request_sent_ := false |> <| started_ms_ := now |>.

Definition active (s : SafeStop) : bool := negb (bool_decide (phase_ s = Idle)).
Definition expired (now : Z) (s : SafeStop) : bool := active s && (u32_sub now (started_ms_ s) >=? kDeadlineMs).

Section Service.
Context {W : Type} `{IClock W, IUart W}.

(** The part of [service] that looks at the response; true when it is over. *)
Definition confirm (response : option Frame) (s : SafeStop) : bool * SafeStop :=
  match response with
  | Some f =>
      if bool_decide (type f = Response) then
        if bool_decide (phase_ s = Heater) && (msg_id f =? MsgId.HeaterOff)
        then (false, s <| phase_ := Motor |> <| request_sent_ := false |>)
        else if bool_decide (phase_ s = Motor) && (msg_id f =? MsgId.MotorStop)
        then (true, s <| phase_ := Idle |> <| request_sent_ := false |>)
        else (false, s)
      else (false, s)
  | None => (false, s)
  end.

(** Its last part: the request of the phase, once it can be sent. *)
Definition send_request (s : SafeStop) (c : McuClient.McuClient) (w : W) : SafeStop * McuClient.McuClient * W :=
  if negb (request_sent_ s) && negb (McuClient.awaiting_response c) then
    let '(status, (c, w)) := if bool_decide (phase_ s = Heater) then heater_off (c, w) else motor_stop (c, w) in
    (s <| request_sent_ := is_ok status |>, c, w)
  else (s, c, w).

Definition service (response : option Frame) (s : SafeStop) (c : McuClient.McuClient) (w : W)
    : bool * SafeStop * McuClient.McuClient * W :=
  let '(over, s) := confirm response s in
  if over then (true, s, c, w)
  else
    let '(s, c) :=
      if negb (bool_decide (McuClient.last_command_status c = Ok))
      then (s <| request_sent_ := false |>, McuClient.clear_command_status c) else (s, c) in
    let '(s, c, w) := send_request s c w in (false, s, c, w).
End Service.
End SafeStop.

(** ** The process *)
Module AppMain.

Record App {U : Type} := {
  desk : Desk U;
  store : TelemetryStore.TelemetryStore;
  client : McuClient.McuClient;
  safe_stop : SafeStop.SafeStop;
  quit_after_stop : bool
}.
Arguments App : clear implicits.
#[global] Instance eta_App {U} : Eta (App U) := fun a =>
  {| desk := desk a; store := store a; client := client a; safe_stop := safe_stop a;
     quit_after_stop := quit_after_stop a |}.

(** What polling the standard input gives: [poll] failed, and whether it was
    interrupted; nothing; the end of the input; a line. *)
Inductive Input := Failed (interrupted : bool) | Nothing | Closed | Typed (text : string).

Section Loop.
Context {U : Type} `{IUart U} (connected : U -> bool * U).

Definition new_app (l : U) : App U :=
  {| desk := {| clock := {| SimClock.now_us_ := 0 |}; line := l |};
     store := TelemetryStore.new_store; client := McuClient.new_client;
     safe_stop := SafeStop.new_stop; quit_after_stop := false |}.

Definition now (a : App U) : Z := SimClock.now_ms (clock (desk a)).

Definition ask (cmd : command) (a : App U) : App U :=
  let '(_, (c, d)) := issue cmd (client a, desk a) in a <| client := c |> <| desk := d |>.

Definition begin_stop (a : App U) : App U := a <| safe_stop := SafeStop.begin (now a) (safe_stop a) |>.

(** What follows a command word, as the C string the number is read from. *)
Definition argument (word text : string) : option string := c_str <$> strip word text.

(** A line, while no safe stop is active. *)
Definition handle_line (text : string) (a : App U) : outcome (App U) :=
  if bool_decide (text = "status") then Ret a
  else
    match argument "set-temp " text with
    | Some number =>
        match parse_float (Some number) fzero (of_Z 160) with
        | None => Ret a
        | Some celsius =>
            if fgt celsius fzero && flt celsius (of_Z 37) then Ret a
            else if feq celsius fzero then Ret (ask HeaterOff a)
            else d ← defined (from_celsius celsius); Ret (ask (SetHeater d) a)
        end
    | None =>
        match argument "set-speed " text with
        | Some number =>
            match parse_u32 (Some number) 10 with
            | None => Ret a
            | Some dial => Ret (ask (SetMotor (u16 (u32 (dial * 1070))) kRampNormal) a)
            end
        | None =>
            if bool_decide (text = "tare") then Ret (ask Tare a)
            else if bool_decide (text = "stop") then Ret (begin_stop a)
            else Ret a
        end
    end.

(** The stop goes on, or the user is told of a response; [inr] is the exit
    status. *)
Definition attend (response : option Frame) (a : App U) : App U + Z :=
  if SafeStop.active (safe_stop a) then
    let '(over, s, c, d) := SafeStop.service response (safe_stop a) (client a) (desk a) in
    let a := a <| safe_stop := s |> <| client := c |> <| desk := d |> in
    if over then (if quit_after_stop a then inr 0 else inl a)
    else if SafeStop.expired (now a) s then inr 1
    else inl a
  else
    match response with
    | Some f =>
        if bool_decide (type f = Response) then inl a
        else if bool_decide (type f = Nack) then inl (a <| client := McuClient.clear_command_status (client a) |>)
        else if negb (bool_decide (McuClient.last_command_status (client a) = Ok))
        then inl (a <| client := McuClient.clear_command_status (client a) |>)
        else inl a
    | None =>
        if negb (bool_decide (McuClient.last_command_status (client a) = Ok))
        then inl (a <| client := McuClient.clear_command_status (client a) |>)
        else inl a
    end.

(** The standard input, unless the process is quitting. *)
Definition take_input (input : Input) (a : App U) : outcome (App U) :=
  if quit_after_stop a then Ret a
  else
    match input with
    | Failed interrupted => Ret (if interrupted then a else begin_stop a <| quit_after_stop := true |>)
    | Nothing => Ret a
    | Closed => Ret (begin_stop a <| quit_after_stop := true |>)
    | Typed text =>
        if bool_decide (text = "quit") || bool_decide (text = "exit")
        then Ret (begin_stop a <| quit_after_stop := true |>)
        else if SafeStop.active (safe_stop a) then Ret a
        else handle_line text a
    end.

(** The clock moves on and the client is polled. *)
Definition polled (a : App U) : outcome (App U) :=
  let a := a <| desk := advance (desk a) |> in
  '(c, st, d) ← McuClient.poll (client a) (store a) (desk a);
  Ret (a <| client := c |> <| store := st |> <| desk := d |>).

Definition turn (input : Input) (a : App U) : outcome (App U + Z) :=
  a ← polled a;
  let '(up, l) := connected (line (desk a)) in
  let a := a <| desk := (desk a) <| line := l |> |> in
  if negb up then Ret (inr 1)
  else
    let '(response, c) := McuClient.take_response true (client a) in
    match attend response (a <| client := c |>) with
    | inr status => Ret (inr status)
    | inl a => a ← take_input input a; Ret (inl a)
    end.

(** What happens on the line between two turns. *)
Definition arrive (change : U -> U) (a : App U) : App U := a <| desk := (desk a) <| line := change (line (desk a)) |> |>.

(** Turns, with what happens on the line and at the keyboard between them. *)
Fixpoint run (turns : list ((U -> U) * Input)) (a : App U) : outcome (App U + Z) :=
  match turns with
  | [] => Ret (inl a)
  | (change, input) :: turns =>
      r ← turn input (arrive change a);
      match r with
      | inl a => run turns a
      | inr status => Ret (inr status)
      end
  end.

(** The response a turn takes from the client, and those of a run. *)
Definition received (a : App U) : option Frame :=
  match polled a with Ret a => (McuClient.take_response true (client a)).1 | _ => None end.

Fixpoint responses (turns : list ((U -> U) * Input)) (a : App U) : list (option Frame) :=
  match turns with
  | [] => []
  | (change, input) :: turns =>
      let a := arrive change a in
      received a :: match turn input a with Ret (inl a) => responses turns a | _ => [] end
  end.
End Loop.

(** What ends the process: the end of the input, a failed [poll], the words. *)
Definition quits (input : Input) : bool :=
  match input with
  | Failed interrupted => negb interrupted
  | Nothing => false
  | Closed => true
  | Typed text => bool_decide (text = "quit") || bool_decide (text = "exit")
  end.
End AppMain.

(** * Theorems *)

Section AppTheory.
Import AppMain.
Context {U : Type} `{IUart U, !UartLaws U}.

Context (connected : U -> bool * U).

(** ** Invariant *)

Record app_ok (a : App U) : Prop := { app_client : client_ok (client a); app_store : store_ok (store a) }.

Lemma new_app_ok (l : U) : app_ok (new_app l).
Proof. split; [apply new_client_ok|apply new_store_ok]. Qed.

(** What a line can do. *)
Inductive line_effect (a : App U) : App U -> Prop :=
| no_effect : line_effect a a
| asks cmd : match cmd with
             | SetMotor rpm ramp => 0 <= rpm <= 10700 /\ ramp = kRampNormal
             | SetHeater target => 370 <= target <= 1600
             | HeaterOff | Tare => True
             | _ => False
             end -> line_effect a (ask cmd a)
| begins_stop : line_effect a (begin_stop a).

Lemma handle_line_spec text a : exists a', handle_line text a = Ret a' /\ line_effect a a'.
Proof.
  unfold handle_line. destruct (bool_decide _); [now exists a; split; [|constructor]|].
  destruct (argument "set-temp " text) as [number|].
  { destruct (CString.parse_float _ _ _) as [x|] eqn:P; [|now exists a; split; [|constructor]].
    assert (F160 : fin (of_Z 160) = true) by (apply of_Z_spec; lia).
    assert (F37 : fin (of_Z 37) = true) by (apply of_Z_spec; lia).
    apply parse_float_range in P as (F & L & G); [|reflexivity|exact F160].
    destruct (fgt x fzero && flt x (of_Z 37)) eqn:B; [now exists a; split; [|constructor]|].
    destruct (feq x fzero) eqn:Q; [now eexists; split; [|apply (asks a HeaterOff)]|].
    assert (P0 : fgt x fzero = true).
    { rewrite fge_spec in L by (exact F || reflexivity). rewrite fgt_spec by (exact F || reflexivity).
      rewrite feq_spec in Q by (exact F || reflexivity). apply Z.leb_le in L. apply Z.eqb_neq in Q.
      apply Z.ltb_lt. change (fz fzero) with 0 in *. lia. }
    rewrite P0 in B. apply (not_flt_fge x (of_Z 37) F F37) in B.
    destruct (from_celsius_range x 37 160 F ltac:(lia) ltac:(lia) B G) as (d & E & D). rewrite E. cbn.
    eexists. split; [reflexivity|]. apply (asks a (SetHeater d)). lia. }
  destruct (argument "set-speed " text) as [number|].
  { destruct (parse_u32 _ 10) as [dial|] eqn:P; [|now exists a; split; [|constructor]].
    pose proof (parse_u32_range _ _ _ P) as R. eexists. split; [reflexivity|]. apply (asks a (SetMotor _ _)). split; [|reflexivity].
    rewrite (u32_id (dial * 1070)), u16_id by (unfold in_u32, in_u16; lia). lia. }
  destruct (bool_decide _); [eexists; split; [reflexivity|now apply (asks a Tare)]|].
  destruct (bool_decide _); [eexists; split; [reflexivity|constructor]|]. now exists a; split; [|constructor].
Qed.

(** ** A turn *)

Definition us (a : App U) : Z := SimClock.now_us_ (clock (desk a)).
Definition phase (a : App U) : SafeStop.Phase := SafeStop.phase_ (safe_stop a).
Definition started (a : App U) : Z := SafeStop.started_ms_ (safe_stop a).

Lemma polled_ok a : app_ok a -> exists a', polled a = Ret a' /\ app_ok a' /\ safe_stop a' = safe_stop a /\
  quit_after_stop a' = quit_after_stop a /\ us a' = u64 (us a + 1000).
Proof.
  intros [K S]. unfold polled. cbv zeta.
  destruct (client_poll_ok (client a) (store a) (advance (desk a)) K S)
    as (c & st & d & E & K' & S' & C & _).
  simp_set. rewrite E. cbn. eexists. split; [reflexivity|]. split_and!; try reflexivity; [now split|exact C].
Qed.

(** What the safe stop makes of a response. *)
Lemma confirm_ok response s : let '(over, s') := SafeStop.confirm response s in
  SafeStop.started_ms_ s' = SafeStop.started_ms_ s /\
  if over then SafeStop.phase_ s = SafeStop.Motor /\ confirms MsgId.MotorStop response
  else SafeStop.phase_ s' = SafeStop.phase_ s \/
       SafeStop.phase_ s = SafeStop.Heater /\ SafeStop.phase_ s' = SafeStop.Motor /\ confirms MsgId.HeaterOff response.
Proof.
  unfold SafeStop.confirm. destruct response as [f|]; [|auto].
  destruct (bool_decide (type f = Response)) eqn:T; [|auto]. apply bool_decide_eq_true in T.
  destruct (bool_decide (_ = SafeStop.Heater) && _) eqn:A.
  { apply andb_true_iff in A as [P I]. apply bool_decide_eq_true in P. apply Z.eqb_eq in I.
    split; [reflexivity|]. right. split_and!; [exact P|reflexivity|now exists f]. }
  destruct (bool_decide (_ = SafeStop.Motor) && _) eqn:B; [|auto].
  apply andb_true_iff in B as [P I]. apply bool_decide_eq_true in P. apply Z.eqb_eq in I.
  split; [reflexivity|]. split; [exact P|now exists f].
Qed.

Lemma send_request_ok s c (d : Desk U) : client_ok c -> let '(s', c', d') := SafeStop.send_request s c d in
  client_ok c' /\ now_us d' = now_us d /\ SafeStop.started_ms_ s' = SafeStop.started_ms_ s /\
  SafeStop.phase_ s' = SafeStop.phase_ s.
Proof.
  intros K. unfold SafeStop.send_request. destruct (_ && _); [|now split_and!].
  pose proof (issue_ok HeaterOff (c, d) I K) as O1. pose proof (issue_clock HeaterOff (c, d) I K) as T1.
  pose proof (issue_ok MotorStop (c, d) I K) as O2. pose proof (issue_clock MotorStop (c, d) I K) as T2.
  cbn [issue] in *. destruct (bool_decide _).
  - destruct (heater_off (c, d)) as [st [c3 d3]]. now split_and!.
  - destruct (motor_stop (c, d)) as [st [c3 d3]]. now split_and!.
Qed.

Lemma service_ok response s c (d : Desk U) : client_ok c ->
  let '(over, s', c', d') := SafeStop.service response s c d in
  client_ok c' /\ now_us d' = now_us d /\ SafeStop.started_ms_ s' = SafeStop.started_ms_ s /\
  if over then SafeStop.phase_ s = SafeStop.Motor /\ confirms MsgId.MotorStop response
  else SafeStop.phase_ s' = SafeStop.phase_ s \/
       SafeStop.phase_ s = SafeStop.Heater /\ SafeStop.phase_ s' = SafeStop.Motor /\ confirms MsgId.HeaterOff response.
Proof.
  intros K. unfold SafeStop.service. pose proof (confirm_ok response s) as C.
  destruct (SafeStop.confirm response s) as [[] s1]; [now split_and!|].
  assert (K1 : client_ok (McuClient.clear_command_status c)) by now apply clear_status_ok.
  destruct C as [C1 C2].
  destruct (negb (bool_decide _)); cbv beta iota zeta.
  - pose proof (send_request_ok (s1 <| SafeStop.request_sent_ := false |>) _ d K1) as X.
    destruct (SafeStop.send_request _ _ d) as [[s' c'] d']. destruct X as (X1 & X2 & X3 & X4). rewrite X3, X4. now split_and!.
  - pose proof (send_request_ok s1 _ d K) as X.
    destruct (SafeStop.send_request _ _ d) as [[s' c'] d']. destruct X as (X1 & X2 & X3 & X4). rewrite X3, X4. now split_and!.
Qed.

(** The stop of a turn. *)
Lemma attend_ok response a : app_ok a ->
  match attend response a with
  | inr st => st = 1 \/ st = 0 /\ quit_after_stop a = true /\ phase a = SafeStop.Motor /\ confirms MsgId.MotorStop response
  | inl a' =>
      app_ok a' /\ us a' = us a /\ quit_after_stop a' = quit_after_stop a /\ started a' = started a /\
      (quit_after_stop a = true ->
       (phase a' = phase a \/ phase a = SafeStop.Heater /\ phase a' = SafeStop.Motor /\ confirms MsgId.HeaterOff response) /\
       (phase a <> SafeStop.Idle -> u32_sub (now a') (started a) < SafeStop.kDeadlineMs))
  end.
Proof.
  intros [K S]. unfold attend.
  assert (KC : app_ok (a <| client := McuClient.clear_command_status (client a) |>)) by (split; [now apply clear_status_ok|exact S]).
  destruct (SafeStop.active (safe_stop a)) eqn:A.
  - pose proof (service_ok response (safe_stop a) (client a) (desk a) K) as V.
    destruct (SafeStop.service response (safe_stop a) (client a) (desk a)) as [[[over s'] c'] d'].
    destruct V as (V1 & V2 & V3 & V4). destruct over; simp_set.
    + destruct (quit_after_stop a) eqn:Q; [right; now split_and!|]. split_and!; try assumption; try reflexivity; [now split|easy].
    + destruct (SafeStop.expired _ s') eqn:X; [now left|]. split_and!; try assumption; try reflexivity; [now split|].
      intros Q. split; [exact V4|]. intros P. unfold SafeStop.expired in X. apply andb_false_iff in X as [X|X].
      * unfold SafeStop.active in X. apply negb_false_iff, bool_decide_eq_true in X.
        exfalso. destruct V4 as [V4|(_ & V4 & _)]; unfold phase in *; congruence.
      * rewrite Z.geb_leb in X. apply Z.leb_gt in X. unfold started. rewrite <- V3. exact X.
  - unfold SafeStop.active in A. apply negb_false_iff, bool_decide_eq_true in A.
    assert (T : forall a', app_ok a' -> us a' = us a -> quit_after_stop a' = quit_after_stop a -> safe_stop a' = safe_stop a ->
      app_ok a' /\ us a' = us a /\ quit_after_stop a' = quit_after_stop a /\ started a' = started a /\
      (quit_after_stop a = true ->
       (phase a' = phase a \/ phase a = SafeStop.Heater /\ phase a' = SafeStop.Motor /\ confirms MsgId.HeaterOff response) /\
       (phase a <> SafeStop.Idle -> u32_sub (now a') (started a) < SafeStop.kDeadlineMs))).
    { intros a' K' U' Q' E. unfold started, phase. rewrite E. split_and!; try assumption; [reflexivity|]. intros _. split; [now left|]. intros N. contradiction. }
    destruct response as [f|]; [destruct (bool_decide _); [now apply T|]; destruct (bool_decide _); [now apply T|]|];
      (destruct (negb _); now apply T).
Qed.

Lemma ask_ok cmd a : command_bytes cmd -> app_ok a ->
  app_ok (ask cmd a) /\ us (ask cmd a) = us a /\ quit_after_stop (ask cmd a) = quit_after_stop a.
Proof.
  intros C [K S]. unfold ask. pose proof (issue_ok cmd (client a, desk a) C K) as I.
  pose proof (issue_clock cmd (client a, desk a) C K) as T.
  destruct (issue cmd (client a, desk a)) as [st [c d]]. split_and!; [now split|exact T|reflexivity].
Qed.

Lemma take_input_ok input a : app_ok a -> quit_after_stop a = false ->
  exists a', take_input input a = Ret a' /\ app_ok a' /\ us a' = us a /\ quit_after_stop a' = quits input /\
    (quits input = true -> phase a' = SafeStop.Heater /\ started a' = now a').
Proof.
  intros K Q. unfold take_input. rewrite Q. destruct input as [[]| | |text]; cbn [quits negb];
    try (eexists; split; [reflexivity|]; split_and!; try reflexivity; try easy; destruct K; now split).
  destruct (bool_decide (text = "quit") || bool_decide (text = "exit")).
  { eexists. split; [reflexivity|]. split_and!; try reflexivity; try easy; destruct K; now split. }
  destruct (SafeStop.active _); [now exists a; split_and!|].
  destruct (handle_line_spec text a) as (a' & E & L). exists a'. split; [exact E|].
  destruct L as [|cmd C|]; [now split_and!| |destruct K; now split_and!].
  destruct (ask_ok cmd a) as (? & ? & ?); [destruct cmd; try exact I; destruct C as [_ ->]; split; reflexivity || discriminate|exact K|].
  split_and!; try assumption; try congruence.
Qed.

(** A stop that ends the process, [k] turns old. *)
Definition quitting (k : Z) (a : App U) : Prop :=
  quit_after_stop a = true /\ phase a <> SafeStop.Idle /\
  exists t, 0 <= t /\ us a = t + 1000 * k /\ started a = to_millis t.

Record app_inv (a : App U) : Prop := {
  inv_ok : app_ok a;
  inv_us : 0 <= us a;
  inv_quitting : quit_after_stop a = true -> exists k, 0 <= k < SafeStop.kDeadlineMs /\ quitting k a
}.

Lemma new_app_inv (l : U) : app_inv (new_app l).
Proof. split; [apply new_app_ok|discriminate|discriminate]. Qed.

Lemma arrive_inv change a : app_inv a -> app_inv (arrive change a).
Proof. intros [K T Q]. split; [destruct K; now split|exact T|exact Q]. Qed.

Lemma millis_apart t k : 0 <= t -> 0 <= k < 4294967296 -> u32_sub (to_millis (t + 1000 * k)) (to_millis t) = k.
Proof.
  intros T K. unfold to_millis. rewrite (Z.mul_comm 1000 k), Z.div_add by lia.
  generalize (t / 1000). intros q. wrap_lia.
Qed.

(** One turn. *)
Lemma turn_ok input a : app_inv a -> us a + 1000 < 18446744073709551616 ->
  exists r, turn connected input a = Ret r /\
    match r with
    | inr st => st = 1 \/ st = 0 /\ quit_after_stop a = true /\ phase a = SafeStop.Motor /\
                         confirms MsgId.MotorStop (received a)
    | inl a' =>
        app_inv a' /\ us a' = us a + 1000 /\
        (if quit_after_stop a
         then (phase a' = phase a \/
               phase a = SafeStop.Heater /\ phase a' = SafeStop.Motor /\ confirms MsgId.HeaterOff (received a)) /\
              forall k, quitting k a -> 0 <= k < SafeStop.kDeadlineMs -> k + 1 < SafeStop.kDeadlineMs /\ quitting (k + 1) a'
         else quit_after_stop a' = quits input /\ (quits input = true -> phase a' = SafeStop.Heater /\ quitting 0 a'))
    end.
Proof.
  intros [K T0 Q0] B. unfold turn, received. destruct (polled_ok a K) as (a1 & -> & K1 & S1 & Q1 & U1).
  replace (u64 (us a + 1000)) with (us a + 1000) in U1 by (unfold u64; rewrite Z.mod_small; lia). cbn [mbind outcome_bind].
  destruct (connected (line (desk a1))) as [up l]. destruct up; cbn [negb]; [|exists (inr 1); split; [reflexivity|now left]].
  pose proof (take_response_ok (client a1) (app_client _ K1)) as K2. simp_set.
  destruct (McuClient.take_response true (client a1)) as [response c]. cbn [fst snd] in *.
  match goal with |- context [attend response ?x] => set (a2 := x) end.
  assert (Ph : phase a2 = phase a) by (unfold phase, a2; simp_set; now rewrite S1).
  assert (St : started a2 = started a) by (unfold started, a2; simp_set; now rewrite S1).
  assert (Qu : quit_after_stop a2 = quit_after_stop a) by exact Q1. assert (Us : us a2 = us a + 1000) by exact U1.
  assert (K3 : app_ok a2) by (split; [exact K2|apply (app_store _ K1)]). clearbody a2.
  pose proof (attend_ok response a2 K3) as At. rewrite Ph, St, Qu, Us in At.
  destruct (attend response a2) as [a3|st]; [|now exists (inr st)].
  destruct At as (K4 & U4 & Q4 & St4 & R4). destruct (quit_after_stop a) eqn:Q.
  - specialize (R4 eq_refl) as [R4 R5]. exists (inl a3). unfold take_input. rewrite Q4. cbn.
    assert (N : forall k, quitting k a -> 0 <= k < SafeStop.kDeadlineMs -> k + 1 < SafeStop.kDeadlineMs /\ quitting (k + 1) a3).
    { intros k (_ & P & t & Ht & E & F) Hk. specialize (R5 P). unfold now, SimClock.now_ms in R5. fold (us a3) in R5.
      rewrite U4, E, F in R5. replace (t + 1000 * k + 1000) with (t + 1000 * (k + 1)) in R5 by lia.
      unfold SafeStop.kDeadlineMs in *. rewrite millis_apart in R5 by lia. split; [exact R5|]. split; [exact Q4|].
      split; [destruct R4 as [R4|(_ & R4 & _)]; congruence|]. exists t. split_and!; [exact Ht|lia|congruence]. }
    split; [reflexivity|]. split; [|now split_and!]. split; [exact K4|lia|]. intros _.
    destruct (Q0 eq_refl) as (k & Hk & Qk). exists (k + 1). destruct (N k Qk Hk). split; [lia|assumption].
  - destruct (take_input_ok input a3 K4 Q4) as (a4 & -> & K5 & U5 & Q5 & R5). cbn. exists (inl a4). split; [reflexivity|].
    assert (N : quits input = true -> quitting 0 a4).
    { intros E. destruct (R5 E) as [P F]. split; [congruence|]. split; [rewrite P; discriminate|]. exists (us a4).
      split_and!; [lia|lia|exact F]. }
    split_and!; [split; [exact K5|lia|]|lia|exact Q5|intros E; split; [now apply R5|now apply N]].
    rewrite Q5. intros E. exists 0. split; [unfold SafeStop.kDeadlineMs; lia|now apply N].
Qed.

(** ** Runs *)

Definition short (turns : list ((U -> U) * Input)) (a : App U) : Prop :=
  us a + 1000 * Z.of_nat (length turns) < 18446744073709551616.

Lemma short_cons t turns a : short (t :: turns) a -> us a + 1000 < 18446744073709551616 /\
  (forall change a', us a' = us (arrive change a) + 1000 -> short turns a').
Proof. unfold short. intros S. cbn [length] in S. split; [lia|]. intros change a' E. change (us (arrive change a)) with (us a) in E. lia. Qed.

Lemma app_runs_ok turns : forall a, app_inv a -> short turns a -> exists r, run connected turns a = Ret r /\
  match r with inr st => st = 0 \/ st = 1 | inl a' => app_inv a' /\ us a' = us a + 1000 * Z.of_nat (length turns) end.
Proof.
  induction turns as [|[change input] turns IH]; intros a I S; [exists (inl a); split_and!; [reflexivity|exact I|cbn; lia]|].
  destruct (short_cons _ _ _ S) as [S1 S2]. cbn [run].
  destruct (turn_ok input (arrive change a) (arrive_inv _ _ I) S1) as ([a'|st] & -> & T); cbn [mbind outcome_bind].
  - destruct T as (I' & U' & _). destruct (IH a' I' (S2 change a' U')) as (r & E & R). exists r. split; [exact E|].
    destruct r as [a2|st]; [|exact R]. destruct R as [R1 R2]. split; [exact R1|].
    change (us (arrive change a)) with (us a) in U'. cbn [length]. lia.
  - exists (inr st). split; [reflexivity|]. destruct T as [->|(-> & _)]; auto.
Qed.

Lemma run_app turns1 turns2 a : run connected (turns1 ++ turns2) a =
  (r ← run connected turns1 a; match r with inl a => run connected turns2 a | inr st => Ret (inr st) end).
Proof.
  revert a. induction turns1 as [|[change input] turns1 IH]; intros a; [reflexivity|]. cbn [app run].
  destruct (turn connected input (arrive change a)) as [[a'|st]| |]; cbn [mbind outcome_bind]; [apply IH|reflexivity..].
Qed.

(** A process that is quitting ends in time, and with success only when both
    actuators are confirmed off. *)
Lemma quitting_ends turns : forall a k, app_inv a -> short turns a -> quitting k a -> 0 <= k < SafeStop.kDeadlineMs ->
  SafeStop.kDeadlineMs <= k + Z.of_nat (length turns) ->
  exists st, run connected turns a = Ret (inr st) /\ (st = 0 \/ st = 1).
Proof.
  induction turns as [|[change input] turns IH]; intros a k I S Q K L; [cbn in L; lia|].
  destruct (short_cons _ _ _ S) as [S1 S2]. cbn [run length] in *.
  destruct (turn_ok input (arrive change a) (arrive_inv _ _ I) S1) as ([a'|st] & -> & T); cbn [mbind outcome_bind].
  - destruct T as (I' & U' & T). change (quit_after_stop (arrive change a)) with (quit_after_stop a) in T.
    rewrite (proj1 Q) in T. destruct (proj2 T k Q K) as [T1 T2].
    apply (IH a' (k + 1) I' (S2 change a' U') T2); [lia|lia].
  - exists st. split; [reflexivity|]. destruct T as [->|(-> & _)]; auto.
Qed.

Definition still_to_confirm (p : SafeStop.Phase) (rs : list (option Frame)) : Prop :=
  match p with
  | SafeStop.Idle => False
  | SafeStop.Heater => both_confirmed rs
  | SafeStop.Motor => exists b r d, rs = b ++ r :: d /\ confirms MsgId.MotorStop r
  end.

Lemma still_to_confirm_cons p r rs : still_to_confirm p rs -> still_to_confirm p (r :: rs).
Proof.
  destruct p; cbn; [easy| |].
  - intros (a & r1 & b & r2 & d & -> & C). exists (r :: a), r1, b, r2, d. now split.
  - intros (b & r1 & d & -> & C). exists (r :: b), r1, d. now split.
Qed.

Lemma quitting_confirmed turns : forall a, app_inv a -> short turns a -> quit_after_stop a = true ->
  run connected turns a = Ret (inr 0) -> still_to_confirm (phase a) (responses connected turns a).
Proof.
  induction turns as [|[change input] turns IH]; intros a I S Q R; [discriminate R|].
  destruct (short_cons _ _ _ S) as [S1 S2]. cbn [run responses] in *. cbv zeta.
  destruct (turn_ok input (arrive change a) (arrive_inv _ _ I) S1) as ([a'|st] & E & T); rewrite E in R |- *; cbn [mbind outcome_bind] in R.
  - destruct T as (I' & U' & T). change (quit_after_stop (arrive change a)) with (quit_after_stop a) in T.
    rewrite Q in T. destruct T as [T1 T2]. destruct (inv_quitting _ I Q) as (k & K & Qk).
    specialize (IH a' I' (S2 change a' U') (proj1 (proj2 (T2 k Qk K))) R).
    change (phase (arrive change a)) with (phase a) in T1. destruct T1 as [T1|(T1 & P & C)].
    + rewrite <- T1. now apply still_to_confirm_cons.
    + rewrite T1. rewrite P in IH. destruct IH as (b & r & d & -> & C2).
      now exists [], (received (arrive change a)), b, r, d.
  - injection R as ->. destruct T as [T|(_ & _ & P & C)]; [discriminate T|].
    change (phase (arrive change a)) with (phase a) in P. rewrite P. now exists [], (received (arrive change a)), [].
Qed.

(** The turn in which a process that succeeds was told to quit. *)
Lemma run_success turns : forall a, app_inv a -> short turns a -> quit_after_stop a = false ->
  run connected turns a = Ret (inr 0) ->
  exists before change input after a1, turns = before ++ (change, input) :: after /\ quits input = true /\
    run connected (before ++ [(change, input)]) a = Ret (inl a1) /\ app_inv a1 /\ short after a1 /\
    quit_after_stop a1 = true /\ phase a1 = SafeStop.Heater /\ run connected after a1 = Ret (inr 0).
Proof.
  induction turns as [|[change input] turns IH]; intros a I S Q R; [discriminate R|].
  destruct (short_cons _ _ _ S) as [S1 S2]. cbn [run] in R.
  destruct (turn_ok input (arrive change a) (arrive_inv _ _ I) S1) as ([a'|st] & E & T); rewrite E in R; cbn [mbind outcome_bind] in R.
  - destruct T as (I' & U' & T). change (quit_after_stop (arrive change a)) with (quit_after_stop a) in T.
    rewrite Q in T. destruct T as [T1 T2]. specialize (S2 change a' U'). destruct (quits input) eqn:W.
    + exists [], change, input, turns, a'. cbn [app run]. rewrite E. cbn [mbind outcome_bind].
      split_and!; try assumption; try reflexivity. now apply T2.
    + destruct (IH a' I' S2 T1 R) as (b & ch & inp & af & a1 & -> & W1 & R1 & X).
      exists ((change, input) :: b), ch, inp, af, a1. cbn [app run]. rewrite E. cbn [mbind outcome_bind].
      split_and!; try reflexivity; [exact W1|exact R1|apply X..].
  - injection R as ->. change (quit_after_stop (arrive change a)) with (quit_after_stop a) in T.
    destruct T as [T|(_ & T & _)]; [discriminate T|congruence].
Qed.

End AppTheory.

(** ** Properties *)

Section AppProperties.
Import AppMain.
Context {U : Type} `{IUart U, !UartLaws U} (connected : U -> bool * U).

(** Whatever line is typed, the application handles it without undefined
    behaviour, although the temperature goes through a float and the dial through
    a 16-bit product, and the only requests it makes of the safety processor are
    a motor speed from 0 to 10700 rpm with the normal ramp, a heater target from
    37 to 160 C, heater off, and tare; a stop is not a request of its own but
    begins the stopping sequence. *)
Theorem lines_ask_within_limits text (a : App U) : exists a', handle_line text a = Ret a' /\ line_effect a a'.
Proof. apply handle_line_spec. Qed.

(** C14: quitting takes at most a second: whatever is received and typed before,
    and whether or not the safety processor still answers, once the input ends,
    cannot be polled or says quit, the process ends within 1000 turns of a
    millisecond. *)
Theorem quit_ends_within_a_second (l : U) before change input after :
  quits input = true -> (1000 <= length after)%nat ->
  1000 * Z.of_nat (length (before ++ (change, input) :: after)) < 18446744073709551616 ->
  exists status, run connected (before ++ (change, input) :: after) (new_app l) = Ret (inr status) /\
    (status = 0 \/ status = 1).
Proof.
  intros W L S. rewrite length_app in S. cbn [length] in S. rewrite run_app.
  destruct (app_runs_ok connected before (new_app l) (new_app_inv l)) as ([a|st] & -> & R); [unfold short; cbn; lia| |now exists st].
  destruct R as [I U1]. cbn [mbind outcome_bind run]. change (us (new_app l)) with 0 in U1.
  destruct (turn_ok connected input (arrive change a) (arrive_inv _ _ I)) as ([a'|st] & -> & T);
    [change (us (arrive change a)) with (us a); lia| |exists st; split; [reflexivity|destruct T as [->|(-> & _)]; auto]].
  cbn [mbind outcome_bind]. destruct T as (I' & U' & T). change (us (arrive change a)) with (us a) in U'.
  assert (S' : short after a') by (unfold short; lia).
  change (quit_after_stop (arrive change a)) with (quit_after_stop a) in T. destruct (quit_after_stop a) eqn:Q.
  - destruct (inv_quitting _ I Q) as (k & K & Qk). destruct (proj2 T k Qk K) as [K' Qk'].
    apply (quitting_ends connected after a' (k + 1) I' S' Qk'); unfold SafeStop.kDeadlineMs in *; lia.
  - apply (quitting_ends connected after a' 0 I' S'); [now apply T|unfold SafeStop.kDeadlineMs; lia..].
Qed.

(** C13: the process reports success only after a confirmed stop: if it ends with
    status 0, it was told to quit in some turn, and in the turns after that one it
    has taken from the client a response to HEATER_OFF and then a response to
    MOTOR_STOP. *)
Theorem success_means_confirmed_off (l : U) turns :
  1000 * Z.of_nat (length turns) < 18446744073709551616 -> run connected turns (new_app l) = Ret (inr 0) ->
  exists before change input after a1, turns = before ++ (change, input) :: after /\ quits input = true /\
    run connected (before ++ [(change, input)]) (new_app l) = Ret (inl a1) /\
    both_confirmed (responses connected after a1).
Proof.
  intros S R. destruct (run_success connected turns (new_app l) (new_app_inv l)) as
    (b & ch & inp & af & a1 & E & W & R1 & I & S1 & Q & P & R2); [exact S|reflexivity|exact R|].
  exists b, ch, inp, af, a1. split_and!; try assumption.
  pose proof (quitting_confirmed connected af a1 I S1 Q R2) as C. now rewrite P in C.
Qed.

End AppProperties.
