(* ===== verification/ViewModel.v ===== *)
(** * The view model of the user interface (src/apps/ui/device_view_model.{h,cpp})

    The application runtime on a socket, driven by a timer of a millisecond, with
    the properties and actions the user interface is bound to. Qt's part is a
    parameter: the socket to the simulator's controls ([ILocalSocket]), the
    conversions of text, and the timer that calls [tick]. Change notifications
    are not modelled. *)

From stdpp Require Import relations.
From S2P Require Import Prelude.
From S2P Require Import Float32.
From S2P Require Import Float64.
From S2P Require Import Common.
From S2P Require Import C1Link.
From S2P Require Import Hal.
From S2P Require Import Sim.
From S2P Require Import TelemetryStore.
From S2P Require Import McuClient.
From S2P Require Import CString.
From S2P Require Import Recipe.
From S2P Require Import RecipeParser.
From S2P Require Import Programs.
From S2P Require Import Cooking.
From S2P Require Import System.
From S2P Require Import Desk.

(** [QLocalSocket], as far as it is used: whether it is connected, writing,
    flushing, and reading a line if there is one. [lines_left] is no method: it
    bounds the lines that can still be read. *)
Class ILocalSocket (Q : Type) := {
  socket_connected : Q -> bool;
  socket_write : string -> Q -> Z * Q;
  socket_flush : Q -> Q;
  next_line : Q -> option string * Q;
  lines_left : Q -> nat
}.

Class LocalSocketLaws (Q : Type) `{ILocalSocket Q} :=
  line_read q text q' : next_line q = (Some text, q') -> (lines_left q' < lines_left q)%nat.

Definition fault_name (fault : Z) : string :=
  if fault =? FaultCode.None then ""
  else if fault =? FaultCode.Overtemp then "Over-temperature"
  else if fault =? FaultCode.MotorStall then "Motor stalled"
  else if fault =? FaultCode.SensorFailure then "Temperature sensor failure"
  else if fault =? FaultCode.LinkLost then "MCU link lost"
  else "Unknown fault".

Module DeviceViewModel.

(** [timer_]: the timer is running. *)
Record DeviceViewModel {U Q : Type} := {
  desk : Desk U;
  runtime_ : ApplicationRuntime.ApplicationRuntime;
  control_ : Q;
  timer_ : bool;
  recipe_names_ : list string;
  simulator_status_ : string;
  connected_ : bool;
  shutdown_requested_ : bool;
  ready_to_quit_ : bool;
  shutdown_deadline_ms_ : Z;
  refresh_divider_ : Z
}.
Arguments DeviceViewModel : clear implicits.
#[global] Instance eta_DeviceViewModel {U Q} : Eta (DeviceViewModel U Q) := fun v =>
  {| desk := desk v; runtime_ := runtime_ v; control_ := control_ v; timer_ := timer_ v;
     recipe_names_ := recipe_names_ v; simulator_status_ := simulator_status_ v; connected_ := connected_ v;
     shutdown_requested_ := shutdown_requested_ v; ready_to_quit_ := ready_to_quit_ v;
     shutdown_deadline_ms_ := shutdown_deadline_ms_ v; refresh_divider_ := refresh_divider_ v |}.

Section ViewModel.
Context {U : Type} `{IUart U} (connected : U -> bool * U) {Q : Type} `{ILocalSocket Q}.

(** Qt's conversions: text from bytes, the text of a response without the space
    around it, and a number with one digit behind the point. *)
Context (from_utf8 trimmed : string -> string) (number_text : f64 -> string).

Implicit Types v : DeviceViewModel U Q.

Definition now_ms v : Z := SimClock.now_ms (clock (desk v)).
Definition controller v : CookingController.CookingController := ApplicationRuntime.controller_ (runtime_ v).
Definition latest v : TelemetryStore.Sample := TelemetryStore.latest (ApplicationRuntime.telemetry_ (runtime_ v)).

(** ** Properties *)

Definition hasTelemetry v : bool := TelemetryStore.has_data (ApplicationRuntime.telemetry_ (runtime_ v)).
Definition controlConnected v : bool := socket_connected (control_ v).
Definition readyToQuit v : bool := ready_to_quit_ v.
Definition sessionState v : string := session_state_name (CookingController.state (controller v)).
Definition programName v : string := from_utf8 (CookingController.program_name (controller v)).
Definition programStatus v : string := from_utf8 (CookingController.program_status (controller v)).

(** The cast to [double] is exact. *)
Definition temperature v : f32 := CookingController.display_avg_temp_c_ (controller v).

Definition weight v : Z := TelemetryStore.grams (latest v).
Definition rpm v : Z := TelemetryStore.rpm (latest v).

Definition lidState v : string :=
  let flags := TelemetryStore.flags (latest v) in
  if negb (Z.land flags kFlagLidLocked =? 0) then "locked"
  else if negb (Z.land flags kFlagLidClosed =? 0) then "closed" else "open".

Definition hotBowl v : bool := CookingController.hot_bowl_ (controller v).
Definition fault v : string := fault_name (McuClient.last_fault (ApplicationRuntime.client_ (runtime_ v))).
Definition awaitingUser v : bool := CookingController.awaiting_user (controller v).

(** [std::size_t] to [int]. *)
Definition clamp_int (n : nat) : Z := if Z.of_nat n >? 2147483647 then 2147483647 else Z.of_nat n.
Definition progressCurrent v : Z := clamp_int (CookingController.progress_current (controller v)).
Definition progressTotal v : Z := clamp_int (CookingController.progress_total (controller v)).

(** ** Actions *)

(** A call on the controller, which may touch the client. *)
Definition on_controller {A} (call : CookingController.CookingController -> McuClient.McuClient ->
    A * CookingController.CookingController * McuClient.McuClient) v : A * DeviceViewModel U Q :=
  let '(r, k, c) := call (controller v) (ApplicationRuntime.client_ (runtime_ v)) in
  (r, v <| runtime_ := (runtime_ v) <| ApplicationRuntime.controller_ := k |> <| ApplicationRuntime.client_ := c |> |>).

(** [speed] and [minutes] are [int]s. *)
Definition startManual (temperature_c : f64) (speed minutes : Z) v : outcome (bool * DeviceViewModel U Q) :=
  if negb (connected_ v) || negb (isfinite temperature_c) || (speed <? 0) || (speed >? 10) || (minutes <? 1) ||
     (minutes >? 1440) ||
     (negb (feq temperature_c fzero) && (flt temperature_c (of_Z64 37) || fgt temperature_c (of_Z64 160)))
  then Ret (false, v)
  else
    let duration := u32 (u32 minutes * 60) in
    deci ← defined (from_celsius (to_f32 temperature_c));
    let '(status, v) := on_controller (CookingController.start_manual deci (u8 speed) duration) v in
    Ret (is_ok status, v).

Definition startRecipe (index : Z) v : bool * DeviceViewModel U Q :=
  if negb (connected_ v) || (index <? 0) then (false, v)
  else
    match RecipeLibrary.at_ (Z.to_nat index) (ApplicationRuntime.recipes_ (runtime_ v)) with
    | None => (false, v)
    | Some recipe =>
        let '(status, v) := on_controller (CookingController.start_recipe (Some recipe)) v in (is_ok status, v)
    end.

Definition nextStep v : DeviceViewModel U Q :=
  if CookingController.awaiting_user (controller v)
  then v <| runtime_ := (runtime_ v) <| ApplicationRuntime.controller_ := CookingController.user_next (controller v) |> |>
  else v.

Definition stop v : DeviceViewModel U Q :=
  (on_controller (fun k c => let '(k, c) := CookingController.stop k c in (tt, k, c)) v).2.

Definition tare v : bool * DeviceViewModel U Q :=
  if connected_ v then
    let '(status, (c, d)) := McuClient.tare (ApplicationRuntime.client_ (runtime_ v), desk v) in
    (is_ok status, v <| runtime_ := (runtime_ v) <| ApplicationRuntime.client_ := c |> |> <| desk := d |>)
  else (false, v).

Definition sendSimulatorCommand (command : string) v : bool * DeviceViewModel U Q :=
  if negb (controlConnected v) then (false, v <| simulator_status_ := "Simulator controls disconnected" |>)
  else
    let bytes := command +:+ String newline EmptyString in
    let '(written, q) := socket_write bytes (control_ v) in
    let v := v <| control_ := q |> in
    if negb (written =? Z.of_nat (String.length bytes))
    then (false, v <| simulator_status_ := "Could not send simulator action" |>)
    else (true, v <| control_ := socket_flush q |> <| simulator_status_ := "Applying action..." |>).

Definition ingredients : list string := ["water"; "oil"; "flour"; "other"].

Definition addIngredient (grams : f64) (ingredient : string) v : bool * DeviceViewModel U Q :=
  if negb (isfinite grams) || flt grams (lit64 1 10) || fgt grams (of_Z64 2200) ||
     negb (bool_decide (ingredient ∈ ingredients))
  then (false, v)
  else sendSimulatorCommand ("add " +:+ number_text grams +:+ " " +:+ ingredient) v.

Definition setLidOpen (is_open : bool) : DeviceViewModel U Q -> bool * DeviceViewModel U Q :=
  sendSimulatorCommand (if is_open then "lid open" else "lid close").

(** The loop of [readSimulatorResponse]. *)
Fixpoint read_lines (fuel : nat) v : outcome (DeviceViewModel U Q) :=
  match fuel with
  | O => OutOfFuel
  | S fuel =>
      let '(r, q) := next_line (control_ v) in
      match r with
      | None => Ret v
      | Some bytes =>
          let response := trimmed (from_utf8 bytes) in
          read_lines fuel (v <| control_ := q |>
            <| simulator_status_ := if bool_decide (response = "ok") then "Action applied" else response |>)
      end
  end.

Definition readSimulatorResponse v : outcome (DeviceViewModel U Q) := read_lines (S (lines_left (control_ v))) v.

(** ** Shutdown and the timer *)

Definition finishShutdown v : DeviceViewModel U Q := v <| ready_to_quit_ := true |> <| timer_ := false |>.

(** [Idle] or [Done]. *)
Definition at_rest v : bool :=
  let state := CookingController.state (controller v) in bool_decide (state = Idle) || bool_decide (state = Done).

Definition requestShutdown v : DeviceViewModel U Q :=
  if ready_to_quit_ v || shutdown_requested_ v then v
  else if at_rest v then finishShutdown v
  else stop (v <| shutdown_requested_ := true |> <| shutdown_deadline_ms_ := u32 (now_ms v + 1000) |>).

Definition refresh v : DeviceViewModel U Q :=
  let '(up, l) := connected (line (desk v)) in v <| desk := (desk v) <| line := l |> |> <| connected_ := up |>.

Definition tick v : outcome (DeviceViewModel U Q) :=
  let v := v <| desk := advance (desk v) |> in
  '(a, d) ← ApplicationRuntime.tick_1ms (runtime_ v) (desk v);
  let v := v <| runtime_ := a |> <| desk := d |> <| refresh_divider_ := refresh_divider_ v + 1 |> in
  let v := if refresh_divider_ v >=? 25 then refresh (v <| refresh_divider_ := 0 |>) else v in
  Ret (if shutdown_requested_ v && (at_rest v || (now_ms v >=? shutdown_deadline_ms_ v)) then finishShutdown v else v).

(** ** Construction *)

(** On a connected line and with the socket that was told to connect. *)
Definition new_view_model (fopen : string -> option File) (opendir : string -> option (list string))
    (recipe_dir : string) (l : U) (q : Q) : outcome (DeviceViewModel U Q) :=
  let a := ApplicationRuntime.new_runtime in
  '(status, lib) ← RecipeLibrary.load_directory fopen opendir recipe_dir (ApplicationRuntime.recipes_ a);
  let names :=
    if is_ok status
    then (fun r => from_utf8 (name r)) <$> omap (fun i => RecipeLibrary.at_ i lib) (seq 0 (RecipeLibrary.count lib))
    else [] in
  Ret (refresh {| desk := {| clock := {| SimClock.now_us_ := 0 |}; line := l |};
                  runtime_ := a <| ApplicationRuntime.recipes_ := lib |>; control_ := q; timer_ := true;
                  recipe_names_ := names; simulator_status_ := ""; connected_ := false;
                  shutdown_requested_ := false; ready_to_quit_ := false; shutdown_deadline_ms_ := 0;
                  refresh_divider_ := 0 |}).

(** ** Events *)

(** What Qt calls: the timer, a response of the simulator, and the user. *)
Inductive Event :=
| TimerTimeout
| ReadyRead
| StartManual (temperature_c : f64) (speed minutes : Z)
| StartRecipe (index : Z)
| NextStep
| StopPressed
| TarePressed
| AddIngredient (grams : f64) (ingredient : string)
| SetLidOpen (is_open : bool)
| RequestShutdown.

(** A timer that was stopped does not fire. *)
Definition dispatch (e : Event) v : outcome (DeviceViewModel U Q) :=
  match e with
  | TimerTimeout => if timer_ v then tick v else Ret v
  | ReadyRead => readSimulatorResponse v
  | StartManual t s m => '(_, v) ← startManual t s m v; Ret v
  | StartRecipe i => Ret (startRecipe i v).2
  | NextStep => Ret (nextStep v)
  | StopPressed => Ret (stop v)
  | TarePressed => Ret (tare v).2
  | AddIngredient g i => Ret (addIngredient g i v).2
  | SetLidOpen b => Ret (setLidOpen b v).2
  | RequestShutdown => Ret (requestShutdown v)
  end.

(** What the line and the control socket do between two events. *)
Definition arrive (change : U * Q -> U * Q) v : DeviceViewModel U Q :=
  let '(l, q) := change (line (desk v), control_ v) in v <| desk := (desk v) <| line := l |> |> <| control_ := q |>.

Fixpoint run (events : list ((U * Q -> U * Q) * Event)) v : outcome (DeviceViewModel U Q) :=
  match events with
  | [] => Ret v
  | (change, e) :: events => v ← dispatch e (arrive change v); run events v
  end.
End ViewModel.
End DeviceViewModel.

(** * Theorems *)

Section ViewTheory.
Import DeviceViewModel.
Context {U : Type} `{IUart U, !UartLaws U} (connected : U -> bool * U) {Q : Type} `{LocalSocketLaws Q}.
Context (from_utf8 trimmed : string -> string) (number_text : f64 -> string).

Implicit Types v : DeviceViewModel U Q.

#[local] Abbreviation dispatch := (dispatch connected from_utf8 trimmed number_text).
#[local] Abbreviation run := (run connected from_utf8 trimmed number_text).

(** ** Invariant *)

Definition us v : Z := SimClock.now_us_ (clock (desk v)).

Record view_ok v : Prop := {
  view_runtime : runtime_ok (runtime_ v);
  view_library : library_ok (ApplicationRuntime.recipes_ (runtime_ v));
  view_refresh : 0 <= refresh_divider_ v < 25;
  view_timer : timer_ v = negb (ready_to_quit_ v)
}.

(** The numbers of the user interface are doubles. *)
Definition event_ok (e : Event) : Prop :=
  match e with StartManual t _ _ => is_f64 t = true | _ => True end.

Lemma arrive_ok change v : view_ok v -> view_ok (arrive change v).
Proof. intros []. unfold arrive. destruct (change _) as [l q]. now split. Qed.

Lemma refresh_same v : runtime_ (refresh connected v) = runtime_ v /\ us (refresh connected v) = us v /\
  refresh_divider_ (refresh connected v) = refresh_divider_ v /\ timer_ (refresh connected v) = timer_ v /\
  ready_to_quit_ (refresh connected v) = ready_to_quit_ v /\
  shutdown_requested_ (refresh connected v) = shutdown_requested_ v /\
  shutdown_deadline_ms_ (refresh connected v) = shutdown_deadline_ms_ v.
Proof. unfold refresh. destruct (connected _) as [up l]. now split_and!. Qed.

Lemma refresh_ok v : view_ok v -> view_ok (refresh connected v).
Proof.
  intros [R L D T]. destruct (refresh_same v) as (E1 & _ & E3 & E4 & E5 & _). split; rewrite ?E1, ?E3, ?E4, ?E5; assumption.
Qed.

Lemma on_controller_view {A} (call : _ -> _ -> A * CookingController.CookingController * McuClient.McuClient) v :
  (forall k c, session_inv k -> client_ok c -> session_inv (call k c).1.2 /\ client_ok (call k c).2) ->
  view_ok v -> view_ok (on_controller call v).2.
Proof.
  intros C [[K1 K2 K3 K4] L D T]. unfold on_controller, controller in *. destruct (C _ _ K3 K1) as [I1 I2].
  destruct (call _ _) as [[r k] c]. cbn [fst snd] in *. now split.
Qed.

Lemma start_program_view p v : view_ok v -> view_ok (on_controller (CookingController.start_program p) v).2.
Proof.
  apply on_controller_view. intros k c I K. split; [now apply start_program_inv|].
  unfold CookingController.start_program. destruct p; [|exact K]. destruct (_ || _); [exact K|].
  cbn. now apply clear_status_ok.
Qed.

Lemma stop_view v : view_ok v -> view_ok (stop v).
Proof.
  apply on_controller_view. intros k c I K. pose proof (stop_inv k c I) as S. unfold CookingController.stop in *.
  destruct (_ && _); [now split|]. destruct (negb _ && _); [|now split]. split; [exact S|]. cbn. now apply clear_status_ok.
Qed.

(** ** Actions *)

(** What an action of the user can do to the session and the safety processor. *)
Inductive view_effect v : DeviceViewModel U Q -> Prop :=
| view_leaves v' : controller v' = controller v -> ApplicationRuntime.client_ (runtime_ v') = ApplicationRuntime.client_ (runtime_ v) ->
    desk v' = desk v -> view_effect v v'
| view_starts p : launchable p -> view_effect v (on_controller (CookingController.start_program (Some p)) v).2
| view_continues : view_effect v (nextStep v)
| view_stops v0 : view_effect v v0 -> view_effect v (stop v0)
| view_tares : view_effect v (tare v).2.

Lemma startManual_spec t speed minutes v : is_f64 t = true ->
  exists r, startManual t speed minutes v = Ret r /\
    (r = (false, v) \/
     exists p, launchable p /\
       r = (let '(status, v) := on_controller (CookingController.start_program (Some p)) v in (is_ok status, v))).
Proof.
  intros F. unfold startManual. destruct (negb _ || _ || _ || _ || _ || _ || _) eqn:B; [now eexists; split; [|left]|].
  repeat (apply orb_false_iff in B as [B ?]). rewrite Z.gtb_ltb in *.
  assert (S : exists d, from_celsius (to_f32 t) = Some d /\ (0 < d -> 370 <= d <= 1600)).
  { destruct (feq t fzero) eqn:Z0.
    - exists 0. split; [|lia]. destruct t as [[]|[]| |[] m e]; try discriminate Z0; reflexivity.
    - cbn [negb andb] in *. assert (Ft : isfinite t = true) by now apply negb_false_iff.
      match goal with X : flt t _ || _ = false |- _ => apply orb_false_iff in X as [L G] end.
      destruct (to_f32_celsius t F) as (Fx & Lx & Gx).
      + now apply not_flt_fle.
      + now apply not_flt_fle.
      + destruct (from_celsius_range (to_f32 t) 37 160 Fx ltac:(lia) ltac:(lia) Lx Gx) as (d & E & D).
        exists d. split; [exact E|lia]. }
  destruct S as (d & -> & D). cbn [defined mbind outcome_bind]. unfold CookingController.start_manual.
  set (p := Program.Manual _). assert (P : launchable p) by (apply manual_launchable; [apply u8_range|exact D]). clearbody p.
  destruct (on_controller _ v) as [status v'] eqn:E. exists (is_ok status, v'). split; [reflexivity|]. right.
  exists p. split; [exact P|]. now rewrite E.
Qed.

Lemma startRecipe_spec index v : view_ok v ->
  startRecipe index v = (false, v) \/
  exists p, launchable p /\ startRecipe index v =
    (let '(status, v) := on_controller (CookingController.start_program (Some p)) v in (is_ok status, v)).
Proof.
  intros K. unfold startRecipe. destruct (_ || _); [now left|]. destruct (RecipeLibrary.at_ _ _) as [r|] eqn:A; [|now left].
  right. apply at_valid in A; [|apply K]. exists (Program.Guided (GuidedRecipe.new r)). split; [now apply guided_launchable|].
  unfold CookingController.start_recipe. destruct A as (_ & _ & C). apply Nat.eqb_neq in C. now rewrite C.
Qed.

Lemma clamp_int_range n : 0 <= clamp_int n <= 2147483647.
Proof. unfold clamp_int. destruct (Z.gtb_spec (Z.of_nat n) 2147483647); lia. Qed.

(** What the control socket does not touch. *)
Definition same_core v v' : Prop :=
  runtime_ v' = runtime_ v /\ desk v' = desk v /\ refresh_divider_ v' = refresh_divider_ v /\ timer_ v' = timer_ v /\
  ready_to_quit_ v' = ready_to_quit_ v /\ shutdown_requested_ v' = shutdown_requested_ v /\
  shutdown_deadline_ms_ v' = shutdown_deadline_ms_ v.

Lemma send_core command v : same_core v (sendSimulatorCommand command v).2.
Proof.
  unfold sendSimulatorCommand. destruct (negb _); [now split_and!|].
  destruct (socket_write _ _) as [n q]. destruct (negb _); now split_and!.
Qed.

Lemma add_core grams ingredient v : same_core v (addIngredient number_text grams ingredient v).2.
Proof. unfold addIngredient. destruct (_ || _); [now split_and!|apply send_core]. Qed.

Lemma read_lines_core fuel : forall v, (lines_left (control_ v) < fuel)%nat ->
  exists v', read_lines from_utf8 trimmed fuel v = Ret v' /\ same_core v v'.
Proof.
  induction fuel as [|fuel IH]; intros v L; [lia|]. cbn [read_lines].
  destruct (next_line (control_ v)) as [[bytes|] q] eqn:R; [|now exists v; split_and!].
  apply line_read in R. cbv zeta. match goal with |- context [read_lines _ _ fuel ?x] => destruct (IH x) as (v' & E & C) end;
    [simp_set; lia|]. now exists v'.
Qed.

(** ** Events *)

(** What an event does to the clock and to a shutdown that was requested. *)
Definition timing_kept v v' : Prop :=
  us v' = us v /\ (shutdown_requested_ v = true -> shutdown_requested_ v' = true /\
                   shutdown_deadline_ms_ v' = shutdown_deadline_ms_ v) /\ (ready_to_quit_ v = true -> ready_to_quit_ v' = true) /\
  (ready_to_quit_ v = false -> ready_to_quit_ v' = true -> at_rest v' = true).

Lemma kept_same v v' : us v' = us v -> shutdown_requested_ v' = shutdown_requested_ v ->
  shutdown_deadline_ms_ v' = shutdown_deadline_ms_ v -> ready_to_quit_ v' = ready_to_quit_ v -> timing_kept v v'.
Proof. intros E1 E2 E3 E4. unfold timing_kept. rewrite E1, E2, E3, E4. split_and!; auto; congruence. Qed.

Lemma core_kept v v' : same_core v v' -> view_ok v -> view_ok v' /\ timing_kept v v'.
Proof.
  intros (E1 & E2 & E3 & E4 & E5 & E6 & E7) [R L D T]. split; [split; rewrite ?E1, ?E3, ?E4, ?E5; assumption|].
  apply kept_same; try assumption. unfold us. now rewrite E2.
Qed.

Lemma controller_kept {A} (call : _ -> _ -> A * CookingController.CookingController * McuClient.McuClient) v :
  timing_kept v (on_controller call v).2.
Proof. unfold on_controller. destruct (call _ _) as [[r k] c]. now apply kept_same. Qed.

Lemma tare_kept v : view_ok v -> view_ok (tare v).2 /\ timing_kept v (tare v).2.
Proof.
  intros K. pose proof K as [[K1 K2 K3 K4] L D T]. unfold tare. destruct (connected_ v); [|split; [exact K|now apply kept_same]].
  pose proof (issue_ok Tare (ApplicationRuntime.client_ (runtime_ v), desk v) I K1) as O.
  pose proof (issue_clock Tare (ApplicationRuntime.client_ (runtime_ v), desk v) I K1) as C. cbn [issue] in *.
  destruct (McuClient.tare _) as [st [c d]]. split; [now split|]. now apply kept_same.
Qed.

Lemma requestShutdown_kept v : view_ok v -> view_ok (requestShutdown v) /\ timing_kept v (requestShutdown v).
Proof.
  intros K. unfold requestShutdown. destruct (ready_to_quit_ v || shutdown_requested_ v) eqn:B.
  { split; [exact K|now apply kept_same]. }
  apply orb_false_iff in B as [B1 B2]. destruct (at_rest v) eqn:A.
  - split; [destruct K; now split|]. unfold timing_kept. cbn. rewrite B2. split_and!; auto; congruence.
  - split; [apply stop_view; destruct K; now split|].
    destruct (controller_kept (fun k c => let '(k, c) := CookingController.stop k c in (tt, k, c))
      (v <| shutdown_requested_ := true |> <| shutdown_deadline_ms_ := u32 (now_ms v + 1000) |>)) as (E1 & _ & E3 & E4).
    split_and!; [exact E1|congruence|exact E3|exact E4].
Qed.

(** The timer. *)
Lemma view_tick_ok v : view_ok v -> exists v', tick connected v = Ret v' /\ view_ok v' /\ us v' = u64 (us v + 1000) /\
  shutdown_requested_ v' = shutdown_requested_ v /\ shutdown_deadline_ms_ v' = shutdown_deadline_ms_ v /\
  ready_to_quit_ v' = ready_to_quit_ v || (shutdown_requested_ v && (at_rest v' || (now_ms v' >=? shutdown_deadline_ms_ v))).
Proof.
  intros [R L D T]. unfold tick. cbv zeta.
  destruct (runtime_tick_ok (runtime_ v) (advance (desk v)) R) as (a & d & E & Ra).
  simp_set. rewrite E. cbn [mbind outcome_bind].
  pose proof (runtime_recipes _ _ _ _ E) as Lib.
  apply (runtime_seen now_us (fun t => t)) in E as [_ C]; [|exact clock_write|exact clock_read|exact clock_feed].
  assert (Cl : now_us d = u64 (us v + 1000)) by (destruct (_ >=? 10); exact C). clear C.
  set (v1 := v <| desk := _ |> <| runtime_ := a |> <| desk := d |> <| refresh_divider_ := _ |>).
  assert (K1 : 0 <= refresh_divider_ v1 < 26) by (unfold v1; simp_set; lia).
  set (v2 := if refresh_divider_ v1 >=? 25 then _ else v1).
  assert (K2 : view_ok v2 /\ us v2 = u64 (us v + 1000) /\ shutdown_requested_ v2 = shutdown_requested_ v /\
    shutdown_deadline_ms_ v2 = shutdown_deadline_ms_ v /\ ready_to_quit_ v2 = ready_to_quit_ v).
  { assert (L1 : library_ok (ApplicationRuntime.recipes_ (runtime_ v1))) by (unfold v1; simp_set; now rewrite Lib).
    unfold v2. rewrite Z.geb_leb. destruct (Z.leb_spec 25 (refresh_divider_ v1)).
    - set (v3 := v1 <| refresh_divider_ := 0 |>). destruct (refresh_same v3) as (_ & E2 & _ & _ & E5 & E6 & E7).
      rewrite E2, E5, E6, E7. split_and!; try reflexivity; [|exact Cl]. apply refresh_ok. split; [exact Ra|exact L1|split; reflexivity || discriminate|exact T].
    - split_and!; try reflexivity; [|exact Cl]. split; [exact Ra|exact L1|lia|exact T]. }
  clearbody v2. destruct K2 as (K2 & U2 & Q2 & D2 & Y2). rewrite <- Q2, <- D2, <- Y2.
  destruct (shutdown_requested_ v2 && _) eqn:F; eexists; (split; [reflexivity|]).
  - change (at_rest (finishShutdown v2)) with (at_rest v2). change (now_ms (finishShutdown v2)) with (now_ms v2). rewrite F.
    split_and!; try reflexivity; [destruct K2; now split|exact U2|]. cbn. now rewrite orb_true_r.
  - rewrite F, orb_false_r. now split_and!.
Qed.

(** Any event. *)
Lemma dispatch_ok' e v : view_ok v -> event_ok e -> exists v', dispatch e v = Ret v' /\ view_ok v' /\
  match e with
  | TimerTimeout =>
      if ready_to_quit_ v then v' = v
      else us v' = u64 (us v + 1000) /\ shutdown_requested_ v' = shutdown_requested_ v /\
           shutdown_deadline_ms_ v' = shutdown_deadline_ms_ v /\
           ready_to_quit_ v' = shutdown_requested_ v && (at_rest v' || (now_ms v' >=? shutdown_deadline_ms_ v))
  | _ => timing_kept v v'
  end.
Proof.
  intros K O. destruct e as [| |t sp mi|i| | | |g i|b|]; cbn [DeviceViewModel.dispatch event_ok] in *.
  - pose proof (view_timer v K) as T. rewrite T. destruct (ready_to_quit_ v) eqn:Y; cbn [negb]; [now exists v|].
    destruct (view_tick_ok v K) as (v' & E & K' & U' & Q' & D' & Y'). exists v'. rewrite Y in Y'. now split_and!.
  - destruct (read_lines_core (S (lines_left (control_ v))) v ltac:(lia)) as (v' & E & C). exists v'.
    split; [exact E|]. now apply core_kept.
  - destruct (startManual_spec t sp mi v O) as (r & -> & [->|(p & _ & ->)]); cbn [mbind outcome_bind].
    + exists v. split_and!; [reflexivity|exact K|now apply kept_same].
    + pose proof (start_program_view (Some p) v K) as K'. pose proof (controller_kept (CookingController.start_program (Some p)) v) as C.
      destruct (on_controller _ v) as [st v']. exists v'. now split_and!.
  - destruct (startRecipe_spec i v K) as [->|(p & _ & ->)]; cbn [snd].
    + exists v. split_and!; [reflexivity|exact K|now apply kept_same].
    + pose proof (start_program_view (Some p) v K) as K'. pose proof (controller_kept (CookingController.start_program (Some p)) v) as C.
      destruct (on_controller _ v) as [st v']. exists v'. now split_and!.
  - eexists. split; [reflexivity|]. unfold nextStep. destruct (CookingController.awaiting_user _).
    + split; [|now apply kept_same]. destruct K as [[]]. split; try assumption. split; simp_set; try assumption. now apply user_next_inv.
    + split; [exact K|now apply kept_same].
  - eexists. split; [reflexivity|]. split; [now apply stop_view|apply controller_kept].
  - eexists. split; [reflexivity|]. now apply tare_kept.
  - eexists. split; [reflexivity|]. apply core_kept; [apply add_core|exact K].
  - eexists. split; [reflexivity|]. apply core_kept; [apply send_core|exact K].
  - eexists. split; [reflexivity|]. now apply requestShutdown_kept.
Qed.

#[local] Abbreviation events := (list ((U * Q -> U * Q) * Event)).

Lemma run_view_ok (es : events) : forall v, view_ok v -> Forall (fun e => event_ok e.2) es ->
  exists v', run es v = Ret v' /\ view_ok v'.
Proof.
  induction es as [|[change e] es IH]; intros v K F; [now exists v|]. apply Forall_cons in F as [O F]. cbn [DeviceViewModel.run].
  destruct (dispatch_ok' e (arrive change v) (arrive_ok change v K) O) as (v1 & -> & K1 & _). cbn [mbind outcome_bind]. now apply IH.
Qed.

Lemma new_view_ok fopen opendir dir l q :
  exists v, new_view_model connected from_utf8 fopen opendir dir l q = Ret v /\ view_ok v /\ us v = 0 /\
    shutdown_requested_ v = false /\ ready_to_quit_ v = false.
Proof.
  unfold new_view_model. destruct (load_directory_ok fopen opendir dir RecipeLibrary.new_library new_library_ok) as (st & lib & E & L & _).
  change (ApplicationRuntime.recipes_ ApplicationRuntime.new_runtime) with RecipeLibrary.new_library. rewrite E. cbn [mbind outcome_bind].
  eexists. split; [reflexivity|].
  match goal with |- context [refresh connected ?x] => set (v0 := x); destruct (refresh_same v0) as (_ & E2 & _ & _ & E5 & E6 & _) end.
  rewrite E2, E5, E6. split_and!; try reflexivity. apply refresh_ok. destruct new_runtime_ok.
  split; [now split|exact L|split; reflexivity || discriminate|reflexivity].
Qed.

(** ** Shutdown *)

(** How often the timer fires. *)
Definition fires (e : Event) : Z := match e with TimerTimeout => 1 | _ => 0 end.

Fixpoint timeouts (es : events) : Z :=
  match es with
  | [] => 0
  | (_, e) :: es => fires e + timeouts es
  end.

Lemma fires_range e : 0 <= fires e <= 1.
Proof. destruct e; cbn; lia. Qed.

Lemma timeouts_nonneg es : 0 <= timeouts es.
Proof. induction es as [|[change e] es IH]; cbn; [lia|]. pose proof (fires_range e). lia. Qed.

(** A shutdown requested at the time [t], and [k] ticks since. *)
Definition closing (t k : Z) v : Prop :=
  us v = t + 1000 * k /\ shutdown_requested_ v = true /\ shutdown_deadline_ms_ v = u32 (to_millis t + 1000).

(** Before the millisecond clock wraps. *)
Definition early (t : Z) : Prop := 0 <= t /\ t / 1000 + 1000 < 4294967296.

Lemma millis_later t k : early t -> 0 <= k <= 1000 -> to_millis (t + 1000 * k) = t / 1000 + k /\
  u32 (to_millis t + 1000) = t / 1000 + 1000.
Proof.
  intros [T B] K. unfold to_millis. rewrite (Z.mul_comm 1000 k), Z.div_add by lia.
  pose proof (Z.div_pos t 1000 T ltac:(lia)). split; [apply u32_id; unfold in_u32; lia|].
  rewrite (u32_id (t / 1000)) by (unfold in_u32; lia). apply u32_id. unfold in_u32. lia.
Qed.

Lemma requestShutdown_closing v : ready_to_quit_ v = false -> shutdown_requested_ v = false -> at_rest v = false ->
  closing (us v) 0 (requestShutdown v) /\ ready_to_quit_ (requestShutdown v) = false.
Proof.
  intros Y R A. unfold requestShutdown. rewrite Y, R, A. cbn [orb].
  set (v0 := v <| shutdown_requested_ := true |> <| shutdown_deadline_ms_ := _ |>).
  unfold stop, on_controller. destruct (CookingController.stop _ _) as [k c].
  split; [|exact Y]. split_and!; try reflexivity. rewrite Z.mul_0_r, Z.add_0_r. reflexivity.
Qed.

Lemma closing_step t k e v : early t -> 0 <= k < 1000 -> view_ok v -> event_ok e -> closing t k v -> ready_to_quit_ v = false ->
  exists v', dispatch e v = Ret v' /\ view_ok v' /\ closing t (k + fires e) v' /\
    (k + fires e = 1000 -> ready_to_quit_ v' = true) /\
    (ready_to_quit_ v' = true -> k + fires e < 1000 -> at_rest v' = true).
Proof.
  intros T Hk K O (C1 & C2 & C3) Y. destruct (dispatch_ok' e v K O) as (v' & E & K' & X). exists v'.
  assert (Cases : e = TimerTimeout \/ fires e = 0 /\ timing_kept v v') by (destruct e; auto).
  split; [exact E|]. split; [exact K'|]. destruct Cases as [->|[Fe (X1 & X2 & X3 & X4)]]; cbn [fires].
  - rewrite Y in X. destruct X as (X1 & X2 & X3 & X4). destruct (millis_later t (k + 1) T ltac:(lia)) as [M D].
    assert (U1 : us v' = t + 1000 * (k + 1)).
    { rewrite X1, C1. unfold u64. destruct T as [T1 T2]. pose proof (Z.mul_succ_div_gt t 1000 ltac:(lia)). rewrite Z.mod_small; lia. }
    split; [split_and!; congruence|]. rewrite X4, C2, C3, D. unfold now_ms, SimClock.now_ms. fold (us v'). rewrite U1, M.
    rewrite Z.geb_leb. split.
    + intros G. replace (t / 1000 + 1000 <=? t / 1000 + (k + 1)) with true by (symmetry; apply Z.leb_le; lia). apply orb_true_r.
    + intros G L. replace (t / 1000 + 1000 <=? t / 1000 + (k + 1)) with false in G by (symmetry; apply Z.leb_gt; lia).
      now rewrite orb_false_r in G.
  - rewrite Fe, Z.add_0_r. destruct (X2 C2) as [R1 R2]. split; [split_and!; congruence|]. split; [lia|auto].
Qed.

(** Once the interface is ready to quit it stays so. *)
Lemma run_ready (es : events) : forall v, view_ok v -> Forall (fun e => event_ok e.2) es -> ready_to_quit_ v = true ->
  exists v', run es v = Ret v' /\ ready_to_quit_ v' = true.
Proof.
  induction es as [|[change e] es IH]; intros v K F Y; [now exists v|]. apply Forall_cons in F as [O F]. cbn [DeviceViewModel.run].
  destruct (dispatch_ok' e (arrive change v) (arrive_ok change v K) O) as (v1 & -> & K1 & X). cbn [mbind outcome_bind].
  apply IH; [exact K1|exact F|]. assert (Y1 : ready_to_quit_ (arrive change v) = true).
  { unfold arrive. now destruct (change _). }
  rewrite Y1 in X. destruct e; try (now apply X). now rewrite X.
Qed.

Lemma arrive_closing t k change v : closing t k v -> closing t k (arrive change v).
Proof. unfold arrive. now destruct (change _). Qed.

Lemma closing_run t (es : events) : forall k v, early t -> 0 <= k < 1000 -> view_ok v -> Forall (fun e => event_ok e.2) es ->
  closing t k v -> ready_to_quit_ v = false ->
  exists v', run es v = Ret v' /\ (1000 <= k + timeouts es -> ready_to_quit_ v' = true) /\
    (ready_to_quit_ v' = true -> k + timeouts es < 1000 ->
     exists before after v1, es = before ++ after /\ run before v = Ret v1 /\ view_ok v1 /\ ready_to_quit_ v1 = true /\
       at_rest v1 = true).
Proof.
  induction es as [|[change e] es IH]; intros k v T Hk K F C Y.
  { exists v. split; [reflexivity|]. split; [cbn; lia|]. congruence. }
  apply Forall_cons in F as [O F]. cbn [DeviceViewModel.run timeouts].
  assert (Y1 : ready_to_quit_ (arrive change v) = false) by (unfold arrive; now destruct (change _)).
  destruct (closing_step t k e _ T Hk (arrive_ok change v K) O (arrive_closing t k change v C) Y1)
    as (v1 & E1 & K1 & C1 & R1 & S1). rewrite E1. cbn [mbind outcome_bind].
  pose proof (fires_range e) as Fr. pose proof (timeouts_nonneg es) as Tn.
  destruct (ready_to_quit_ v1) eqn:Yv1.
  - destruct (run_ready es v1 K1 F Yv1) as (v2 & E2 & Y2). exists v2. split; [exact E2|]. split; [auto|]. intros _ L.
    exists [(change, e)], es, v1. cbn [DeviceViewModel.run]. rewrite E1. split_and!; try reflexivity; try assumption.
    apply S1; [reflexivity|lia].
  - assert (L1 : k + fires e < 1000) by (destruct (Z.eq_dec (k + fires e) 1000) as [G|]; [discriminate (R1 G)|lia]).
    destruct (IH (k + fires e) v1 T ltac:(lia) K1 F C1 Yv1) as (v2 & E2 & R2 & S2). exists v2. split; [exact E2|].
    split; [intros G; apply R2; lia|]. intros Y2 L. destruct (S2 Y2 ltac:(lia)) as (b & a & v3 & -> & E3 & X).
    exists ((change, e) :: b), a, v3. cbn [DeviceViewModel.run app]. rewrite E1. cbn [mbind outcome_bind]. split; [reflexivity|]. now split.
Qed.

End ViewTheory.

(** ** Properties *)

Section ViewProperties.
Import DeviceViewModel.
Context {U : Type} `{IUart U, !UartLaws U} (connected : U -> bool * U) {Q : Type} `{LocalSocketLaws Q}.
Context (from_utf8 trimmed : string -> string) (number_text : f64 -> string).

#[local] Abbreviation run := (run connected from_utf8 trimmed number_text).

(** C15: the view model stays well typed under every event: it is built whatever
    the recipe directory holds, and whatever the user, the timer, the
    simulator and the safety processor do in whatever order, no event hangs or is
    undefined (the cast of a temperature to [float] and to tenths of a degree
    included); the runtime, the session, the telemetry and the recipes stay
    well formed, the progress is an [int] from 0 on, and the timer runs exactly
    as long as the interface is not ready to quit. *)
Theorem view_model_stays_well_typed fopen opendir recipe_dir l q es :
  Forall (fun e => event_ok e.2) es ->
  exists v0 v, new_view_model connected from_utf8 fopen opendir recipe_dir l q = Ret v0 /\ run es v0 = Ret v /\
    runtime_ok (runtime_ v) /\ library_ok (ApplicationRuntime.recipes_ (runtime_ v)) /\
    0 <= progressCurrent v <= 2147483647 /\ 0 <= progressTotal v <= 2147483647 /\
    timer_ v = negb (ready_to_quit_ v).
Proof.
  intros F. destruct (new_view_ok connected from_utf8 fopen opendir recipe_dir l q) as (v0 & E0 & K0 & _).
  destruct (run_view_ok connected from_utf8 trimmed number_text es v0 K0 F) as (v & E & [R L D T]). exists v0, v.
  split_and!; try assumption; apply clamp_int_range.
Qed.

(** C17: the actions of the user interface stay within the limits of the safety
    processor: an action is undefined for no number, leaves the session, the
    client and the clock alone, continues or stops the session, asks for a tare,
    or starts a program all of whose requests are within the limits (heater off
    or 37 to 160 C, a speed of the dial, a valid recipe). *)
Theorem user_actions_within_limits e v : view_ok v -> event_ok e ->
  match e with
  | TimerTimeout | ReadyRead => True
  | _ => exists v', dispatch connected from_utf8 trimmed number_text e v = Ret v' /\ view_effect v v'
  end.
Proof.
  intros K O. pose proof (fun command => send_core command v) as S.
  assert (Leaves : forall v', same_core v v' -> view_effect v v').
  { intros v' (E1 & E2 & _). apply view_leaves; [unfold controller; now rewrite E1|now rewrite E1|exact E2]. }
  destruct e as [| |t sp mi|i| | | |g i|b|]; cbn [dispatch event_ok] in *; try exact I.
  - destruct (startManual_spec t sp mi v O) as (r & -> & [->|(p & P & ->)]); cbn [mbind outcome_bind].
    + exists v. split; [reflexivity|now apply view_leaves].
    + pose proof (view_starts v p P) as X. destruct (on_controller _ v) as [st v']. now exists v'.
  - destruct (startRecipe_spec i v K) as [->|(p & P & ->)]; cbn [snd].
    + exists v. split; [reflexivity|now apply view_leaves].
    + pose proof (view_starts v p P) as X. destruct (on_controller _ v) as [st v']. now exists v'.
  - eexists. split; [reflexivity|]. apply view_continues.
  - eexists. split; [reflexivity|]. apply view_stops. now apply view_leaves.
  - eexists. split; [reflexivity|]. apply view_tares.
  - eexists. split; [reflexivity|]. apply Leaves, add_core.
  - eexists. split; [reflexivity|]. apply Leaves, send_core.
  - eexists. split; [reflexivity|]. unfold requestShutdown. destruct (_ || _); [now apply view_leaves|].
    destruct (at_rest v); [now apply view_leaves|]. apply view_stops. now apply view_leaves.
Qed.

(** C16: closing the user interface waits for the session, but at most a second:
    from a request to shut down on, before the millisecond clock wraps and
    whatever else happens, the interface is ready to quit once the timer has
    fired 1000 times; and if it is ready earlier, there was a moment when the
    session was idle, or done with the stop of the motor confirmed. *)
Theorem closing_waits_at_most_a_second change es v : view_ok v -> ready_to_quit_ v = false -> shutdown_requested_ v = false ->
  early (us v) -> Forall (fun e => event_ok e.2) es ->
  exists v', run ((change, RequestShutdown) :: es) v = Ret v' /\
    (1000 <= timeouts es -> ready_to_quit_ v' = true) /\
    (ready_to_quit_ v' = true -> timeouts es < 1000 ->
     exists before after v1, es = before ++ after /\ run ((change, RequestShutdown) :: before) v = Ret v1 /\
       ready_to_quit_ v1 = true /\
       (CookingController.state_ (controller v1) = Idle \/
        CookingController.state_ (controller v1) = Done /\ CookingController.shutdown_motor_done_ (controller v1) = true)).
Proof.
  intros K Y R T F.
  assert (Rest : forall v1 : DeviceViewModel U Q, view_ok v1 -> at_rest v1 = true -> CookingController.state_ (controller v1) = Idle \/
    CookingController.state_ (controller v1) = Done /\ CookingController.shutdown_motor_done_ (controller v1) = true).
  { intros v1 K1 A. apply orb_true_iff in A as [A|A]; apply bool_decide_eq_true in A; [now left|right].
    split; [exact A|]. exact (inv_done _ (rt_session _ (view_runtime v1 K1)) A). }
  cbn [DeviceViewModel.run dispatch mbind outcome_bind]. set (v0 := arrive change v).
  assert (K0 : view_ok v0) by now apply arrive_ok.
  assert (S0 : ready_to_quit_ v0 = false /\ shutdown_requested_ v0 = false /\ us v0 = us v) by (unfold v0, arrive; now destruct (change _)).
  destruct S0 as (Y0 & R0 & U0). destruct (requestShutdown_kept v0 K0) as [K1 (U1 & _)].
  destruct (at_rest v0) eqn:A.
  - assert (E1 : requestShutdown v0 = finishShutdown v0) by (unfold requestShutdown; now rewrite Y0, R0, A).
    rewrite E1 in *. destruct (run_ready connected from_utf8 trimmed number_text es _ K1 F eq_refl) as (v' & E & Y'). exists v'.
    split_and!; [exact E|auto|]. intros _ _. exists [], es, (finishShutdown v0). cbn [DeviceViewModel.run].
    split_and!; try reflexivity. now apply Rest.
  - assert (C : closing (us v) 0 (requestShutdown v0) /\ ready_to_quit_ (requestShutdown v0) = false).
    { rewrite <- U0. now apply requestShutdown_closing. }
    destruct C as [C Y1].
    destruct (closing_run connected from_utf8 trimmed number_text (us v) es 0 _ T ltac:(lia) K1 F C Y1) as (v' & E & G1 & G2).
    exists v'. split_and!; [exact E|exact G1|]. intros Y' L. destruct (G2 Y' L) as (b & a & v1 & E2 & E3 & K2 & Y2 & A2).
    exists b, a, v1. split_and!; try assumption. now apply Rest.
Qed.

End ViewProperties.
