(* ===== verification/Mains.v ===== *)
(** * Starting the application's processes (src/apps/culina_app_main.cpp,
      src/apps/ui/culina_ui_main.cpp)

    Their arguments, the connection to the safety processor, and the smoke test of
    the user interface. *)

From stdpp Require Import gmap sets.
From S2P Require Import Prelude.
From S2P Require Import Hal.
From S2P Require Import Sockets.
From S2P Require Import SocketUart.
From S2P Require Import Desk.
From S2P Require Import AppMain.
From S2P Require Import ViewModel.

(** ** culina_app *)
Module CulinaApp.

(** [None]: the process ends with status 2. *)
Fixpoint parse_arguments (argv : list string) (socket_path : string) : option string :=
  match argv with
  | [] => Some socket_path
  | arg :: argv =>
      if bool_decide (arg = "--socket") then
        match argv with v :: argv => parse_arguments argv v | [] => None end
      else None
  end.

Section Main.
Context {W : Type} `{ISockets W}.

(** The line, if the safety processor is there; else an exit status. *)
Definition join (socket_path : string) (k : W) : (SocketLine W + Z) * W :=
  let '(t, k) := SocketTransport.connect_to (Some socket_path) k in
  let '(up, l) := line_connected {| transport := t; kernel := k; sent := [] |} in
  if negb up then (inr 1, SocketTransport.destroy (transport l) (kernel l)) else (inl l, kernel l).

(** The process on a sequence of turns: still running, or an exit status. *)
Definition main (argv : list string) (turns : list ((SocketLine W -> SocketLine W) * AppMain.Input)) (k : W)
    : outcome (AppMain.App (SocketLine W) + Z) :=
  match parse_arguments argv "/tmp/c1link.sock" with
  | None => Ret (inr 2)
  | Some socket_path =>
      match (join socket_path k).1 with
      | inr status => Ret (inr status)
      | inl l => AppMain.run line_connected turns (AppMain.new_app l)
      end
  end.
End Main.
End CulinaApp.

(** ** culina_ui *)
Module CulinaUi.

Record Options := { socket_path : string; control_socket_path : string; recipe_dir : string; smoke_test : bool }.
#[global] Instance eta_Options : Eta Options := fun o =>
  {| socket_path := socket_path o; control_socket_path := control_socket_path o; recipe_dir := recipe_dir o;
     smoke_test := smoke_test o |}.

Definition default_options : Options :=
  {| socket_path := "/tmp/c1link.sock"; control_socket_path := "/tmp/culina-control.sock"; recipe_dir := "data/recipes";
     smoke_test := false |}.

Fixpoint parse_arguments (argv : list string) (o : Options) : option Options :=
  match argv with
  | [] => Some o
  | arg :: argv =>
      if bool_decide (arg = "--socket") then
        match argv with v :: argv => parse_arguments argv (o <| socket_path := v |>) | [] => None end
      else if bool_decide (arg = "--control-socket") then
        match argv with v :: argv => parse_arguments argv (o <| control_socket_path := v |>) | [] => None end
      else if bool_decide (arg = "--recipes") then
        match argv with v :: argv => parse_arguments argv (o <| recipe_dir := v |>) | [] => None end
      else if bool_decide (arg = "--smoke-test") then parse_arguments argv (o <| smoke_test := true |>)
      else None
  end.

(** The timer of the smoke test: it counts, has asked for a shutdown and
    stopped, or has ended the process with status 1. *)
Inductive Smoke := Waiting (attempts : Z) | Requested | Ended.

Definition smoke_tick {U Q} (s : Smoke) (v : DeviceViewModel.DeviceViewModel U Q)
    : Smoke * DeviceViewModel.DeviceViewModel U Q :=
  match s with
  | Waiting attempts =>
      if DeviceViewModel.hasTelemetry v then (Requested, DeviceViewModel.requestShutdown v)
      else if attempts + 1 >=? 200 then (Ended, v) else (Waiting (attempts + 1), v)
  | _ => (s, v)
  end.

(** The test, with what the rest of the process makes of the view model between
    its ticks. *)
Fixpoint smoke_run {U Q} (between : list (DeviceViewModel.DeviceViewModel U Q -> DeviceViewModel.DeviceViewModel U Q))
    (s : Smoke) (v : DeviceViewModel.DeviceViewModel U Q) : Smoke * DeviceViewModel.DeviceViewModel U Q :=
  match between with
  | [] => (s, v)
  | f :: between => let '(s, v) := smoke_tick s (f v) in smoke_run between s v
  end.
End CulinaUi.

(** * Theorems *)

Section Join.
Context {W : Type} `{SocketLaws W}.

(** A failed connection leaves no descriptor open. *)
Lemma join_releases path (k : W) : match CulinaApp.join path k with
  | (inl l, k') => SocketTransport.conn_fd_ (transport l) >= 0 /\ owns (open_fds k) (transport l) k'
  | (inr st, k') => st = 1 /\ open_fds k' = open_fds k
  end.
Proof.
  unfold CulinaApp.join. pose proof (connect_to_owns (Some path) k) as K.
  destruct (SocketTransport.connect_to (Some path) k) as [t k1]. cbn [fst snd] in K. unfold line_connected. cbn [transport kernel].
  unfold SocketTransport.connected. apply accept_owns in K. destruct (SocketTransport.accept_pending t k1) as [t2 k2]. cbn [fst snd] in K.
  destruct (Z.geb_spec (SocketTransport.conn_fd_ t2) 0); cbn [negb transport kernel].
  - split; [lia|exact K].
  - split; [reflexivity|]. now apply destroy_releases.
Qed.
End Join.

Section Smoke.
Import CulinaUi.
Context {U Q : Type}.
Implicit Types v : DeviceViewModel.DeviceViewModel U Q.

(** The smoke test ends within 200 ticks of its timer. *)
Lemma smoke_ends between : forall attempts v, 0 <= attempts < 200 -> 200 - attempts <= Z.of_nat (length between) ->
  (smoke_run between (Waiting attempts) v).1 = Requested \/ (smoke_run between (Waiting attempts) v).1 = Ended.
Proof.
  assert (Stay : forall between s v, s = Requested \/ s = Ended -> (smoke_run between s v).1 = s).
  { clear. induction between as [|f between IH]; intros s v S; [reflexivity|]. destruct S as [-> | ->]; cbn; apply IH; auto. }
  induction between as [|f between IH]; intros attempts v A L; [cbn in L; lia|]. cbn [smoke_run smoke_tick].
  destruct (DeviceViewModel.hasTelemetry (f v)); [left; apply Stay; auto|]. rewrite Z.geb_leb.
  destruct (Z.leb_spec 200 (attempts + 1)); [right; apply Stay; auto|]. apply IH; [lia|cbn in L; lia].
Qed.
End Smoke.

Section Mains.
Context {W : Type} `{SocketLaws W}.

(** The process always has an answer, and status 2 is for wrong arguments
    only. *)
Lemma main_answers argv turns (k : W) : 1000 * Z.of_nat (length turns) < 18446744073709551616 ->
  exists r, CulinaApp.main argv turns k = Ret r /\
    (CulinaApp.parse_arguments argv "/tmp/c1link.sock" = None <-> r = inr 2).
Proof.
  intros B. unfold CulinaApp.main. destruct (CulinaApp.parse_arguments argv _) as [path|]; [|now exists (inr 2)].
  pose proof (join_releases path k) as J. destruct (CulinaApp.join path k) as [[l|st] k']; cbn [fst].
  - destruct (app_runs_ok line_connected turns (AppMain.new_app l) (new_app_inv l)) as (r & E & R); [unfold short; cbn; lia|].
    exists r. split; [exact E|]. split; [discriminate|]. intros ->. lia.
  - destruct J as [-> _]. exists (inr 1). now split.
Qed.
End Mains.
