(* ===== verification/AppBench.v ===== *)
(** * The application on the simulated board

    A bench on which the theorems about the client, the programs, the session and
    the whole device are applied to concrete histories. *)

From stdpp Require Import relations.
From S2P Require Import Prelude.
From S2P Require Import Float32.
From S2P Require Import Common.
From S2P Require Import C1Link.
From S2P Require Import Hal.
From S2P Require Import Link.
From S2P Require Import SafetyMcu.
From S2P Require Import Sim.
From S2P Require Import Bench.
From S2P Require Import TelemetryStore.
From S2P Require Import McuClient.
From S2P Require Import OtaUpdater.
From S2P Require Import Recipe.
From S2P Require Import Programs.
From S2P Require Import Cooking.
From S2P Require Import System.
From S2P Require Import CString.
From S2P Require Import RecipeParser.
From S2P Require Import Cli.
From S2P Require Import Grammar.
From S2P Require Import Sockets.
From S2P Require Import SocketUart.
From S2P Require Import SocketBench.
From S2P Require Import McuMain.
From S2P Require Import Desk.
From S2P Require Import AppMain.
From S2P Require Import Float64.
From S2P Require Import ViewModel.

(** ** The bench *)

Definition AppSide : Type := AppWorld.AppWorld unit.

Definition app0 : AppSide :=
  {| AppWorld.board := SimBoard.new_board 42; AppWorld.transport := InMemoryTransport.new_transport;
     AppWorld.sent_ := [] |}.

(** The bench, [ms] later. *)
Definition later (ms : Z) : AppSide :=
  app0 <| AppWorld.board := (AppWorld.board app0) <| SimBoard.clock_ :=
    SimClock.advance_us (ms * 1000) (SimBoard.clock_ (AppWorld.board app0)) |> |>.

(** A client that waits for the answer to a MOTOR_STOP it sent at time 0. *)
Definition waiting_client : McuClient.McuClient :=
  McuClient.new_client <| McuClient.waiting_ := true |> <| McuClient.pending_msg_id_ := MsgId.MotorStop |>.

Lemma waiting_client_ok : client_ok waiting_client.
Proof.
  destruct new_client_ok. split; try assumption; try reflexivity; try discriminate.
Qed.

(** ** The client *)

Lemma commands_reach_the_mcu_witness :
  let '(st, (c, w)) := issue (SetHeater 1000) (McuClient.new_client, app0) in client_ok c.
Proof.
  pose proof (commands_reach_the_mcu (SetHeater 1000) McuClient.new_client app0 new_client_ok
    ltac:(split; reflexivity || discriminate)) as C.
  destruct (issue (SetHeater 1000) (McuClient.new_client, app0)) as [st [c w]]. exact (proj1 C).
Defined.

Lemma first_timeout_witness :
  let '(c, w) := McuClient.check_timeouts waiting_client (later 160) in
  McuClient.waiting_ c = false /\ McuClient.last_command_status_ c = Timeout.
Proof.
  pose proof (first_timeout waiting_client (later 160) 0 160 waiting_client_ok eq_refl eq_refl eq_refl eq_refl
    ltac:(split; reflexivity || discriminate) eq_refl) as T.
  destruct (McuClient.check_timeouts waiting_client (later 160)) as [c w].
  split; [exact (proj1 T)|exact (proj1 (proj2 T))].
Defined.

Lemma request_deadline_witness :
  exists c store w, McuClient.poll waiting_client TelemetryStore.new_store (later 150) = Ret (c, store, w) /\
    McuClient.last_command_status_ c = Timeout.
Proof.
  assert (D : McuClient.kRequestDeadlineMs <=
    u32_sub (now_ms (later 150)) (McuClient.request_started_ms_ waiting_client)) by (vm_compute; discriminate).
  destruct (request_deadline waiting_client TelemetryStore.new_store (later 150) waiting_client_ok new_store_ok
    eq_refl D) as (c & st & w & E & _ & _ & _ & T).
  exists c, st, w. split; [exact E|exact T].
Defined.

Lemma link_kept_alive_witness :
  exists c store w, McuClient.poll McuClient.new_client TelemetryStore.new_store (later 2000) = Ret (c, store, w).
Proof.
  destruct (link_kept_alive McuClient.new_client TelemetryStore.new_store (later 2000) new_client_ok new_store_ok)
    as (c & st & w & E & _).
  exists c, st, w. exact E.
Defined.

Lemma telemetry_end_to_end_witness :
  let data := {| tick := 7; C1Link.deci_celsius := 655; C1Link.rpm := 3210; C1Link.grams := -4; C1Link.flags := 3 |} in
  exists f, (McuClient.dispatch 9 f McuClient.new_client TelemetryStore.new_store).1 = McuClient.new_client.
Proof.
  intros data. destruct (telemetry_end_to_end data 5 9 McuClient.new_client TelemetryStore.new_store) as (f & _ & E);
    try (split; reflexivity || discriminate).
  exists f. rewrite E. reflexivity.
Defined.

Lemma responses_answer_the_last_request_witness :
  exists s, client_run new_session [(Submit MotorStop, app0); (Poll, later 20); (TakeResponse, later 21)] = Ret s /\
    Forall answers (taken s).
Proof.
  destruct (responses_answer_the_last_request
    [(Submit MotorStop, app0); (Poll, later 20); (TakeResponse, later 21)]) as (s & E & _ & _ & A).
  - repeat constructor.
  - exists s. split; [exact E|exact A].
Defined.

(** ** The programs *)

(** A client that accepts every request, and a recipe: weigh, heat, mix. *)
#[local] Instance obliging : IMcuClient unit := fun _ _ _ m => (Ok, m).

Definition weigh_step : RecipeStep := default_step <| kind := Weigh |>.
Definition heat_step : RecipeStep := default_step <| kind := Heat |> <| target_temp := 1000 |> <| dial_speed := 1 |>.
Definition mix_step : RecipeStep := default_step <| kind := Mix |> <| dial_speed := 4 |>.
Definition dinner : Recipe :=
  {| name := "dinner"; steps := [weigh_step; heat_step; mix_step]; step_count := 3 |}.

(** Ticks 10 ms apart. *)
Definition ticks (n : nat) : list (Z * TelemetryStore.TelemetryStore * unit) :=
  (fun i => (10 * Z.of_nat (S i), TelemetryStore.new_store, tt)) <$> seq 0 n.

Lemma ticks_started n : Forall (fun i => i.1.1 <> 0) (ticks n).
Proof. apply Forall_fmap, Forall_true. intros i. cbn. lia. Qed.

Lemma programs_follow_their_script_witness :
  let p := Program.Turbo (TurboPulse.new 500) in
  message <$> todo p = (run_program p (ticks 3)).2 ++ (message <$> todo (run_program p (ticks 3)).1).
Proof. intros p. apply programs_follow_their_script; [constructor|apply ticks_started]. Defined.

Lemma finished_programs_leave_outputs_off_witness :
  let p := Program.Guided (GuidedRecipe.new dinner) in
  Program.finished 300 (run_program p (ticks 16)).1 = true /\ (run_program p (ticks 16)).2 = message <$> todo p.
Proof.
  intros p. split; [vm_compute; reflexivity|].
  apply (finished_programs_leave_outputs_off p (ticks 16) 300); [constructor|reflexivity|apply ticks_started|].
  vm_compute. reflexivity.
Defined.

Lemma scripts_within_limits_witness : Forall within_limits (todo (Program.Manual (ManualMode.new 1000 4 60))).
Proof. apply scripts_within_limits; [constructor|]. split; [discriminate|]. intros _. split; discriminate. Defined.

Lemma weigh_step_uses_stale_weight_witness :
  exists p, GuidedRecipe.phase_ p = GuidedRecipe.Teardown.
Proof.
  pose proof (weigh_step_uses_stale_weight 10 20 TelemetryStore.new_store dinner 0 0 false McuClient.new_client app0
    new_client_ok ltac:(cbn; lia) eq_refl ltac:(discriminate) ltac:(vm_compute; reflexivity)) as T.
  cbv zeta in T. destruct (GuidedRecipe.on_tick 10 _ _ _) as [p1 m1]. destruct (GuidedRecipe.on_tick 20 _ _ m1) as [p2 [c2 w2]].
  exists p2. exact (proj1 T).
Defined.

(** ** The session *)

(** A client that holds the answer to a request. *)
Definition answered (id : Z) : McuClient.McuClient :=
  McuClient.new_client <| McuClient.response_ready_ := true |> <| McuClient.response_ := frame_of Response 0 id [] |>.

Definition tick_with (c : McuClient.McuClient) (ms : Z) : tick_input :=
  {| in_store := TelemetryStore.new_store; in_ota := OtaUpdater.new_updater; in_client := c; in_world := later ms |}.


Definition idle : CookingController.CookingController := CookingController.attach_ota CookingController.new_controller.

Lemma tick_feeds_watchdog_witness :
  let '(k, _, _, w) := CookingController.tick_10ms TelemetryStore.new_store idle OtaUpdater.new_updater McuClient.new_client (later 700) in
  Watchdog.last_feed_ms_ (SimBoard.watchdog_ (AppWorld.board w)) = 700.
Proof.
  pose proof (tick_feeds_watchdog (fun w : AppSide => SimBoard.watchdog_ (AppWorld.board w)) TelemetryStore.new_store
    idle OtaUpdater.new_updater McuClient.new_client (later 700)) as T.
  destruct (CookingController.tick_10ms _ idle _ _ _) as [[[k o] c] w].
  destruct T as [T _]; [|exact new_controller_inv|].
  - intros bs w'. unfold uart_write, app_uart. destruct (InMemoryTransport.write bs _). reflexivity.
  - rewrite T. reflexivity.
Defined.

(** A finished fault shutdown, with the fault still in the client. *)
Definition faulted : CookingController.CookingController :=
  idle <| CookingController.state_ := Faulted |> <| CookingController.fault_shutdown_ := true |>
       <| CookingController.shutdown_heater_done_ := true |> <| CookingController.shutdown_motor_done_ := true |>.

Definition faulted_client : McuClient.McuClient :=
  McuClient.new_client <| McuClient.last_fault_ := FaultCode.LinkLost |>.

Lemma faulted_inv : session_inv faulted.
Proof. split; vm_compute; intuition (try congruence). Qed.

Definition turbo : Program.Program := Program.Turbo (TurboPulse.new 500).

Lemma mcu_fault_blocks_restart_witness :
  let '(st, k, c) := CookingController.start_program (Some turbo) faulted faulted_client in
  st = Ok /\ forall s, rtc (session_step (W := AppSide)) (faulted, faulted_client) s -> CookingController.state_ s.1 <> Running.
Proof.
  destruct (mcu_fault_blocks_restart (W := AppSide) turbo faulted faulted_client faulted_inv eq_refl eq_refl
    ltac:(discriminate)) as [S B].
  destruct (CookingController.start_program _ faulted faulted_client) as [[st k] c]. destruct S as [S _].
  split; [exact S|exact B].
Defined.


(** A store with one reading of 80 C. *)
Definition hot_store : TelemetryStore.TelemetryStore :=
  TelemetryStore.append {| TelemetryStore.t_ms := 5; TelemetryStore.deci_celsius := 800; TelemetryStore.rpm := 0;
    TelemetryStore.grams := 0; TelemetryStore.flags := 0 |} TelemetryStore.new_store.

Lemma hot_store_ok : store_ok hot_store.
Proof. apply append_ok; [split; reflexivity || discriminate|apply new_store_ok]. Qed.

Lemma hot_bowl_warning_witness :
  CookingController.hot_bowl_
    (CookingController.tick_10ms hot_store idle OtaUpdater.new_updater McuClient.new_client app0).1.1.1 = true.
Proof.
  rewrite (hot_bowl_warning hot_store idle OtaUpdater.new_updater McuClient.new_client app0 hot_store_ok
    new_controller_inv).
  - vm_compute. reflexivity.
  - eexists. split; [left; reflexivity|vm_compute; reflexivity].
Defined.

Lemma restart_succeeds_witness :
  exists k, CookingController.state_ k = Running /\ CookingController.program_ k = Some turbo /\
    CookingController.started_ms_ k = 30.
Proof.
  pose proof (restart_succeeds turbo idle McuClient.new_client (tick_with McuClient.new_client 10)
    (tick_with (answered MsgId.HeaterOff) 20) (tick_with (answered MsgId.MotorStop) 30)
    (frame_of Response 0 MsgId.HeaterOff []) (frame_of Response 0 MsgId.MotorStop [])) as R.
  destruct (CookingController.start_program (Some turbo) idle McuClient.new_client) as [[st k] c].
  destruct R as [_ (R1 & R2 & R3)]; try reflexivity; try (now left);
    try (split; [|split]; vm_compute; reflexivity).
  exists (run_ticks k [tick_with McuClient.new_client 10; tick_with (answered MsgId.HeaterOff) 20;
                       tick_with (answered MsgId.MotorStop) 30]).
  split; [exact R1|split; [exact R2|exact R3]].
Defined.

(** ** The device *)

Definition ran (o : outcome (SystemSim.SystemSim unit)) : bool := match o with Ret _ => true | _ => false end.
Definition device (n : nat) : SystemSim.SystemSim unit :=
  match SystemSim.step_ms n (SystemSim.new_system 42) with Ret s => s | _ => SystemSim.new_system 42 end.

Lemma device_ran n : ran (SystemSim.step_ms n (SystemSim.new_system 42)) = true ->
  SystemSim.step_ms n (SystemSim.new_system 42) = Ret (device n).
Proof. unfold device. destruct (SystemSim.step_ms n _); [reflexivity|discriminate|discriminate]. Qed.

Lemma device_stays_safe_witness :
  SystemSim.step_ms 2 (SystemSim.new_system 42) = Ret (device 2) /\ device_safe (device 2).
Proof.
  assert (R : SystemSim.step_ms 2 (SystemSim.new_system 42) = Ret (device 2))
    by (apply device_ran; vm_compute; reflexivity).
  split; [exact R|]. exact (device_stays_safe 2 42 (device 2) ltac:(discriminate) R).
Defined.

(** ** The simulator *)

Definition at_the_prompt : Commands.CommandEnv unit := Scripts.new_env (SystemSim.new_system 42) true.

Lemma commands_implement_the_language_witness :
  let env := at_the_prompt in
  Commands.execute_command env "set-temp 60" =
    Ret (true, env <| Commands.sys := (Commands.on_client (issue (SetHeater 600)) (Commands.sys env)).2 |>).
Proof.
  intros env. destruct (commands_implement_the_language env "set-temp 60" (new_device_ok 42)) as [C _].
  apply (C (Ask (SetHeater 600))).
  change (Commands.tokenize "set-temp 60") with ["set-temp"; "60"]. apply on_set_temp.
  exists (of_Z 60). split; [split; vm_compute; reflexivity|]. split_and!; try split; vm_compute; reflexivity.
Defined.

(** The heater is on when the lid is opened at the end of the scenario: the run is
    safe up to then, and the next millisecond would see the lid. *)
Definition scenario (path : string) : option string :=
  Some ("# boil" +:+ String newline ("set-temp 100" +:+ String newline ("wait 2ms" +:+ String newline "lid open"))).

Lemma no_input_makes_the_device_unsafe_witness :
  exists s0 s : SystemSim.SystemSim unit,
    SimMain.main shelf_file shelf scenario ["--script"; "boil.scn"] "" = Ret (0, Some s) /\ safe_run s0 s.
Proof.
  pose proof (no_input_makes_the_device_unsafe (N := unit) shelf_file shelf scenario ["--script"; "boil.scn"] "" 0) as C.
  assert (R : match SimMain.main (N := unit) shelf_file shelf scenario ["--script"; "boil.scn"] "" with
              | Ret (st, Some _) => st =? 0 | _ => false end = true) by (vm_compute; reflexivity).
  destruct (SimMain.main shelf_file shelf scenario ["--script"; "boil.scn"] "") as [[st [s|]]| |];
    try discriminate R. apply Z.eqb_eq in R. subst st. destruct (C s eq_refl) as (o & s0 & _ & _ & _ & S & _).
  exists s0, s. split; [reflexivity|exact S].
Defined.

Lemma bowl_is_never_overfilled_witness :
  exists s : SystemSim.SystemSim unit,
    SimMain.main shelf_file shelf scenario ["--script"; "boil.scn"] "" = Ret (0, Some s) /\
    fge (SimBoard.true_mass_g (SystemSim.board_ s)) fzero = true.
Proof.
  pose proof (bowl_is_never_overfilled (N := unit) shelf_file shelf scenario ["--script"; "boil.scn"] "" 0) as C.
  assert (R : match SimMain.main (N := unit) shelf_file shelf scenario ["--script"; "boil.scn"] "" with
              | Ret (st, Some _) => st =? 0 | _ => false end = true) by (vm_compute; reflexivity).
  destruct (SimMain.main shelf_file shelf scenario ["--script"; "boil.scn"] "") as [[st [s|]]| |];
    try discriminate R. apply Z.eqb_eq in R. subst st. exists s. split; [reflexivity|]. now apply C.
Defined.

(** ** The application process on a socket *)

(** A line to a safety processor, which is descriptor 3. *)
Definition socket_line : SocketLine Kernel :=
  {| transport := {| SocketTransport.listen_fd_ := -1; SocketTransport.conn_fd_ := 3 |};
     kernel := at_rest; sent := [] |}.

(** The other process writes to the socket. *)
Definition wires (bs : list Z) (l : SocketLine Kernel) : SocketLine Kernel :=
  {| transport := transport l; kernel := (kernel l) <| incoming := incoming (kernel l) ++ bs |>; sent := sent l |}.

Lemma quit_ends_within_a_second_witness :
  exists status, AppMain.run line_connected
    ([] ++ (wires [1; 2; 3], AppMain.Closed) :: replicate 1000 (wires [], AppMain.Nothing)) (AppMain.new_app socket_line) =
    Ret (inr status).
Proof.
  destruct (quit_ends_within_a_second line_connected socket_line [] (wires [1; 2; 3]) AppMain.Closed
    (replicate 1000 (wires [], AppMain.Nothing))) as (status & E & _).
  - reflexivity.
  - rewrite length_replicate. reflexivity.
  - rewrite length_app. cbn [length]. rewrite length_replicate. reflexivity.
  - exists status. exact E.
Defined.

(** The input ends; the two requests of the stop are answered. *)
Definition clean_exit : list ((SocketLine Kernel -> SocketLine Kernel) * AppMain.Input) :=
  [(wires [], AppMain.Closed); (wires [], AppMain.Nothing);
   (wires (frame_bytes Response 0 MsgId.HeaterOff []), AppMain.Nothing);
   (wires (frame_bytes Response 1 MsgId.MotorStop []), AppMain.Nothing)].

Definition exit_status {A} (r : outcome (A + Z)) : option Z := match r with Ret (inr status) => Some status | _ => None end.

Lemma exit_status_run {A} (r : outcome (A + Z)) status : exit_status r = Some status -> r = Ret (inr status).
Proof. destruct r as [[a|st]| |]; [discriminate|intros [= ->]; reflexivity|discriminate|discriminate]. Qed.

Lemma success_means_confirmed_off_witness :
  AppMain.run line_connected clean_exit (AppMain.new_app socket_line) = Ret (inr 0) /\
  exists before change input after a1, clean_exit = before ++ (change, input) :: after /\ AppMain.quits input = true /\
    both_confirmed (AppMain.responses line_connected after a1).
Proof.
  assert (R : exit_status (AppMain.run line_connected clean_exit (AppMain.new_app socket_line)) = Some 0)
    by (vm_compute; reflexivity).
  pose proof (exit_status_run _ _ R) as E. clear R.
  split; [exact E|].
  destruct (success_means_confirmed_off line_connected socket_line clean_exit ltac:(reflexivity) E)
    as (b & ch & inp & af & a1 & E1 & W & _ & C).
  exists b, ch, inp, af, a1. exact (conj E1 (conj W C)).
Defined.

(** ** The safety processor's process *)

Definition one_turn : list ((Kernel -> Kernel) * bool) := [(fun k => k, true)].

Lemma mcu_process_is_safe_witness :
  exists p p' : McuMain.Process unit Kernel, (McuMain.boot ["--water"; "500"] at_rest).1 = inl p /\
    McuMain.run one_turn p = Ret p' /\ bowl_mass_ok (SimBoard.true_mass_g (McuMain.board p')).
Proof.
  assert (R : match (McuMain.boot (N := unit) ["--water"; "500"] at_rest).1 with
              | inl p => match McuMain.run one_turn p with Ret _ => true | _ => false end
              | inr _ => false end = true) by (vm_compute; reflexivity).
  pose proof (mcu_process_is_safe (N := unit) ["--water"; "500"] at_rest) as C.
  destruct (McuMain.boot ["--water"; "500"] at_rest).1 as [p|st]; [|discriminate R].
  specialize (C p one_turn eq_refl ltac:(discriminate)). exists p.
  destruct (McuMain.run one_turn p) as [p'| |]; [|discriminate R|discriminate R]. exists p'.
  split; [reflexivity|]. split; [reflexivity|]. exact (proj2 (proj2 C)).
Defined.

(** ** The user interface *)

(** A socket to the simulator's controls that holds its answers. *)
#[export] Instance mailbox : ILocalSocket (list string) := {|
  socket_connected _ := true;
  socket_write text q := (Z.of_nat (String.length text), q);
  socket_flush q := q;
  next_line q := match q with [] => (None, []) | text :: q => (Some text, q) end;
  lines_left q := length q
|}.

#[export] Instance mailbox_laws : LocalSocketLaws (list string).
Proof. intros [|t q] text q' E; cbn in *; simplify_eq. cbn. lia. Defined.

Definition window : DeviceViewModel.DeviceViewModel (SocketLine Kernel) (list string) :=
  match DeviceViewModel.new_view_model line_connected (fun t => t) (fun _ => None) (fun _ => None) "recipes" socket_line [] with
  | Ret v => v
  | _ => {| DeviceViewModel.desk := {| clock := {| SimClock.now_us_ := 0 |}; line := socket_line |};
            DeviceViewModel.runtime_ := ApplicationRuntime.new_runtime; DeviceViewModel.control_ := [];
            DeviceViewModel.timer_ := true; DeviceViewModel.recipe_names_ := []; DeviceViewModel.simulator_status_ := "";
            DeviceViewModel.connected_ := false; DeviceViewModel.shutdown_requested_ := false;
            DeviceViewModel.ready_to_quit_ := false; DeviceViewModel.shutdown_deadline_ms_ := 0;
            DeviceViewModel.refresh_divider_ := 0 |}
  end.

(** An event with nothing arriving before it. *)
Definition then_event (e : DeviceViewModel.Event) :
  (SocketLine Kernel * list string -> SocketLine Kernel * list string) * DeviceViewModel.Event := (fun c => c, e).

Definition tap : list ((SocketLine Kernel * list string -> SocketLine Kernel * list string) * DeviceViewModel.Event) :=
  map then_event [DeviceViewModel.StartManual (of_Z64 60) 3 5; DeviceViewModel.TimerTimeout;
                  DeviceViewModel.SetLidOpen true; DeviceViewModel.ReadyRead].

Lemma tap_ok : Forall (fun e => event_ok e.2) tap.
Proof. repeat constructor. Qed.

Lemma view_model_stays_well_typed_witness :
  exists v0 v, DeviceViewModel.new_view_model line_connected (fun t => t) (fun _ => None) (fun _ => None) "recipes" socket_line [] = Ret v0 /\
    DeviceViewModel.run line_connected (fun t => t) (fun t => t) (fun _ => "500.0") tap v0 = Ret v /\
    runtime_ok (DeviceViewModel.runtime_ v).
Proof.
  destruct (view_model_stays_well_typed line_connected (fun t => t) (fun t => t) (fun _ => "500.0")
    (fun _ => None) (fun _ => None) "recipes" socket_line [] tap tap_ok) as (v0 & v & E0 & E & R & _).
  exists v0, v. exact (conj E0 (conj E R)).
Defined.

Lemma opened_window_ok : view_ok window.
Proof.
  destruct (new_view_ok line_connected (fun t => t) (fun _ => None) (fun _ => None) "recipes" socket_line ([] : list string))
    as (v & E & K & _).
  unfold window. now rewrite E.
Qed.

Lemma user_actions_within_limits_witness :
  exists v, DeviceViewModel.dispatch line_connected (fun t => t) (fun t => t) (fun _ => "500.0")
    (DeviceViewModel.StartManual (of_Z64 60) 3 5) window = Ret v /\ view_effect window v.
Proof.
  exact (user_actions_within_limits line_connected (fun t => t) (fun t => t) (fun _ => "500.0")
    (DeviceViewModel.StartManual (of_Z64 60) 3 5) window opened_window_ok eq_refl).
Defined.

#[local] Abbreviation run_window := (DeviceViewModel.run line_connected (fun t => t) (fun t => t) (fun _ => "500.0")).

(** The window, 4294967 seconds after it was opened, with a program running. *)
Definition cooking_window : DeviceViewModel.DeviceViewModel (SocketLine Kernel) (list string) :=
  let k := DeviceViewModel.controller window in
  window <| DeviceViewModel.desk := (DeviceViewModel.desk window) <| clock := {| SimClock.now_us_ := 4294967000000 |} |> |>
         <| DeviceViewModel.runtime_ := (DeviceViewModel.runtime_ window) <| ApplicationRuntime.controller_ :=
              k <| CookingController.state_ := Running |> <| CookingController.program_ := Some turbo |> |> |>.

(** Closing near the wrap of the millisecond clock does not wait: the deadline
    wraps to the past, and the interface is ready to quit after the first tick,
    with the session still stopping. *)
Example closing_near_the_wrap :
  match run_window (map then_event [DeviceViewModel.RequestShutdown; DeviceViewModel.TimerTimeout]) cooking_window with
  | Ret v => DeviceViewModel.ready_to_quit_ v &&
             bool_decide (CookingController.state_ (DeviceViewModel.controller v) = Stopping) &&
             negb (CookingController.shutdown_heater_sent_ (DeviceViewModel.controller v))
  | _ => false
  end = true.
Proof. vm_compute. reflexivity. Qed.

(** A second earlier it waits. *)
Example closing_before_the_wrap :
  match run_window (map then_event [DeviceViewModel.RequestShutdown; DeviceViewModel.TimerTimeout])
    (cooking_window <| DeviceViewModel.desk :=
       (DeviceViewModel.desk cooking_window) <| clock := {| SimClock.now_us_ := 4294966000000 |} |> |>) with
  | Ret v => DeviceViewModel.ready_to_quit_ v
  | _ => true
  end = false.
Proof. vm_compute. reflexivity. Qed.

Definition patience : list ((SocketLine Kernel * list string -> SocketLine Kernel * list string) * DeviceViewModel.Event) :=
  replicate 1000 (then_event DeviceViewModel.TimerTimeout).

Lemma patience_ok : Forall (fun e => event_ok e.2) patience.
Proof. apply Forall_replicate. exact I. Qed.

Lemma closing_waits_at_most_a_second_witness :
  exists v, run_window (then_event DeviceViewModel.RequestShutdown :: patience) window = Ret v /\
    DeviceViewModel.ready_to_quit_ v = true.
Proof.
  destruct (closing_waits_at_most_a_second line_connected (fun t => t) (fun t => t) (fun _ => "500.0")
    (fun c => c) patience window opened_window_ok eq_refl eq_refl ltac:(split; [discriminate|reflexivity]) patience_ok) as (v & E & R & _).
  exists v. split; [exact E|]. apply R. vm_compute. discriminate.
Defined.
