(* ===== verification/LockstepBench.v ===== *)
(** * The device in lockstep, on the bench

    The theorems about the whole device applied to a history in which the user
    heats by hand and then stops. *)

From S2P Require Import Prelude.
From S2P Require Import Float32.
From S2P Require Import Common.
From S2P Require Import C1Link.
From S2P Require Import Mcu.
From S2P Require Import SafetyMcu.
From S2P Require Import Sim.
From S2P Require Import Bench.
From S2P Require Import McuClient.
From S2P Require Import CString.
From S2P Require Import Recipe.
From S2P Require Import RecipeParser.
From S2P Require Import Programs.
From S2P Require Import Cooking.
From S2P Require Import System.
From S2P Require Import Cli.
From S2P Require Import Lockstep.

Definition Device : Type := SystemSim.SystemSim unit.

(** The device, [ms] later. *)
Definition runs (ms : nat) (s : Device) : bool := match SystemSim.step_ms ms s with Ret _ => true | _ => false end.
Definition after (ms : nat) (s : Device) : Device := match SystemSim.step_ms ms s with Ret s' => s' | _ => s end.

Lemma after_step ms s : runs ms s = true -> SystemSim.step_ms ms s = Ret (after ms s).
Proof. unfold runs, after. now destruct (SystemSim.step_ms ms s). Qed.

Lemma after_evolves ms s : runs ms s = true -> evolves ms s (after ms s).
Proof. intros R. now apply evolves_steps, after_step. Qed.

Definition switched_on : Device := SystemSim.new_system 42.

Lemma switched_on_powered : powered switched_on.
Proof. exists 42, RecipeLibrary.new_library. split; [apply new_library_ok|reflexivity]. Qed.

(** The heater is set by hand, 20 ms go by. *)
Definition heating : Device := after 20 (Commands.on_client (issue (SetHeater 600)) switched_on).2.

Lemma heating_evolves : evolves 20 switched_on heating.
Proof.
  apply ev_act with (Commands.on_client (issue (SetHeater 600)) switched_on).2.
  - apply requests. split; discriminate.
  - apply after_evolves. vm_compute. reflexivity.
Qed.

(** It heats, so that there is something to stop. *)
Example heating_heats : HeaterPid.enabled_ (SafetyMcu.pid_ (SystemSim.mcu_ heating)) = true.
Proof. vm_compute. reflexivity. Qed.

(** ** Witnesses *)

#[local] Abbreviation stopped_device := (press_stop heating).

Lemma stop_evolves n (s0 s : Device) : evolves n s0 s -> evolves n s0 (press_stop s).
Proof.
  intros E. rewrite <- (Nat.add_0_r n). apply evolves_trans with s; [exact E|].
  apply ev_act with (press_stop s); [apply stops|constructor].
Qed.

Lemma stopped_evolves : evolves 20 switched_on stopped_device.
Proof. exact (stop_evolves 20 switched_on heating heating_evolves). Qed.

Lemma stopped_runs : evolves 50 stopped_device (after 50 stopped_device).
Proof. apply after_evolves. vm_compute. reflexivity. Qed.

Lemma requests_are_answered_at_once_witness :
  powered switched_on /\ evolves 20 switched_on heating /\
  (McuClient.last_command_status_ (client heating) = Ok \/ McuClient.last_command_status_ (client heating) = ProtocolError).
Proof.
  split; [exact switched_on_powered|]. split; [exact heating_evolves|].
  destruct (requests_are_answered_at_once 20 switched_on heating switched_on_powered heating_evolves) as [S _];
    [discriminate|exact S].
Defined.

Lemma app_watchdog_never_trips_witness :
  evolves 20 switched_on heating /\ Watchdog.armed_ (SimBoard.watchdog_ (SystemSim.board_ heating)) = true /\
  Watchdog.tripped_ (SimBoard.watchdog_ (SystemSim.board_ heating)) = false.
Proof.
  split; [exact heating_evolves|].
  destruct (app_watchdog_never_trips 20 switched_on heating switched_on_powered heating_evolves) as [T A]; [discriminate|].
  split; [apply A; lia|exact T].
Defined.

(** The session is done in the 30th millisecond after the stop. *)
Lemma session_rests_with_outputs_off_witness :
  CookingController.state_ (session (after 30 stopped_device)) = Done /\ outputs_off (after 30 stopped_device).
Proof.
  assert (D : CookingController.state_ (session (after 30 stopped_device)) = Done) by (vm_compute; reflexivity).
  split; [exact D|].
  apply (session_rests_with_outputs_off (20 + 29) switched_on (after 29 stopped_device) (after 30 stopped_device)
    switched_on_powered).
  - apply evolves_trans with stopped_device; [exact stopped_evolves|]. apply after_evolves. vm_compute. reflexivity.
  - reflexivity.
  - right. vm_compute. reflexivity.
  - left. split; [left; exact D|]. intros [E|[E _]]; vm_compute in E; discriminate E.
Defined.

Lemma stop_comes_to_rest_witness :
  exists m s2, (m <= 50)%nat /\ evolves m stopped_device s2 /\ over (session s2) /\ outputs_off s2.
Proof.
  destruct (stop_comes_to_rest 20 switched_on heating (after 50 stopped_device) switched_on_powered heating_evolves)
    as (m & s2 & L & E & _ & O & F).
  - discriminate.
  - intros E. vm_compute in E. discriminate E.
  - exact stopped_runs.
  - exists m, s2. split; [exact L|]. split; [exact E|]. split; [exact O|exact F].
Defined.

Lemma every_shutdown_ends_witness :
  exists m s2, (m <= 50)%nat /\ evolves m stopped_device s2 /\ outputs_off s2.
Proof.
  destruct (every_shutdown_ends 20 switched_on stopped_device (after 50 stopped_device) switched_on_powered stopped_evolves)
    as (m & s2 & L & E & _ & O & _).
  - discriminate.
  - left. vm_compute. reflexivity.
  - intros [E|[E _]]; vm_compute in E; discriminate E.
  - exact stopped_runs.
  - exists m, s2. split; [exact L|]. split; [exact E|exact O].
Defined.

(** A motor that stalls: a spoonful of something very stiff, then full speed. *)
#[local] Abbreviation loaded := (Commands.on_board (load_of (of_Z 1) (of_Z 1000000)) switched_on).
#[local] Abbreviation stirring := (Commands.on_client (issue (SetMotor 6400 kRampFast)) loaded).2.
Definition stalled_device : Device := after 12 stirring.

Lemma stalled_evolves : evolves 12 switched_on stalled_device.
Proof.
  apply ev_act with loaded.
  - apply adds; vm_compute; reflexivity.
  - apply ev_act with stirring.
    + apply requests. repeat split; discriminate.
    + apply after_evolves. vm_compute. reflexivity.
Qed.

Lemma stalled_runs : evolves 10 stalled_device (after 10 stalled_device).
Proof. apply after_evolves. vm_compute. reflexivity. Qed.

Lemma faults_reach_the_session_witness :
  SafetyMcu.fault_ (SystemSim.mcu_ stalled_device) = FaultCode.MotorStall /\
  exists m s2, (m <= 10)%nat /\ evolves m stalled_device s2 /\ CookingController.state_ (session s2) = Faulted.
Proof.
  assert (F : SafetyMcu.fault_ (SystemSim.mcu_ stalled_device) = FaultCode.MotorStall) by (vm_compute; reflexivity).
  split; [exact F|].
  destruct (faults_reach_the_session 12 switched_on stalled_device (after 10 stalled_device) switched_on_powered stalled_evolves)
    as [_ R].
  - discriminate.
  - rewrite F. discriminate.
  - destruct (R stalled_runs) as (m & s2 & L & E & _ & S). exists m, s2. split; [exact L|]. split; [exact E|exact S].
Defined.

(** ** A scenario of the repository (data/scenarios/checks/program_state.scn) *)

Definition program_state : string :=
  fold_right (fun line rest => line +:+ String newline rest) ""
    ["expect program == none"; "manual 80 2 60"; "wait 100ms"; "expect program == manual"].

Example program_state_passes :
  match Scripts.run_script switched_on (Some program_state) true with Ret (st, _) => Some st | _ => None end = Some Ok.
Proof. vm_compute. reflexivity. Qed.
